(** * opencode-virtual-provider: the routing and state engine

    A shallow embedding of the TypeScript sources of the plugin
    (duration parsing, profile merge, router state, target selection,
    retry with backoff, model resolution, configuration loading and the
    session fallback hooks), with the properties of its specification;
    then the rest of the plugin (the catalog of the virtual provider,
    the config hook and the fetch pipeline of the auth hook) and further
    properties of the code.

    Conventions of the embedding.
    - A JavaScript [number] that holds a duration, an instant, a weight or
      a random draw is a rational ([Q]): the arithmetic of the router is
      exact.  [Binary64] has the rounding of IEEE doubles, and
      [parseDuration] with it.  Counters and indices are [nat], HTTP
      status codes are [Z].
    - A JavaScript [Map] keyed by strings is a [gmap string _] where only
      lookups matter, and an association list where iteration order does.
    - A JavaScript array of targets is a reference into a store of arrays
      (see [Runtime]): copying allocates, sorting updates in place.
    - [undefined] / [null] is [None], except where the code tells the two
      apart (the weight of a target) or reads a property of what may be
      [null] (the parsed documents of [Unchecked], the body of a
      request).  A function that can [throw] returns a [Result]; a
      function that can only fail with a [TypeError] of the host returns
      an [option]; the functions that work on objects of the host return
      a [Host.Completion].
    - The reading of [Date.now()] is the argument [now] of the functions
      that look at the clock; [Math.random()] draws from a tape held by
      the runtime. *)

From Stdlib Require Import QArith Qminmax Qpower Qround Qabs Lqa ZArith Ascii String List
  Permutation.
From stdpp Require Import base option list gmap strings fin_maps.

Local Open Scope string_scope.
Local Open Scope list_scope.

(** ** Results of functions that may throw *)

Inductive Error : Type :=
| InvalidDuration (duration : string)   (* Error(`Invalid duration: "${duration}"`) *)
| UnknownUnit (unit : string).          (* Error(`Unknown unit: ${unit}`) *)

Inductive Result (A : Type) : Type :=
| Ok (a : A)
| Throw (e : Error).
Arguments Ok {A} a.
Arguments Throw {A} e.

(** ** src/util/duration.ts *)

Module Duration.

(** *** A backtracking matcher for the fragment of regular expressions
    that the duration pattern uses.  Greedy quantifiers try the longest
    match first; a capture group records the text it consumed. *)

Inductive regex : Type :=
| Chr (c : ascii)                 (* a literal character *)
| Digit                           (* \d *)
| Seq (r1 r2 : regex)             (* r1 r2 *)
| Alt (r1 r2 : regex)             (* r1|r2 *)
| Opt (r : regex)                 (* (?:r)? *)
| Plus (r : regex)                (* r+, for a one-character r *)
| Group (r : regex).              (* (r) *)

Definition isDigit (c : ascii) : bool :=
  (48 <=? nat_of_ascii c)%nat && (nat_of_ascii c <=? 57)%nat.

(** One character accepted by a one-character expression. *)
Fixpoint accepts1 (r : regex) (c : ascii) : bool :=
  match r with
  | Chr c' => if ascii_dec c c' then true else false
  | Digit => isDigit c
  | Alt r1 r2 => accepts1 r1 c || accepts1 r2 c
  | Group r => accepts1 r c
  | _ => false
  end.

Section Matcher.
Context {R : Type}.

(** [r+] on [s]: consume one more character while possible, and give
    the rest to the continuation; on failure give back one character
    at a time. *)
Fixpoint plus_k (r : regex) (s : list ascii) (k : list ascii -> option R) : option R :=
  match s with
  | c :: s' =>
      if accepts1 r c then
        match plus_k r s' k with
        | Some x => Some x
        | None => k s'
        end
      else None
  | [] => None
  end.

Fixpoint rmatch (r : regex) (s : list ascii) (caps : list string)
         (k : list ascii -> list string -> option R) : option R :=
  match r with
  | Chr c =>
      match s with
      | c' :: s' => if ascii_dec c' c then k s' caps else None
      | [] => None
      end
  | Digit =>
      match s with
      | c' :: s' => if isDigit c' then k s' caps else None
      | [] => None
      end
  | Seq r1 r2 => rmatch r1 s caps (fun s1 caps1 => rmatch r2 s1 caps1 k)
  | Alt r1 r2 =>
      match rmatch r1 s caps k with
      | Some x => Some x
      | None => rmatch r2 s caps k
      end
  | Opt r1 =>
      match rmatch r1 s caps k with
      | Some x => Some x
      | None => k s caps
      end
  | Plus r1 => plus_k r1 s (fun s' => k s' caps)
  | Group r1 =>
      rmatch r1 s caps
        (fun s' caps' =>
           k s' (caps' ++ [string_of_list_ascii (take (length s - length s') s)]))
  end.
End Matcher.

(** [str.match(/^r$/)]: the captures of the groups, in order, or [None]. *)
Definition match_anchored (r : regex) (str : string) : option (list string) :=
  rmatch r (list_ascii_of_string str) []
    (fun rest caps => match rest with [] => Some caps | _ => None end).

Fixpoint lit (s : string) : regex :=
  match s with
  | EmptyString => Opt (Chr "000")   (* never used: literals are non-empty *)
  | String c EmptyString => Chr c
  | String c s' => Seq (Chr c) (lit s')
  end.

(** /^(\d+(?:\.\d+)?)(ms|s|m|h)$/ *)
Definition duration_re : regex :=
  Seq (Group (Seq (Plus Digit) (Opt (Seq (Chr ".") (Plus Digit)))))
      (Group (Alt (lit "ms") (Alt (lit "s") (Alt (lit "m") (lit "h"))))).

(** *** parseFloat, on decimal literals without sign or exponent (the
    only texts the first group can hold): the longest prefix
    [digits] or [digits.digits] is the number.  A text with no leading
    digit is NaN in JavaScript; the pattern excludes it, and it is 0
    here. *)

Definition digit_val (c : ascii) : N := N.of_nat (nat_of_ascii c - 48).

Definition digits_val (ds : list ascii) : N :=
  fold_left (fun acc c => (10 * acc + digit_val c)%N) ds 0%N.

Fixpoint span_digits (s : list ascii) : list ascii * list ascii :=
  match s with
  | c :: s' =>
      if isDigit c then let (ds, rest) := span_digits s' in (c :: ds, rest)
      else ([], s)
  | [] => ([], [])
  end.

Definition integer (ip : list ascii) : Q := inject_Z (Z.of_N (digits_val ip)).

(** The value of [ip.fp]: ip + fp / 10^|fp|. *)
Definition decimal (ip fp : list ascii) : Q :=
  (integer ip + Qmake (Z.of_N (digits_val fp)) (Pos.pow 10 (Pos.of_nat (length fp))))%Q.

Definition parseFloat (s : string) : Q :=
  let (ip, rest) := span_digits (list_ascii_of_string s) in
  match rest with
  | "."%char :: rest' =>
      let (fp, _) := span_digits rest' in
      match fp with
      | [] => integer ip
      | _ => decimal ip fp
      end
  | _ => integer ip
  end.

Definition parseDuration (duration : string) : Result Q :=
  match match_anchored duration_re duration with
  | Some [m1; m2] =>
      let value := parseFloat m1 in
      let unit := m2 in
      if String.eqb unit "ms" then Ok value
      else if String.eqb unit "s" then Ok (value * 1000)%Q
      else if String.eqb unit "m" then Ok (value * 60 * 1000)%Q
      else if String.eqb unit "h" then Ok (value * 60 * 60 * 1000)%Q
      else Throw (UnknownUnit unit)
  | _ => Throw (InvalidDuration duration)
  end.

End Duration.

(** ** src/util/duration.ts with the numbers of the host

    A JavaScript [number] is an IEEE 754 binary64.  [Duration] above,
    like the router, computes with the exact rationals; [Binary64] has
    the arithmetic of the host on the numbers that [parseDuration]
    meets, which are not negative, and [parseDuration] over it. *)

Module Binary64.

Inductive t : Type :=
| Finite (q : Q)        (* a double, as the rational it stands for *)
| Infinity.

(** The exponent [e] with 2^e <= q < 2^(e+1), for a positive [q]. *)
Definition exponent (q : Q) : Z :=
  let l := (Z.log2 (Qnum q) - Z.log2 (Zpos (Qden q)))%Z in
  if Qle_bool (2 ^ l) q then l else (l - 1)%Z.

(** The double nearest to a rational that is not negative, ties to the
    even significand: the significand has 53 bits, the least exponent of
    its last bit is -1074, and what rounds to 2^1024 or more is
    [Infinity]. *)
Definition round (q : Q) : t :=
  let q := Qred q in
  if Qle_bool q 0 then Finite 0
  else
    let u := Z.max (exponent q - 52) (-1074) in
    let scaled := (q / 2 ^ u)%Q in
    let m := Qfloor scaled in
    let m' := match (scaled - inject_Z m ?= 1 # 2)%Q with
              | Lt => m
              | Gt => (m + 1)%Z
              | Eq => if Z.even m then m else (m + 1)%Z
              end in
    let v := Qred (inject_Z m' * 2 ^ u) in
    if Qle_bool (2 ^ 1024) v then Infinity else Finite v.

(** [a * c] for a literal [c] (1000 and 60 here: positive doubles). *)
Definition mul (a : t) (c : Q) : t :=
  match a with
  | Finite x => round (x * c)
  | Infinity => Infinity
  end.

(** [parseFloat] on the text of the first group: the double nearest to
    the number that the decimal literal denotes.  (The standard requires
    this of a literal of up to 20 significant digits and lets an engine
    cut a longer one there; the engines in use round every literal
    correctly.) *)
Definition parseFloat (s : string) : t := round (Duration.parseFloat s).

Definition parseDuration (duration : string) : Result t :=
  match Duration.match_anchored Duration.duration_re duration with
  | Some [m1; m2] =>
      let value := parseFloat m1 in
      let unit := m2 in
      if String.eqb unit "ms" then Ok value
      else if String.eqb unit "s" then Ok (mul value 1000)
      else if String.eqb unit "m" then Ok (mul (mul value 60) 1000)
      else if String.eqb unit "h" then Ok (mul (mul (mul value 60) 60) 1000)
      else Throw (UnknownUnit unit)
  | _ => Throw (InvalidDuration duration)
  end.

End Binary64.

(** ** src/config/schema.ts *)

(** A reference to a JavaScript array of targets in the array store of
    the [Runtime] (arrays are shared by reference and updated in place). *)
Definition loc : Type := nat.

Module TargetModel.
Record t : Type := {
  model : string;        (* e.g. "anthropic/claude-sonnet-4" *)
  provider : string;     (* e.g. "anthropic" *)
  weight : option Q      (* for the weighted strategy *)
}.
End TargetModel.

Inductive Strategy : Type :=
| sequential | round_robin | random | weighted | priority
| unlisted (name : string).   (* any other value of the JSON field: the switch's default *)

(** An element of a [fallback_on] array: a status code or the sentinel. *)
Inductive FallbackItem : Type :=
| status_code (n : Z)
| any_error.

Definition FallbackOn : Type := list FallbackItem.

Inductive OnFail : Type := throw | continue_with_next.

Inductive BackoffType : Type := exponential | linear | fixed.

Module Backoff.
Record t : Type := {
  type : BackoffType;
  initial : string;
  multiplier : option Q;
  max : option string
}.
End Backoff.

Module VirtualModelConfig.
Record t : Type := {
  strategy : Strategy;
  strategy_profile : option string;
  fallback_on : option FallbackOn;
  cooldown : option string;
  targets : loc
}.
End VirtualModelConfig.

(** The fields are optional where the code guards them with [??]: the
    document is JSON and is cast to the interface, not checked. *)
Module StrategyProfile.
Record t : Type := {
  max_retries : option nat;
  timeout : option string;
  backoff : option Backoff.t;
  fallback_on : option FallbackOn;
  on_fail : option OnFail;
  cooldown : option string
}.
End StrategyProfile.

Module ResolvedModelConfig.
Record t : Type := {
  fallback_on : FallbackOn;
  cooldown : option string;
  max_retries : nat;
  backoff : option Backoff.t;
  on_fail : OnFail
}.
End ResolvedModelConfig.

(** The object type [{ providerID: string; modelID: string }] of a
    resolved target. *)
Module ModelRef.
Record t : Type := { providerID : string; modelID : string }.
End ModelRef.

(** [a ?? b] *)
Definition nullish {A : Type} (a : option A) (b : A) : A :=
  match a with Some x => x | None => b end.

(** [a ?? b] where [b] may itself be undefined *)
Definition nullish_opt {A : Type} (a b : option A) : option A :=
  match a with Some x => Some x | None => b end.

(** [p?.f] for an optional field [f] *)
Definition opt_chain {A B : Type} (p : option A) (f : A -> option B) : option B :=
  match p with Some x => f x | None => None end.

(** ** src/config/strategies.ts *)

Module ConfigStrategies.

Definition resolveProfile (model : VirtualModelConfig.t)
           (profiles : gmap string StrategyProfile.t) : option StrategyProfile.t :=
  match VirtualModelConfig.strategy_profile model with
  | None => None
  | Some name =>
      if String.eqb name "" then None   (* !model.strategy_profile *)
      else profiles !! name
  end.

Definition default_fallback_on : FallbackOn :=
  [status_code 429; status_code 500; status_code 503].

Definition mergeWithProfile (modelConfig : VirtualModelConfig.t)
           (profile : option StrategyProfile.t) : ResolvedModelConfig.t :=
  let fallbackFromProfile := opt_chain profile StrategyProfile.fallback_on in
  let fallbackOn :=
    nullish (nullish_opt (VirtualModelConfig.fallback_on modelConfig) fallbackFromProfile)
            default_fallback_on in
  {| ResolvedModelConfig.fallback_on := fallbackOn;
     ResolvedModelConfig.cooldown :=
       nullish_opt (VirtualModelConfig.cooldown modelConfig)
                   (opt_chain profile StrategyProfile.cooldown);
     ResolvedModelConfig.max_retries :=
       nullish (opt_chain profile StrategyProfile.max_retries) 0;
     ResolvedModelConfig.backoff := opt_chain profile StrategyProfile.backoff;
     ResolvedModelConfig.on_fail :=
       nullish (opt_chain profile StrategyProfile.on_fail) continue_with_next |}.

End ConfigStrategies.

(** ** src/router/state.ts *)

(** [a < b] on numbers *)
Definition Qltb (a b : Q) : bool := negb (Qle_bool b a).

Module State.

Record ModelMetrics : Type := {
  requests : nat;
  successes : nat;
  failures : nat;
  fallbacks : nat;          (* how many times this model triggered a fallback *)
  totalLatencyMs : Q
}.

Record RouterState : Type := {
  cooldowns : gmap string Q;            (* model key -> instant the cooldown expires *)
  roundRobinIndex : gmap string nat;    (* virtual model id -> round-robin index *)
  metrics : gmap string ModelMetrics    (* model key -> accumulated metrics *)
}.

Definition createRouterState : RouterState :=
  {| cooldowns := ∅; roundRobinIndex := ∅; metrics := ∅ |}.

Definition set_cooldowns (c : gmap string Q) (state : RouterState) : RouterState :=
  {| cooldowns := c; roundRobinIndex := roundRobinIndex state; metrics := metrics state |}.

Definition set_roundRobinIndex (r : gmap string nat) (state : RouterState) : RouterState :=
  {| cooldowns := cooldowns state; roundRobinIndex := r; metrics := metrics state |}.

Definition set_metrics (m : gmap string ModelMetrics) (state : RouterState) : RouterState :=
  {| cooldowns := cooldowns state; roundRobinIndex := roundRobinIndex state; metrics := m |}.

(** [now] is what [Date.now()] returns during the call. *)
Definition isInCooldown (now : Q) (modelKey : string) (state : RouterState)
  : bool * RouterState :=
  match cooldowns state !! modelKey with
  | None => (false, state)
  | Some expiry =>
      if Qeq_bool expiry 0 then (false, state)       (* !expiry: 0 is falsy *)
      else if Qle_bool expiry now then
        (false, set_cooldowns (delete modelKey (cooldowns state)) state)
      else (true, state)
  end.

Definition setCooldown (now : Q) (modelKey : string) (duration : option string)
           (state : RouterState) : Result RouterState :=
  match duration with
  | None => Ok state
  | Some d =>
      if String.eqb d "" then Ok state               (* !duration: "" is falsy *)
      else
        match Duration.parseDuration d with
        | Throw e => Throw e
        | Ok ms => Ok (set_cooldowns (<[modelKey := (now + ms)%Q]> (cooldowns state)) state)
        end
  end.

(** *** Metrics helpers.  The map holds the metrics object itself, so an
    increment of a field is an update of the map's entry. *)

Definition new_metrics : ModelMetrics :=
  {| requests := 0; successes := 0; failures := 0; fallbacks := 0; totalLatencyMs := 0 |}.

Definition getOrCreateMetrics (modelKey : string) (state : RouterState)
  : ModelMetrics * RouterState :=
  match metrics state !! modelKey with
  | Some m => (m, state)
  | None => (new_metrics, set_metrics (<[modelKey := new_metrics]> (metrics state)) state)
  end.

Definition recordSuccess (modelKey : string) (latencyMs : Q) (state : RouterState)
  : RouterState :=
  let (m, state) := getOrCreateMetrics modelKey state in
  let m := {| requests := S (requests m); successes := S (successes m);
              failures := failures m; fallbacks := fallbacks m;
              totalLatencyMs := (totalLatencyMs m + latencyMs)%Q |} in
  set_metrics (<[modelKey := m]> (metrics state)) state.

Definition recordFailure (modelKey : string) (state : RouterState) : RouterState :=
  let (m, state) := getOrCreateMetrics modelKey state in
  let m := {| requests := S (requests m); successes := successes m;
              failures := S (failures m); fallbacks := fallbacks m;
              totalLatencyMs := totalLatencyMs m |} in
  set_metrics (<[modelKey := m]> (metrics state)) state.

Definition recordFallback (modelKey : string) (state : RouterState) : RouterState :=
  let (m, state) := getOrCreateMetrics modelKey state in
  let m := {| requests := requests m; successes := successes m;
              failures := failures m; fallbacks := S (fallbacks m);
              totalLatencyMs := totalLatencyMs m |} in
  set_metrics (<[modelKey := m]> (metrics state)) state.

End State.

(** ** The JavaScript runtime the router runs on

    The store of target arrays (an array is a reference: [loc] is an index
    into [arrays]) and the source of [Math.random()] draws: the tape
    [rand] of the values it returns, each in [0, 1), and the number
    [drawn] of draws so far. *)

Module Runtime.

Record t : Type := {
  arrays : list (list TargetModel.t);
  rand : nat -> Q;
  drawn : nat
}.

Definition set_arrays (a : list (list TargetModel.t)) (rt : t) : t :=
  {| arrays := a; rand := rand rt; drawn := drawn rt |}.

(** The elements of the array at [l] (a dangling reference, which
    JavaScript cannot build, reads as the empty array). *)
Definition read (l : loc) (rt : t) : list TargetModel.t :=
  default [] (arrays rt !! l).

(** A new array: [[...xs]], [xs.slice()], [xs.map(f)], an array literal. *)
Definition alloc (xs : list TargetModel.t) (rt : t) : loc * t :=
  (length (arrays rt), set_arrays (arrays rt ++ [xs]) rt).

(** An update of the array at [l] in place. *)
Definition write (l : loc) (xs : list TargetModel.t) (rt : t) : t :=
  set_arrays (<[l := xs]> (arrays rt)) rt.

Definition Math_random (rt : t) : Q * t :=
  (rand rt (drawn rt),
   {| arrays := arrays rt; rand := rand rt; drawn := S (drawn rt) |}).

(** *** Array.prototype.sort

    The order in which the host calls the comparator is implementation
    defined; it is modelled as a stable insertion sort.  The comparator
    may draw from [Math.random()], so it threads the runtime.
    [comparefn a b > 0] puts [a] after [b]. *)
Section Sort.
Context {A : Type}.
Variable comparefn : A -> A -> t -> Q * t.

Fixpoint insert (x : A) (sorted : list A) (rt : t) : list A * t :=
  match sorted with
  | [] => ([x], rt)
  | y :: ys =>
      let (v, rt1) := comparefn x y rt in
      if Qltb 0 v then
        let (r, rt2) := insert x ys rt1 in (y :: r, rt2)
      else (x :: y :: ys, rt1)
  end.

Fixpoint sort (xs : list A) (rt : t) : list A * t :=
  match xs with
  | [] => ([], rt)
  | x :: xs' =>
      let (sorted, rt1) := sort xs' rt in
      insert x sorted rt1
  end.
End Sort.

(** [array.sort(comparefn)] on a target array: sorts in place and
    returns the same reference. *)
Definition sort_in_place (comparefn : TargetModel.t -> TargetModel.t -> t -> Q * t)
           (l : loc) (rt : t) : loc * t :=
  let (sorted, rt1) := sort comparefn (read l rt) rt in
  (l, write l sorted rt1).

End Runtime.

(** ** src/router/strategies.ts *)

Module Strategies.
Import State.

(** The pairs [{ target, score }] of [weightedSort]: a temporary array
    that never escapes, kept as a value. *)
Record Scored : Type := { target : TargetModel.t; score : Q }.

Fixpoint score_all (totalWeight : Q) (targets : list TargetModel.t) (rt : Runtime.t)
  : list Scored * Runtime.t :=
  match targets with
  | [] => ([], rt)
  | t :: ts =>
      let (r, rt1) := Runtime.Math_random rt in
      let s := {| target := t;
                  score := (r * (nullish (TargetModel.weight t) 1 / totalWeight))%Q |} in
      let (rest, rt2) := score_all totalWeight ts rt1 in
      (s :: rest, rt2)
  end.

(** Weighted random: a score proportional to the weight, then a sort by
    the random draw.  (A total weight of 0 divides by zero: Infinity or
    NaN in JavaScript, 0 here.) *)
Definition weightedSort (targets : loc) (rt : Runtime.t) : loc * Runtime.t :=
  let ts := Runtime.read targets rt in
  let totalWeight :=
    fold_left (fun sum t => (sum + nullish (TargetModel.weight t) 1)%Q) ts 0%Q in
  let (scored, rt1) := score_all totalWeight ts rt in
  let (sorted, rt2) :=
    Runtime.sort (fun a b rt => ((score b - score a)%Q, rt)) scored rt1 in
  Runtime.alloc (map target sorted) rt2.

(** [[...config.targets]] *)
Definition copy (l : loc) (rt : Runtime.t) : loc * Runtime.t :=
  Runtime.alloc (Runtime.read l rt) rt.

(** [xs.slice(start)] and [xs.slice(0, end)] for indices that are
    non-negative integers. *)
Definition slice_from (start : nat) (xs : list TargetModel.t) := drop start xs.
Definition slice_to (end_ : nat) (xs : list TargetModel.t) := take end_ xs.

(** [(idx + 1) % length] is NaN for an empty list; [Nat.modulo] gives
    [idx + 1] there.  A loaded model never has an empty list. *)
Definition selectTargets (virtualModelId : string) (config : VirtualModelConfig.t)
           (state : RouterState) (rt : Runtime.t) : loc * RouterState * Runtime.t :=
  let targets := VirtualModelConfig.targets config in
  match VirtualModelConfig.strategy config with
  | sequential
  | priority =>
      let (r, rt1) := copy targets rt in (r, state, rt1)
  | round_robin =>
      let idx := nullish (roundRobinIndex state !! virtualModelId) 0 in
      let ts := Runtime.read targets rt in
      let (rotated, rt1) := Runtime.alloc (slice_from idx ts ++ slice_to idx ts) rt in
      (* Advance the index for next call *)
      let state1 :=
        set_roundRobinIndex
          (<[virtualModelId := (idx + 1) mod length ts]> (roundRobinIndex state)) state in
      (rotated, state1, rt1)
  | random =>
      let (c, rt1) := copy targets rt in
      let (r, rt2) :=
        Runtime.sort_in_place
          (fun _ _ rt => let (x, rt') := Runtime.Math_random rt in ((x - 0.5)%Q, rt'))
          c rt1 in
      (r, state, rt2)
  | weighted =>
      let (c, rt1) := copy targets rt in
      let (r, rt2) := weightedSort c rt1 in
      (r, state, rt2)
  | unlisted _ =>
      let (r, rt1) := copy targets rt in (r, state, rt1)
  end.

(** *** Retry with backoff *)

Record Response : Type := { status : Z; body : string }.

(** What one call of the attempt function does: the promise resolves
    with a response, or rejects with an error. *)
Inductive Outcome : Type :=
| Resolved (response : Response)
| Rejected (error : string).

Record BackoffResult : Type := {
  response : option Response;
  lastStatus : option Z;
  lastError : option string
}.

(** What the executor did, in order: the calls of the attempt function
    and the sleeps. *)
Inductive Event : Type :=
| Called (o : Outcome)
| Slept (ms : Q).

Definition shouldFallbackStatus (status : Z) (fallbackOn : FallbackOn) : bool :=
  match fallbackOn with
  | [any_error] => (400 <=? status)%Z
  | _ => existsb (fun x => match x with
                           | status_code n => (n =? status)%Z
                           | any_error => false
                           end) fallbackOn
  end.

Section ExecuteWithBackoff.
(** The state of whatever the attempt function acts on. *)
Context {W : Type}.
Variable fn : W -> Outcome * W.
Variable maxRetries : nat.
Variable multiplier : Q.
Variable maxDelay : Q.
Variable fallbackOn : FallbackOn.

(** The loop [for (attempt = 0; attempt <= maxRetries; attempt++)],
    with [fuel] the number of iterations that remain. *)
Fixpoint attempts (fuel : nat) (attempt : nat) (delay : Q)
         (lastStatus_ : option Z) (lastError_ : option string)
         (w : W) (log : list Event) : BackoffResult * W * list Event :=
  match fuel with
  | 0 => ({| response := None; lastStatus := lastStatus_; lastError := lastError_ |},
          w, log)
  | S fuel' =>
      let (o, w1) := fn w in
      let log1 := log ++ [Called o] in
      match o with
      | Resolved resp =>
          if shouldFallbackStatus (status resp) fallbackOn then
            let lastStatus1 := Some (status resp) in
            if (attempt <? maxRetries)%nat then
              attempts fuel' (S attempt) (Qmin (delay * multiplier) maxDelay)
                       lastStatus1 lastError_ w1 (log1 ++ [Slept delay])
            else
              (* Exhausted retries on this target *)
              ({| response := None; lastStatus := lastStatus1; lastError := None |},
               w1, log1)
          else
            ({| response := Some resp; lastStatus := None; lastError := None |},
             w1, log1)
      | Rejected error =>
          let lastError1 := Some error in
          if (attempt <? maxRetries)%nat then
            attempts fuel' (S attempt) (Qmin (delay * multiplier) maxDelay)
                     lastStatus_ lastError1 w1 (log1 ++ [Slept delay])
          else
            ({| response := None; lastStatus := lastStatus_; lastError := lastError1 |},
             w1, log1)
      end
  end.
End ExecuteWithBackoff.

(** [r >>= f] for the two [parseDuration] calls, which may throw. *)
Definition bind {A B : Type} (r : Result A) (f : A -> Result B) : Result B :=
  match r with Ok a => f a | Throw e => Throw e end.

Definition executeWithBackoff {W : Type} (fn : W -> Outcome * W)
           (profile : StrategyProfile.t) (fallbackOn : FallbackOn) (w : W)
  : Result (BackoffResult * W * list Event) :=
  let maxRetries := nullish (StrategyProfile.max_retries profile) 0 in
  bind (Duration.parseDuration
          (nullish (option_map Backoff.initial (StrategyProfile.backoff profile)) "500ms"))
    (fun delay =>
  let multiplier :=
    nullish (opt_chain (StrategyProfile.backoff profile) Backoff.multiplier) 2%Q in
  bind (Duration.parseDuration
          (nullish (opt_chain (StrategyProfile.backoff profile) Backoff.max) "30s"))
    (fun maxDelay =>
  Ok (attempts fn maxRetries multiplier maxDelay fallbackOn
               (S maxRetries) 0 delay None None w []))).

End Strategies.

(** ** String helpers of the host language *)

(** [s.slice(n)] *)
Fixpoint str_slice (n : nat) (s : string) : string :=
  match n, s with
  | 0, _ => s
  | S n', String _ s' => str_slice n' s'
  | S _, EmptyString => EmptyString
  end.

(** [s.startsWith(p)] *)
Definition startsWith (s p : string) : bool := String.prefix p s.

(** ** src/router/resolver.ts *)

Module Resolver.
Import State.

Record ResolvedTarget : Type := {
  providerID : string;
  modelID : string;
  allTargets : list ModelRef.t   (* the full list of targets, for fallback tracking *)
}.

(** Strip provider prefix from model ID if present
    (e.g. "anthropic/claude-3" -> "claude-3") *)
Definition normalizeModelID (providerID modelID : string) : string :=
  let prefix := providerID +:+ "/" in
  if startsWith modelID prefix then str_slice (String.length prefix) modelID else modelID.

(** The loop [for (const target of targets)]: the first target that is
    not in cooldown. *)
Fixpoint first_available (now : Q) (targets : list TargetModel.t) (state : RouterState)
  : option ModelRef.t * RouterState :=
  match targets with
  | [] => (None, state)
  | target :: rest =>
      let modelID_ := normalizeModelID (TargetModel.provider target) (TargetModel.model target) in
      let modelKey := TargetModel.provider target +:+ "/" +:+ modelID_ in
      let (cooled, state1) := isInCooldown now modelKey state in
      if cooled then first_available now rest state1
      else (Some {| ModelRef.providerID := TargetModel.provider target;
                    ModelRef.modelID := modelID_ |}, state1)
  end.

Definition resolveModel (now : Q) (virtualModelID : string)
           (virtualModels : gmap string VirtualModelConfig.t)
           (strategyProfiles : gmap string StrategyProfile.t)
           (state : RouterState) (rt : Runtime.t)
  : option ResolvedTarget * RouterState * Runtime.t :=
  match virtualModels !! virtualModelID with
  | None => (None, state, rt)
  | Some config =>
      let profile := ConfigStrategies.resolveProfile config strategyProfiles in
      let _ := ConfigStrategies.mergeWithProfile config profile in
      let '(targets, state1, rt1) := Strategies.selectTargets virtualModelID config state rt in
      let ts := Runtime.read targets rt1 in
      let allTargets_ :=
        map (fun t => {| ModelRef.providerID := TargetModel.provider t;
                         ModelRef.modelID := normalizeModelID (TargetModel.provider t)
                                                              (TargetModel.model t) |}) ts in
      let (found, state2) := first_available now ts state1 in
      match found with
      | Some r =>
          (Some {| providerID := ModelRef.providerID r; modelID := ModelRef.modelID r;
                   allTargets := allTargets_ |}, state2, rt1)
      | None => (None, state2, rt1)
      end
  end.

End Resolver.

(** ** src/config/loader.ts

    The loader works on the parsed JSON document, which it casts to the
    schema without checking it: every field may be missing.  [Loader]
    has the documents whose model entries are objects, with fields of
    the types of the schema or missing; [Unchecked] below has the
    documents that hold [null] where the schema has an object. *)

Module Loader.

(** [weight?: number] as the document has it.  [validateConfig] tells a
    missing field ([undefined]) from one that holds [null]. *)
Inductive Weight : Type :=
| no_weight                  (* the target has no field "weight" *)
| null_weight                (* "weight": null *)
| weight_of (w : Q).

Record RawTarget : Type := {
  model : option string;
  provider : option string;
  weight : Weight
}.

Record RawModel : Type := {
  strategy : option Strategy;
  strategy_profile : option string;
  fallback_on : option FallbackOn;
  cooldown : option string;
  targets : option (list RawTarget)
}.

(** A JSON object is a list of entries with distinct keys, in the order
    [Object.entries] lists them. *)
Record VirtualConfig : Type := {
  models : option (list (string * RawModel));
  strategies : option (list (string * StrategyProfile.t))
}.

(** A JavaScript [Map], in insertion order. *)
Definition Map (V : Type) : Type := list (string * V).

Fixpoint map_get {V : Type} (k : string) (m : Map V) : option V :=
  match m with
  | [] => None
  | (k', v) :: m' => if String.eqb k' k then Some v else map_get k m'
  end.

Definition map_has {V : Type} (k : string) (m : Map V) : bool :=
  match map_get k m with Some _ => true | None => false end.

(** [m.set(k, v)]: replaces the value of an existing key where it is,
    appends a new key. *)
Fixpoint map_set {V : Type} (k : string) (v : V) (m : Map V) : Map V :=
  match m with
  | [] => [(k, v)]
  | (k', v') :: m' => if String.eqb k' k then (k, v) :: m' else (k', v') :: map_set k v m'
  end.

Record LoadedConfig : Type := {
  virtualModels : Map RawModel;
  strategyProfiles : Map StrategyProfile.t
}.

Definition dq : string := String (ascii_of_nat 34) EmptyString.

(** [!s] for an optional string: undefined, null and "" are falsy. *)
Definition falsy (s : option string) : bool :=
  match s with
  | None => true
  | Some x => String.eqb x ""
  end.

(** [!model.strategy]: the field is missing, or the empty string. *)
Definition no_strategy (s : option Strategy) : bool :=
  match s with
  | None => true
  | Some (unlisted name) => String.eqb name ""
  | Some _ => false
  end.

Definition load_profiles (entries : list (string * StrategyProfile.t))
  : Map StrategyProfile.t :=
  fold_left (fun acc e => map_set (fst e) (snd e) acc) entries [].

Definition no_targets_warning (name : string) : string :=
  "[virtual-provider] Virtual model " +:+ dq +:+ name +:+ dq +:+ " has no targets, skipping".

Definition profile_not_found_warning (profile name : string) : string :=
  "[virtual-provider] Strategy profile " +:+ dq +:+ profile +:+ dq
    +:+ " not found for model " +:+ dq +:+ name +:+ dq.

(** One iteration of the loop over the model entries; [warned] collects
    the lines written with [console.warn]. *)
Definition load_model (strategyProfiles : Map StrategyProfile.t)
           (acc : Map RawModel * list string) (entry : string * RawModel)
  : Map RawModel * list string :=
  let (virtualModels_, warned) := acc in
  let (name, model_) := entry in
  match targets model_ with
  | None | Some [] => (virtualModels_, warned ++ [no_targets_warning name])
  | Some _ =>
      let model1 :=
        if no_strategy (strategy model_)
        then {| strategy := Some sequential;
                strategy_profile := strategy_profile model_;
                fallback_on := fallback_on model_;
                cooldown := cooldown model_;
                targets := targets model_ |}
        else model_ in
      let warned1 :=
        match strategy_profile model1 with
        | Some p =>
            if negb (String.eqb p "") && negb (map_has p strategyProfiles)
            then warned ++ [profile_not_found_warning p name]
            else warned
        | None => warned
        end in
      (map_set ("virtual/" +:+ name) model1 virtualModels_, warned1)
  end.

Definition loadConfig (raw : VirtualConfig) : LoadedConfig * list string :=
  let strategyProfiles_ := load_profiles (nullish (strategies raw) []) in
  let (virtualModels_, warned) :=
    fold_left (load_model strategyProfiles_) (nullish (models raw) []) ([], []) in
  ({| virtualModels := virtualModels_; strategyProfiles := strategyProfiles_ |}, warned).

Definition missing_field_error (modelId : string) : string :=
  "Model " +:+ dq +:+ modelId +:+ dq +:+ " has target missing model or provider field".

Definition missing_weights_error (modelId : string) : string :=
  "Model " +:+ dq +:+ modelId +:+ dq
    +:+ " uses weighted strategy but not all targets have weights".

Definition is_weighted (s : option Strategy) : bool :=
  match s with Some weighted => true | _ => false end.

(** The errors that one iteration of the loop over [config.virtualModels]
    pushes.  A model without a list of targets cannot be iterated: a
    [TypeError] ([None]). *)
Definition validate_model (entry : string * RawModel) : option (list string) :=
  let (modelId, model_) := entry in
  match targets model_ with
  | None => None                                   (* for (const target of undefined) *)
  | Some ts =>
      Some (flat_map (fun target =>
                        if falsy (model target) || falsy (provider target)
                        then [missing_field_error modelId] else []) ts
            ++ (if is_weighted (strategy model_) then
                  let hasWeights :=
                    forallb (fun t => match weight t with
                                      | no_weight => false      (* t.weight !== undefined *)
                                      | _ => true
                                      end) ts in
                  if negb hasWeights then [missing_weights_error modelId] else []
                else []))
  end.

Fixpoint validate_models (entries : list (string * RawModel)) (errors : list string)
  : option (list string) :=
  match entries with
  | [] => Some errors
  | entry :: rest =>
      match validate_model entry with
      | Some pushed => validate_models rest (errors ++ pushed)
      | None => None
      end
  end.

Definition validateConfig (config : LoadedConfig) : option (list string) :=
  validate_models (virtualModels config) [].

End Loader.

(** ** src/config/loader.ts: [loadConfig(raw: unknown)]

    [JSON.parse] may return [null] for the document, and a document may
    hold [null] for a model.  [loadConfig] casts and does not look:
    reading [config.strategies] or [model.targets] of [null] is a
    [TypeError], which ends the load with nothing returned; the lines
    already written with [console.warn] stay written.  (An entry that
    is a number, a string, a boolean or an array has none of the
    properties of the schema: it is read like the object without
    fields.) *)

Module Unchecked.

Inductive Nullable (A : Type) : Type :=
| null
| object (a : A).
Arguments null {A}.
Arguments object {A} a.

Record VirtualConfig : Type := {
  models : option (list (string * Nullable Loader.RawModel));
  strategies : option (list (string * StrategyProfile.t))
}.

(** How a call of [loadConfig] ends. *)
Inductive Outcome : Type :=
| Returned (config : Loader.LoadedConfig) (warned : list string)
| TypeError (warned : list string).

(** The loop over the model entries: [None] when it was left by a
    [TypeError]. *)
Fixpoint load_models (strategyProfiles : Loader.Map StrategyProfile.t)
         (entries : list (string * Nullable Loader.RawModel))
         (acc : Loader.Map Loader.RawModel * list string)
  : option (Loader.Map Loader.RawModel) * list string :=
  match entries with
  | [] => (Some (fst acc), snd acc)
  | (name, null) :: _ => (None, snd acc)                  (* model.targets of null *)
  | (name, object model) :: rest =>
      load_models strategyProfiles rest (Loader.load_model strategyProfiles acc (name, model))
  end.

Definition loadConfig (raw : Nullable VirtualConfig) : Outcome :=
  match raw with
  | null => TypeError []                                  (* config.strategies of null *)
  | object config =>
      let strategyProfiles_ := Loader.load_profiles (nullish (strategies config) []) in
      match load_models strategyProfiles_ (nullish (models config) []) ([], []) with
      | (Some virtualModels_, warned) =>
          Returned {| Loader.virtualModels := virtualModels_;
                      Loader.strategyProfiles := strategyProfiles_ |} warned
      | (None, warned) => TypeError warned
      end
  end.

End Unchecked.

(** ** src/index.ts: the hooks of the plugin

    The closure of [VirtualProviderPlugin] holds the loaded configuration,
    the router state and the two per-session maps; the hooks update them. *)

Module Plugin.
Import State.

Record LoadedConfig : Type := {
  virtualModels : gmap string VirtualModelConfig.t;
  strategyProfiles : gmap string StrategyProfile.t
}.

Record Closure : Type := {
  loadedConfig : LoadedConfig;
  state : RouterState;
  (* Per-session fallback cursor: tracks which target index to try next. *)
  sessionFallbackCursor : gmap string nat;
  (* Per-session virtual model: tracks which virtual model ID a session is using. *)
  sessionVirtualModel : gmap string string;
  runtime : Runtime.t
}.

(** The [error] of a [session.error] event. *)
Record SessionError : Type := {
  name : option string;
  statusCode : option Z        (* error.data?.statusCode *)
}.

Record HostEvent : Type := {
  type : string;
  sessionID : option string;
  error : option SessionError
}.

(** Which [return] of the event hook was taken. *)
Inductive EventResult : Type :=
| Ignored                            (* one of the early returns: nothing was touched *)
| Exhausted                          (* "all targets exhausted": the cursor entry is deleted *)
| AllRemainingInCooldown             (* "all remaining targets in cooldown" *)
| FellBack (next : ModelRef.t).        (* the session was prompted again with [next] *)

(** Strip provider prefix from model ID if present
    (e.g. "anthropic/claude-3" -> "claude-3") *)
Definition normalizeModelID (providerID modelID : string) : string :=
  let prefix := providerID +:+ "/" in
  if startsWith modelID prefix then str_slice (String.length prefix) modelID else modelID.

Definition includes_any_error (fallbackOn : FallbackOn) : bool :=
  existsb (fun x => match x with any_error => true | _ => false end) fallbackOn.

Definition includes_status (status : Z) (fallbackOn : FallbackOn) : bool :=
  existsb (fun x => match x with status_code n => (n =? status)%Z | _ => false end)
          fallbackOn.

(** Decide whether a session.error warrants a provider fallback *)
Definition shouldFallbackForError (error : SessionError)
           (modelConfig : VirtualModelConfig.t)
           (strategyProfiles : gmap string StrategyProfile.t) : bool :=
  let profile := ConfigStrategies.resolveProfile modelConfig strategyProfiles in
  let resolved := ConfigStrategies.mergeWithProfile modelConfig profile in
  let fallbackOn := ResolvedModelConfig.fallback_on resolved in
  if includes_any_error fallbackOn then true
  else if match statusCode error with
          | Some status => includes_status status fallbackOn   (* typeof status === "number" *)
          | None => false
          end then true
  (* Auth failures should generally fall through to next target when
     status code is unavailable. *)
  else if match name error with
          | Some n => String.eqb n "ProviderAuthError"
          | None => false
          end then true
  else false.

(** The loop [for (let i = cursor; i < targets.length; i++)] over the
    targets from index [i] on ([rest] is [targets.slice(i)]): the first
    index whose target is not in cooldown. *)
Fixpoint scan (now : Q) (i : nat) (rest : list TargetModel.t) (state : RouterState)
  : option (nat * ModelRef.t) * RouterState :=
  match rest with
  | [] => (None, state)
  | t :: rest' =>
      let mID := normalizeModelID (TargetModel.provider t) (TargetModel.model t) in
      let mKey := TargetModel.provider t +:+ "/" +:+ mID in
      let (cooled, state1) := isInCooldown now mKey state in
      if cooled then scan now (S i) rest' state1
      else (Some (i, {| ModelRef.providerID := TargetModel.provider t;
                        ModelRef.modelID := mID |}), state1)
  end.

Definition set_state (s : RouterState) (rt : Runtime.t) (p : Closure) : Closure :=
  {| loadedConfig := loadedConfig p; state := s;
     sessionFallbackCursor := sessionFallbackCursor p;
     sessionVirtualModel := sessionVirtualModel p; runtime := rt |}.

Definition set_cursor (c : gmap string nat) (p : Closure) : Closure :=
  {| loadedConfig := loadedConfig p; state := state p;
     sessionFallbackCursor := c;
     sessionVirtualModel := sessionVirtualModel p; runtime := runtime p |}.

Definition set_sessionVirtualModel (m : gmap string string) (p : Closure) : Closure :=
  {| loadedConfig := loadedConfig p; state := state p;
     sessionFallbackCursor := sessionFallbackCursor p;
     sessionVirtualModel := m; runtime := runtime p |}.

(** The "chat.message" hook.  [incomingModel] is [hookInput.model],
    [outputModel] is [output.message.model]; the result is the new
    [output.message.model]. *)
Definition chat_message (now : Q) (sessionID_ : string)
           (incomingModel outputModel : option ModelRef.t) (p : Closure)
  : option ModelRef.t * Closure :=
  let rawModelID :=
    nullish (nullish_opt (option_map ModelRef.modelID incomingModel)
                         (option_map ModelRef.modelID outputModel)) "" in
  let providerID_ :=
    nullish (nullish_opt (option_map ModelRef.providerID incomingModel)
                         (option_map ModelRef.providerID outputModel)) "" in
  let virtualModelID :=
    if String.eqb providerID_ "virtual" then Some ("virtual/" +:+ rawModelID)
    else if startsWith rawModelID "virtual/" then Some rawModelID
    else None in
  match virtualModelID with
  | None => (outputModel, p)
  | Some virtualModelID =>
      match virtualModels (loadedConfig p) !! virtualModelID with
      | None => (outputModel, p)
      | Some config =>
          let p1 := set_sessionVirtualModel
                      (<[sessionID_ := virtualModelID]> (sessionVirtualModel p)) p in
          let cursor := nullish (sessionFallbackCursor p1 !! sessionID_) 0 in
          let '(targets, state1, rt1) :=
            Strategies.selectTargets virtualModelID config (state p1) (runtime p1) in
          let ts := Runtime.read targets rt1 in
          let (resolved, state2) := scan now cursor (drop cursor ts) state1 in
          let p2 := set_state state2 rt1 p1 in
          match resolved with
          | Some (i, r) =>
              (Some r, set_cursor (<[sessionID_ := i]> (sessionFallbackCursor p2)) p2)
          | None => (outputModel, p2)
          end
      end
  end.

(** The event hook: listens for session.error to trigger fallback.
    A throw (of [parseDuration], on the cooldown of the configuration)
    leaves the updates made before it in place. *)
Definition event (now : Q) (ev : HostEvent) (p : Closure) : Result EventResult * Closure :=
  if negb (String.eqb (type ev) "session.error") then (Ok Ignored, p)
  else
    match sessionID ev, error ev with
    | Some sessionID_, Some error_ =>
        if String.eqb sessionID_ "" then (Ok Ignored, p)
        else
          match sessionVirtualModel p !! sessionID_ with
          | None => (Ok Ignored, p)
          | Some virtualModelID =>
              if String.eqb virtualModelID "" then (Ok Ignored, p)
              else
                match virtualModels (loadedConfig p) !! virtualModelID with
                | None => (Ok Ignored, p)
                | Some config =>
                    if negb (shouldFallbackForError error_ config
                               (strategyProfiles (loadedConfig p)))
                    then (Ok Ignored, p)
                    else
                      let currentCursor := nullish (sessionFallbackCursor p !! sessionID_) 0 in
                      let '(targets, state1, rt1) :=
                        Strategies.selectTargets virtualModelID config (state p) (runtime p) in
                      let ts := Runtime.read targets rt1 in
                      let marked :=
                        match ts !! currentCursor with
                        | Some currentTarget =>
                            let modelID_ :=
                              normalizeModelID (TargetModel.provider currentTarget)
                                               (TargetModel.model currentTarget) in
                            let modelKey := TargetModel.provider currentTarget +:+ "/" +:+ modelID_ in
                            let state2 := recordFallback modelKey (recordFailure modelKey state1) in
                            let profile :=
                              ConfigStrategies.resolveProfile
                                config (strategyProfiles (loadedConfig p)) in
                            let resolved := ConfigStrategies.mergeWithProfile config profile in
                            match setCooldown now modelKey
                                              (ResolvedModelConfig.cooldown resolved) state2 with
                            | Ok state3 => (None, state3)
                            | Throw e => (Some e, state2)
                            end
                        | None => (None, state1)
                        end in
                      match marked with
                      | (Some e, state2) => (Throw e, set_state state2 rt1 p)
                      | (None, state3) =>
                          let p1 := set_state state3 rt1 p in
                          let nextCursor := currentCursor + 1 in
                          if (length ts <=? nextCursor)%nat then
                            (Ok Exhausted,
                             set_cursor (delete sessionID_ (sessionFallbackCursor p1)) p1)
                          else
                            let p2 := set_cursor
                                        (<[sessionID_ := nextCursor]> (sessionFallbackCursor p1)) p1 in
                            let (nextResolved, state4) :=
                              scan now nextCursor (drop nextCursor ts) (state p2) in
                            let p3 := set_state state4 (runtime p2) p2 in
                            match nextResolved with
                            | Some (i, r) =>
                                (Ok (FellBack r),
                                 set_cursor (<[sessionID_ := i]> (sessionFallbackCursor p3)) p3)
                            | None => (Ok AllRemainingInCooldown, p3)
                            end
                      end
                end
          end
    | _, _ => (Ok Ignored, p)
    end.

End Plugin.

(** ** Values of the host: JSON documents and plain objects

    A value that [JSON.parse] builds.  An object is the list of its own
    properties with distinct keys, in the order [Object.entries] lists
    them: [Loader.map_get] finds an own property and [Loader.map_set]
    stores one (an existing property keeps its place, a new one goes
    last). *)

Module Json.

#[warnings="-register-all"]
Inductive t : Type :=
| Null
| Boolean (b : bool)
| Number (n : Q)
| Text (s : string)
| Array (items : list t)
| Object (entries : list (string * t)).

End Json.

(** ** Property access of the host

    An object also inherits the properties of [Object.prototype].  For a
    name in [inherited_functions], [object[name]] on an object without
    an own property of that name is a function of the host.  For the
    name [__proto__] it is the prototype itself, and an assignment to it
    replaces the prototype of the object instead of storing a property.
    The objects here are ordinary ones, as [JSON.parse] and object
    literals make them, with [Object.prototype] untouched; they do not
    hold their prototype, so a run that reads or assigns [__proto__] on
    an object without an own property of that name ends here, as
    [ReachesPrototype]. *)

Module Host.

(** How a run ends. *)
Inductive Completion (A : Type) : Type :=
| Normal (a : A)
| TypeError
| DataCloneError          (* structuredClone was given a function *)
| ReachesPrototype.
Arguments Normal {A} a.
Arguments TypeError {A}.
Arguments DataCloneError {A}.
Arguments ReachesPrototype {A}.

(** The function-valued properties of [Object.prototype]. *)
Definition inherited_functions : list string :=
  ["constructor"; "hasOwnProperty"; "isPrototypeOf"; "propertyIsEnumerable";
   "toLocaleString"; "toString"; "valueOf";
   "__defineGetter__"; "__defineSetter__"; "__lookupGetter__"; "__lookupSetter__"].

(** What [object[key]] reads. *)
Inductive Property (V : Type) : Type :=
| Own (v : V)
| Function           (* an inherited function *)
| Prototype          (* [Object.prototype] itself *)
| Undefined.
Arguments Own {V} v.
Arguments Function {V}.
Arguments Prototype {V}.
Arguments Undefined {V}.

Definition get {V : Type} (key : string) (object : list (string * V)) : Property V :=
  match Loader.map_get key object with
  | Some v => Own v
  | None =>
      if String.eqb key "__proto__" then Prototype
      else if existsb (String.eqb key) inherited_functions then Function
      else Undefined
  end.

(** [object[key] = value] *)
Definition set {V : Type} (key : string) (value : V) (object : list (string * V))
  : Completion (list (string * V)) :=
  if Loader.map_has key object then Normal (Loader.map_set key value object)
  else if String.eqb key "__proto__" then ReachesPrototype
  else Normal (Loader.map_set key value object).

End Host.

(** A [for ... of] loop whose body may end abruptly, which ends the
    loop and the function around it. *)
Fixpoint for_each {S E : Type} (body : S -> E -> Host.Completion S) (entries : list E) (s : S)
  : Host.Completion S :=
  match entries with
  | [] => Host.Normal s
  | e :: rest =>
      match body s e with
      | Host.Normal s1 => for_each body rest s1
      | abrupt => abrupt
      end
  end.

(** ** src/config/loader.ts: the models of the virtual provider

    [buildVirtualProviderModels] reads the loaded configuration, whose
    models are the entries of the document as they came (see [Loader]):
    reading [targets[0]] of a model without a target list, or calling
    [startsWith] on a target without a model id, is a [TypeError].  The
    host has [structuredClone]. *)

Module Catalog.

(** [interface ProviderCatalogModel { [key: string]: unknown }] *)
Definition ProviderCatalogModel : Type := list (string * Json.t).

Record ProviderCatalogEntry : Type := {
  id : string;
  models : list (string * ProviderCatalogModel)   (* Record<string, ProviderCatalogModel> *)
}.

Definition normalizeTargetModelForProvider (targetModel targetProvider : string) : string :=
  let providerPrefix := targetProvider +:+ "/" in
  if startsWith targetModel providerPrefix
  then str_slice (String.length providerPrefix) targetModel
  else targetModel.

(** [structuredClone] copies the object; the copy then gets its [id]. *)
Definition cloneVirtualModelConfig (source : ProviderCatalogModel) (virtualModelName : string)
  : ProviderCatalogModel :=
  let cloned := source in
  Loader.map_set "id" (Json.Text virtualModelName) cloned.

(** One iteration of the loop over [config.virtualModels.entries()]. *)
Definition build_model (catalog : list ProviderCatalogEntry)
           (desiredModels : list (string * ProviderCatalogModel))
           (entry : string * Loader.RawModel)
  : Host.Completion (list (string * ProviderCatalogModel)) :=
  let (virtualModelID, virtualModel) := entry in
  let virtualModelName :=
    if startsWith virtualModelID "virtual/"
    then str_slice (String.length "virtual/") virtualModelID
    else virtualModelID in
  match Loader.targets virtualModel with
  | None => Host.TypeError                              (* undefined[0] *)
  | Some [] => Host.Normal desiredModels                (* !primaryTarget *)
  | Some (primaryTarget :: _) =>
      match Loader.provider primaryTarget with
      | None => Host.Normal desiredModels               (* no entry has the id undefined *)
      | Some targetProvider =>
          match find (fun entry => String.eqb (id entry) targetProvider) catalog with
          | None => Host.Normal desiredModels
          | Some providerEntry =>
              match Loader.model primaryTarget with
              | None => Host.TypeError                  (* undefined.startsWith *)
              | Some targetModel =>
                  let sourceModelID :=
                    normalizeTargetModelForProvider targetModel targetProvider in
                  match Host.get sourceModelID (models providerEntry) with
                  | Host.Undefined => Host.Normal desiredModels
                  | Host.Own sourceModel =>
                      Host.set virtualModelName
                               (cloneVirtualModelConfig sourceModel virtualModelName)
                               desiredModels
                  | Host.Function => Host.DataCloneError
                  | Host.Prototype => Host.ReachesPrototype
                  end
              end
          end
      end
  end.

(** Build provider.virtual.models by inheriting metadata from each
    virtual model's primary target (the first target in the strategy
    list). *)
Definition buildVirtualProviderModels (config : Loader.LoadedConfig)
           (catalog : list ProviderCatalogEntry)
  : Host.Completion (list (string * ProviderCatalogModel)) :=
  for_each (build_model catalog) (Loader.virtualModels config) [].

End Catalog.

(** ** src/index.ts: the config hook

    The two parts of the hook that compute something, with DEBUG unset:
    the loop that registers an alias for every loaded model, on the
    object [sdkConfig.provider["virtual"].models], and [deepMerge]. *)

Module ConfigHook.

(** The object literal that the hook stores for an alias. *)
Definition alias_model (aliasName : string) : Json.t :=
  Json.Object
    [("id", Json.Text aliasName);
     ("name", Json.Text aliasName);
     ("tool_call", Json.Boolean true);
     ("reasoning", Json.Boolean true);
     ("attachment", Json.Boolean true);
     ("temperature", Json.Boolean true);
     ("limit", Json.Object [("context", Json.Number 200000); ("output", Json.Number 16384)])].

(** One iteration of the loop over [loadedConfig.virtualModels]. *)
Definition register_alias (models : list (string * Json.t))
           (entry : string * Loader.RawModel) : Host.Completion (list (string * Json.t)) :=
  let (virtualModelID, modelConfig) := entry in
  let aliasName :=
    if startsWith virtualModelID "virtual/"
    then str_slice (String.length "virtual/") virtualModelID
    else virtualModelID in
  match Loader.targets modelConfig with
  | None => Host.TypeError                              (* undefined[0] *)
  | Some [] => Host.Normal models                       (* !primaryTarget *)
  | Some (primaryTarget :: _) => Host.set aliasName (alias_model aliasName) models
  end.

Definition register_aliases (virtualModels : Loader.Map Loader.RawModel)
           (models : list (string * Json.t)) : Host.Completion (list (string * Json.t)) :=
  for_each register_alias virtualModels models.

(** Deep-merge src into dst in-place.
    - Plain objects are merged key-by-key (dst keys not in src are preserved).
    - All other values (primitives, arrays) are replaced.
    The recursion is on the value merged in: [merge_object dst src] is
    [deepMerge(dst, src)] for an object [src], with the loop over
    [Object.entries(src)] inside.  An inherited function is not an
    object, so a key that names one is assigned like a new key; the key
    [__proto__] of an object that has no such property of its own reads
    or assigns the prototype. *)
Fixpoint merge_object (dst : list (string * Json.t)) (src : Json.t) {struct src}
  : Host.Completion (list (string * Json.t)) :=
  match src with
  | Json.Object entries =>
      (fix loop (entries : list (string * Json.t)) (dst : list (string * Json.t))
           {struct entries} : Host.Completion (list (string * Json.t)) :=
         match entries with
         | [] => Host.Normal dst
         | (key, srcVal) :: rest =>
             match
               match srcVal, Host.get key dst with
               | Json.Object _, Host.Own (Json.Object dstVal) =>
                   match merge_object dstVal srcVal with
                   | Host.Normal merged => Host.Normal (Loader.map_set key (Json.Object merged) dst)
                   | abrupt => abrupt
                   end
               | Json.Object _, Host.Prototype => Host.ReachesPrototype
               | _, _ => Host.set key srcVal dst
               end
             with
             | Host.Normal dst1 => loop rest dst1
             | abrupt => abrupt
             end
         end) entries dst
  | _ => Host.Normal dst
  end.

Definition deepMerge (dst src : list (string * Json.t))
  : Host.Completion (list (string * Json.t)) :=
  merge_object dst (Json.Object src).

End ConfigHook.

(** ** src/index.ts: the fetch pipeline of the auth hook

    [fetch] is the host's global [fetch], acting on a world [W]; the
    clock that [Date.now()] reads is part of that world, since a request
    takes time.  [loader_fetch] is the [fetch] that the loader returns;
    [fetch_hook] is that function from [if (!requestedModel)] on. *)

Module AuthLoader.
Import State.

(** What the hook hands to [fetch]: the request as it came, or the
    request with the [model] of its body rewritten. *)
Inductive Forwarded : Type :=
| Original
| Rewritten (model : string).

(** How the promise that the hook returns settles. *)
Inductive Settled : Type :=
| Returned (response : Strategies.Response)
| FetchRejected (error : string)          (* a request passed through, and fetch rejected *)
| AllTargetsExhausted (virtualModelID : string).
      (* Error(`[virtual-provider] All targets exhausted for ${virtualModelID}`) *)

(** [setCooldown(modelKey, "5m", state)].  The literal parses, so the
    call does not throw. *)
Definition setCooldown_5m (now : Q) (modelKey : string) (state : RouterState) : RouterState :=
  match setCooldown now modelKey (Some "5m") state with
  | Ok state1 => state1
  | Throw _ => state
  end.

Definition retryable (status : Z) : bool :=
  (status =? 429)%Z || (status =? 503)%Z || (status =? 502)%Z.

Section Fetch.
Context {W : Type}.
Variable fetch : Forwarded -> W -> Strategies.Outcome * W.
Variable Date_now : W -> Q.

(** [return fetch(request, init)] *)
Definition pass_through (p : Plugin.Closure) (w : W) : Settled * Plugin.Closure * W :=
  let (o, w1) := fetch Original w in
  match o with
  | Strategies.Resolved response => (Returned response, p, w1)
  | Strategies.Rejected error => (FetchRejected error, p, w1)
  end.

(** The loop [for (const target of targets)]. *)
Fixpoint try_targets (virtualModelID : string) (targets : list TargetModel.t)
         (state : RouterState) (w : W) : Settled * RouterState * W :=
  match targets with
  | [] => (AllTargetsExhausted virtualModelID, state, w)
  | target :: rest =>
      let modelID :=
        Plugin.normalizeModelID (TargetModel.provider target) (TargetModel.model target) in
      let modelKey := TargetModel.provider target +:+ "/" +:+ modelID in
      let (cooled, state1) := isInCooldown (Date_now w) modelKey state in
      if cooled then try_targets virtualModelID rest state1 w
      else
        (* Rewrite body with real model, forward via fetch *)
        let (o, w1) := fetch (Rewritten (TargetModel.provider target +:+ "/" +:+ modelID)) w in
        match o with
        | Strategies.Resolved response =>
            if retryable (Strategies.status response) then
              let state2 := setCooldown_5m (Date_now w1) modelKey state1 in
              let state3 := recordFailure modelKey state2 in
              let state4 := recordFallback modelKey state3 in
              try_targets virtualModelID rest state4 w1
            else (Returned response, state1, w1)
        | Strategies.Rejected err =>
            let state2 := recordFailure modelKey state1 in
            let state3 := setCooldown_5m (Date_now w1) modelKey state2 in
            try_targets virtualModelID rest state3 w1
        end
  end.


Definition fetch_hook (requestedModel : option string) (p : Plugin.Closure) (w : W)
  : Settled * Plugin.Closure * W :=
  match requestedModel with
  | None => pass_through p w
  | Some requestedModel =>
      if String.eqb requestedModel "" then pass_through p w      (* !requestedModel *)
      else
        (* Resolve virtual alias to real target *)
        let virtualModelID :=
          if startsWith requestedModel "virtual/" then requestedModel
          else "virtual/" +:+ requestedModel in
        match Plugin.virtualModels (Plugin.loadedConfig p) !! virtualModelID with
        | None => pass_through p w
        | Some modelConfig =>
            let '(targets, state1, rt1) :=
              Strategies.selectTargets virtualModelID modelConfig
                                       (Plugin.state p) (Plugin.runtime p) in
            let '(settled, state2, w1) :=
              try_targets virtualModelID (Runtime.read targets rt1) state1 w in
            (settled, Plugin.set_state state2 rt1 p, w1)
        end
  end.


End Fetch.

End AuthLoader.

(** * Part II: the vocabulary of the specification *)

(** * The duration format *)

Inductive TimeUnit : Type := unit_ms | unit_s | unit_m | unit_h.

Definition suffix (u : TimeUnit) : string :=
  match u with unit_ms => "ms" | unit_s => "s" | unit_m => "m" | unit_h => "h" end.

Definition factor (u : TimeUnit) : Q :=
  match u with unit_ms => 1 | unit_s => 1000 | unit_m => 60000 | unit_h => 3600000 end.

(** A non-empty run of decimal digits. *)
Definition digits (ds : list ascii) : Prop :=
  ds <> [] /\ forallb Duration.isDigit ds = true.

(** The number that a decimal numeral denotes, digit by digit.  In the
    whole part a digit counts ten times the one after it, and the last
    one counts once; behind the point each digit counts a tenth of the
    one before it. *)
Definition digit_value (c : ascii) : Q :=
  (match c with
   | "0"%char => 0 | "1"%char => 1 | "2"%char => 2 | "3"%char => 3 | "4"%char => 4
   | "5"%char => 5 | "6"%char => 6 | "7"%char => 7 | "8"%char => 8 | "9"%char => 9
   | _ => 0
   end)%Q.

Fixpoint whole (ds : list ascii) : Q :=
  match ds with
  | [] => 0
  | d :: rest => digit_value d * 10 ^ Z.of_nat (length rest) + whole rest
  end%Q.

Fixpoint fraction (ds : list ascii) : Q :=
  match ds with
  | [] => 0
  | d :: rest => (digit_value d + fraction rest) / 10
  end%Q.

(** [duration_form text mag u]: [text] is the integer or decimal
    magnitude [mag] immediately followed by the suffix of [u]. *)
Inductive duration_form : string -> Q -> TimeUnit -> Prop :=
| integer_form ip u :
    digits ip ->
    duration_form (string_of_list_ascii ip +:+ suffix u) (whole ip) u
| decimal_form ip fp u :
    digits ip -> digits fp ->
    duration_form (string_of_list_ascii ip +:+ "." +:+ string_of_list_ascii fp +:+ suffix u)
                  (whole ip + fraction fp) u.

(** The doubles that are not negative: a significand of at most 53 bits
    times a power of two from 2^-1074 to 2^971. *)
Definition double (v : Q) : Prop :=
  exists m e : Z,
    (v == inject_Z m * 2 ^ e)%Q /\ (0 <= m < 2 ^ 53)%Z /\ (-1074 <= e <= 971)%Z.

(** [nearest_double q r]: the rational [q], which is not negative,
    rounds to [r].  Below 2^1024 - 2^970, the middle between the largest
    double and 2^1024, that is a double with no other double nearer to
    [q]; when another double is as near, it is the one that is an even
    multiple of their distance (its significand is even).  From that
    middle on it is [Infinity]. *)
Definition nearest_double (q : Q) (r : Binary64.t) : Prop :=
  match r with
  | Binary64.Finite v =>
      double v /\
      (q < 2 ^ 1024 - 2 ^ 970)%Q /\
      (forall w, double w -> Qabs (v - q) <= Qabs (w - q))%Q /\
      (forall w, double w -> ~ (w == v)%Q -> (Qabs (w - q) == Qabs (v - q))%Q ->
                 exists k : Z, (v == inject_Z (2 * k) * Qabs (w - v))%Q)
  | Binary64.Infinity => (2 ^ 1024 - 2 ^ 970 <= q)%Q
  end.

(** [times a c r]: the product of the double [a] and [c], rounded, is [r]. *)
Definition times (a : Binary64.t) (c : Q) (r : Binary64.t) : Prop :=
  match a with
  | Binary64.Finite x => nearest_double (x * c) r
  | Binary64.Infinity => r = Binary64.Infinity
  end.

(** The product of a magnitude and the factor of a unit as the host
    computes it: the double nearest to the magnitude, times 1000 for s,
    times 60 and then 1000 for m, times 60, 60 and then 1000 for h, each
    product rounded to the nearest double. *)
Definition product_in_doubles (mag : Q) (u : TimeUnit) (r : Binary64.t) : Prop :=
  match u with
  | unit_ms => nearest_double mag r
  | unit_s => exists a, nearest_double mag a /\ times a 1000 r
  | unit_m => exists a b, nearest_double mag a /\ times a 60 b /\ times b 1000 r
  | unit_h =>
      exists a b c, nearest_double mag a /\ times a 60 b /\ times b 60 c /\ times c 1000 r
  end.

(** The same product, with the functions of [Binary64]. *)
Definition in_doubles (mag : Q) (u : TimeUnit) : Binary64.t :=
  let value := Binary64.round mag in
  match u with
  | unit_ms => value
  | unit_s => Binary64.mul value 1000
  | unit_m => Binary64.mul (Binary64.mul value 60) 1000
  | unit_h => Binary64.mul (Binary64.mul (Binary64.mul value 60) 60) 1000
  end.

Definition factor_Z (u : TimeUnit) : Z :=
  match u with unit_ms => 1 | unit_s => 1000 | unit_m => 60000 | unit_h => 3600000 end.

(** Magnitudes on which the doubles compute the product exactly: a whole
    number of 2^j-ths (of units, halves, quarters, ...) whose product
    with the factor stays below 2^53. *)
Definition exact_in_doubles (mag : Q) (u : TimeUnit) : Prop :=
  exists (k : Z) (j : nat),
    (mag == inject_Z k / 2 ^ Z.of_nat j)%Q /\
    (0 <= k)%Z /\ (k * factor_Z u < 2 ^ 53)%Z /\ j <= 1074.

Section DurationTerms.
Import Duration.

(** A continuation that fails on every text that starts with a digit. *)
Definition rejects_digits {R} (k : list ascii -> option R) : Prop :=
  forall c s, isDigit c = true -> k (c :: s) = None.

Definition at_end (rest : list ascii) (caps : list string) : option (list string) :=
  match rest with [] => Some caps | _ => None end.

Definition units_re : regex :=
  Group (Alt (lit "ms") (Alt (lit "s") (Alt (lit "m") (lit "h")))).

(** The way the pattern reads a text, step by step. *)
Definition scan_duration (s : list ascii) : option (list string) :=
  let (ip, r1) := span_digits s in
  match ip with
  | [] => None
  | _ =>
      match r1 with
      | "."%char :: r2 =>
          let (fp, r3) := span_digits r2 in
          match fp with
          | [] => None
          | _ => rmatch units_re r3 [string_of_list_ascii (ip ++ "."%char :: fp)] at_end
          end
      | _ => rmatch units_re r1 [string_of_list_ascii ip] at_end
      end
  end.

(** The [switch] on the unit. *)
Definition apply_unit (value : Q) (unit : string) : Result Q :=
  if String.eqb unit "ms" then Ok value
  else if String.eqb unit "s" then Ok (value * 1000)%Q
  else if String.eqb unit "m" then Ok (value * 60 * 1000)%Q
  else if String.eqb unit "h" then Ok (value * 60 * 60 * 1000)%Q
  else Throw (UnknownUnit unit).

(** The same [switch] on doubles. *)
Definition apply_unit_double (value : Binary64.t) (unit : string) : Result Binary64.t :=
  if String.eqb unit "ms" then Ok value
  else if String.eqb unit "s" then Ok (Binary64.mul value 1000)
  else if String.eqb unit "m" then Ok (Binary64.mul (Binary64.mul value 60) 1000)
  else if String.eqb unit "h"
  then Ok (Binary64.mul (Binary64.mul (Binary64.mul value 60) 60) 1000)
  else Throw (UnknownUnit unit).

End DurationTerms.

(** * Metrics: the calls that touch them *)

Inductive MetricsCall : Type :=
| call_recordSuccess (modelKey : string) (latencyMs : Q)
| call_recordFailure (modelKey : string)
| call_recordFallback (modelKey : string).

Definition run_call (state : State.RouterState) (c : MetricsCall) : State.RouterState :=
  match c with
  | call_recordSuccess k l => State.recordSuccess k l state
  | call_recordFailure k => State.recordFailure k state
  | call_recordFallback k => State.recordFallback k state
  end.

Definition run_calls (calls : list MetricsCall) (state : State.RouterState)
  : State.RouterState :=
  fold_left run_call calls state.

(** The latencies passed to [recordSuccess] for [key], in the order of the calls. *)
Fixpoint latencies_of (key : string) (calls : list MetricsCall) : list Q :=
  match calls with
  | [] => []
  | call_recordSuccess k l :: rest =>
      if String.eqb k key then l :: latencies_of key rest else latencies_of key rest
  | _ :: rest => latencies_of key rest
  end.

Definition Qsum (l : list Q) : Q := fold_right Qplus 0%Q l.

(** The metrics of a key that has no entry yet are all zero. *)
Definition metrics_of (key : string) (state : State.RouterState) : State.ModelMetrics :=
  default State.new_metrics (State.metrics state !! key).

(** Every stored expiry is an instant after the epoch. *)
Definition expiries_positive (state : State.RouterState) : Prop :=
  forall k e, State.cooldowns state !! k = Some e -> (0 < e)%Q.

(** * The array store *)

(** [l] refers to an array of the store. *)
Definition allocated (l : loc) (rt : Runtime.t) : Prop := l < length (Runtime.arrays rt).

(** Every array of [rt] is still there in [rt'], with the same elements. *)
Definition store_preserved (rt rt' : Runtime.t) : Prop :=
  forall l, allocated l rt -> Runtime.arrays rt' !! l = Runtime.arrays rt !! l.

(** A comparator that does not touch the array store. *)
Definition pure_on_arrays {A} (comparefn : A -> A -> Runtime.t -> Q * Runtime.t) : Prop :=
  forall a b rt, Runtime.arrays (snd (comparefn a b rt)) = Runtime.arrays rt.

Section SelectTerms.
Import State Strategies.

(** What every strategy guarantees: a new array that holds a permutation
    of the configured targets, in a store whose older arrays are as they
    were. *)
Definition fresh_permutation (ts : list TargetModel.t) (rt : Runtime.t)
           (r : loc) (rt' : Runtime.t) : Prop :=
  ~ allocated r rt /\ allocated r rt' /\
  Runtime.read r rt' ≡ₚ ts /\
  store_preserved rt rt' /\
  length (Runtime.arrays rt) <= length (Runtime.arrays rt').

End SelectTerms.

(** * Round robin *)

(** The cyclic rotation of [ts] that begins at position [start]: its
    k-th element is the element of [ts] at [(start + k) mod length ts]. *)
Definition cyclic_rotation {A} (start : nat) (ts : list A) : list A :=
  omap (fun k => ts !! ((start + k) mod length ts)) (seq 0 (length ts)).

(** The stored cursor of a model id, 0 when there is none. *)
Definition cursor_of (virtualModelId : string) (state : State.RouterState) : nat :=
  default 0 (State.roundRobinIndex state !! virtualModelId).

(** [n] successive calls of [selectTargets] for one model id: the lists
    they return, in order, and the state and store after the last. *)
Fixpoint successive_calls (n : nat) (virtualModelId : string) (config : VirtualModelConfig.t)
         (state : State.RouterState) (rt : Runtime.t)
  : list (list TargetModel.t) * State.RouterState * Runtime.t :=
  match n with
  | 0 => ([], state, rt)
  | S n' =>
      let '(r, state1, rt1) := Strategies.selectTargets virtualModelId config state rt in
      let '(rs, state2, rt2) := successive_calls n' virtualModelId config state1 rt1 in
      (Runtime.read r rt1 :: rs, state2, rt2)
  end.

(** * Retry with backoff: reading the log *)

(** The outcomes of the calls of the attempt function, in order. *)
Definition calls_of (log : list Strategies.Event) : list Strategies.Outcome :=
  omap (fun e => match e with Strategies.Called o => Some o | _ => None end) log.

(** The sleeps, in order. *)
Definition sleeps_of (log : list Strategies.Event) : list Q :=
  omap (fun e => match e with Strategies.Slept ms => Some ms | _ => None end) log.

(** An outcome that asks for a retry: a thrown error, or a status that
    matches the fallback trigger. *)
Definition asks_retry (fallbackOn : FallbackOn) (o : Strategies.Outcome) : bool :=
  match o with
  | Strategies.Resolved resp => Strategies.shouldFallbackStatus (Strategies.status resp) fallbackOn
  | Strategies.Rejected _ => true
  end.

(** The delay before retry [k+1] as the loop computes it: it starts at
    [initial] and is multiplied, then capped, after each sleep. *)
Fixpoint delay_at (initial multiplier maxDelay : Q) (k : nat) : Q :=
  match k with
  | 0 => initial
  | S k' => Qmin (delay_at initial multiplier maxDelay k' * multiplier) maxDelay
  end.

(** The profile's settings as [executeWithBackoff] reads them. *)
Definition maxRetries_of (profile : StrategyProfile.t) : nat :=
  nullish (StrategyProfile.max_retries profile) 0.
Definition initial_of (profile : StrategyProfile.t) : string :=
  nullish (option_map Backoff.initial (StrategyProfile.backoff profile)) "500ms".
Definition multiplier_of (profile : StrategyProfile.t) : Q :=
  nullish (opt_chain (StrategyProfile.backoff profile) Backoff.multiplier) 2%Q.
Definition max_of (profile : StrategyProfile.t) : string :=
  nullish (opt_chain (StrategyProfile.backoff profile) Backoff.max) "30s".

(** What a run of the loop appends to the log, and what it returns. *)
Definition run_shape (multiplier maxDelay : Q) (fallbackOn : FallbackOn)
           (fuel : nat) (delay : Q) (cs : list Strategies.Outcome) (ss : list Q)
           (res : Strategies.BackoffResult) : Prop :=
  length cs = S (length ss) /\ length cs <= fuel /\
  ss = map (delay_at delay multiplier maxDelay) (seq 0 (length ss)) /\
  (forall i o, cs !! i = Some o -> S i < length cs -> asks_retry fallbackOn o = true) /\
  match last cs with
  | Some (Strategies.Resolved resp) =>
      if Strategies.shouldFallbackStatus (Strategies.status resp) fallbackOn
      then Strategies.response res = None /\
           Strategies.lastStatus res = Some (Strategies.status resp) /\ length cs = fuel
      else res = {| Strategies.response := Some resp; Strategies.lastStatus := None;
                    Strategies.lastError := None |}
  | Some (Strategies.Rejected err) =>
      Strategies.response res = None /\ Strategies.lastError res = Some err /\ length cs = fuel
  | None => False
  end.

(** * A worked retry: a backend that always answers 503 *)

Definition always_503 : nat -> Strategies.Outcome * nat :=
  fun calls => (Strategies.Resolved {| Strategies.status := 503; Strategies.body := "" |},
                S calls).

(** One retry, starting at 2s with a cap of 1s. *)
Definition slow_start : StrategyProfile.t :=
  {| StrategyProfile.max_retries := Some 1;
     StrategyProfile.timeout := None;
     StrategyProfile.backoff :=
       Some {| Backoff.type := exponential; Backoff.initial := "2s";
               Backoff.multiplier := None; Backoff.max := Some "1s" |};
     StrategyProfile.fallback_on := Some [status_code 503];
     StrategyProfile.on_fail := None;
     StrategyProfile.cooldown := None |}.

(** The sleeps of a run, when it does not throw. *)
Definition sleeps_of_run {W} (r : Result (Strategies.BackoffResult * W * list Strategies.Event))
  : list Q :=
  match r with
  | Ok (_, _, log) => sleeps_of log
  | Throw _ => []
  end.

(** * Resolved targets *)

(** What the resolver emits for a configured target. *)
Definition emitted (t : TargetModel.t) : ModelRef.t :=
  {| ModelRef.providerID := TargetModel.provider t;
     ModelRef.modelID :=
       Resolver.normalizeModelID (TargetModel.provider t) (TargetModel.model t) |}.

(** The target that a result of [resolveModel] selects. *)
Definition selected (res : Resolver.ResolvedTarget) : ModelRef.t :=
  {| ModelRef.providerID := Resolver.providerID res;
     ModelRef.modelID := Resolver.modelID res |}.

(** * Loading a configuration document *)

(** The model as [loadConfig] stores it: a missing (or empty) strategy
    becomes "sequential". *)
Definition with_default_strategy (m : Loader.RawModel) : Loader.RawModel :=
  if Loader.no_strategy (Loader.strategy m)
  then {| Loader.strategy := Some sequential;
          Loader.strategy_profile := Loader.strategy_profile m;
          Loader.fallback_on := Loader.fallback_on m;
          Loader.cooldown := Loader.cooldown m;
          Loader.targets := Loader.targets m |}
  else m.

(** The four ways an entry can be invalid. *)
Definition no_targets (m : Loader.RawModel) : Prop :=
  Loader.targets m = None \/ Loader.targets m = Some [].

Definition target_lacks_field (m : Loader.RawModel) : Prop :=
  exists ts t, Loader.targets m = Some ts /\ t ∈ ts /\
    (Loader.falsy (Loader.model t) = true \/ Loader.falsy (Loader.provider t) = true).

Definition unknown_profile (raw : Loader.VirtualConfig) (m : Loader.RawModel) (p : string) : Prop :=
  Loader.strategy_profile m = Some p /\ p <> "" /\
  forall profile, (p, profile) ∉ nullish (Loader.strategies raw) [].

Definition weight_missing (m : Loader.RawModel) : Prop :=
  Loader.strategy m = Some weighted /\
  exists ts t, Loader.targets m = Some ts /\ t ∈ ts /\ Loader.weight t = Loader.no_weight.

Section LoaderTerms.
Import Loader.

Definition loaded_key (name : string) : string := "virtual/" +:+ name.

Definition broken_model : Loader.RawModel :=
  {| Loader.strategy := Some weighted;
     Loader.strategy_profile := Some "nope";
     Loader.fallback_on := None;
     Loader.cooldown := None;
     Loader.targets :=
       Some [ {| Loader.model := Some "x"; Loader.provider := None;
                 Loader.weight := Loader.no_weight |} ] |}.

Definition broken_document : Loader.VirtualConfig :=
  {| Loader.models := Some [("m", broken_model)]; Loader.strategies := None |}.

End LoaderTerms.

(** The document, as [JSON.parse] returns it, whose model entries are
    the objects of [raw]. *)
Definition parsed (raw : Loader.VirtualConfig) : Unchecked.Nullable Unchecked.VirtualConfig :=
  Unchecked.object
    {| Unchecked.models :=
         option_map (map (fun entry => (fst entry, Unchecked.object (snd entry))))
                    (Loader.models raw);
       Unchecked.strategies := Loader.strategies raw |}.

(** A usable model, and a document that has it as "work" and [null] as
    "gone". *)
Definition usable_model : Loader.RawModel :=
  {| Loader.strategy := Some sequential;
     Loader.strategy_profile := None;
     Loader.fallback_on := None;
     Loader.cooldown := None;
     Loader.targets :=
       Some [ {| Loader.model := Some "claude-sonnet-4"; Loader.provider := Some "anthropic";
                 Loader.weight := Loader.no_weight |} ] |}.

Definition null_entry_document : Unchecked.Nullable Unchecked.VirtualConfig :=
  Unchecked.object
    {| Unchecked.models :=
         Some [("work", Unchecked.object usable_model); ("gone", Unchecked.null)];
       Unchecked.strategies := None |}.

(** * The session fallback cursor *)

(** The key under which the hooks look a target up in the cooldown store. *)
Definition modelKey (t : TargetModel.t) : string :=
  TargetModel.provider t +:+ "/"
    +:+ Plugin.normalizeModelID (TargetModel.provider t) (TargetModel.model t).

Definition model_ref (t : TargetModel.t) : ModelRef.t :=
  {| ModelRef.providerID := TargetModel.provider t;
     ModelRef.modelID :=
       Plugin.normalizeModelID (TargetModel.provider t) (TargetModel.model t) |}.

(** [t] is cooled down at [now]: what [isInCooldown] answers for it. *)
Definition cooled (now : Q) (state : State.RouterState) (t : TargetModel.t) : Prop :=
  fst (State.isInCooldown now (modelKey t) state) = true.

(** [i] is the first index from [from] on whose target is not cooled down. *)
Definition first_viable (now : Q) (state : State.RouterState) (ts : list TargetModel.t)
           (from i : nat) (t : TargetModel.t) : Prop :=
  from <= i /\ ts !! i = Some t /\ ~ cooled now state t /\
  forall j t', from <= j < i -> ts !! j = Some t' -> cooled now state t'.

(** No target from [from] on is viable. *)
Definition none_viable (now : Q) (state : State.RouterState) (ts : list TargetModel.t)
           (from : nat) : Prop :=
  forall j t', from <= j -> ts !! j = Some t' -> cooled now state t'.

(** The cooldown of the merged policy is absent, or it parses. *)
Definition cooldown_parses (config : VirtualModelConfig.t)
           (profiles : gmap string StrategyProfile.t) : Prop :=
  match ResolvedModelConfig.cooldown
          (ConfigStrategies.mergeWithProfile
             config (ConfigStrategies.resolveProfile config profiles)) with
  | None => True
  | Some d => exists ms, Duration.parseDuration d = Ok ms
  end.

(** A failure report the event hook acts on. *)
Definition failure_report (sessionID : string) (error : Plugin.SessionError) : Plugin.HostEvent :=
  {| Plugin.type := "session.error";
     Plugin.sessionID := Some sessionID;
     Plugin.error := Some error |}.

Section CursorTerms.
Import State Plugin.

(** The verdict of [isInCooldown] on a key, as a function of the store. *)
Definition verdict (now : Q) (state : RouterState) (key : string) : bool :=
  fst (isInCooldown now key state).

End CursorTerms.

(** * A worked session: model "virtual/w", targets A then B *)

Definition target_a : TargetModel.t :=
  {| TargetModel.model := "a"; TargetModel.provider := "p"; TargetModel.weight := None |}.
Definition target_b : TargetModel.t :=
  {| TargetModel.model := "b"; TargetModel.provider := "p"; TargetModel.weight := None |}.

Definition two_targets (cooldown : option string) : VirtualModelConfig.t :=
  {| VirtualModelConfig.strategy := sequential;
     VirtualModelConfig.strategy_profile := None;
     VirtualModelConfig.fallback_on := None;
     VirtualModelConfig.cooldown := cooldown;
     VirtualModelConfig.targets := 0 |}.

Definition store_ab : Runtime.t :=
  {| Runtime.arrays := [[target_a; target_b]]; Runtime.rand := fun _ => 0%Q; Runtime.drawn := 0 |}.

(** Session "s1" is bound to "virtual/w"; [cursor] is its cursor entry. *)
Definition session_at (cooldown : option string) (cooldowns : gmap string Q)
           (cursor : option nat) : Plugin.Closure :=
  {| Plugin.loadedConfig :=
       {| Plugin.virtualModels := {[ "virtual/w" := two_targets cooldown ]};
          Plugin.strategyProfiles := ∅ |};
     Plugin.state :=
       {| State.cooldowns := cooldowns; State.roundRobinIndex := ∅; State.metrics := ∅ |};
     Plugin.sessionFallbackCursor :=
       match cursor with Some c => {[ "s1" := c ]} | None => ∅ end;
     Plugin.sessionVirtualModel := {[ "s1" := "virtual/w" ]};
     Plugin.runtime := store_ab |}.

Definition status_503 : Plugin.SessionError :=
  {| Plugin.name := None; Plugin.statusCode := Some 503%Z |}.

(** The first dispatch of "s1" binds index 0; a 503 then moves it to 1. *)
Definition fresh_plugin : Plugin.Closure :=
  {| Plugin.loadedConfig :=
       {| Plugin.virtualModels := {[ "virtual/w" := two_targets None ]};
          Plugin.strategyProfiles := ∅ |};
     Plugin.state := State.createRouterState;
     Plugin.sessionFallbackCursor := ∅;
     Plugin.sessionVirtualModel := ∅;
     Plugin.runtime := store_ab |}.

Definition after_dispatch : Plugin.Closure :=
  snd (Plugin.chat_message 1000 "s1"
         (Some {| ModelRef.providerID := "virtual"; ModelRef.modelID := "w" |}) None fresh_plugin).

Definition round_robin_ab : VirtualModelConfig.t :=
  {| VirtualModelConfig.strategy := round_robin;
     VirtualModelConfig.strategy_profile := None;
     VirtualModelConfig.fallback_on := None;
     VirtualModelConfig.cooldown := None;
     VirtualModelConfig.targets := 0 |}.

Definition random_ab : VirtualModelConfig.t :=
  {| VirtualModelConfig.strategy := random;
     VirtualModelConfig.strategy_profile := None;
     VirtualModelConfig.fallback_on := None;
     VirtualModelConfig.cooldown := None;
     VirtualModelConfig.targets := 0 |}.

(** The model "virtual/w" before and after a reload of the configuration
    that shortens its list from four targets to two.  The router state
    is made once, when the plugin starts, and outlives the reload. *)
Definition target_c : TargetModel.t :=
  {| TargetModel.model := "c"; TargetModel.provider := "p"; TargetModel.weight := None |}.
Definition target_d : TargetModel.t :=
  {| TargetModel.model := "d"; TargetModel.provider := "p"; TargetModel.weight := None |}.

Definition store_reloaded : Runtime.t :=
  {| Runtime.arrays := [[target_a; target_b; target_c; target_d]; [target_a; target_b]];
     Runtime.rand := fun _ => 0%Q; Runtime.drawn := 0 |}.

Definition round_robin_at (targets : loc) : VirtualModelConfig.t :=
  {| VirtualModelConfig.strategy := round_robin;
     VirtualModelConfig.strategy_profile := None;
     VirtualModelConfig.fallback_on := None;
     VirtualModelConfig.cooldown := None;
     VirtualModelConfig.targets := targets |}.

(** A target whose configured id repeats the provider prefix. *)
Definition target_twice : TargetModel.t :=
  {| TargetModel.model := "openrouter/openrouter/gpt-4o";
     TargetModel.provider := "openrouter";
     TargetModel.weight := None |}.

Definition store_twice : Runtime.t :=
  {| Runtime.arrays := [[target_twice]]; Runtime.rand := fun _ => 0%Q; Runtime.drawn := 0 |}.

Definition resolve_twice : option Resolver.ResolvedTarget :=
  fst (fst (Resolver.resolveModel 1000 "virtual/t" {[ "virtual/t" := two_targets None ]} ∅
              State.createRouterState store_twice)).

(** * The weighted strategy *)

(** The sum that [weightedSort] divides by: a target without weight
    counts as 1. *)
Definition total_weight (ts : list TargetModel.t) : Q :=
  fold_left (fun sum t => (sum + nullish (TargetModel.weight t) 1)%Q) ts 0%Q.

(** The score of the target at position [i] of the list: the [i]-th draw
    of the call, times the share of the target in the total weight. *)
Definition scored_at (rt : Runtime.t) (total : Q) (i : nat) (t : TargetModel.t)
  : Strategies.Scored :=
  {| Strategies.target := t;
     Strategies.score :=
       (Runtime.rand rt (Runtime.drawn rt + i) * (nullish (TargetModel.weight t) 1 / total))%Q |}.

(** No element is followed by one of a higher score. *)
Definition descending_scores (l : list Strategies.Scored) : Prop :=
  forall i j a b, i <= j -> l !! i = Some a -> l !! j = Some b ->
                  (Strategies.score b <= Strategies.score a)%Q.

(** The same, by recursion on the list. *)
Fixpoint descending (l : list Strategies.Scored) : Prop :=
  match l with
  | [] => True
  | x :: rest =>
      Forall (fun y => (Strategies.score y <= Strategies.score x)%Q) rest /\ descending rest
  end.

(** The comparator of [weightedSort]: [(a, b) => b.score - a.score]. *)
Definition by_score (a b : Strategies.Scored) (rt : Runtime.t) : Q * Runtime.t :=
  ((Strategies.score b - Strategies.score a)%Q, rt).

Definition weighted_ab : VirtualModelConfig.t :=
  {| VirtualModelConfig.strategy := weighted;
     VirtualModelConfig.strategy_profile := None;
     VirtualModelConfig.fallback_on := None;
     VirtualModelConfig.cooldown := None;
     VirtualModelConfig.targets := 0 |}.

(** The targets A and B, and a tape whose first draw is 1/4 and whose
    later draws are 3/4. *)
Definition store_ab_drawn : Runtime.t :=
  {| Runtime.arrays := [[target_a; target_b]];
     Runtime.rand := fun n => match n with 0 => (1 # 4)%Q | _ => (3 # 4)%Q end;
     Runtime.drawn := 0 |}.

(** * Metrics: counting the calls *)

(** The key that a call names. *)
Definition key_of (c : MetricsCall) : string :=
  match c with
  | call_recordSuccess k _ => k
  | call_recordFailure k => k
  | call_recordFallback k => k
  end.

Definition is_success (key : string) (c : MetricsCall) : bool :=
  match c with call_recordSuccess k _ => String.eqb k key | _ => false end.

Definition is_failure (key : string) (c : MetricsCall) : bool :=
  match c with call_recordFailure k => String.eqb k key | _ => false end.

Definition is_fallback (key : string) (c : MetricsCall) : bool :=
  match c with call_recordFallback k => String.eqb k key | _ => false end.

(** How many of the calls satisfy [p]. *)
Fixpoint count_calls (p : MetricsCall -> bool) (calls : list MetricsCall) : nat :=
  match calls with
  | [] => 0
  | c :: rest => (if p c then 1 else 0) + count_calls p rest
  end.

(** * Dispatching a message *)

(** The model that a message asks for: [hookInput.model] when the host
    gives it, else [output.message.model]. *)
Definition requested_model (incoming output : option ModelRef.t) : option ModelRef.t :=
  match incoming with Some m => Some m | None => output end.

(** The two ways to address a virtual model: an alias under the
    provider "virtual", or, under any other provider, a model id that
    begins with "virtual/". *)
Definition addresses (m : ModelRef.t) (virtualModelID : string) : Prop :=
  (ModelRef.providerID m = "virtual" /\ virtualModelID = "virtual/" +:+ ModelRef.modelID m) \/
  (ModelRef.providerID m <> "virtual" /\ startsWith (ModelRef.modelID m) "virtual/" = true /\
   virtualModelID = ModelRef.modelID m).

Definition alias_w : ModelRef.t := {| ModelRef.providerID := "virtual"; ModelRef.modelID := "w" |}.

Definition claude : ModelRef.t :=
  {| ModelRef.providerID := "anthropic"; ModelRef.modelID := "claude-sonnet-4" |}.

(** * Failure reports *)

(** The events that the event hook does not act on: another type of
    event, no session or no error in it, a session that is not bound to
    a loaded virtual model, or an error that does not warrant a
    fallback. *)
Definition not_acted_on (ev : Plugin.HostEvent) (p : Plugin.Closure) : Prop :=
  Plugin.type ev <> "session.error" \/
  Plugin.sessionID ev = None \/ Plugin.sessionID ev = Some "" \/
  Plugin.error ev = None \/
  exists sessionID error,
    Plugin.sessionID ev = Some sessionID /\ Plugin.error ev = Some error /\
    (Plugin.sessionVirtualModel p !! sessionID = None \/
     Plugin.sessionVirtualModel p !! sessionID = Some "" \/
     exists virtualModelID,
       Plugin.sessionVirtualModel p !! sessionID = Some virtualModelID /\
       (Plugin.virtualModels (Plugin.loadedConfig p) !! virtualModelID = None \/
        exists config,
          Plugin.virtualModels (Plugin.loadedConfig p) !! virtualModelID = Some config /\
          Plugin.shouldFallbackForError
            error config (Plugin.strategyProfiles (Plugin.loadedConfig p)) = false)).

(** The cooldown of the merged policy of a model. *)
Definition cooldown_of (config : VirtualModelConfig.t)
           (profiles : gmap string StrategyProfile.t) : option string :=
  ResolvedModelConfig.cooldown
    (ConfigStrategies.mergeWithProfile config (ConfigStrategies.resolveProfile config profiles)).

(** The first half of the event hook, on the target at the cursor: the
    failure is recorded and the target is cooled down.  The error is
    what [setCooldown] threw, if it did. *)
Definition mark_failed (now : Q) (cooldown : option string)
           (current : option TargetModel.t) (state1 : State.RouterState)
  : option Error * State.RouterState :=
  match current with
  | Some currentTarget =>
      let state2 := State.recordFallback (modelKey currentTarget)
                      (State.recordFailure (modelKey currentTarget) state1) in
      match State.setCooldown now (modelKey currentTarget) cooldown state2 with
      | Ok state3 => (None, state3)
      | Throw e => (Some e, state2)
      end
  | None => (None, state1)
  end.

(** The second half of the event hook: the cursor of the session moves
    on from [currentCursor]. *)
Definition advance (now : Q) (sessionID_ : string) (currentCursor : nat)
           (ts : list TargetModel.t) (p1 : Plugin.Closure)
  : Result Plugin.EventResult * Plugin.Closure :=
  let nextCursor := currentCursor + 1 in
  if (length ts <=? nextCursor)%nat then
    (Ok Plugin.Exhausted,
     Plugin.set_cursor (delete sessionID_ (Plugin.sessionFallbackCursor p1)) p1)
  else
    let p2 := Plugin.set_cursor
                (<[sessionID_ := nextCursor]> (Plugin.sessionFallbackCursor p1)) p1 in
    let (nextResolved, state4) :=
      Plugin.scan now nextCursor (drop nextCursor ts) (Plugin.state p2) in
    let p3 := Plugin.set_state state4 (Plugin.runtime p2) p2 in
    match nextResolved with
    | Some (i, r) =>
        (Ok (Plugin.FellBack r),
         Plugin.set_cursor (<[sessionID_ := i]> (Plugin.sessionFallbackCursor p3)) p3)
    | None => (Ok Plugin.AllRemainingInCooldown, p3)
    end.

(** A model whose cooldown is not a duration. *)
Definition malformed_cooldown : Plugin.Closure := session_at (Some "5 minutes") ∅ (Some 0).

(** * Loaded configurations *)

(** A field that is there and is not the empty string. *)
Definition present (s : option string) : Prop := exists x, s = Some x /\ x <> "".

(** What [loadConfig] lets in: an entry of the document that has at
    least one target, under the key "virtual/" + its name, with the
    default strategy filled in. *)
Definition loaded_from (raw : Loader.VirtualConfig) (entry : string * Loader.RawModel) : Prop :=
  exists name m0,
    (name, m0) ∈ nullish (Loader.models raw) [] /\
    fst entry = "virtual/" +:+ name /\
    snd entry = with_default_strategy m0 /\
    (exists t ts, Loader.targets (snd entry) = Some (t :: ts)) /\
    Loader.no_strategy (Loader.strategy (snd entry)) = false.

(** What [validateConfig] asks of a loaded model. *)
Definition well_formed_model (m : Loader.RawModel) : Prop :=
  forall ts, Loader.targets m = Some ts ->
    (forall t, t ∈ ts -> present (Loader.model t) /\ present (Loader.provider t)) /\
    (Loader.strategy m = Some weighted ->
     forall t, t ∈ ts -> Loader.weight t <> Loader.no_weight).

Definition profile_fast : StrategyProfile.t :=
  {| StrategyProfile.max_retries := Some 2;
     StrategyProfile.timeout := None;
     StrategyProfile.backoff := None;
     StrategyProfile.fallback_on := Some [status_code 503];
     StrategyProfile.on_fail := None;
     StrategyProfile.cooldown := Some "1m" |}.

(** A document with a profile and no model. *)
Definition profiles_only : Loader.VirtualConfig :=
  {| Loader.models := None; Loader.strategies := Some [("fast", profile_fast)] |}.

(** * Merging into the configuration of the host *)

(** A value that has no key [__proto__], at any depth of its objects.
    (What is inside an array does not count: [deepMerge] stores arrays
    whole.) *)
Fixpoint proto_free (v : Json.t) : bool :=
  match v with
  | Json.Object entries =>
      (fix all (entries : list (string * Json.t)) : bool :=
         match entries with
         | [] => true
         | (key, value) :: rest =>
             negb (String.eqb key "__proto__") && proto_free value && all rest
         end) entries
  | _ => true
  end.

(** What one entry of the source does to the destination. *)
Definition merge_entry (dst : list (string * Json.t)) (key : string) (srcVal : Json.t)
  : Host.Completion (list (string * Json.t)) :=
  match srcVal, Host.get key dst with
  | Json.Object s, Host.Own (Json.Object d) =>
      match ConfigHook.deepMerge d s with
      | Host.Normal merged => Host.Normal (Loader.map_set key (Json.Object merged) dst)
      | abrupt => abrupt
      end
  | Json.Object _, Host.Prototype => Host.ReachesPrototype
  | _, _ => Host.set key srcVal dst
  end.

(** A replacement block that names the prototype. *)
Definition polluting : list (string * Json.t) :=
  [("__proto__", Json.Object [("polluted", Json.Boolean true)])].

(** The live configuration of the host and a replacement block for it. *)
Definition live_config : list (string * Json.t) :=
  [("model", Json.Text "anthropic/claude-sonnet-4");
   ("agent", Json.Object [("build", Json.Object [("mode", Json.Text "primary")])]);
   ("plugin", Json.Array [Json.Text "a"])].

Definition replacement : list (string * Json.t) :=
  [("model", Json.Text "virtual/work-build");
   ("agent", Json.Object [("build", Json.Object [("model", Json.Text "virtual/work-build")])])].

(** * The models of the virtual provider *)

(** The shape of the models of a loaded configuration: distinct keys,
    each "virtual/" followed by a name, and at least one target. *)
Definition loaded_shape (virtualModels : Loader.Map Loader.RawModel) : Prop :=
  NoDup (map fst virtualModels) /\
  Forall (fun entry =>
            (exists name, fst entry = "virtual/" +:+ name) /\
            exists t ts, Loader.targets (snd entry) = Some (t :: ts))
         virtualModels.

(** The metadata that a virtual model inherits: the model of the catalog
    that its primary target names, if the catalog has it. *)
Definition inherited (catalog : list Catalog.ProviderCatalogEntry) (m : Loader.RawModel)
  : option Catalog.ProviderCatalogModel :=
  match Loader.targets m with
  | Some (primary :: _) =>
      match Loader.provider primary, Loader.model primary with
      | Some provider, Some model =>
          match find (fun entry => String.eqb (Catalog.id entry) provider) catalog with
          | Some entry =>
              Loader.map_get (Catalog.normalizeTargetModelForProvider model provider)
                             (Catalog.models entry)
          | None => None
          end
      | _, _ => None
      end
  | _ => None
  end.

(** A name that no object inherits from [Object.prototype]. *)
Definition plain_name (name : string) : Prop :=
  name <> "__proto__" /\ name ∉ Host.inherited_functions.

(** The id under which the catalog is asked for the model of a primary
    target: the model id with one provider prefix stripped. *)
Definition source_id (m : Loader.RawModel) : option string :=
  match Loader.targets m with
  | Some (primary :: _) =>
      match Loader.provider primary, Loader.model primary with
      | Some provider, Some model =>
          Some (Catalog.normalizeTargetModelForProvider model provider)
      | _, _ => None
      end
  | _ => None
  end.

(** No model is called [__proto__]. *)
Definition no_proto_model (virtualModels : Loader.Map Loader.RawModel) : Prop :=
  forall m, ("virtual/__proto__", m) ∉ virtualModels.

(** No primary target asks the catalog for a name that objects inherit. *)
Definition plain_sources (virtualModels : Loader.Map Loader.RawModel) : Prop :=
  forall key m id, (key, m) ∈ virtualModels -> source_id m = Some id -> plain_name id.

(** Every primary target has a model id. *)
Definition primaries_named (virtualModels : Loader.Map Loader.RawModel) : Prop :=
  forall key m t ts, (key, m) ∈ virtualModels -> Loader.targets m = Some (t :: ts) ->
                     Loader.model t <> None.

(** A document with one model, "work", whose primary target is
    "anthropic/claude-sonnet-4" of the provider "anthropic", and a
    catalog that knows that model. *)
Definition work_document : Loader.VirtualConfig :=
  {| Loader.models :=
       Some [("work",
              {| Loader.strategy := None;
                 Loader.strategy_profile := None;
                 Loader.fallback_on := None;
                 Loader.cooldown := None;
                 Loader.targets :=
                   Some [ {| Loader.model := Some "anthropic/claude-sonnet-4";
                              Loader.provider := Some "anthropic";
                              Loader.weight := Loader.no_weight |} ] |})];
     Loader.strategies := None |}.

Definition sonnet_metadata : Catalog.ProviderCatalogModel :=
  [("id", Json.Text "claude-sonnet-4"); ("name", Json.Text "Claude Sonnet 4")].

Definition anthropic_catalog : list Catalog.ProviderCatalogEntry :=
  [ {| Catalog.id := "anthropic"; Catalog.models := [("claude-sonnet-4", sonnet_metadata)] |} ].

(** * The fetch pipeline *)

(** The virtual model that a request asks for: the [model] of its body,
    with "virtual/" put in front unless it is there already. *)
Definition asks_for (requestedModel : option string) (virtualModelID : string) : Prop :=
  exists m, requestedModel = Some m /\ m <> "" /\
            ((startsWith m "virtual/" = true /\ virtualModelID = m) \/
             (startsWith m "virtual/" = false /\ virtualModelID = "virtual/" +:+ m)).

(** The host's fetch, with a record of the requests handed to it. *)
Definition recording {W : Type}
           (fetch : AuthLoader.Forwarded -> W -> Strategies.Outcome * W)
  : AuthLoader.Forwarded -> W * list AuthLoader.Forwarded
    -> Strategies.Outcome * (W * list AuthLoader.Forwarded) :=
  fun request wl =>
    let (o, w1) := fetch request (fst wl) in (o, (w1, snd wl ++ [request])).

(** The request that the pipeline forwards for a target. *)
Definition forwarded_for (t : TargetModel.t) : AuthLoader.Forwarded :=
  AuthLoader.Rewritten (modelKey t).

(** Between [before] and [after], the metrics recorded failures and
    nothing else: no success and no latency, one request for every
    failure, and at most one fallback for every failure. *)
Definition only_failures (before after : State.RouterState) : Prop :=
  forall key,
    let b := metrics_of key before in
    let a := metrics_of key after in
    State.successes a = State.successes b /\
    State.totalLatencyMs a = State.totalLatencyMs b /\
    State.failures b <= State.failures a /\
    State.requests a + State.failures b = State.requests b + State.failures a /\
    State.fallbacks b <= State.fallbacks a /\
    State.fallbacks a + State.failures b <= State.fallbacks b + State.failures a.

(** A host whose fetch answers 503 for the target A and 200 for every
    other request; its world is the clock. *)
Definition flaky_a (request : AuthLoader.Forwarded) (clock : Q) : Strategies.Outcome * Q :=
  match request with
  | AuthLoader.Rewritten "p/a" =>
      (Strategies.Resolved {| Strategies.status := 503; Strategies.body := "busy" |},
       (clock + 40)%Q)
  | _ =>
      (Strategies.Resolved {| Strategies.status := 200; Strategies.body := "ok" |},
       (clock + 40)%Q)
  end.

(** A host whose fetch always rejects. *)
Definition offline (request : AuthLoader.Forwarded) (clock : Q) : Strategies.Outcome * Q :=
  (Strategies.Rejected "ECONNREFUSED", (clock + 40)%Q).

(** * The log of a run with retries *)

(** A call, then a sleep and a call for every retry: the log never ends
    with a sleep and never holds two sleeps in a row. *)
Inductive alternating : list Strategies.Event -> Prop :=
| alternating_last o : alternating [Strategies.Called o]
| alternating_retry o ms rest :
    alternating rest -> alternating (Strategies.Called o :: Strategies.Slept ms :: rest).

(** * The warnings of the loader *)

(** A warning that has a cause in the document: an entry without
    targets, or an entry with targets whose profile the document lacks. *)
Definition warned_for (raw : Loader.VirtualConfig) (w : string) : Prop :=
  exists name m,
    (name, m) ∈ nullish (Loader.models raw) [] /\
    ((no_targets m /\ w = Loader.no_targets_warning name) \/
     (~ no_targets m /\
      exists p, unknown_profile raw m p /\ w = Loader.profile_not_found_warning p name)).

(** * Part III: the properties *)

Section DurationFacts.
Import Duration.

Lemma span_digits_spec s ds rest :
  span_digits s = (ds, rest) ->
  s = ds ++ rest /\ forallb isDigit ds = true /\
  match rest with c :: _ => isDigit c = false | [] => True end.
Proof.
  revert ds rest. induction s as [|c s IH]; intros ds rest H; simpl in H.
  - inversion H; subst. auto.
  - destruct (isDigit c) eqn:Hc.
    + destruct (span_digits s) as [ds' rest'] eqn:Hs. inversion H; subst.
      destruct (IH _ _ eq_refl) as (-> & Hd & Hr). simpl. rewrite Hc. auto.
    + inversion H; subst. simpl. auto.
Qed.

Lemma span_digits_intro ds rest :
  forallb isDigit ds = true ->
  match rest with c :: _ => isDigit c = false | [] => True end ->
  span_digits (ds ++ rest) = (ds, rest).
Proof.
  intros Hd Hr. induction ds as [|c ds IH]; simpl in *.
  - destruct rest as [|c r]; [reflexivity|]. simpl. now rewrite Hr.
  - apply andb_prop in Hd as [Hc Hd]. rewrite Hc, (IH Hd). reflexivity.
Qed.

Lemma plus_digits {R} (k : list ascii -> option R) s :
  rejects_digits k ->
  plus_k Digit s k =
    let (ds, rest) := span_digits s in
    match ds with [] => None | _ => k rest end.
Proof.
  intros Hk. induction s as [|c s IH]; simpl; [reflexivity|].
  destruct (isDigit c) eqn:Hc; [|reflexivity].
  rewrite IH. destruct (span_digits s) as [ds rest] eqn:Hs.
  destruct (span_digits_spec _ _ _ Hs) as (-> & Hd & Hr).
  destruct ds as [|d ds]; simpl.
  - reflexivity.
  - destruct (k rest) eqn:Hkr; [reflexivity|].
    simpl in Hd. apply andb_prop in Hd as [Hd _]. apply Hk, Hd.
Qed.

Lemma units_match s caps r :
  rmatch units_re s caps at_end = Some r <->
  exists u, s = list_ascii_of_string (suffix u) /\ r = caps ++ [suffix u].
Proof.
  split.
  - intros H. destruct s as [|c1 [|c2 [|c3 s]]]; simpl in H;
      repeat match type of H with
             | context [ascii_dec ?a ?b] => destruct (ascii_dec a b); subst
             end; try discriminate; inversion H; subst;
      first [ now exists unit_s | now exists unit_m | now exists unit_h | now exists unit_ms ].
  - intros [u [-> ->]]. destruct u; reflexivity.
Qed.

Lemma units_reject_digits (caps : list ascii -> list string) :
  rejects_digits (fun s => rmatch units_re s (caps s) at_end).
Proof.
  intros c s Hc. destruct (rmatch units_re (c :: s) (caps (c :: s)) at_end) eqn:H; [|reflexivity].
  apply units_match in H as [u [Hu _]].
  destruct u; inversion Hu; subst; discriminate.
Qed.

Lemma take_consumed (a b : list ascii) :
  take (length (a ++ b) - length b) (a ++ b) = a.
Proof.
  rewrite length_app, Nat.add_sub. apply take_app_length.
Qed.

Lemma match_duration_re d :
  match_anchored duration_re d = scan_duration (list_ascii_of_string d).
Proof.
  unfold match_anchored, scan_duration.
  set (s := list_ascii_of_string d).
  change (rmatch duration_re s [] _) with
    (plus_k Digit s
       (fun s1 =>
          rmatch (Opt (Seq (Chr ".") (Plus Digit))) s1 []
            (fun s' caps' =>
               rmatch units_re s'
                 (caps' ++ [string_of_list_ascii (take (length s - length s') s)]) at_end))).
  rewrite plus_digits.
  2:{ intros c s1 Hc. cbn [rmatch].
      destruct (ascii_dec c "."); [subst; discriminate|].
      apply (units_reject_digits (fun s' => [] ++ [string_of_list_ascii (take (length s - length s') s)]) c s1 Hc). }
  destruct (span_digits s) as [ip r1] eqn:Hs.
  destruct (span_digits_spec _ _ _ Hs) as (Heq & Hip & Hr1).
  destruct ip as [|i0 ip]; [reflexivity|].
  set (ip' := i0 :: ip) in *.
  assert (Hdirect :
    rmatch units_re r1 ([] ++ [string_of_list_ascii (take (length s - length r1) s)]) at_end
    = rmatch units_re r1 [string_of_list_ascii ip'] at_end).
  { rewrite Heq, take_consumed. reflexivity. }
  destruct r1 as [|c r2].
  - cbn [rmatch]. exact Hdirect.
  - cbn [rmatch]. destruct (ascii_dec c ".") as [->|Hne].
    + rewrite plus_digits
        by apply (units_reject_digits
                    (fun s' => [] ++ [string_of_list_ascii (take (length s - length s') s)])).
      destruct (span_digits r2) as [fp r3] eqn:Hs2.
      destruct (span_digits_spec _ _ _ Hs2) as (Heq2 & Hfp & Hr3).
      assert (Hdot : rmatch units_re ("."%char :: r2)
                ([] ++ [string_of_list_ascii (take (length s - length ("."%char :: r2)) s)])
                at_end = None).
      { destruct (rmatch units_re _ _ _) eqn:H; [|reflexivity].
        apply units_match in H as [u [Hu _]]. destruct u; discriminate. }
      destruct fp as [|f0 fp]; [exact Hdot|].
      assert (Hcap : take (length s - length r3) s = ip' ++ "."%char :: (f0 :: fp)).
      { rewrite Heq, Heq2.
        change (ip' ++ "."%char :: (f0 :: fp) ++ r3)
          with (ip' ++ ("."%char :: (f0 :: fp)) ++ r3).
        rewrite app_assoc. apply take_consumed. }
      rewrite Hcap.
      destruct (rmatch units_re r3 _ at_end) eqn:H; [reflexivity|]. exact Hdot.
    + destruct c as [[] [] [] [] [] [] [] []]; try exact Hdirect; contradiction.
Qed.

Lemma string_of_list_ascii_app (a b : list ascii) :
  string_of_list_ascii (a ++ b) = string_of_list_ascii a +:+ string_of_list_ascii b.
Proof. induction a as [|c a IH]; simpl; [reflexivity|]. now rewrite IH. Qed.

Lemma suffix_not_digit u :
  match list_ascii_of_string (suffix u) with
  | c :: _ => isDigit c = false
  | [] => True
  end.
Proof. destruct u; reflexivity. Qed.

Lemma scan_duration_Some s caps :
  scan_duration s = Some caps <->
  exists u,
    (exists ip, digits ip /\ s = ip ++ list_ascii_of_string (suffix u) /\
                caps = [string_of_list_ascii ip; suffix u]) \/
    (exists ip fp, digits ip /\ digits fp /\
                   s = ip ++ "."%char :: fp ++ list_ascii_of_string (suffix u) /\
                   caps = [string_of_list_ascii (ip ++ "."%char :: fp); suffix u]).
Proof.
  unfold scan_duration. split.
  - destruct (span_digits s) as [ip r1] eqn:Hs.
    destruct (span_digits_spec _ _ _ Hs) as (-> & Hip & Hr1).
    destruct ip as [|i0 ip]; [discriminate|].
    assert (Hdig : digits (i0 :: ip)) by (split; [discriminate|exact Hip]).
    assert (Hint : rmatch units_re r1 [string_of_list_ascii (i0 :: ip)] at_end = Some caps ->
                   exists u, (exists ip0, digits ip0 /\
                      (i0 :: ip) ++ r1 = ip0 ++ list_ascii_of_string (suffix u) /\
                      caps = [string_of_list_ascii ip0; suffix u]) \/
                    (exists ip0 fp, digits ip0 /\ digits fp /\
                      (i0 :: ip) ++ r1 = ip0 ++ "."%char :: fp ++ list_ascii_of_string (suffix u) /\
                      caps = [string_of_list_ascii (ip0 ++ "."%char :: fp); suffix u])).
    { intros H. apply units_match in H as [u [-> ->]].
      exists u. left. exists (i0 :: ip). auto. }
    destruct r1 as [|c r2]; [exact Hint|].
    destruct (ascii_dec c ".") as [->|Hne].
    + destruct (span_digits r2) as [fp r3] eqn:Hs2.
      destruct (span_digits_spec _ _ _ Hs2) as (-> & Hfp & Hr3).
      destruct fp as [|f0 fp]; [discriminate|].
      intros H. apply units_match in H as [u [-> ->]].
      exists u. right. exists (i0 :: ip), (f0 :: fp).
      repeat split; auto; discriminate.
    + destruct c as [[] [] [] [] [] [] [] []]; try exact Hint; contradiction.
  - intros [u [(ip & [Hne Hip] & -> & ->)|(ip & fp & [Hne Hip] & [Hnf Hfp] & -> & ->)]].
    + rewrite (span_digits_intro _ _ Hip (suffix_not_digit u)).
      destruct ip as [|i0 ip]; [contradiction|].
      assert (H : rmatch units_re (list_ascii_of_string (suffix u))
                    [string_of_list_ascii (i0 :: ip)] at_end
                  = Some [string_of_list_ascii (i0 :: ip); suffix u]).
      { apply units_match. exists u. auto. }
      destruct u; exact H.
    + rewrite (span_digits_intro ip ("."%char :: fp ++ list_ascii_of_string (suffix u)) Hip eq_refl).
      destruct ip as [|i0 ip]; [contradiction|].
      rewrite (span_digits_intro _ _ Hfp (suffix_not_digit u)).
      destruct fp as [|f0 fp]; [contradiction|].
      apply units_match. exists u. auto.
Qed.

Lemma parseFloat_integer ip :
  digits ip -> parseFloat (string_of_list_ascii ip) = integer ip.
Proof.
  intros [_ Hip]. unfold parseFloat.
  rewrite list_ascii_of_string_of_list_ascii.
  rewrite <- (app_nil_r ip) at 1.
  now rewrite (span_digits_intro ip [] Hip I).
Qed.

Lemma parseFloat_decimal ip fp :
  digits ip -> digits fp ->
  parseFloat (string_of_list_ascii (ip ++ "."%char :: fp)) = decimal ip fp.
Proof.
  intros [_ Hip] [Hne Hfp]. unfold parseFloat.
  rewrite list_ascii_of_string_of_list_ascii.
  rewrite (span_digits_intro ip ("."%char :: fp) Hip eq_refl).
  rewrite <- (app_nil_r fp) at 1.
  rewrite (span_digits_intro fp [] Hfp I).
  destruct fp; [contradiction|reflexivity].
Qed.

Lemma apply_unit_suffix value u :
  exists v, apply_unit value (suffix u) = Ok v /\ (v == value * factor u)%Q.
Proof.
  destruct u; cbn; eexists; (split; [reflexivity|]); unfold factor; ring.
Qed.

Lemma parseDuration_unfold d :
  parseDuration d =
    match scan_duration (list_ascii_of_string d) with
    | Some [m1; m2] => apply_unit (parseFloat m1) m2
    | _ => Throw (InvalidDuration d)
    end.
Proof. unfold parseDuration. rewrite match_duration_re. reflexivity. Qed.

(** *** The numerals: the readers of the code against the positions *)

Lemma digit_value_val c :
  isDigit c = true -> digit_value c = inject_Z (Z.of_N (digit_val c)).
Proof. destruct c as [[] [] [] [] [] [] [] []]; try discriminate; reflexivity. Qed.

Lemma digits_val_snoc ds d :
  digits_val (ds ++ [d]) = (10 * digits_val ds + digit_val d)%N.
Proof. unfold digits_val. now rewrite fold_left_app. Qed.

Lemma ten_pow_succ (n : nat) : (10 ^ Z.of_nat (S n) == 10 * 10 ^ Z.of_nat n)%Q.
Proof.
  rewrite Nat2Z.inj_succ, <- Z.add_1_l, Qpower_plus by discriminate. reflexivity.
Qed.

Lemma whole_snoc ds d : (whole (ds ++ [d]) == 10 * whole ds + digit_value d)%Q.
Proof.
  induction ds as [|c ds IH]; cbn [whole app length].
  - change (10 ^ Z.of_nat 0)%Q with 1%Q. ring.
  - rewrite IH, length_app. cbn [length].
    replace (length ds + 1) with (S (length ds)) by lia.
    rewrite ten_pow_succ. ring.
Qed.

Lemma whole_integer ip : forallb isDigit ip = true -> (whole ip == integer ip)%Q.
Proof.
  induction ip as [|d ip IH] using rev_ind; intros Hip; [reflexivity|].
  rewrite forallb_app in Hip. apply andb_prop in Hip as [Hip Hd].
  cbn in Hd. rewrite andb_true_r in Hd.
  rewrite whole_snoc, (IH Hip), (digit_value_val _ Hd). unfold integer.
  rewrite digits_val_snoc, N2Z.inj_add, N2Z.inj_mul, inject_Z_plus, inject_Z_mult.
  reflexivity.
Qed.

Lemma ten_pow_pos (z : Z) : (0 < 10 ^ z)%Q.
Proof. now apply Qpower_0_lt. Qed.

Lemma fraction_digits fp :
  forallb isDigit fp = true ->
  (fraction fp == integer fp / 10 ^ Z.of_nat (length fp))%Q.
Proof.
  induction fp as [|d fp IH]; intros Hfp.
  - reflexivity.
  - cbn [forallb] in Hfp. apply andb_prop in Hfp as [Hd Hfp].
    assert (Hcons : forallb isDigit (d :: fp) = true) by (cbn; now rewrite Hd, Hfp).
    rewrite <- (whole_integer _ Hcons). cbn [fraction whole length].
    rewrite (IH Hfp), (whole_integer _ Hfp), ten_pow_succ.
    pose proof (ten_pow_pos (Z.of_nat (length fp))) as Hpos.
    field. intros H. rewrite H in Hpos. discriminate.
Qed.

Lemma decimal_positions ip fp :
  forallb isDigit ip = true -> forallb isDigit fp = true -> fp <> [] ->
  (whole ip + fraction fp == decimal ip fp)%Q.
Proof.
  intros Hip Hfp Hne. unfold decimal.
  rewrite (whole_integer _ Hip), (fraction_digits _ Hfp),
    (Qmake_Qdiv (Z.of_N (digits_val fp))).
  assert (Hlen : Z.pos (10 ^ Pos.of_nat (length fp)) = (10 ^ Z.of_nat (length fp))%Z).
  { rewrite Pos2Z.inj_pow. f_equal.
    destruct fp as [|c fp]; [contradiction|]. cbn [length]. lia. }
  rewrite Hlen, Zpower_Qpower by lia. reflexivity.
Qed.

Lemma duration_form_scan d mag u :
  duration_form d mag u ->
  exists m1, scan_duration (list_ascii_of_string d) = Some [m1; suffix u] /\
             (parseFloat m1 == mag)%Q.
Proof.
  intros [ip u' Hip | ip fp u' Hip Hfp].
  - exists (string_of_list_ascii ip).
    split; [|rewrite (parseFloat_integer _ Hip); symmetry; apply whole_integer, Hip].
    apply scan_duration_Some. exists u'. left. exists ip. repeat split; try apply Hip.
    rewrite <- (list_ascii_of_string_of_list_ascii ip) at 2.
    rewrite <- (string_of_list_ascii_of_string (suffix u')) at 1.
    rewrite <- string_of_list_ascii_app.
    rewrite !list_ascii_of_string_of_list_ascii. reflexivity.
  - exists (string_of_list_ascii (ip ++ "."%char :: fp)).
    split; [|rewrite (parseFloat_decimal _ _ Hip Hfp); symmetry;
             apply decimal_positions; apply Hip || apply Hfp].
    apply scan_duration_Some. exists u'. right. exists ip, fp.
    repeat split; try apply Hip; try apply Hfp.
    rewrite <- (string_of_list_ascii_of_string (suffix u')) at 1.
    change ("." +:+ string_of_list_ascii fp +:+ string_of_list_ascii (list_ascii_of_string (suffix u')))
      with (string_of_list_ascii ("."%char :: nil) +:+ (string_of_list_ascii fp +:+ string_of_list_ascii (list_ascii_of_string (suffix u')))).
    rewrite <- !string_of_list_ascii_app.
    rewrite !list_ascii_of_string_of_list_ascii. reflexivity.
Qed.

Lemma scan_duration_form d caps :
  scan_duration (list_ascii_of_string d) = Some caps ->
  exists m1 u mag, caps = [m1; suffix u] /\ duration_form d mag u /\
                   (parseFloat m1 == mag)%Q.
Proof.
  intros H. apply scan_duration_Some in H
    as [u [(ip & Hip & Hs & ->)|(ip & fp & Hip & Hfp & Hs & ->)]].
  - exists (string_of_list_ascii ip), u, (whole ip). split; [reflexivity|].
    split; [|rewrite (parseFloat_integer _ Hip); symmetry; apply whole_integer, Hip].
    rewrite <- (string_of_list_ascii_of_string d), Hs, string_of_list_ascii_app,
      string_of_list_ascii_of_string.
    now constructor.
  - exists (string_of_list_ascii (ip ++ "."%char :: fp)), u, (whole ip + fraction fp)%Q.
    split; [reflexivity|].
    split; [|rewrite (parseFloat_decimal _ _ Hip Hfp); symmetry;
             apply decimal_positions; apply Hip || apply Hfp].
    rewrite <- (string_of_list_ascii_of_string d), Hs.
    change (ip ++ "."%char :: fp ++ list_ascii_of_string (suffix u))
      with (ip ++ ("."%char :: nil) ++ fp ++ list_ascii_of_string (suffix u)).
    rewrite !string_of_list_ascii_app, string_of_list_ascii_of_string.
    now constructor.
Qed.

(** [parseDuration] on the rationals follows the format and returns the
    product. *)
Lemma parseDuration_rational :
  (forall d mag u, duration_form d mag u ->
     exists v, parseDuration d = Ok v /\ (v == mag * factor u)%Q) /\
  (forall d v, parseDuration d = Ok v ->
     exists mag u, duration_form d mag u /\ (v == mag * factor u)%Q) /\
  (forall d, (forall mag u, ~ duration_form d mag u) ->
     parseDuration d = Throw (InvalidDuration d)).
Proof.
  split; [|split].
  - intros d mag u Hform. rewrite parseDuration_unfold.
    destruct (duration_form_scan _ _ _ Hform) as (m1 & -> & Hmag).
    destruct (apply_unit_suffix (parseFloat m1) u) as (v & Hv & Heq).
    exists v. split; [exact Hv|]. now rewrite Heq, Hmag.
  - intros d v H. rewrite parseDuration_unfold in H.
    destruct (scan_duration (list_ascii_of_string d)) as [caps|] eqn:Hs; [|discriminate].
    destruct (scan_duration_form _ _ Hs) as (m1 & u & mag & -> & Hform & Hmag).
    exists mag, u. split; [exact Hform|].
    destruct (apply_unit_suffix (parseFloat m1) u) as (v' & Hv' & Heq).
    rewrite Hv' in H. inversion H; subst. now rewrite Heq, Hmag.
  - intros d Hnone. rewrite parseDuration_unfold.
    destruct (scan_duration (list_ascii_of_string d)) as [caps|] eqn:Hs; [|reflexivity].
    destruct (scan_duration_form _ _ Hs) as (m1 & u & mag & -> & Hform & _).
    exfalso. exact (Hnone _ _ Hform).
Qed.
End DurationFacts.

Section DoubleFacts.
Import Duration Binary64.
Local Open Scope Q_scope.

Lemma round_compat p q : p == q -> round p = round q.
Proof. intros H. unfold round. now rewrite (Qred_complete _ _ H). Qed.

Lemma two_pow_pos z : 0 < 2 ^ z.
Proof. now apply Qpower_0_lt. Qed.

Lemma two_pow_Z z : (0 <= z)%Z -> 2 ^ z == inject_Z (2 ^ z).
Proof. intros H. now rewrite Zpower_Qpower. Qed.

(** The exponent that [round] starts from is not too large. *)
Lemma exponent_le q : 0 < q -> 2 ^ exponent q <= q.
Proof.
  intros Hq. unfold exponent.
  set (l := (Z.log2 (Qnum q) - Z.log2 (Z.pos (Qden q)))%Z).
  destruct (Qle_bool (2 ^ l) q) eqn:E; [now apply Qle_bool_iff|].
  destruct q as [n d]. cbn [Qnum Qden] in l.
  assert (Hn : (0 < n)%Z) by (unfold Qlt in Hq; cbn in Hq; lia).
  destruct (Z.log2_spec n Hn) as [Hlo _].
  destruct (Z.log2_spec (Z.pos d) ltac:(lia)) as [_ Hhi].
  replace (l - 1)%Z with (Z.log2 n - Z.succ (Z.log2 (Z.pos d)))%Z by (unfold l; lia).
  rewrite Qpower_minus by discriminate.
  rewrite !two_pow_Z by (pose proof (Z.log2_nonneg n); pose proof (Z.log2_nonneg (Z.pos d)); lia).
  rewrite (Qmake_Qdiv n d).
  apply Qle_shift_div_l.
  { change 0 with (inject_Z 0). rewrite <- Zlt_Qlt. lia. }
  unfold Qdiv. rewrite <- Qmult_assoc, (Qmult_comm (/ _)), Qmult_assoc.
  apply Qle_shift_div_r.
  { change 0 with (inject_Z 0). rewrite <- Zlt_Qlt. lia. }
  rewrite <- !inject_Z_mult, <- Zle_Qle. nia.
Qed.

(** The exponent that [round] starts from is not too small either. *)
Lemma exponent_lt q : 0 < q -> q < 2 ^ (exponent q + 1).
Proof.
  intros Hq. unfold exponent.
  set (l := (Z.log2 (Qnum q) - Z.log2 (Z.pos (Qden q)))%Z).
  destruct (Qle_bool (2 ^ l) q) eqn:E.
  - destruct q as [n d]. cbn [Qnum Qden] in l.
    assert (Hn : (0 < n)%Z) by (unfold Qlt in Hq; cbn in Hq; lia).
    destruct (Z.log2_spec n Hn) as [_ Hhi].
    destruct (Z.log2_spec (Z.pos d) ltac:(lia)) as [Hlo _].
    replace (l + 1)%Z with (Z.succ (Z.log2 n) - Z.log2 (Z.pos d))%Z by (unfold l; lia).
    rewrite Qpower_minus by discriminate.
    rewrite !two_pow_Z by (pose proof (Z.log2_nonneg n); pose proof (Z.log2_nonneg (Z.pos d)); lia).
    rewrite (Qmake_Qdiv n d).
    apply Qlt_shift_div_r.
    { change 0 with (inject_Z 0). rewrite <- Zlt_Qlt. lia. }
    unfold Qdiv. rewrite <- Qmult_assoc, (Qmult_comm (/ _)), Qmult_assoc.
    apply Qlt_shift_div_l.
    { change 0 with (inject_Z 0). rewrite <- Zlt_Qlt.
      apply Z.pow_pos_nonneg; [lia|apply Z.log2_nonneg]. }
    rewrite <- !inject_Z_mult, <- Zlt_Qlt. nia.
  - replace (l - 1 + 1)%Z with l by lia.
    apply Qnot_le_lt. intros H. apply Qle_bool_iff in H. congruence.
Qed.

Lemma two_pow_plus a b : 2 ^ (a + b) == 2 ^ a * 2 ^ b.
Proof. apply Qpower_plus. discriminate. Qed.

Lemma two_pow_le a b : (a <= b)%Z -> 2 ^ a <= 2 ^ b.
Proof. intros H. apply Qpower_le_compat_l; [exact H|discriminate]. Qed.

Lemma two_pow_lt a b : (a < b)%Z -> 2 ^ a < 2 ^ b.
Proof. intros H. apply Qpower_lt_compat_l; [exact H|reflexivity]. Qed.

Lemma two_pow_succ a : 2 ^ (a + 1) == 2 * 2 ^ a.
Proof. rewrite two_pow_plus. change (2 ^ 1) with 2. ring. Qed.

(** *** The grid of the doubles around a rational

    [q] lies between 2^e and 2^(e+1); the doubles near it are the
    multiples of 2^u; [s] is [q] in units of 2^u, [m] the multiple below
    it, [m'] the multiple that [round] chooses and [v] its value. *)

Section Grid.
Variables (q s : Q) (e u m : Z).
Hypothesis Hq : 0 < q.
Hypothesis He1 : 2 ^ e <= q.
Hypothesis He2 : q < 2 ^ (e + 1).
Hypothesis Hu : u = Z.max (e - 52) (-1074).
Hypothesis Hs : q == s * 2 ^ u.
Hypothesis Hm : m = Qfloor s.

Lemma grid_floor : inject_Z m <= s /\ s < inject_Z m + 1.
Proof.
  rewrite Hm. split; [apply Qfloor_le|].
  rewrite <- (inject_Z_plus _ 1). apply Qlt_floor.
Qed.

Lemma grid_scaled_pos : 0 < s.
Proof.
  pose proof (two_pow_pos u) as HP.
  apply (Qmult_lt_r _ _ _ HP). now rewrite Qmult_0_l, <- Hs.
Qed.

Lemma grid_m_nonneg : (0 <= m)%Z.
Proof.
  rewrite Hm. change 0%Z with (Qfloor (inject_Z 0)).
  apply Qfloor_resp_le. apply Qlt_le_weak, grid_scaled_pos.
Qed.

Lemma grid_scaled_lt : s < 2 ^ 53.
Proof.
  pose proof (two_pow_pos u) as HP.
  apply (Qmult_lt_r _ _ _ HP). rewrite <- Hs, <- two_pow_plus.
  eapply Qlt_le_trans; [exact He2|]. apply two_pow_le. lia.
Qed.

Lemma grid_m_lt : (m < 2 ^ 53)%Z.
Proof.
  rewrite Zlt_Qlt. eapply Qle_lt_trans; [apply grid_floor|].
  rewrite <- two_pow_Z by lia. apply grid_scaled_lt.
Qed.

Lemma grid_m_ge : u = (e - 52)%Z -> (2 ^ 52 <= m)%Z.
Proof.
  intros Hn. rewrite Hm. rewrite <- (Qfloor_Z (2 ^ 52)).
  apply Qfloor_resp_le. rewrite <- two_pow_Z by lia.
  pose proof (two_pow_pos u) as HP.
  apply (Qmult_le_r _ _ _ HP). rewrite <- Hs, <- two_pow_plus.
  replace (52 + u)%Z with e by lia. exact He1.
Qed.

(** No double lies strictly between two neighbours of the grid. *)
Lemma grid_gap k f :
  (0 <= k < 2 ^ 53)%Z -> (-1074 <= f)%Z ->
  inject_Z k * 2 ^ f <= inject_Z m * 2 ^ u \/ (inject_Z m + 1) * 2 ^ u <= inject_Z k * 2 ^ f.
Proof.
  intros Hk Hf. pose proof (two_pow_pos u) as HP.
  destruct (Z_lt_le_dec f u) as [Hlt|Hge].
  - left. assert (Hn : u = (e - 52)%Z) by lia.
    pose proof (grid_m_ge Hn) as Hm52.
    apply Qle_trans with (2 ^ 53 * 2 ^ f).
    { apply Qmult_le_compat_r; [|apply Qlt_le_weak, two_pow_pos].
      rewrite two_pow_Z by lia. rewrite <- Zle_Qle. lia. }
    rewrite <- two_pow_plus.
    apply Qle_trans with (2 ^ 52 * 2 ^ u).
    { rewrite <- two_pow_plus. apply two_pow_le. lia. }
    apply Qmult_le_compat_r; [|apply Qlt_le_weak, two_pow_pos].
    rewrite two_pow_Z by lia. now rewrite <- Zle_Qle.
  - assert (Hw : inject_Z k * 2 ^ f == inject_Z (k * 2 ^ (f - u)) * 2 ^ u).
    { rewrite inject_Z_mult, <- two_pow_Z by lia.
      rewrite <- Qmult_assoc, <- two_pow_plus. now replace (f - u + u)%Z with f by lia. }
    rewrite Hw. set (K := (k * 2 ^ (f - u))%Z).
    destruct (Z_le_gt_dec K m) as [Hle|Hgt].
    + left. apply Qmult_le_compat_r; [|apply Qlt_le_weak, two_pow_pos].
      now rewrite <- Zle_Qle.
    + right. apply Qmult_le_compat_r; [|apply Qlt_le_weak, two_pow_pos].
      change (inject_Z m + inject_Z 1 <= inject_Z K).
      rewrite <- (inject_Z_plus m 1), <- Zle_Qle. lia.
Qed.


Variables (m' : Z) (v : Q).
Hypothesis Hm' :
  (m' = m /\ s - inject_Z m <= 1 # 2 /\ (s - inject_Z m == 1 # 2 -> Z.even m = true)) \/
  (m' = (m + 1)%Z /\ 1 # 2 <= s - inject_Z m /\ (s - inject_Z m == 1 # 2 -> Z.even m = false)).
Hypothesis Hv : v == inject_Z m' * 2 ^ u.

(** The facts above, in terms of [a], the grid point below [q], and the
    step [P] of the grid. *)
Lemma grid_linear :
  let a := inject_Z m * 2 ^ u in
  let P := 2 ^ u in
  0 < P /\ a <= q /\ q < a + P /\
  ((v == a /\ q - a <= P * (1 # 2) /\ (q - a == P * (1 # 2) -> Z.even m = true)) \/
   (v == a + P /\ P * (1 # 2) <= q - a /\ (q - a == P * (1 # 2) -> Z.even m = false))).
Proof.
  intros a P. pose proof (two_pow_pos u) as HP. fold P in HP.
  destruct grid_floor as [Hlo Hhi].
  assert (Hqa : q - a == (s - inject_Z m) * P) by (unfold a, P; rewrite Hs; ring).
  assert (Hhalf : forall x, x * P == P * (1 # 2) <-> x == 1 # 2).
  { intros x. split; intros H.
    - apply (Qmult_inj_r _ _ P); [intros E; rewrite E in HP; discriminate|].
      rewrite H. ring.
    - rewrite H. ring. }
  split; [exact HP|]. split; [|split].
  - unfold a. rewrite Hs. apply Qmult_le_compat_r; [exact Hlo|now apply Qlt_le_weak].
  - assert (E : a + P == (inject_Z m + 1) * P) by (unfold a, P; ring).
    rewrite E, Hs. now apply Qmult_lt_compat_r.
  - destruct Hm' as [(-> & Hle & Heven)|(-> & Hge & Hodd)]; [left|right].
    + split; [exact Hv|]. rewrite Hqa. split.
      * rewrite (Qmult_comm P). apply Qmult_le_compat_r; [exact Hle|now apply Qlt_le_weak].
      * intros E. apply Heven. now apply Hhalf.
    + split; [rewrite Hv, inject_Z_plus; unfold a, P; ring|]. rewrite Hqa. split.
      * rewrite (Qmult_comm P). apply Qmult_le_compat_r; [exact Hge|now apply Qlt_le_weak].
      * intros E. apply Hodd. now apply Hhalf.
Qed.

Lemma grid_nearest w : double w -> Qabs (v - q) <= Qabs (w - q).
Proof.
  intros (k & f & Hw & Hk & Hf).
  pose proof (grid_gap k f Hk ltac:(lia)) as Hgap. rewrite <- Hw in Hgap.
  destruct grid_linear as (HP & Hlo & Hhi & Hcase). cbv zeta in *.
  set (a := inject_Z m * 2 ^ u) in *. set (P := 2 ^ u) in *.
  assert (E : (inject_Z m + 1) * P == a + P) by (unfold a; ring).
  rewrite E in Hgap. clear E.
  destruct Hcase as [(Hva & Hhalf & _)|(Hva & Hhalf & _)]; rewrite Hva;
    apply Qabs_case; intros; apply Qabs_case; intros; destruct Hgap; lra.
Qed.

Lemma grid_tie w :
  double w -> ~ w == v -> Qabs (w - q) == Qabs (v - q) ->
  exists k : Z, v == inject_Z (2 * k) * Qabs (w - v).
Proof.
  intros (k & f & Hw & Hk & Hf) Hne Htie.
  pose proof (grid_gap k f Hk ltac:(lia)) as Hgap. rewrite <- Hw in Hgap.
  destruct grid_linear as (HP & Hlo & Hhi & Hcase). cbv zeta in *.
  set (a := inject_Z m * 2 ^ u) in *. set (P := 2 ^ u) in *.
  assert (E : (inject_Z m + 1) * P == a + P) by (unfold a; ring).
  rewrite E in Hgap. clear E.
  destruct Hcase as [(Hva & Hhalf & Heven)|(Hva & Hhalf & Hodd)].
  - (* rounded down: the other one is the neighbour above *)
    assert (Hmid : q - a == P * (1 # 2) /\ w == a + P).
    { rewrite Hva in Htie, Hne. revert Htie.
      apply Qabs_case; intros H1; apply Qabs_case; intros H2 Htie;
        destruct Hgap; split; try lra; exfalso; apply Hne; lra. }
    destruct Hmid as [Hmid Hwv].
    exists (m / 2)%Z.
    assert (Hm2 : (2 * (m / 2))%Z = m).
    { specialize (Heven Hmid). apply Z.even_spec in Heven as [j ->].
      rewrite (Z.mul_comm 2 j), Z.div_mul; lia. }
    rewrite Hm2, Hwv, Hva.
    setoid_replace (a + P - a) with P using relation Qeq by ring.
    rewrite Qabs_pos by lra. reflexivity.
  - assert (Hmid : q - a == P * (1 # 2) /\ w == a).
    { rewrite Hva in Htie, Hne. revert Htie.
      apply Qabs_case; intros H1; apply Qabs_case; intros H2 Htie;
        destruct Hgap; split; try lra; exfalso; apply Hne; lra. }
    destruct Hmid as [Hmid Hwv].
    exists ((m + 1) / 2)%Z.
    assert (Hm2 : (2 * ((m + 1) / 2))%Z = (m + 1)%Z).
    { specialize (Hodd Hmid).
      assert (Ho : Z.odd m = true) by (rewrite <- Z.negb_even, Hodd; reflexivity).
      apply Z.odd_spec in Ho as [j ->].
      replace (2 * j + 1 + 1)%Z with ((j + 1) * 2)%Z by lia. rewrite Z.div_mul; lia. }
    rewrite Hm2, Hwv, Hva.
    setoid_replace (a - (a + P)) with (- P) using relation Qeq by ring.
    rewrite Qabs_opp, Qabs_pos by lra.
    rewrite inject_Z_plus. unfold a. ring.
Qed.

Lemma grid_m'_bounds : (m <= m' <= m + 1)%Z.
Proof. destruct Hm' as [(-> & _)|(-> & _)]; lia. Qed.

(** What is below 2^1024 is a double. *)
Lemma grid_double : v < 2 ^ 1024 -> double v.
Proof.
  intros Hsmall. pose proof grid_m'_bounds as Hb.
  pose proof grid_m_nonneg as H0. pose proof grid_m_lt as H53.
  assert (Hu971 : (u <= 971)%Z).
  { destruct (Z_le_gt_dec u 971) as [H|H]; [exact H|exfalso].
    assert (Hn : u = (e - 52)%Z) by lia.
    pose proof (grid_m_ge Hn) as Hm52.
    apply (Qlt_irrefl v). eapply Qlt_le_trans; [exact Hsmall|].
    rewrite Hv. apply Qle_trans with (2 ^ 52 * 2 ^ u).
    - rewrite <- two_pow_plus. apply two_pow_le. lia.
    - apply Qmult_le_compat_r; [|apply Qlt_le_weak, two_pow_pos].
      rewrite two_pow_Z by lia. rewrite <- Zle_Qle. lia. }
  destruct (Z.eq_dec m' (2 ^ 53)%Z) as [Hbig|Hless].
  - exists (2 ^ 52)%Z, (u + 1)%Z. split; [|split; [lia|]].
    + rewrite Hv, Hbig, two_pow_succ, <- !two_pow_Z by lia.
      setoid_replace (2 ^ 53) with (2 * 2 ^ 52) using relation Qeq by (rewrite <- two_pow_succ; reflexivity).
      ring.
    + split; [lia|].
      assert (H : (53 + u < 1024)%Z).
      { apply (Qpower_lt_compat_l_inv 2); [|reflexivity].
        rewrite two_pow_plus. rewrite Hv, Hbig, <- two_pow_Z in Hsmall by lia. exact Hsmall. }
      lia.
  - exists m', u. split; [exact Hv|]. split; lia.
Qed.

Lemma grid_overflow : 2 ^ 1024 <= v -> 2 ^ 1024 - 2 ^ 970 <= q.
Proof.
  intros Hbig.
  pose proof (two_pow_pos 970) as H970.
  destruct (Z_le_gt_dec u 971) as [Hle|Hgt].
  - destruct grid_linear as (HP & Hlo & Hhi & Hcase). cbv zeta in *.
    assert (HP971 : 2 ^ u * (1 # 2) <= 2 ^ 970).
    { apply Qle_trans with (2 ^ 971 * (1 # 2)).
      - apply Qmult_le_compat_r; [now apply two_pow_le|discriminate].
      - setoid_replace (2 ^ 971) with (2 * 2 ^ 970) using relation Qeq by (rewrite <- two_pow_succ; reflexivity).
        lra. }
    set (a := inject_Z m * 2 ^ u) in *. set (P := 2 ^ u) in *.
    destruct Hcase as [(Hva & _)|(Hva & Hhalf & _)]; rewrite Hva in Hbig; lra.
  - assert (Hn : u = (e - 52)%Z) by lia.
    apply Qle_trans with (2 ^ 1024); [lra|].
    eapply Qle_trans; [|exact He1]. apply two_pow_le. lia.
Qed.

Lemma grid_finite : v < 2 ^ 1024 -> q < 2 ^ 1024 - 2 ^ 970.
Proof.
  intros Hsmall. apply Qnot_le_lt. intros Hq'.
  apply (Qlt_irrefl v). eapply Qlt_le_trans; [exact Hsmall|].
  pose proof grid_m'_bounds as Hb.
  assert (H1023 : 2 ^ 1023 <= 2 ^ 1024 - 2 ^ 970).
  { setoid_replace (2 ^ 1024) with (2 * 2 ^ 1023) using relation Qeq by (rewrite <- two_pow_succ; reflexivity).
    pose proof (two_pow_le 970 1023 ltac:(lia)). lra. }
  assert (He : (1023 <= e)%Z).
  { assert (H : (1023 < e + 1)%Z); [|lia].
    apply (Qpower_lt_compat_l_inv 2); [|reflexivity].
    eapply Qle_lt_trans; [|exact He2]. lra. }
  assert (Hn : u = (e - 52)%Z) by lia.
  pose proof (grid_m_ge Hn) as Hm52.
  destruct (Z_le_gt_dec 972 u) as [Hge|Hlt].
  - rewrite Hv. apply Qle_trans with (2 ^ 52 * 2 ^ u).
    + rewrite <- two_pow_plus. apply two_pow_le. lia.
    + apply Qmult_le_compat_r; [|apply Qlt_le_weak, two_pow_pos].
      rewrite two_pow_Z by lia. rewrite <- Zle_Qle. lia.
  - assert (Hu971 : u = 971%Z) by lia.
    (* the significand is 2^53 - 1, and the rest is at least a half *)
    assert (Hs53 : 2 ^ 53 - (1 # 2) <= s).
    { pose proof (two_pow_pos u) as HP.
      apply (Qmult_le_r _ _ _ HP). rewrite <- Hs, Hu971.
      eapply Qle_trans; [|exact Hq'].
      setoid_replace (2 ^ 1024) with (2 ^ 53 * 2 ^ 971) using relation Qeq
        by (rewrite <- two_pow_plus; reflexivity).
      setoid_replace (2 ^ 971) with (2 * 2 ^ 970) using relation Qeq by (rewrite <- two_pow_succ; reflexivity).
      lra. }
    assert (Hm53 : m = (2 ^ 53 - 1)%Z).
    { pose proof grid_m_lt as Hlt53.
      assert (H : (2 ^ 53 - 1 <= m)%Z); [|lia].
      rewrite Hm, <- (Qfloor_Z (2 ^ 53 - 1)). apply Qfloor_resp_le.
      eapply Qle_trans; [|exact Hs53].
      unfold Zminus. rewrite inject_Z_plus, <- two_pow_Z by lia.
      change (inject_Z (- (1))) with (- (1)). lra. }
    assert (Hfrac : 1 # 2 <= s - inject_Z m).
    { rewrite Hm53. unfold Zminus. rewrite inject_Z_plus, <- two_pow_Z by lia.
      change (inject_Z (- (1))) with (- (1)). lra. }
    assert (Hup : m' = (2 ^ 53)%Z).
    { destruct Hm' as [(_ & Hle & Heven)|(-> & _)]; [exfalso|lia].
      assert (E : s - inject_Z m == 1 # 2) by lra.
      specialize (Heven E). rewrite Hm53 in Heven. discriminate. }
    rewrite Hv, Hup, Hu971, <- two_pow_Z, <- two_pow_plus by lia.
    apply Qle_refl.
Qed.

End Grid.

Lemma double_nonneg v : double v -> 0 <= v.
Proof.
  intros (m & e & Hv & Hm & _). rewrite Hv.
  apply Qmult_le_0_compat; [|apply Qlt_le_weak, two_pow_pos].
  change 0 with (inject_Z 0). rewrite <- Zle_Qle. lia.
Qed.

Lemma double_zero : double 0.
Proof. exists 0%Z, 0%Z. split; [reflexivity|]. split; lia. Qed.

Lemma round_zero q : q == 0 -> round q = Finite 0.
Proof. intros H. rewrite (round_compat _ _ H). reflexivity. Qed.

(** [round] gives the nearest double. *)
Lemma round_nearest q : 0 <= q -> nearest_double q (round q).
Proof.
  intros Hq0. destruct (Qeq_dec q 0) as [Hz|Hnz].
  - rewrite (round_zero q Hz). cbn [nearest_double].
    split; [exact double_zero|]. split; [|split].
    + rewrite Hz. pose proof (two_pow_lt 970 1024 ltac:(lia)). lra.
    + intros w _. rewrite Hz. setoid_replace (0 - 0) with 0 using relation Qeq by ring.
      apply Qabs_nonneg.
    + intros w _ Hne Htie. exfalso. apply Hne. rewrite Hz in Htie.
      assert (H0 : Qabs (0 - 0) == 0) by reflexivity. rewrite H0 in Htie. revert Htie.
      apply Qabs_case; intros; lra.
  - assert (Hq : 0 < q) by (apply Qle_lteq in Hq0 as [H|H]; [exact H|now symmetry in H]).
    unfold round.
    assert (Hred : Qred q == q) by apply Qred_correct.
    assert (E0 : Qle_bool (Qred q) 0 = false).
    { apply not_true_is_false. intros H. apply Qle_bool_iff in H. lra. }
    rewrite E0.
    set (e := exponent (Qred q)).
    set (u := Z.max (e - 52) (-1074)).
    set (s := Qred q / 2 ^ u).
    set (m := Qfloor s).
    set (m' := match s - inject_Z m ?= 1 # 2 with
               | Lt => m
               | Gt => (m + 1)%Z
               | Eq => if Z.even m then m else (m + 1)%Z
               end).
    set (v := Qred (inject_Z m' * 2 ^ u)).
    assert (He1 : 2 ^ e <= q) by (rewrite <- Hred; apply exponent_le; lra).
    assert (He2 : q < 2 ^ (e + 1)) by (rewrite <- Hred at 1; apply exponent_lt; lra).
    assert (Hs : q == s * 2 ^ u).
    { unfold s. rewrite Hred. field. intros E.
      pose proof (two_pow_pos u) as HP. rewrite E in HP. discriminate. }
    assert (Hm' :
      (m' = m /\ s - inject_Z m <= 1 # 2 /\ (s - inject_Z m == 1 # 2 -> Z.even m = true)) \/
      (m' = (m + 1)%Z /\ 1 # 2 <= s - inject_Z m /\
       (s - inject_Z m == 1 # 2 -> Z.even m = false))).
    { unfold m'. destruct (Qcompare_spec (s - inject_Z m) (1 # 2)) as [Heq|Hlt|Hgt].
      - destruct (Z.even m) eqn:Hev; [left|right]; (split; [reflexivity|]); split;
          try (intros _; reflexivity); lra.
      - left. split; [reflexivity|]. split; [lra|]. intros E. lra.
      - right. split; [reflexivity|]. split; [lra|]. intros E. lra. }
    assert (Hv : v == inject_Z m' * 2 ^ u) by apply Qred_correct.
    destruct (Qle_bool (2 ^ 1024) v) eqn:Ebig.
    + apply Qle_bool_iff in Ebig. cbn [nearest_double].
      eapply (grid_overflow q s e u m); try eassumption; reflexivity.
    + assert (Hsmall : v < 2 ^ 1024).
      { apply Qnot_le_lt. intros H. apply Qle_bool_iff in H. congruence. }
      cbn [nearest_double]. split; [|split; [|split]].
      * eapply (grid_double q s e u m); try eassumption; reflexivity.
      * eapply (grid_finite q s e u m); try eassumption; reflexivity.
      * intros w. eapply (grid_nearest q s e u m); try eassumption; reflexivity.
      * intros w. eapply (grid_tie q s e u m); try eassumption; reflexivity.
Qed.

(** A rational has one nearest double. *)
Lemma nearest_double_unique q v v' :
  nearest_double q (Finite v) -> nearest_double q (Finite v') -> v == v'.
Proof.
  intros (Hd & _ & Hnear & Htie) (Hd' & _ & Hnear' & Htie').
  destruct (Qeq_dec v v') as [E|Hne]; [exact E|exfalso].
  assert (Heq : Qabs (v' - q) == Qabs (v - q)).
  { apply Qle_antisym; [apply Hnear', Hd|apply Hnear, Hd']. }
  destruct (Htie v' Hd' ltac:(intros E; apply Hne; now symmetry) Heq) as [k Hk].
  destruct (Htie' v Hd Hne ltac:(now symmetry)) as [k' Hk'].
  rewrite (Qabs_Qminus v v') in Hk'.
  assert (Hgdef : Qabs (v' - v) == Qabs (v' - v)) by reflexivity.
  revert Hgdef Hk Hk'. generalize (Qabs (v' - v)) at 1 3 4. intros g Hgdef Hk Hk'.
  assert (Hg : 0 < g).
  { rewrite Hgdef. apply Qabs_case; intros H;
      assert (~ v' - v == 0) by (intros E; apply Hne; lra); lra. }
  assert (Hdiff : v' - v == inject_Z (2 * (k' - k)) * g).
  { transitivity (inject_Z (2 * k') * g - inject_Z (2 * k) * g).
    - rewrite <- Hk, <- Hk'. reflexivity.
    - replace (2 * (k' - k))%Z with (2 * k' + - (2 * k))%Z by lia.
      rewrite inject_Z_plus, inject_Z_opp. ring. }
  assert (Hone : Qabs (inject_Z (2 * (k' - k))) == 1).
  { apply (Qmult_inj_r _ _ g); [lra|].
    rewrite <- (Qabs_pos g) at 1 by lra. rewrite <- Qabs_Qmult, <- Hdiff, <- Hgdef. ring. }
  change (inject_Z (Z.abs (2 * (k' - k))) == inject_Z 1) in Hone.
  unfold Qeq in Hone. cbn [Qnum Qden inject_Z] in Hone. lia.
Qed.

(** A number that is a whole multiple of the last bit is its own double. *)
Lemma round_integral q M :
  0 < q ->
  let u := Z.max (exponent (Qred q) - 52) (-1074) in
  q / 2 ^ u == inject_Z M ->
  q < 2 ^ 1024 ->
  exists v, round q = Finite v /\ v == q.
Proof.
  intros Hq u Hscaled Hbig. unfold round.
  assert (Hred : Qred q == q) by apply Qred_correct.
  assert (E0 : Qle_bool (Qred q) 0 = false).
  { apply not_true_is_false. intros H. apply Qle_bool_iff in H. rewrite Hred in H.
    apply (Qlt_irrefl 0). eapply Qlt_le_trans; eauto. }
  rewrite E0. fold u. cbv zeta.
  assert (Hs : Qred q / 2 ^ u == inject_Z M) by (now rewrite Hred).
  assert (Hfloor : Qfloor (Qred q / 2 ^ u) = M) by (rewrite Hs; apply Qfloor_Z).
  rewrite Hfloor.
  assert (Hcmp : (Qred q / 2 ^ u - inject_Z M ?= 1 # 2) = Lt).
  { apply Qlt_alt. rewrite Hs. unfold Qminus. rewrite Qplus_opp_r. reflexivity. }
  rewrite Hcmp.
  assert (Hv : Qred (inject_Z M * 2 ^ u) == q).
  { rewrite Qred_correct, <- Hscaled. field. intros H.
    pose proof (two_pow_pos u) as Hp. rewrite H in Hp. discriminate. }
  assert (E1 : Qle_bool (2 ^ 1024) (Qred (inject_Z M * 2 ^ u)) = false).
  { apply not_true_is_false. intros H. apply Qle_bool_iff in H. rewrite Hv in H.
    apply (Qlt_irrefl q). eapply Qlt_le_trans; eauto. }
  rewrite E1. eauto.
Qed.

Lemma round_dyadic q k (j : nat) :
  q == inject_Z k / 2 ^ Z.of_nat j ->
  (0 <= k)%Z -> (k < 2 ^ 53)%Z -> (j <= 1074)%nat ->
  exists v, round q = Finite v /\ v == q.
Proof.
  intros Hq Hk0 Hk Hj.
  destruct (Z.eq_dec k 0%Z) as [->|Hne].
  - exists 0. split; [|rewrite Hq; unfold Qdiv; now rewrite Qmult_0_l].
    assert (H0 : q == 0) by (rewrite Hq; unfold Qdiv; now rewrite Qmult_0_l).
    rewrite (round_compat _ _ H0). reflexivity.
  - assert (Hpos : 0 < q).
    { rewrite Hq. apply Qlt_shift_div_l; [apply two_pow_pos|].
      rewrite Qmult_0_l. change 0 with (inject_Z 0). rewrite <- Zlt_Qlt. lia. }
    assert (Hlt : q < 2 ^ (53 - Z.of_nat j)).
    { rewrite Hq, Qpower_minus by discriminate.
      unfold Qdiv. apply Qmult_lt_compat_r; [apply Qinv_lt_0_compat, two_pow_pos|].
      rewrite two_pow_Z by lia. now rewrite <- Zlt_Qlt. }
    set (u := Z.max (exponent (Qred q) - 52) (-1074)).
    assert (Hu : (u <= - Z.of_nat j)%Z).
    { assert (He : (exponent (Qred q) < 53 - Z.of_nat j)%Z).
      { apply (Qpower_lt_compat_l_inv 2); [|reflexivity].
        eapply Qle_lt_trans; [apply exponent_le; now rewrite Qred_correct|].
        now rewrite Qred_correct. }
      unfold u. lia. }
    apply (round_integral q (k * 2 ^ (- Z.of_nat j - u))); [exact Hpos| |].
    + fold u. rewrite inject_Z_mult, <- two_pow_Z by lia.
      rewrite Hq. replace (- Z.of_nat j - u)%Z with (- Z.of_nat j + - u)%Z by lia.
      rewrite Qpower_plus by discriminate. rewrite !Qpower_opp.
      field. split; intros H.
      * pose proof (two_pow_pos u) as Hp. rewrite H in Hp. discriminate.
      * pose proof (two_pow_pos (Z.of_nat j)) as Hp. rewrite H in Hp. discriminate.
    + eapply Qlt_trans; [exact Hlt|]. apply Qpower_lt_compat_l; [lia|reflexivity].
Qed.

Lemma mul_dyadic v k (j : nat) (c : Z) :
  v == inject_Z k / 2 ^ Z.of_nat j ->
  (0 <= k)%Z -> (0 <= c)%Z -> (k * c < 2 ^ 53)%Z -> (j <= 1074)%nat ->
  exists v', mul (Finite v) (inject_Z c) = Finite v' /\ v' == v * inject_Z c.
Proof.
  intros Hv Hk Hc Hkc Hj. cbn [mul].
  apply (round_dyadic _ (k * c) j); [|lia|exact Hkc|exact Hj].
  rewrite Hv, inject_Z_mult. unfold Qdiv. ring.
Qed.

Lemma in_doubles_exact mag u :
  exact_in_doubles mag u ->
  exists v, in_doubles mag u = Finite v /\ v == mag * factor u.
Proof.
  intros (k & j & Hmag & Hk0 & Hk & Hj). unfold in_doubles.
  assert (Hf : (1 <= factor_Z u)%Z) by (destruct u; cbn; lia).
  destruct (round_dyadic mag k j Hmag Hk0 ltac:(nia) Hj) as (v0 & -> & Hv0).
  rewrite <- Hv0 in Hmag.
  destruct u; cbn [factor_Z factor] in *.
  - exists v0. split; [reflexivity|]. rewrite Hv0. ring.
  - destruct (mul_dyadic v0 k j 1000 Hmag Hk0 ltac:(lia) Hk Hj) as (v1 & Hm1 & Hv1).
    change (inject_Z 1000) with 1000 in Hm1, Hv1. rewrite Hm1.
    exists v1. split; [reflexivity|]. now rewrite Hv1, Hv0.
  - destruct (mul_dyadic v0 k j 60 Hmag Hk0 ltac:(lia) ltac:(lia) Hj) as (v1 & Hm1 & Hv1).
    change (inject_Z 60) with 60 in Hm1, Hv1. rewrite Hm1.
    assert (H1 : v1 == inject_Z (k * 60) / 2 ^ Z.of_nat j).
    { rewrite Hv1, Hmag, inject_Z_mult. unfold Qdiv. ring. }
    destruct (mul_dyadic v1 (k * 60) j 1000 H1 ltac:(lia) ltac:(lia) ltac:(lia) Hj)
      as (v2 & Hm2 & Hv2).
    change (inject_Z 1000) with 1000 in Hm2, Hv2. rewrite Hm2.
    exists v2. split; [reflexivity|]. rewrite Hv2, Hv1, Hv0. ring.
  - destruct (mul_dyadic v0 k j 60 Hmag Hk0 ltac:(lia) ltac:(lia) Hj) as (v1 & Hm1 & Hv1).
    change (inject_Z 60) with 60 in Hm1, Hv1. rewrite Hm1.
    assert (H1 : v1 == inject_Z (k * 60) / 2 ^ Z.of_nat j).
    { rewrite Hv1, Hmag, inject_Z_mult. unfold Qdiv. ring. }
    destruct (mul_dyadic v1 (k * 60) j 60 H1 ltac:(lia) ltac:(lia) ltac:(lia) Hj)
      as (v2 & Hm2 & Hv2).
    change (inject_Z 60) with 60 in Hm2, Hv2. rewrite Hm2.
    assert (H2 : v2 == inject_Z (k * 60 * 60) / 2 ^ Z.of_nat j).
    { rewrite Hv2, H1, (inject_Z_mult (k * 60) 60). unfold Qdiv. ring. }
    destruct (mul_dyadic v2 (k * 60 * 60) j 1000 H2 ltac:(lia) ltac:(lia) ltac:(lia) Hj)
      as (v3 & Hm3 & Hv3).
    change (inject_Z 1000) with 1000 in Hm3, Hv3. rewrite Hm3.
    exists v3. split; [reflexivity|]. rewrite Hv3, Hv2, Hv1, Hv0. ring.
Qed.

(** The magnitude of a duration is not negative. *)
Lemma duration_form_nonneg d mag u : duration_form d mag u -> 0 <= mag.
Proof.
  assert (Hint : forall ds, 0 <= integer ds).
  { intros ds. unfold integer. change 0 with (inject_Z 0). rewrite <- Zle_Qle. lia. }
  intros [ip u' [_ Hip] | ip fp u' [_ Hip] [_ Hfp]].
  - rewrite (whole_integer _ Hip). apply Hint.
  - rewrite (whole_integer _ Hip), (fraction_digits _ Hfp).
    rewrite <- (Qplus_0_r 0). apply Qplus_le_compat; [apply Hint|].
    apply Qle_shift_div_l; [apply ten_pow_pos|]. rewrite Qmult_0_l. apply Hint.
Qed.

(** [mul] is the rounded product. *)
Lemma times_mul a c :
  match a with Finite x => 0 <= x | Infinity => True end -> 0 <= c ->
  times a c (mul a c) /\ match mul a c with Finite x => 0 <= x | Infinity => True end.
Proof.
  intros Ha Hc. destruct a as [x|]; cbn [times mul]; [|split; [reflexivity|exact I]].
  pose proof (round_nearest (x * c) (Qmult_le_0_compat _ _ Ha Hc)) as H.
  split; [exact H|]. destruct (round (x * c)); [|exact I].
  destruct H as (Hd & _). now apply double_nonneg.
Qed.

(** [in_doubles] is the product that the specification describes. *)
Lemma in_doubles_product mag u : 0 <= mag -> product_in_doubles mag u (in_doubles mag u).
Proof.
  intros Hmag. pose proof (round_nearest mag Hmag) as H0. unfold in_doubles.
  assert (Hpos : match round mag with Finite x => 0 <= x | Infinity => True end).
  { destruct (round mag); [|exact I]. destruct H0 as (Hd & _). now apply double_nonneg. }
  destruct u; cbn [product_in_doubles].
  - exact H0.
  - exists (round mag). split; [exact H0|].
    apply (times_mul _ 1000 Hpos). discriminate.
  - destruct (times_mul _ 60 Hpos ltac:(discriminate)) as [H1 Hpos1].
    exists (round mag), (mul (round mag) 60). split; [exact H0|]. split; [exact H1|].
    apply (times_mul _ 1000 Hpos1). discriminate.
  - destruct (times_mul _ 60 Hpos ltac:(discriminate)) as [H1 Hpos1].
    destruct (times_mul _ 60 Hpos1 ltac:(discriminate)) as [H2 Hpos2].
    exists (round mag), (mul (round mag) 60), (mul (mul (round mag) 60) 60).
    split; [exact H0|]. split; [exact H1|]. split; [exact H2|].
    apply (times_mul _ 1000 Hpos2). discriminate.
Qed.

Lemma parseDuration_double_unfold d :
  Binary64.parseDuration d =
    match scan_duration (list_ascii_of_string d) with
    | Some [m1; m2] => apply_unit_double (Binary64.parseFloat m1) m2
    | _ => Throw (InvalidDuration d)
    end.
Proof. unfold Binary64.parseDuration. rewrite match_duration_re. reflexivity. Qed.

Lemma apply_unit_double_suffix m1 mag u :
  Duration.parseFloat m1 == mag ->
  apply_unit_double (Binary64.parseFloat m1) (suffix u) = Ok (in_doubles mag u).
Proof.
  intros Hmag. unfold Binary64.parseFloat, in_doubles.
  rewrite (round_compat _ _ Hmag). now destruct u.
Qed.
End DoubleFacts.

(** Claim C8, amended.  [parseDuration] succeeds exactly on the texts
    made of an integer or decimal magnitude immediately followed by one
    of the suffixes ms, s, m, h.  It then returns the product of the
    magnitude and 1, 1000, 60000 or 3600000 as the doubles of the host
    compute it: the double nearest to the magnitude (ties to the even
    significand, Infinity on overflow), multiplied by 1000 for s, by 60
    and 1000 for m, by 60, 60 and 1000 for h, each product rounded in
    the same way.  That is the exact product when the magnitude is a
    whole number of 2^j-ths whose product is below 2^53.  On every other
    text it throws the "Invalid duration" error. *)
Theorem parseDuration_format :
  (forall d mag u, duration_form d mag u ->
     exists r, Binary64.parseDuration d = Ok r /\ product_in_doubles mag u r) /\
  (forall d r, Binary64.parseDuration d = Ok r ->
     exists mag u, duration_form d mag u /\ product_in_doubles mag u r) /\
  (forall d mag u, duration_form d mag u -> exact_in_doubles mag u ->
     exists v, Binary64.parseDuration d = Ok (Binary64.Finite v) /\ (v == mag * factor u)%Q) /\
  (forall d, (forall mag u, ~ duration_form d mag u) ->
     Binary64.parseDuration d = Throw (InvalidDuration d)).
Proof.
  assert (Hform : forall d mag u, duration_form d mag u ->
                    Binary64.parseDuration d = Ok (in_doubles mag u)).
  { intros d mag u Hform. rewrite parseDuration_double_unfold.
    destruct (duration_form_scan _ _ _ Hform) as (m1 & -> & Hmag).
    now apply apply_unit_double_suffix. }
  split; [|split; [|split]].
  - intros d mag u Hf. exists (in_doubles mag u). split; [now apply Hform|].
    apply in_doubles_product. exact (duration_form_nonneg _ _ _ Hf).
  - intros d r H. rewrite parseDuration_double_unfold in H.
    destruct (scan_duration (list_ascii_of_string d)) as [caps|] eqn:Hs; [|discriminate].
    destruct (scan_duration_form _ _ Hs) as (m1 & u & mag & -> & Hf & Hmag).
    exists mag, u. split; [exact Hf|].
    rewrite (apply_unit_double_suffix _ _ u Hmag) in H. injection H as <-.
    apply in_doubles_product. exact (duration_form_nonneg _ _ _ Hf).
  - intros d mag u Hf Hexact. rewrite (Hform _ _ _ Hf).
    destruct (in_doubles_exact _ _ Hexact) as (v & -> & Hv). eauto.
  - intros d Hnone. rewrite parseDuration_double_unfold.
    destruct (scan_duration (list_ascii_of_string d)) as [caps|] eqn:Hs; [|reflexivity].
    destruct (scan_duration_form _ _ Hs) as (m1 & u & mag & -> & Hf & _).
    exfalso. exact (Hnone _ _ Hf).
Qed.

(** C8 as stated fails: the magnitude of "1.005s" is 1005 thousandths,
    its product with 1000 is 1005, and [parseDuration] returns the
    double below 1005, which JavaScript prints as 1004.9999999999999. *)
Lemma parseDuration_rounds :
  duration_form "1.005s" (whole (list_ascii_of_string "1")
                          + fraction (list_ascii_of_string "005"))%Q unit_s /\
  ((whole (list_ascii_of_string "1") + fraction (list_ascii_of_string "005"))
   * factor unit_s == 1005)%Q /\
  Binary64.parseDuration "1.005s"
  = Ok (Binary64.Finite (8840073487319039 # 8796093022208)) /\
  (8840073487319039 # 8796093022208 < 1005)%Q /\
  (1005 - (1 # 8796093022208) == 8840073487319039 # 8796093022208)%Q.
Proof.
  split; [|split; [|split; [|split]]].
  - apply (decimal_form (list_ascii_of_string "1") (list_ascii_of_string "005") unit_s);
      (split; [discriminate|reflexivity]).
  - vm_compute. reflexivity.
  - vm_compute. reflexivity.
  - reflexivity.
  - reflexivity.
Qed.

(** Readings of the duration format, on the rationals and on the
    doubles. *)
Example parseDuration_examples :
  Duration.parseDuration "500ms" = Ok 500%Q /\
  Duration.parseDuration "5m" = Ok (5 * 60 * 1000)%Q /\
  Duration.parseDuration "1.5h" = Ok (54000000 # 10)%Q /\
  Duration.parseDuration "5" = Throw (InvalidDuration "5") /\
  Duration.parseDuration "1.h" = Throw (InvalidDuration "1.h") /\
  Duration.parseDuration " 5s" = Throw (InvalidDuration " 5s") /\
  Duration.parseDuration "5 s" = Throw (InvalidDuration "5 s") /\
  Duration.parseDuration "-5s" = Throw (InvalidDuration "-5s") /\
  Duration.parseDuration "5d" = Throw (InvalidDuration "5d") /\
  Binary64.parseDuration "500ms" = Ok (Binary64.Finite 500) /\
  Binary64.parseDuration "5m" = Ok (Binary64.Finite 300000) /\
  Binary64.parseDuration "1.5h" = Ok (Binary64.Finite 5400000) /\
  Binary64.parseDuration "0.1s" = Ok (Binary64.Finite 100) /\
  Binary64.parseDuration "5d" = Throw (InvalidDuration "5d").
Proof. vm_compute. repeat split. Qed.

(** The format theorem at "1.5h": three halves, exact in doubles. *)
Lemma parseDuration_format_witness :
  duration_form "1.5h" (whole (list_ascii_of_string "1")
                        + fraction (list_ascii_of_string "5"))%Q unit_h /\
  exact_in_doubles (whole (list_ascii_of_string "1") + fraction (list_ascii_of_string "5"))%Q
                   unit_h /\
  exists v, Binary64.parseDuration "1.5h" = Ok (Binary64.Finite v) /\ (v == 5400000)%Q.
Proof.
  assert (Hform : duration_form "1.5h" (whole (list_ascii_of_string "1")
                                        + fraction (list_ascii_of_string "5"))%Q unit_h).
  { apply (decimal_form (list_ascii_of_string "1") (list_ascii_of_string "5") unit_h);
      (split; [discriminate|reflexivity]). }
  assert (Hexact : exact_in_doubles
                     (whole (list_ascii_of_string "1") + fraction (list_ascii_of_string "5"))%Q
                     unit_h).
  { exists 3%Z, 1. split; [reflexivity|]. split; [lia|]. split; [reflexivity|lia]. }
  split; [exact Hform|]. split; [exact Hexact|].
  destruct (proj1 (proj2 (proj2 parseDuration_format)) _ _ _ Hform Hexact) as (v & Hv & Heq).
  exists v. split; [exact Hv|]. rewrite Heq. reflexivity.
Defined.

(** Claim C6.  For every model configuration and every profile, present
    or absent, the merged policy has: as fallback trigger set the model's
    if present, else the profile's if present, else exactly 429, 500, 503;
    as cooldown the model's if present, else the profile's, else none;
    max_retries, the backoff settings and the on-failure policy from the
    profile only (0, none and continue_with_next without one), whatever
    the model says. *)
Theorem mergeWithProfile_precedence :
  forall (modelConfig : VirtualModelConfig.t) (profile : option StrategyProfile.t),
    let merged := ConfigStrategies.mergeWithProfile modelConfig profile in
    let from_profile {A} (f : StrategyProfile.t -> option A) : option A :=
      match profile with Some p => f p | None => None end in
    (* fallback trigger set: the model's, else the profile's, else {429, 500, 503} *)
    ResolvedModelConfig.fallback_on merged =
      match VirtualModelConfig.fallback_on modelConfig,
            from_profile StrategyProfile.fallback_on with
      | Some of_model, _ => of_model
      | None, Some of_profile => of_profile
      | None, None => [status_code 429; status_code 500; status_code 503]
      end /\
    (* cooldown: the model's, else the profile's, else absent *)
    ResolvedModelConfig.cooldown merged =
      match VirtualModelConfig.cooldown modelConfig,
            from_profile StrategyProfile.cooldown with
      | Some of_model, _ => Some of_model
      | None, of_profile => of_profile
      end /\
    (* max_retries, backoff and on_fail: the profile's only *)
    ResolvedModelConfig.max_retries merged =
      match from_profile StrategyProfile.max_retries with Some n => n | None => 0 end /\
    ResolvedModelConfig.backoff merged = from_profile StrategyProfile.backoff /\
    ResolvedModelConfig.on_fail merged =
      match from_profile StrategyProfile.on_fail with
      | Some policy => policy
      | None => continue_with_next
      end /\
    (* whatever the model says, these three come out the same *)
    (forall other : VirtualModelConfig.t,
       let merged' := ConfigStrategies.mergeWithProfile other profile in
       ResolvedModelConfig.max_retries merged' = ResolvedModelConfig.max_retries merged /\
       ResolvedModelConfig.backoff merged' = ResolvedModelConfig.backoff merged /\
       ResolvedModelConfig.on_fail merged' = ResolvedModelConfig.on_fail merged).
Proof.
  intros modelConfig profile merged from_profile.
  unfold merged, from_profile, ConfigStrategies.mergeWithProfile,
    ConfigStrategies.default_fallback_on, nullish, nullish_opt, opt_chain; cbn.
  repeat split.
  destruct (VirtualModelConfig.fallback_on modelConfig); [reflexivity|].
  destruct profile as [p|]; [|reflexivity].
  destruct (StrategyProfile.fallback_on p); reflexivity.
Qed.

Section MetricsFacts.
Import State.

Lemma metrics_of_recordSuccess k l st key :
  metrics_of key (recordSuccess k l st) =
    if decide (k = key) then
      let m := metrics_of key st in
      {| requests := S (requests m); successes := S (successes m);
         failures := failures m; fallbacks := fallbacks m;
         totalLatencyMs := (totalLatencyMs m + l)%Q |}
    else metrics_of key st.
Proof.
  unfold metrics_of, recordSuccess, getOrCreateMetrics.
  destruct (metrics st !! k) as [m|] eqn:Hk; cbn;
    case_decide; subst; rewrite ?lookup_insert_eq, ?lookup_insert_ne by done; cbn;
    rewrite ?Hk, ?lookup_insert_ne by done; reflexivity.
Qed.

Lemma metrics_of_recordFailure k st key :
  metrics_of key (recordFailure k st) =
    if decide (k = key) then
      let m := metrics_of key st in
      {| requests := S (requests m); successes := successes m;
         failures := S (failures m); fallbacks := fallbacks m;
         totalLatencyMs := totalLatencyMs m |}
    else metrics_of key st.
Proof.
  unfold metrics_of, recordFailure, getOrCreateMetrics.
  destruct (metrics st !! k) as [m|] eqn:Hk; cbn;
    case_decide; subst; rewrite ?lookup_insert_eq, ?lookup_insert_ne by done; cbn;
    rewrite ?Hk, ?lookup_insert_ne by done; reflexivity.
Qed.

Lemma metrics_of_recordFallback k st key :
  metrics_of key (recordFallback k st) =
    if decide (k = key) then
      let m := metrics_of key st in
      {| requests := requests m; successes := successes m;
         failures := failures m; fallbacks := S (fallbacks m);
         totalLatencyMs := totalLatencyMs m |}
    else metrics_of key st.
Proof.
  unfold metrics_of, recordFallback, getOrCreateMetrics.
  destruct (metrics st !! k) as [m|] eqn:Hk; cbn;
    case_decide; subst; rewrite ?lookup_insert_eq, ?lookup_insert_ne by done; cbn;
    rewrite ?Hk, ?lookup_insert_ne by done; reflexivity.
Qed.

Lemma latencies_of_app key a b :
  latencies_of key (a ++ b) = latencies_of key a ++ latencies_of key b.
Proof.
  induction a as [|[k l|k|k] a IH]; simpl; auto.
  destruct (String.eqb k key); simpl; now rewrite IH.
Qed.

Lemma Qsum_app a b : (Qsum (a ++ b) == Qsum a + Qsum b)%Q.
Proof.
  induction a as [|x a IH]; simpl; [ring|]. rewrite IH. ring.
Qed.

Lemma run_calls_snoc calls c st :
  run_calls (calls ++ [c]) st = run_call (run_calls calls st) c.
Proof. unfold run_calls. now rewrite fold_left_app. Qed.

Lemma reachable_metrics calls key :
  let m := metrics_of key (run_calls calls createRouterState) in
  requests m = successes m + failures m /\
  (totalLatencyMs m == Qsum (latencies_of key calls))%Q.
Proof.
  induction calls as [|c calls IH] using rev_ind.
  - cbn. split; reflexivity.
  - cbn zeta in *. rewrite run_calls_snoc, latencies_of_app, Qsum_app.
    destruct IH as [IHc IHl].
    destruct c as [k l|k|k]; cbn [run_call latencies_of].
    + rewrite metrics_of_recordSuccess. case_decide as Hk.
      * subst. rewrite String.eqb_refl. cbn. split; [lia|]. rewrite IHl. ring.
      * apply String.eqb_neq in Hk. rewrite Hk. cbn. split; [exact IHc|]. rewrite IHl. ring.
    + rewrite metrics_of_recordFailure. case_decide; cbn; (split; [lia|]); rewrite IHl; ring.
    + rewrite metrics_of_recordFallback. case_decide; cbn; (split; [lia|]); rewrite IHl; ring.
Qed.
End MetricsFacts.

(** Claim C10.  In every state reached from the empty router state by
    calls of recordSuccess, recordFailure and recordFallback, the metrics
    of every key satisfy requests = successes + failures, and
    totalLatencyMs is the sum of the latencies passed to recordSuccess
    for that key; recordFallback, in any state, changes the fallbacks
    counter of its key only. *)
Theorem metrics_counters_invariant :
  (forall (calls : list MetricsCall) (key : string),
     let m := metrics_of key (run_calls calls State.createRouterState) in
     State.requests m = State.successes m + State.failures m /\
     (State.totalLatencyMs m == Qsum (latencies_of key calls))%Q /\
     (forall m', State.metrics (run_calls calls State.createRouterState) !! key = Some m' ->
                 m' = m)) /\
  (forall (state : State.RouterState) (modelKey key : string),
     let before := metrics_of key state in
     let after := metrics_of key (State.recordFallback modelKey state) in
     State.requests after = State.requests before /\
     State.successes after = State.successes before /\
     State.failures after = State.failures before /\
     State.totalLatencyMs after = State.totalLatencyMs before /\
     State.fallbacks after =
       (if decide (modelKey = key) then S (State.fallbacks before) else State.fallbacks before) /\
     State.cooldowns (State.recordFallback modelKey state) = State.cooldowns state /\
     State.roundRobinIndex (State.recordFallback modelKey state) = State.roundRobinIndex state).
Proof.
  split.
  - intros calls key m. destruct (reachable_metrics calls key) as [Hc Hl].
    repeat split; [exact Hc|exact Hl|].
    intros m' Hm'. unfold m, metrics_of. now rewrite Hm'.
  - intros state modelKey key before after. unfold before, after.
    rewrite metrics_of_recordFallback.
    assert (Hframe : State.cooldowns (State.recordFallback modelKey state) = State.cooldowns state
                     /\ State.roundRobinIndex (State.recordFallback modelKey state)
                        = State.roundRobinIndex state).
    { unfold State.recordFallback, State.getOrCreateMetrics.
      destruct (State.metrics state !! modelKey); cbn; auto. }
    destruct Hframe as [Hc Hr].
    case_decide; cbn; repeat split; auto.
Qed.

Section CooldownFacts.
Import State.

Lemma Qle_bool_false a b : Qle_bool a b = false <-> (b < a)%Q.
Proof.
  split; intros H.
  - apply Qnot_le_lt. intros Hle. apply Qle_bool_iff in Hle. congruence.
  - destruct (Qle_bool a b) eqn:E; [|reflexivity].
    apply Qle_bool_iff in E. exfalso. exact (Qlt_not_le _ _ H E).
Qed.

Lemma Qeq_bool_false a b : Qeq_bool a b = false <-> ~ (a == b)%Q.
Proof.
  split; intros H.
  - intros E. apply Qeq_bool_iff in E. congruence.
  - destruct (Qeq_bool a b) eqn:E; [|reflexivity]. apply Qeq_bool_iff in E. contradiction.
Qed.

Lemma integer_nonneg ip : (0 <= Duration.integer ip)%Q.
Proof.
  unfold Duration.integer. change 0%Q with (inject_Z 0).
  rewrite <- Zle_Qle. apply N2Z.is_nonneg.
Qed.

Lemma decimal_nonneg ip fp : (0 <= Duration.decimal ip fp)%Q.
Proof.
  unfold Duration.decimal.
  assert (H1 := integer_nonneg ip).
  assert (H2 : (0 <= Z.of_N (Duration.digits_val fp) # 10 ^ Pos.of_nat (length fp))%Q).
  { unfold Qle. cbn. rewrite Z.mul_1_r. apply N2Z.is_nonneg. }
  lra.
Qed.

Lemma parseDuration_nonneg d ms : Duration.parseDuration d = Ok ms -> (0 <= ms)%Q.
Proof.
  intros H. rewrite parseDuration_unfold in H.
  destruct (scan_duration (list_ascii_of_string d)) as [caps|] eqn:Hs; [|discriminate].
  destruct (scan_duration_form _ _ Hs) as (m1 & u & mag & -> & Hform & _).
  destruct (apply_unit_suffix (Duration.parseFloat m1) u) as (v & Hv & Heq).
  rewrite Hv in H. inversion H; subst v.
  assert (Hm : (0 <= Duration.parseFloat m1)%Q).
  { unfold Duration.parseFloat.
    destruct (Duration.span_digits (list_ascii_of_string m1)) as [ip rest].
    destruct rest as [|c rest]; [apply integer_nonneg|].
    destruct (ascii_dec c ".") as [->|Hne].
    - destruct (Duration.span_digits rest) as [fp rest'].
      destruct fp; [apply integer_nonneg|apply decimal_nonneg].
    - destruct c as [[] [] [] [] [] [] [] []]; try apply integer_nonneg; contradiction. }
  rewrite Heq. destruct u; cbn; lra.
Qed.

Lemma parseDuration_nonempty d ms : Duration.parseDuration d = Ok ms -> String.eqb d "" = false.
Proof. destruct d; [discriminate|reflexivity]. Qed.

Lemma setCooldown_parsed now key d ms st :
  Duration.parseDuration d = Ok ms ->
  setCooldown now key (Some d) st
  = Ok (set_cooldowns (<[key := (now + ms)%Q]> (cooldowns st)) st).
Proof.
  intros H. unfold setCooldown. now rewrite (parseDuration_nonempty _ _ H), H.
Qed.
End CooldownFacts.

(** Claim C5.  In a store whose expiries are instants after the epoch:
    [isInCooldown] answers true exactly when the key has an entry whose
    expiry is strictly after now, and deletes an entry of that key whose
    expiry has passed (nothing else changes); [setCooldown] without a
    duration changes nothing; with a duration that parses it sets the
    entry to now + duration whatever entry was there, so a second call
    during an active window replaces the window by its own. *)
Theorem cooldown_store_semantics :
  forall (state : State.RouterState) (now : Q) (key : string),
    expiries_positive state -> (0 < now)%Q ->
    (* isInCooldown *)
    (let (answer, state') := State.isInCooldown now key state in
     (answer = true <->
        exists expiry, State.cooldowns state !! key = Some expiry /\ (now < expiry)%Q) /\
     (forall expiry, State.cooldowns state !! key = Some expiry -> (expiry <= now)%Q ->
                     State.cooldowns state' !! key = None) /\
     (forall expiry, State.cooldowns state !! key = Some expiry -> (now < expiry)%Q ->
                     state' = state) /\
     (forall k, k <> key -> State.cooldowns state' !! k = State.cooldowns state !! k) /\
     State.roundRobinIndex state' = State.roundRobinIndex state /\
     State.metrics state' = State.metrics state /\
     expiries_positive state') /\
    (* setCooldown without a duration *)
    State.setCooldown now key None state = Ok state /\
    (* setCooldown with a duration that parses *)
    (forall duration ms,
       Duration.parseDuration duration = Ok ms ->
       exists state',
         State.setCooldown now key (Some duration) state = Ok state' /\
         State.cooldowns state' !! key = Some (now + ms)%Q /\
         (forall k, k <> key -> State.cooldowns state' !! k = State.cooldowns state !! k) /\
         State.roundRobinIndex state' = State.roundRobinIndex state /\
         State.metrics state' = State.metrics state /\
         expiries_positive state' /\
         ((0 < ms)%Q -> fst (State.isInCooldown now key state') = true) /\
         (* a second failure, later, with its own duration *)
         (forall later duration2 ms2,
            Duration.parseDuration duration2 = Ok ms2 ->
            exists state'',
              State.setCooldown later key (Some duration2) state' = Ok state'' /\
              State.cooldowns state'' !! key = Some (later + ms2)%Q)).
Proof.
  intros state now key Hpos Hnow. split; [|split].
  - unfold State.isInCooldown.
    destruct (State.cooldowns state !! key) as [e|] eqn:He.
    + assert (He0 : Qeq_bool e 0 = false).
      { apply Qeq_bool_false. specialize (Hpos _ _ He). lra. }
      rewrite He0. destruct (Qle_bool e now) eqn:Hle.
      * apply Qle_bool_iff in Hle. cbn. repeat split; try done.
        -- intros (e' & [= <-] & Hlt). lra.
        -- intros e' _ _. apply lookup_delete_eq.
        -- intros e' [= <-] Hlt. lra.
        -- intros k Hk. now apply lookup_delete_ne.
        -- intros k e' H. cbn in H. apply lookup_delete_Some in H as [_ H]. exact (Hpos _ _ H).
      * apply Qle_bool_false in Hle. repeat split; try done.
        -- intros _. eauto.
        -- intros e' [= <-] Hle'. lra.
    + repeat split; try done. intros (e & [=] & _).
  - reflexivity.
  - intros duration ms Hparse. rewrite (setCooldown_parsed _ _ _ _ _ Hparse).
    assert (Hms := parseDuration_nonneg _ _ Hparse).
    eexists. split; [reflexivity|]. repeat split.
    + apply lookup_insert_eq.
    + intros k Hk. cbn. now apply lookup_insert_ne.
    + intros k e H. cbn in H. apply lookup_insert_Some in H as [[_ <-]|[_ H]]; [lra|exact (Hpos _ _ H)].
    + intros Hlt. unfold State.isInCooldown. cbn. rewrite lookup_insert_eq.
      assert (E0 : Qeq_bool (now + ms) 0 = false) by (apply Qeq_bool_false; lra).
      assert (E1 : Qle_bool (now + ms) now = false) by (apply Qle_bool_false; lra).
      now rewrite E0, E1.
    + intros later duration2 ms2 Hparse2. rewrite (setCooldown_parsed _ _ _ _ _ Hparse2).
      eexists. split; [reflexivity|]. cbn. apply lookup_insert_eq.
Qed.

(** The cooldown theorem in the empty store at instant 1000: a cooldown
    of "5m" on "p/a" expires at 1000 + 300000 and is active at once. *)
Lemma cooldown_store_semantics_witness :
  expiries_positive State.createRouterState /\ (0 < 1000)%Q /\
  exists state',
    State.setCooldown 1000 "p/a" (Some "5m") State.createRouterState = Ok state' /\
    State.cooldowns state' !! "p/a" = Some (1000 + 5 * 60 * 1000)%Q /\
    fst (State.isInCooldown 1000 "p/a" state') = true.
Proof.
  assert (Hpos : expiries_positive State.createRouterState).
  { intros k e H. cbn in H. rewrite lookup_empty in H. discriminate. }
  assert (Hnow : (0 < 1000)%Q) by reflexivity.
  split; [exact Hpos|]. split; [exact Hnow|].
  destruct (cooldown_store_semantics State.createRouterState 1000 "p/a" Hpos Hnow)
    as (_ & _ & Hset).
  assert (Hparse : Duration.parseDuration "5m" = Ok (5 * 60 * 1000)%Q)
    by (vm_compute; reflexivity).
  destruct (Hset "5m" _ Hparse) as (state' & Hrun & Hentry & _ & _ & _ & _ & Hin & _).
  exists state'. split; [exact Hrun|]. split; [exact Hentry|].
  apply Hin. reflexivity.
Defined.

Section RuntimeFacts.
Import Runtime.

Lemma read_lookup l rt xs : arrays rt !! l = Some xs -> read l rt = xs.
Proof. unfold read. now intros ->. Qed.

Lemma write_spec l xs rt :
  allocated l rt ->
  arrays (write l xs rt) !! l = Some xs /\
  length (arrays (write l xs rt)) = length (arrays rt) /\
  (forall l', l' <> l -> arrays (write l xs rt) !! l' = arrays rt !! l').
Proof.
  intros Hl. unfold write. cbn. repeat split.
  - now apply list_lookup_insert_eq.
  - apply length_insert.
  - intros l' Hne. now apply list_lookup_insert_ne.
Qed.

Section SortFacts.
Context {A : Type} (comparefn : A -> A -> Runtime.t -> Q * Runtime.t).
Hypothesis Hpure : pure_on_arrays comparefn.

Lemma insert_spec x sorted rt :
  fst (insert comparefn x sorted rt) ≡ₚ x :: sorted /\
  arrays (snd (insert comparefn x sorted rt)) = arrays rt.
Proof.
  revert rt. induction sorted as [|y ys IH]; intros rt; cbn; [auto|].
  destruct (comparefn x y rt) as [v rt1] eqn:Hc.
  assert (H1 : arrays rt1 = arrays rt) by (rewrite <- (Hpure x y rt); now rewrite Hc).
  destruct (Qltb 0 v); cbn; [|auto].
  destruct (insert comparefn x ys rt1) as [r rt2] eqn:Hi.
  destruct (IH rt1) as [Hp Ha]. rewrite Hi in Hp, Ha. cbn in *.
  split; [|congruence]. rewrite Hp. apply perm_swap.
Qed.

Lemma sort_spec xs rt :
  fst (sort comparefn xs rt) ≡ₚ xs /\
  arrays (snd (sort comparefn xs rt)) = arrays rt.
Proof.
  revert rt. induction xs as [|x xs IH]; intros rt; cbn; [auto|].
  destruct (sort comparefn xs rt) as [sorted rt1] eqn:Hs.
  destruct (IH rt) as [Hp Ha]. rewrite Hs in Hp, Ha. cbn in *.
  destruct (insert_spec x sorted rt1) as [Hp' Ha'].
  split; [|congruence]. rewrite Hp'. now constructor.
Qed.
End SortFacts.

Lemma sort_in_place_spec comparefn l rt xs :
  pure_on_arrays comparefn ->
  arrays rt !! l = Some xs ->
  let (r, rt') := sort_in_place comparefn l rt in
  r = l /\ (exists ys, arrays rt' !! l = Some ys /\ ys ≡ₚ xs) /\
  length (arrays rt') = length (arrays rt) /\
  (forall l', l' <> l -> arrays rt' !! l' = arrays rt !! l').
Proof.
  intros Hpure Hl. unfold sort_in_place. rewrite (read_lookup _ _ _ Hl).
  destruct (sort comparefn xs rt) as [sorted rt1] eqn:Hs.
  destruct (sort_spec comparefn Hpure xs rt) as [Hp Ha]. rewrite Hs in Hp, Ha. cbn in *.
  assert (Hal : allocated l rt1).
  { unfold allocated. rewrite Ha. eapply lookup_lt_Some, Hl. }
  destruct (write_spec l sorted rt1 Hal) as (Hw & Hlen & Hother).
  split; [reflexivity|]. split; [eauto|]. split; [now rewrite length_insert, Ha|].
  intros l' Hne. rewrite Hother by done. now rewrite Ha.
Qed.
End RuntimeFacts.

Section SelectFacts.
Import State Strategies.

Lemma score_all_spec totalWeight ts rt :
  map target (fst (score_all totalWeight ts rt)) = ts /\
  Runtime.arrays (snd (score_all totalWeight ts rt)) = Runtime.arrays rt.
Proof.
  revert rt. induction ts as [|t ts IH]; intros rt; cbn; [auto|].
  destruct (score_all totalWeight ts _) as [rest rt2] eqn:Hs. cbn.
  specialize (IH (snd (Runtime.Math_random rt))). cbn in IH. rewrite Hs in IH. cbn in IH.
  destruct IH as [-> ->]. auto.
Qed.

Lemma copy_spec l rt ts :
  Runtime.arrays rt !! l = Some ts ->
  let (r, rt') := copy l rt in
  r = length (Runtime.arrays rt) /\ Runtime.arrays rt' = Runtime.arrays rt ++ [ts].
Proof. intros H. unfold copy. rewrite (read_lookup _ _ _ H). cbn. auto. Qed.

Lemma fresh_alloc xs ts rt :
  xs ≡ₚ ts -> 
  let (r, rt') := Runtime.alloc xs rt in fresh_permutation ts rt r rt'.
Proof.
  intros Hp. unfold fresh_permutation, allocated, Runtime.alloc, Runtime.read. cbn.
  rewrite length_app. cbn. repeat split; try lia.
  - rewrite lookup_app_r by lia. rewrite Nat.sub_diag. cbn. exact Hp.
  - intros l Hl. now apply lookup_app_l.
Qed.

Lemma weightedSort_spec l rt ts :
  Runtime.arrays rt !! l = Some ts ->
  let (r, rt') := weightedSort l rt in fresh_permutation ts rt r rt'.
Proof.
  intros Hl. unfold weightedSort. rewrite (read_lookup _ _ _ Hl).
  set (tw := fold_left _ ts 0%Q).
  destruct (score_all tw ts rt) as [scored rt1] eqn:Hsc.
  destruct (score_all_spec tw ts rt) as [Hm Ha]. rewrite Hsc in Hm, Ha. cbn in Hm, Ha.
  set (cmp := fun (a b : Scored) (rt : Runtime.t) => ((score b - score a)%Q, rt)).
  destruct (Runtime.sort cmp scored rt1) as [sorted rt2] eqn:Hso.
  assert (Hpure : pure_on_arrays cmp) by (intros a b r; reflexivity).
  destruct (sort_spec cmp Hpure scored rt1) as [Hp Ha2]. rewrite Hso in Hp, Ha2. cbn in Hp, Ha2.
  assert (Hperm : map target sorted ≡ₚ ts).
  { rewrite <- Hm. now apply Permutation_map. }
  pose proof (fresh_alloc (map target sorted) ts rt2 Hperm) as H.
  destruct (Runtime.alloc (map target sorted) rt2) as [r rt3] eqn:Hal.
  unfold fresh_permutation, store_preserved, allocated in *.
  rewrite Ha2, Ha in H. exact H.
Qed.

Lemma selectTargets_fresh_permutation virtualModelId config state rt ts :
  Runtime.arrays rt !! VirtualModelConfig.targets config = Some ts ->
  let '(r, state', rt') := selectTargets virtualModelId config state rt in
  fresh_permutation ts rt r rt' /\
  cooldowns state' = cooldowns state /\ metrics state' = metrics state /\
  (forall k, k <> virtualModelId -> roundRobinIndex state' !! k = roundRobinIndex state !! k).
Proof.
  intros Hl. unfold selectTargets.
  assert (Hcopy : let (r, rt1) := copy (VirtualModelConfig.targets config) rt in
                  fresh_permutation ts rt r rt1).
  { unfold copy. rewrite (read_lookup _ _ _ Hl). now apply fresh_alloc. }
  destruct (VirtualModelConfig.strategy config).
  - destruct (copy _ rt) as [r rt1]. auto.
  - rewrite (read_lookup _ _ _ Hl).
    set (idx := nullish _ 0).
    assert (Hp : slice_from idx ts ++ slice_to idx ts ≡ₚ ts).
    { unfold slice_from, slice_to. rewrite Permutation_app_comm. now rewrite take_drop. }
    pose proof (fresh_alloc _ ts rt Hp) as H.
    destruct (Runtime.alloc _ rt) as [r rt1]. split; [exact H|].
    split; [reflexivity|]. split; [reflexivity|].
    intros k Hk. cbn. now rewrite lookup_insert_ne.
  - pose proof (copy_spec _ _ _ Hl) as Hc.
    destruct (copy _ rt) as [c rt1]. destruct Hc as [-> Harr].
    set (cmp := fun (_ _ : TargetModel.t) (rt : Runtime.t) =>
                  let (x, rt') := Runtime.Math_random rt in ((x - 0.5)%Q, rt')).
    assert (Hpure : pure_on_arrays cmp) by (intros a b r; reflexivity).
    assert (Hc1 : Runtime.arrays rt1 !! length (Runtime.arrays rt) = Some ts).
    { rewrite Harr, lookup_app_r by lia. now rewrite Nat.sub_diag. }
    pose proof (sort_in_place_spec cmp _ rt1 ts Hpure Hc1) as Hs.
    destruct (Runtime.sort_in_place cmp _ rt1) as [r rt2].
    destruct Hs as (-> & (ys & Hys & Hperm) & Hlen & Hother).
    repeat split; auto; unfold allocated.
    + lia.
    + rewrite Hlen, Harr, length_app. cbn. lia.
    + now rewrite (read_lookup _ _ _ Hys).
    + intros l Hlt. unfold allocated in Hlt. rewrite Hother by lia.
      rewrite Harr. now apply lookup_app_l.
    + rewrite Hlen, Harr, length_app. lia.
  - pose proof (copy_spec _ _ _ Hl) as Hc.
    destruct (copy _ rt) as [c rt1]. destruct Hc as [-> Harr].
    assert (Hc1 : Runtime.arrays rt1 !! length (Runtime.arrays rt) = Some ts).
    { rewrite Harr, lookup_app_r by lia. now rewrite Nat.sub_diag. }
    pose proof (weightedSort_spec _ rt1 ts Hc1) as Hs.
    destruct (weightedSort _ rt1) as [r rt2].
    destruct Hs as (Hf & Ha & Hp & Hpres & Hlen).
    unfold allocated in *. rewrite Harr, length_app in *. cbn in *.
    repeat split; auto; unfold allocated; try lia.
    intros l Hlt. unfold allocated in Hlt. rewrite Hpres.
    + rewrite Harr. now apply lookup_app_l.
    + unfold allocated. rewrite Harr, length_app. cbn. lia.
  - destruct (copy _ rt) as [r rt1]. auto.
  - destruct (copy _ rt) as [r rt1]. auto.
Qed.
End SelectFacts.

(** Claim C4.  For every strategy, [selectTargets] returns a new array
    whose elements are a permutation of the configured targets (the same
    multiset, hence the same length), and leaves the array of
    [config.targets], and every other array, as it was. *)
Theorem selectTargets_same_multiset :
  forall (virtualModelId : string) (config : VirtualModelConfig.t)
         (state : State.RouterState) (rt : Runtime.t) (ts : list TargetModel.t),
    Runtime.arrays rt !! VirtualModelConfig.targets config = Some ts ->
    let '(r, _, rt') := Strategies.selectTargets virtualModelId config state rt in
    (* a fresh list: a new array of the store, not the configured one *)
    ~ allocated r rt /\ allocated r rt' /\ r <> VirtualModelConfig.targets config /\
    (* the same multiset, so the same length *)
    Runtime.read r rt' ≡ₚ ts /\
    length (Runtime.read r rt') = length ts /\
    (* config.targets, and every other array, is as it was *)
    Runtime.read (VirtualModelConfig.targets config) rt' = ts /\
    store_preserved rt rt'.
Proof.
  intros virtualModelId config state rt ts Hl.
  pose proof (selectTargets_fresh_permutation virtualModelId config state rt ts Hl) as H.
  destruct (Strategies.selectTargets virtualModelId config state rt) as [[r state'] rt'].
  destruct H as ((Hfresh & Halloc & Hperm & Hpres & _) & _).
  assert (Hconf : allocated (VirtualModelConfig.targets config) rt).
  { eapply lookup_lt_Some, Hl. }
  repeat split; auto.
  - intros ->. contradiction.
  - now apply Permutation_length.
  - apply read_lookup. now rewrite Hpres.
Qed.

(** The multiset theorem for the random strategy on the targets A, B. *)
Lemma selectTargets_same_multiset_witness :
  Runtime.arrays store_ab !! VirtualModelConfig.targets random_ab
  = Some [target_a; target_b] /\
  let '(r, _, rt') :=
    Strategies.selectTargets "virtual/w" random_ab State.createRouterState store_ab in
  Runtime.read r rt' ≡ₚ [target_a; target_b] /\
  Runtime.read (VirtualModelConfig.targets random_ab) rt' = [target_a; target_b].
Proof.
  assert (Hl : Runtime.arrays store_ab !! VirtualModelConfig.targets random_ab
               = Some [target_a; target_b]) by reflexivity.
  split; [exact Hl|].
  pose proof (selectTargets_same_multiset "virtual/w" random_ab State.createRouterState
                store_ab [target_a; target_b] Hl) as H.
  destruct (Strategies.selectTargets "virtual/w" random_ab State.createRouterState store_ab)
    as [[r state'] rt'].
  destruct H as (_ & _ & _ & Hperm & _ & Hsame & _). split; [exact Hperm|exact Hsame].
Defined.

Section RoundRobinFacts.
Import State Strategies.

Lemma omap_seq_ext {A} (f g : nat -> option A) a n :
  (forall k, a <= k < a + n -> f k = g k) -> omap f (seq a n) = omap g (seq a n).
Proof.
  revert a. induction n as [|n IH]; intros a H; cbn; [reflexivity|].
  rewrite H by lia. rewrite (IH (S a)); [reflexivity|]. intros k Hk. apply H. lia.
Qed.

Lemma omap_lookup_seq {A} (l : list A) a n :
  a + n <= length l -> omap (fun k => l !! k) (seq a n) = take n (drop a l).
Proof.
  revert a. induction n as [|n IH]; intros a H; cbn; [reflexivity|].
  destruct (lookup_lt_is_Some_2 l a ltac:(lia)) as [x Hx]. rewrite Hx.
  rewrite (IH (S a)) by lia. rewrite (drop_S _ _ _ Hx). reflexivity.
Qed.

Lemma omap_seq_shift {A} (f : nat -> option A) a n :
  omap f (seq a n) = omap (fun k => f (a + k)) (seq 0 n).
Proof.
  revert f a. induction n as [|n IH]; intros f a; cbn; [reflexivity|].
  rewrite Nat.add_0_r. rewrite (IH f (S a)), (IH (fun k => f (a + k)) 1).
  destruct (f a); [f_equal|]; apply omap_seq_ext; intros k _; f_equal; lia.
Qed.

Lemma rotation_is_cyclic {A} (ts : list A) idx :
  idx < length ts ->
  drop idx ts ++ take idx ts = cyclic_rotation idx ts.
Proof.
  intros Hidx. unfold cyclic_rotation.
  set (n := length ts).
  replace (seq 0 n) with (seq 0 (n - idx) ++ seq (n - idx) idx).
  2:{ rewrite <- seq_app. f_equal. lia. }
  rewrite omap_app. f_equal.
  - rewrite (omap_seq_ext _ (fun k => ts !! (idx + k))).
    2:{ intros k Hk. f_equal. apply Nat.mod_small. lia. }
    rewrite <- (omap_seq_shift (fun k => ts !! k) idx (n - idx)).
    rewrite omap_lookup_seq by lia.
    symmetry. apply take_ge. rewrite length_drop. lia.
  - rewrite (omap_seq_ext _ (fun k => ts !! (k - (n - idx)))).
    2:{ intros k Hk. f_equal.
        replace (idx + k) with ((k - (n - idx)) + 1 * n) by lia.
        rewrite Nat.Div0.mod_add. apply Nat.mod_small. lia. }
    rewrite omap_seq_shift.
    rewrite (omap_seq_ext _ (fun k => ts !! k)).
    2:{ intros k _. f_equal. lia. }
    rewrite omap_lookup_seq by lia. now rewrite drop_0.
Qed.

Lemma map_seq_affine (f : nat -> nat) a b n :
  (forall k, a <= k < a + n -> f k = b + (k - a)) -> map f (seq a n) = seq b n.
Proof.
  revert a b. induction n as [|n IH]; intros a b H; cbn; [reflexivity|].
  rewrite H by lia. rewrite Nat.sub_diag, Nat.add_0_r. f_equal.
  apply IH. intros k Hk. rewrite H by lia. lia.
Qed.

Lemma start_positions_perm c N :
  c < N -> map (fun j => (c + j) mod N) (seq 0 N) ≡ₚ seq 0 N.
Proof.
  intros Hc.
  replace (seq 0 N) with (seq 0 (N - c) ++ seq (N - c) c) at 1.
  2:{ rewrite <- seq_app. f_equal. lia. }
  rewrite map_app.
  rewrite (map_seq_affine _ 0 c (N - c)).
  2:{ intros k Hk. rewrite Nat.mod_small by lia. lia. }
  rewrite (map_seq_affine _ (N - c) 0 c).
  2:{ intros k Hk. replace (c + k) with ((k - (N - c)) + 1 * N) by lia.
      rewrite Nat.Div0.mod_add. rewrite Nat.mod_small by lia. lia. }
  rewrite Permutation_app_comm. rewrite <- seq_app.
  replace (c + (N - c)) with N by lia. reflexivity.
Qed.

Lemma round_robin_call virtualModelId config state rt ts :
  VirtualModelConfig.strategy config = round_robin ->
  Runtime.arrays rt !! VirtualModelConfig.targets config = Some ts ->
  let idx := cursor_of virtualModelId state in
  let '(r, state', rt') := selectTargets virtualModelId config state rt in
  Runtime.read r rt' = drop idx ts ++ take idx ts /\
  roundRobinIndex state' = <[virtualModelId := (idx + 1) mod length ts]> (roundRobinIndex state) /\
  Runtime.arrays rt' !! VirtualModelConfig.targets config = Some ts.
Proof.
  intros Hs Hl idx. unfold selectTargets. rewrite Hs, (read_lookup _ _ _ Hl).
  fold (cursor_of virtualModelId state). fold idx.
  unfold Runtime.alloc, Runtime.read, slice_from, slice_to. cbn.
  repeat split.
  - rewrite lookup_app_r by lia. now rewrite Nat.sub_diag.
  - apply lookup_app_l_Some, Hl.
Qed.

Lemma successive_calls_rotations n virtualModelId config ts :
  VirtualModelConfig.strategy config = round_robin ->
  ts <> [] ->
  forall state rt,
    Runtime.arrays rt !! VirtualModelConfig.targets config = Some ts ->
    cursor_of virtualModelId state < length ts ->
    let c := cursor_of virtualModelId state in
    let '(rs, state', rt') := successive_calls n virtualModelId config state rt in
    rs = map (fun j => cyclic_rotation ((c + j) mod length ts) ts) (seq 0 n) /\
    cursor_of virtualModelId state' = (c + n) mod length ts.
Proof.
  intros Hs Hne. induction n as [|n IH]; intros state rt Hl Hc c.
  - cbn. split; [reflexivity|]. rewrite Nat.add_0_r. symmetry. now apply Nat.mod_small.
  - cbn [successive_calls].
    pose proof (round_robin_call virtualModelId config state rt ts Hs Hl) as Hcall.
    destruct (selectTargets virtualModelId config state rt) as [[r state1] rt1].
    cbn zeta in Hcall. fold c in Hcall. destruct Hcall as (Hr & Hidx & Hl1).
    assert (Hlen : 0 < length ts) by (destruct ts; [contradiction|cbn; lia]).
    assert (Hc1 : cursor_of virtualModelId state1 = (c + 1) mod length ts).
    { unfold cursor_of. rewrite Hidx. now rewrite lookup_insert_eq. }
    assert (Hc1' : cursor_of virtualModelId state1 < length ts).
    { rewrite Hc1. apply Nat.mod_upper_bound. lia. }
    specialize (IH state1 rt1 Hl1 Hc1'). cbn zeta in IH.
    destruct (successive_calls n virtualModelId config state1 rt1) as [[rs state2] rt2].
    destruct IH as [-> ->]. split.
    + cbn [seq map]. f_equal.
      * rewrite Hr, Nat.add_0_r, (Nat.mod_small c) by exact Hc.
        now apply rotation_is_cyclic.
      * rewrite <- seq_shift, map_map. apply map_ext. intros j.
        rewrite Hc1, Nat.Div0.add_mod_idemp_l. do 2 f_equal. lia.
    + rewrite Hc1, Nat.Div0.add_mod_idemp_l. f_equal. lia.
Qed.
End RoundRobinFacts.

(** Claim C2, amended.  Under round_robin, with a non-empty target list
    and a stored cursor below the length of the list (0 when none is
    stored), [selectTargets] returns the cyclic rotation of the targets
    that begins at the cursor, and stores (cursor + 1) mod length, which
    is below the length again; the cursors of other model ids are
    untouched, and a call for another id leaves this cursor alone; so N
    successive calls for N targets begin at every position exactly once
    and bring the cursor back. *)
Theorem round_robin_visits_every_start :
  forall (virtualModelId : string) (config : VirtualModelConfig.t)
         (state : State.RouterState) (rt : Runtime.t) (ts : list TargetModel.t),
    VirtualModelConfig.strategy config = round_robin ->
    Runtime.arrays rt !! VirtualModelConfig.targets config = Some ts ->
    ts <> [] ->
    cursor_of virtualModelId state < length ts ->
    let N := length ts in
    let c := cursor_of virtualModelId state in
    (* one call: the rotation that begins at the cursor, and the cursor moves on *)
    (let '(r, state', rt') := Strategies.selectTargets virtualModelId config state rt in
     Runtime.read r rt' = cyclic_rotation c ts /\
     State.roundRobinIndex state' !! virtualModelId = Some ((c + 1) mod N) /\
     cursor_of virtualModelId state' < N /\
     (forall other, other <> virtualModelId -> cursor_of other state' = cursor_of other state)) /\
    (* a call for another model id, whatever its configuration, leaves this cursor alone *)
    (forall other config' ts',
       other <> virtualModelId ->
       Runtime.arrays rt !! VirtualModelConfig.targets config' = Some ts' ->
       let '(_, state', _) := Strategies.selectTargets other config' state rt in
       cursor_of virtualModelId state' = c) /\
    (* N successive calls begin at c, c+1, ... (mod N): every position once, then c again *)
    (let '(rs, state', _) := successive_calls N virtualModelId config state rt in
     rs = map (fun j => cyclic_rotation ((c + j) mod N) ts) (seq 0 N) /\
     map (fun j => (c + j) mod N) (seq 0 N) ≡ₚ seq 0 N /\
     cursor_of virtualModelId state' = c).
Proof.
  intros virtualModelId config state rt ts Hs Hl Hne Hc N c.
  assert (HN : 0 < N) by (unfold N; destruct ts; [contradiction|cbn; lia]).
  split; [|split].
  - pose proof (round_robin_call virtualModelId config state rt ts Hs Hl) as Hcall.
    destruct (Strategies.selectTargets virtualModelId config state rt) as [[r state'] rt'].
    cbn zeta in Hcall. destruct Hcall as (Hr & Hidx & _). fold c N in Hr, Hidx.
    split; [rewrite Hr; now apply rotation_is_cyclic|].
    split; [rewrite Hidx; apply lookup_insert_eq|].
    split.
    + unfold cursor_of. rewrite Hidx, lookup_insert_eq. cbn. apply Nat.mod_upper_bound. lia.
    + intros other Ho. unfold cursor_of. rewrite Hidx. now rewrite lookup_insert_ne.
  - intros other config' ts' Ho Hl'.
    pose proof (selectTargets_fresh_permutation other config' state rt ts' Hl') as H.
    destruct (Strategies.selectTargets other config' state rt) as [[r state'] rt'].
    destruct H as (_ & _ & _ & Hrr). unfold c, cursor_of. now rewrite Hrr.
  - pose proof (successive_calls_rotations N virtualModelId config ts Hs Hne state rt Hl Hc) as H.
    cbn zeta in H. fold c N in H.
    destruct (successive_calls N virtualModelId config state rt) as [[rs state'] rt'].
    destruct H as [-> Hc']. split; [reflexivity|]. split; [now apply start_positions_perm|].
    rewrite Hc'. replace (c + N) with (c + 1 * N) by lia.
    rewrite Nat.Div0.mod_add. now apply Nat.mod_small.
Qed.

(** The round-robin theorem on the targets A, B from the empty state:
    two calls return the rotations at 0 and at 1, and the cursor is 0 again. *)
Lemma round_robin_visits_every_start_witness :
  Runtime.arrays store_ab !! VirtualModelConfig.targets round_robin_ab
  = Some [target_a; target_b] /\
  cursor_of "virtual/w" State.createRouterState < 2 /\
  let '(rs, state', _) :=
    successive_calls 2 "virtual/w" round_robin_ab State.createRouterState store_ab in
  rs = [cyclic_rotation 0 [target_a; target_b]; cyclic_rotation 1 [target_a; target_b]] /\
  cursor_of "virtual/w" state' = 0.
Proof.
  assert (Hl : Runtime.arrays store_ab !! VirtualModelConfig.targets round_robin_ab
               = Some [target_a; target_b]) by reflexivity.
  assert (Hc : cursor_of "virtual/w" State.createRouterState < 2) by (vm_compute; lia).
  split; [exact Hl|]. split; [exact Hc|].
  pose proof (round_robin_visits_every_start "virtual/w" round_robin_ab
                State.createRouterState store_ab [target_a; target_b]
                eq_refl Hl ltac:(discriminate) Hc) as H.
  cbv zeta in H. destruct H as (_ & _ & H).
  change (length [target_a; target_b]) with 2 in H.
  destruct (successive_calls 2 "virtual/w" round_robin_ab State.createRouterState store_ab)
    as [[rs state'] rt'].
  destruct H as (Hrs & _ & Hcur). split; [exact Hrs|exact Hcur].
Defined.

(** C2 as stated fails for a stored cursor that is not below the length
    of the list.  Three calls for "virtual/w" with four targets leave the
    cursor at 3; the configuration is reloaded with two targets; the next
    call returns the list as configured, not the rotation that begins at
    position 3 (which is position 1 of two), and the call after it begins
    at position 0 again: two successive calls for two targets, and no
    list begins at position 1. *)
Lemma stale_cursor_repeats_a_start :
  let '(_, state, rt) :=
    successive_calls 3 "virtual/w" (round_robin_at 0) State.createRouterState store_reloaded in
  cursor_of "virtual/w" state = 3 /\
  Runtime.arrays rt !! VirtualModelConfig.targets (round_robin_at 1)
  = Some [target_a; target_b] /\
  let '(rs, _, _) := successive_calls 2 "virtual/w" (round_robin_at 1) state rt in
  rs = [[target_a; target_b]; [target_a; target_b]] /\
  cyclic_rotation 3 [target_a; target_b] = [target_b; target_a] /\
  cyclic_rotation 1 [target_a; target_b] = [target_b; target_a].
Proof. vm_compute. repeat split. Qed.

Section BackoffFacts.
Import Strategies.
Context {W : Type} (fn : W -> Outcome * W).
Variables (maxRetries : nat) (multiplier maxDelay : Q) (fallbackOn : FallbackOn).
Local Abbreviation shape := (run_shape multiplier maxDelay fallbackOn).

Lemma calls_of_app a b : calls_of (a ++ b) = calls_of a ++ calls_of b.
Proof. apply omap_app. Qed.

Lemma sleeps_of_app a b : sleeps_of (a ++ b) = sleeps_of a ++ sleeps_of b.
Proof. apply omap_app. Qed.

Lemma delay_at_next d k :
  delay_at (Qmin (d * multiplier) maxDelay) multiplier maxDelay k
  = delay_at d multiplier maxDelay (S k).
Proof. induction k as [|k IH]; cbn; [reflexivity|]. now rewrite IH. Qed.

Lemma run_shape_retry fuel delay o cs ss res :
  asks_retry fallbackOn o = true ->
  shape fuel (Qmin (delay * multiplier) maxDelay) cs ss res ->
  shape (S fuel) delay (o :: cs) (delay :: ss) res.
Proof.
  intros Ho (Hlen & Hfuel & Hss & Hretry & Hlast).
  unfold run_shape. cbn [length]. repeat split; try lia.
  - cbn [seq map]. f_equal. rewrite <- seq_shift, map_map.
    rewrite Hss at 1. apply map_ext. intros k. apply delay_at_next.
  - intros [|i] o' Hi Hlt; cbn in Hi.
    + now inversion Hi; subst.
    + apply (Hretry i o' Hi). lia.
  - destruct cs as [|c cs']; [cbn in Hlen; lia|].
    change (last (o :: c :: cs')) with (last (c :: cs')).
    destruct (last (c :: cs')) as [[resp|err]|]; [|intuition lia|exact Hlast].
    destruct (shouldFallbackStatus (status resp) fallbackOn); intuition lia.
Qed.

Lemma run_shape_last fuel delay o res :
  match o with
  | Resolved resp =>
      if shouldFallbackStatus (status resp) fallbackOn
      then response res = None /\ lastStatus res = Some (status resp) /\ fuel = 0
      else res = {| response := Some resp; lastStatus := None; lastError := None |}
  | Rejected err => response res = None /\ lastError res = Some err /\ fuel = 0
  end ->
  shape (S fuel) delay [o] [] res.
Proof.
  intros H. unfold run_shape. cbn [length last seq map].
  split; [reflexivity|]. split; [lia|]. split; [reflexivity|]. split.
  - intros i o' _ Hlt. lia.
  - destruct o as [resp|err].
    + destruct (shouldFallbackStatus (status resp) fallbackOn); [|exact H].
      destruct H as (? & ? & ->). auto.
    + destruct H as (? & ? & ->). auto.
Qed.

Lemma attempts_step fuel attempt delay ls le w log :
  attempts fn maxRetries multiplier maxDelay fallbackOn (S fuel) attempt delay ls le w log =
    let (o, w1) := fn w in
    let log1 := log ++ [Called o] in
    let retry lastStatus1 lastError1 :=
      attempts fn maxRetries multiplier maxDelay fallbackOn fuel (S attempt)
               (Qmin (delay * multiplier) maxDelay) lastStatus1 lastError1 w1
               (log1 ++ [Slept delay]) in
    match o with
    | Resolved resp =>
        if shouldFallbackStatus (status resp) fallbackOn then
          if (attempt <? maxRetries)%nat then retry (Some (status resp)) le
          else ({| response := None; lastStatus := Some (status resp); lastError := None |},
                w1, log1)
        else ({| response := Some resp; lastStatus := None; lastError := None |}, w1, log1)
    | Rejected error =>
        if (attempt <? maxRetries)%nat then retry ls (Some error)
        else ({| response := None; lastStatus := ls; lastError := Some error |}, w1, log1)
    end.
Proof. reflexivity. Qed.

Lemma attempts_shape fuel :
  forall attempt delay ls le w log,
    attempt + S fuel = S maxRetries ->
    let '(res, _, log') :=
      attempts fn maxRetries multiplier maxDelay fallbackOn (S fuel) attempt delay ls le w log in
    exists cs ss,
      calls_of log' = calls_of log ++ cs /\ sleeps_of log' = sleeps_of log ++ ss /\
      shape (S fuel) delay cs ss res.
Proof.
  assert (Hone : forall log o, calls_of (log ++ [Called o]) = calls_of log ++ [o] /\
                               sleeps_of (log ++ [Called o]) = sleeps_of log ++ []).
  { intros log o. rewrite calls_of_app, sleeps_of_app. cbn. now rewrite app_nil_r. }
  induction fuel as [|fuel IH]; intros attempt delay ls le w log Hfuel.
  - rewrite attempts_step. destruct (fn w) as [o w1]. cbv zeta.
    assert (Hlt : (attempt <? maxRetries)%nat = false) by (apply Nat.ltb_ge; lia).
    rewrite Hlt.
    destruct o as [resp|err].
    + destruct (shouldFallbackStatus (status resp) fallbackOn) eqn:Hsf; cbv beta iota;
        exists (Resolved resp :: nil), (@nil Q); (split; [apply Hone|]); (split; [apply Hone|]);
        apply run_shape_last; rewrite Hsf; cbn; auto.
    + cbv beta iota. exists (Rejected err :: nil), (@nil Q). split; [apply Hone|]. split; [apply Hone|].
      apply run_shape_last. cbn. auto.
  - rewrite attempts_step. destruct (fn w) as [o w1]. cbv zeta.
    assert (Hlt : (attempt <? maxRetries)%nat = true) by (apply Nat.ltb_lt; lia).
    rewrite Hlt.
    destruct o as [resp|err].
    + destruct (shouldFallbackStatus (status resp) fallbackOn) eqn:Hsf.
      * specialize (IH (S attempt) (Qmin (delay * multiplier) maxDelay)
                       (Some (status resp)) le w1
                       ((log ++ [Called (Resolved resp)]) ++ [Slept delay]) ltac:(lia)).
        destruct (attempts _ _ _ _ _ (S fuel) _ _ _ _ _ _) as [[res w'] log'].
        destruct IH as (cs & ss & Hcs & Hss & Hshape).
        exists (Resolved resp :: cs), (delay :: ss).
        rewrite Hcs, Hss, !calls_of_app, !sleeps_of_app. cbn. rewrite ?app_nil_r.
        split; [now rewrite <- app_assoc|]. split; [now rewrite <- app_assoc|].
        apply run_shape_retry; [exact Hsf|exact Hshape].
      * cbv beta iota. exists (Resolved resp :: nil), (@nil Q). split; [apply Hone|]. split; [apply Hone|].
        apply run_shape_last. now rewrite Hsf.
    + specialize (IH (S attempt) (Qmin (delay * multiplier) maxDelay)
                     ls (Some err) w1
                     ((log ++ [Called (Rejected err)]) ++ [Slept delay]) ltac:(lia)).
      destruct (attempts _ _ _ _ _ (S fuel) _ _ _ _ _ _) as [[res w'] log'].
      destruct IH as (cs & ss & Hcs & Hss & Hshape).
      exists (Rejected err :: cs), (delay :: ss).
      rewrite Hcs, Hss, !calls_of_app, !sleeps_of_app. cbn. rewrite ?app_nil_r.
      split; [now rewrite <- app_assoc|]. split; [now rewrite <- app_assoc|].
      apply run_shape_retry; [reflexivity|exact Hshape].
Qed.
End BackoffFacts.

Section DelayFacts.
Lemma Qpower_nat_succ (m : Q) (k : nat) :
  (m ^ Z.of_nat (S k) == m ^ Z.of_nat k * m)%Q.
Proof.
  rewrite Nat2Z.inj_succ. unfold Z.succ.
  rewrite Qpower_plus' by lia. reflexivity.
Qed.

Lemma delay_closed_form initial multiplier maxDelay k :
  (0 <= initial)%Q -> (initial <= maxDelay)%Q -> (0 <= multiplier)%Q ->
  (delay_at initial multiplier maxDelay k
   == Qmin (initial * multiplier ^ Z.of_nat k) maxDelay)%Q.
Proof.
  intros H0 Hi Hm.
  destruct (Qlt_le_dec multiplier 1) as [Hsmall|Hbig].
  - (* the delays shrink: the cap never applies *)
    assert (H : (delay_at initial multiplier maxDelay k == initial * multiplier ^ Z.of_nat k
                 /\ 0 <= initial * multiplier ^ Z.of_nat k <= maxDelay)%Q).
    { induction k as [|k [IH [IH0 IHM]]].
      - cbn. rewrite Qmult_1_r. split; [reflexivity|]. split; lra.
      - cbn [delay_at]. rewrite IH, Qpower_nat_succ.
        set (x := (initial * multiplier ^ Z.of_nat k)%Q) in *.
        assert (Hx : (initial * (multiplier ^ Z.of_nat k * multiplier) == x * multiplier)%Q)
          by (unfold x; ring).
        rewrite Hx. split; [apply Q.min_l; nra|]. split; nra. }
    destruct H as [H [_ HM]]. rewrite H. symmetry. now apply Q.min_l.
  - (* the delays grow: once capped, always capped *)
    assert (HM : (0 <= maxDelay)%Q) by lra.
    induction k as [|k IH].
    + cbn. rewrite Qmult_1_r. symmetry. now apply Q.min_l.
    + cbn [delay_at]. rewrite IH, Qpower_nat_succ.
      set (x := (initial * multiplier ^ Z.of_nat k)%Q).
      assert (Hx : (initial * (multiplier ^ Z.of_nat k * multiplier) == x * multiplier)%Q)
        by (unfold x; ring).
      rewrite Hx.
      destruct (Qlt_le_dec maxDelay x) as [Hgt|Hle].
      * rewrite (Q.min_r x maxDelay) by lra.
        rewrite (Q.min_r (maxDelay * multiplier) maxDelay) by nra.
        rewrite (Q.min_r (x * multiplier) maxDelay) by nra. reflexivity.
      * rewrite (Q.min_l x maxDelay) by lra. reflexivity.
Qed.
End DelayFacts.

(** Claim C3, amended.  When the two durations of the profile parse,
    [executeWithBackoff] calls the attempt function at least once and at
    most max_retries + 1 times, sleeping between two calls; the first
    sleep is the initial delay and each later one is the previous delay
    times the multiplier, capped at the maximum -- which is
    min(initial * multiplier^k, max) for the sleep before retry k + 1
    when initial <= max and multiplier >= 0; the defaults are 500ms, 2
    and 30s; a status that does not match the trigger ends the run at
    once with success; a failure is returned only after max_retries + 1
    calls and carries the last triggering status or the last error. *)
Theorem executeWithBackoff_retries :
  forall (W : Type) (fn : W -> Strategies.Outcome * W) (profile : StrategyProfile.t)
         (fallbackOn : FallbackOn) (w : W) (initial maxDelay : Q),
    Duration.parseDuration (initial_of profile) = Ok initial ->
    Duration.parseDuration (max_of profile) = Ok maxDelay ->
    let maxRetries := maxRetries_of profile in
    let multiplier := multiplier_of profile in
    exists result w' log,
      Strategies.executeWithBackoff fn profile fallbackOn w = Ok (result, w', log) /\
      (* at most max_retries + 1 calls, one sleep between two calls *)
      1 <= length (calls_of log) <= maxRetries + 1 /\
      S (length (sleeps_of log)) = length (calls_of log) /\
      (* the delays: initial, then multiplied and capped after each sleep *)
      (forall k d, sleeps_of log !! k = Some d -> d = delay_at initial multiplier maxDelay k) /\
      ((initial <= maxDelay)%Q -> (0 <= multiplier)%Q ->
       forall k d, sleeps_of log !! k = Some d ->
                   (d == Qmin (initial * multiplier ^ Z.of_nat k) maxDelay)%Q) /\
      (StrategyProfile.backoff profile = None ->
       (initial == 500)%Q /\ (multiplier == 2)%Q /\ (maxDelay == 30000)%Q) /\
      (* a status that does not trigger ends the run with success, at once *)
      (forall i resp,
         calls_of log !! i = Some (Strategies.Resolved resp) ->
         Strategies.shouldFallbackStatus (Strategies.status resp) fallbackOn = false ->
         S i = length (calls_of log) /\
         result = {| Strategies.response := Some resp;
                     Strategies.lastStatus := None; Strategies.lastError := None |}) /\
      (* a failure is returned only after max_retries + 1 calls, and carries
         what the last call gave *)
      (Strategies.response result = None ->
       length (calls_of log) = maxRetries + 1 /\
       match last (calls_of log) with
       | Some (Strategies.Resolved resp) =>
           Strategies.shouldFallbackStatus (Strategies.status resp) fallbackOn = true /\
           Strategies.lastStatus result = Some (Strategies.status resp)
       | Some (Strategies.Rejected err) => Strategies.lastError result = Some err
       | None => False
       end).
Proof.
  intros W fn profile fallbackOn w initial maxDelay Hinit Hmax maxRetries multiplier.
  unfold Strategies.executeWithBackoff.
  fold (initial_of profile) (max_of profile) (maxRetries_of profile) (multiplier_of profile).
  rewrite Hinit, Hmax. cbn [Strategies.bind].
  fold maxRetries multiplier.
  pose proof (attempts_shape fn maxRetries multiplier maxDelay fallbackOn maxRetries
                0 initial None None w [] ltac:(lia)) as H.
  destruct (Strategies.attempts _ _ _ _ _ _ _ _ _ _ _ _) as [[result w'] log].
  destruct H as (cs & ss & Hcs & Hss & Hlen & Hfuel & Hdelays & Hretry & Hlast).
  cbn in Hcs, Hss. subst cs ss.
  exists result, w', log. split; [reflexivity|].
  assert (Hk : forall k d, sleeps_of log !! k = Some d ->
                           d = delay_at initial multiplier maxDelay k).
  { intros k d Hd. rewrite Hdelays in Hd.
    apply list_lookup_fmap_Some in Hd as (j & -> & Hj).
    apply lookup_seq in Hj as [-> _]. reflexivity. }
  split; [lia|]. split; [lia|]. split; [exact Hk|]. split; [|split; [|split]].
  - intros Hi Hm k d Hd. rewrite (Hk _ _ Hd).
    apply delay_closed_form; auto.
    apply (parseDuration_nonneg _ _ Hinit).
  - intros Hb. unfold initial_of, max_of in *. subst multiplier. unfold multiplier_of.
    rewrite Hb in *. cbn in *.
    vm_compute in Hinit. vm_compute in Hmax.
    inversion Hinit; inversion Hmax; subst. repeat split; reflexivity.
  - intros i resp Hi Hsf.
    assert (Hlast_i : S i = length (calls_of log)).
    { destruct (Nat.lt_ge_cases (S i) (length (calls_of log))) as [Hlt|Hge].
      - specialize (Hretry _ _ Hi Hlt). cbn in Hretry. congruence.
      - apply lookup_lt_Some in Hi. lia. }
    split; [exact Hlast_i|].
    assert (Hl : last (calls_of log) = Some (Strategies.Resolved resp)).
    { rewrite last_lookup. rewrite <- Hlast_i. exact Hi. }
    rewrite Hl, Hsf in Hlast. exact Hlast.
  - intros Hnone.
    destruct (last (calls_of log)) as [[resp|err]|]; [| |contradiction].
    + destruct (Strategies.shouldFallbackStatus (Strategies.status resp) fallbackOn).
      * destruct Hlast as (_ & Hs & Hl). split; [lia|auto].
      * rewrite Hlast in Hnone. discriminate.
    + destruct Hlast as (_ & He & Hl). split; [lia|auto].
Qed.

(** C3 as stated fails: the sleep before the first retry is the initial
    delay, 2000ms, not min(2000 * 2^0, 1000) = 1000ms. *)
Lemma first_sleep_is_not_capped :
  sleeps_of_run (Strategies.executeWithBackoff always_503 slow_start [status_code 503] 0)
  = [2000%Q] /\
  Duration.parseDuration (initial_of slow_start) = Ok 2000%Q /\
  Duration.parseDuration (max_of slow_start) = Ok 1000%Q /\
  multiplier_of slow_start = 2%Q /\
  ~ (2000 == Qmin (2000 * 2 ^ 0) 1000)%Q.
Proof.
  split; [vm_compute; reflexivity|]. split; [vm_compute; reflexivity|].
  split; [vm_compute; reflexivity|]. split; [reflexivity|].
  vm_compute. discriminate.
Qed.

(** The backoff theorem for the backend that always answers 503, with
    one retry: at most two calls, and the sleeps follow the recurrence. *)
Lemma executeWithBackoff_retries_witness :
  Duration.parseDuration (initial_of slow_start) = Ok 2000%Q /\
  Duration.parseDuration (max_of slow_start) = Ok 1000%Q /\
  exists result w' log,
    Strategies.executeWithBackoff always_503 slow_start [status_code 503] 0
    = Ok (result, w', log) /\
    length (calls_of log) <= 2 /\
    forall k d, sleeps_of log !! k = Some d -> d = delay_at 2000 2 1000 k.
Proof.
  assert (H1 : Duration.parseDuration (initial_of slow_start) = Ok 2000%Q)
    by (vm_compute; reflexivity).
  assert (H2 : Duration.parseDuration (max_of slow_start) = Ok 1000%Q)
    by (vm_compute; reflexivity).
  split; [exact H1|]. split; [exact H2|].
  destruct (executeWithBackoff_retries nat always_503 slow_start [status_code 503] 0
              2000%Q 1000%Q H1 H2)
    as (result & w' & log & Hrun & Hcalls & _ & Hdelay & _).
  exists result, w', log. split; [exact Hrun|]. split; [apply Hcalls|exact Hdelay].
Defined.

Section StringFacts.
Lemma append_cons c (a b : string) : String c a +:+ b = String c (a +:+ b).
Proof. reflexivity. Qed.

Lemma append_nil (b : string) : "" +:+ b = b.
Proof. reflexivity. Qed.

Lemma prefix_app p r : String.prefix p (p +:+ r) = true.
Proof.
  induction p as [|c p IH]; [rewrite append_nil; now destruct r|].
  rewrite append_cons. simpl. destruct (ascii_dec c c); [exact IH|contradiction].
Qed.

Lemma prefix_split p s :
  String.prefix p s = true -> s = p +:+ str_slice (String.length p) s.
Proof.
  revert s. induction p as [|c p IH]; intros s H; [reflexivity|].
  destruct s as [|c' s]; simpl in H; [discriminate|].
  destruct (ascii_dec c c'); [subst|discriminate].
  rewrite append_cons. simpl. f_equal. now apply IH.
Qed.

Lemma str_slice_app p r : str_slice (String.length p) (p +:+ r) = r.
Proof.
  induction p as [|c p IH]; [rewrite append_nil; now destruct r|].
  rewrite append_cons. exact IH.
Qed.

Lemma append_assoc (a b c : string) : (a +:+ b) +:+ c = a +:+ (b +:+ c).
Proof.
  induction a as [|x a IH]; [reflexivity|]. rewrite !append_cons. now rewrite IH.
Qed.

Lemma append_inv_l (p a b : string) : p +:+ a = p +:+ b -> a = b.
Proof.
  induction p as [|c p IH]; [auto|]. rewrite !append_cons. intros [= H]. now apply IH.
Qed.

Lemma startsWith_iff s p : startsWith s p = true <-> exists rest, s = p +:+ rest.
Proof.
  unfold startsWith. split.
  - intros H. eexists. now apply prefix_split.
  - intros [rest ->]. apply prefix_app.
Qed.
End StringFacts.

Section ResolverFacts.
Import Resolver.

Lemma normalizeModelID_strips provider rest :
  normalizeModelID provider (provider +:+ "/" +:+ rest) = rest.
Proof.
  unfold normalizeModelID, startsWith.
  rewrite <- append_assoc, prefix_app. apply str_slice_app.
Qed.

Lemma normalizeModelID_keeps provider model :
  startsWith model (provider +:+ "/") = false -> normalizeModelID provider model = model.
Proof. unfold normalizeModelID. now intros ->. Qed.

(** The result still begins with the prefix exactly when the configured
    id began with it twice. *)
Lemma normalizeModelID_prefixed provider model :
  startsWith (normalizeModelID provider model) (provider +:+ "/") = true <->
  exists rest, model = (provider +:+ "/") +:+ (provider +:+ "/") +:+ rest.
Proof.
  split.
  - intros H. unfold normalizeModelID in H.
    destruct (startsWith model (provider +:+ "/")) eqn:Hp.
    + apply startsWith_iff in H as [rest Hrest].
      apply prefix_split in Hp. rewrite Hrest in Hp. eauto.
    + congruence.
  - intros [rest ->]. unfold normalizeModelID.
    unfold startsWith at 2. rewrite prefix_app, str_slice_app.
    apply prefix_app.
Qed.

Lemma first_available_emitted now ts state r state' :
  first_available now ts state = (Some r, state') ->
  exists t, t ∈ ts /\ r = emitted t.
Proof.
  revert state. induction ts as [|t ts IH]; intros state H; cbn in H; [discriminate|].
  destruct (State.isInCooldown now _ state) as [cooled state1].
  destruct cooled.
  - destruct (IH _ H) as (t' & Hin & ->). exists t'. split; [now right|reflexivity].
  - inversion H; subst. exists t. split; [now left|reflexivity].
Qed.

Lemma resolveModel_emitted now virtualModelID virtualModels strategyProfiles state rt
      config ts res state' rt' :
  virtualModels !! virtualModelID = Some config ->
  Runtime.arrays rt !! VirtualModelConfig.targets config = Some ts ->
  resolveModel now virtualModelID virtualModels strategyProfiles state rt
  = (Some res, state', rt') ->
  allTargets res ≡ₚ map emitted ts /\ selected res ∈ allTargets res.
Proof.
  intros Hc Hl H. unfold resolveModel in H. rewrite Hc in H.
  pose proof (selectTargets_fresh_permutation virtualModelID config state rt ts Hl) as Hsel.
  destruct (Strategies.selectTargets virtualModelID config state rt) as [[r state1] rt1].
  destruct Hsel as ((_ & _ & Hperm & _) & _).
  destruct (first_available now (Runtime.read r rt1) state1) as [found state2] eqn:Hf.
  destruct found as [ref|]; [|discriminate].
  inversion H; subst. cbn.
  destruct (first_available_emitted _ _ _ _ _ Hf) as (t & Hin & ->).
  split.
  - change (map _ (Runtime.read r rt')) with (map emitted (Runtime.read r rt')).
    now apply Permutation_map.
  - change (map _ (Runtime.read r rt')) with (map emitted (Runtime.read r rt')).
    apply list_elem_of_fmap. eauto.
Qed.
End ResolverFacts.

(** Claim C9, amended.  Every target that [resolveModel] emits comes from
    a configured target with the same provider; one leading
    "<provider>/" of the configured model id is removed, an id without
    that prefix is emitted unchanged, and the emitted id begins with the
    prefix exactly when the configured id repeated it. *)
Theorem resolveModel_strips_one_prefix :
  forall (now : Q) (virtualModelID : string)
         (virtualModels : gmap string VirtualModelConfig.t)
         (strategyProfiles : gmap string StrategyProfile.t)
         (state : State.RouterState) (rt : Runtime.t)
         (config : VirtualModelConfig.t) (ts : list TargetModel.t)
         (res : Resolver.ResolvedTarget) (state' : State.RouterState) (rt' : Runtime.t),
    virtualModels !! virtualModelID = Some config ->
    Runtime.arrays rt !! VirtualModelConfig.targets config = Some ts ->
    Resolver.resolveModel now virtualModelID virtualModels strategyProfiles state rt
    = (Some res, state', rt') ->
    (* every configured target is listed once, and the chosen one is listed *)
    Resolver.allTargets res ≡ₚ map emitted ts /\
    selected res ∈ Resolver.allTargets res /\
    forall r, r ∈ Resolver.allTargets res ->
      exists t, t ∈ ts /\
        ModelRef.providerID r = TargetModel.provider t /\
        let prefix := TargetModel.provider t +:+ "/" in
        (* one leading prefix is removed *)
        (forall rest, TargetModel.model t = prefix +:+ rest -> ModelRef.modelID r = rest) /\
        (* an id without the prefix is emitted as it is *)
        (startsWith (TargetModel.model t) prefix = false ->
         ModelRef.modelID r = TargetModel.model t) /\
        (* the emitted id begins with the prefix only when the configured id repeated it *)
        (startsWith (ModelRef.modelID r) prefix = true <->
         exists rest, TargetModel.model t = prefix +:+ prefix +:+ rest).
Proof.
  intros now virtualModelID virtualModels strategyProfiles state rt config ts res state' rt'
         Hc Hl H.
  destruct (resolveModel_emitted _ _ _ _ _ _ _ _ _ _ _ Hc Hl H) as [Hperm Hin].
  split; [exact Hperm|]. split; [exact Hin|].
  intros r Hr. rewrite Hperm in Hr.
  apply list_elem_of_fmap in Hr as (t & -> & Ht).
  exists t. split; [exact Ht|]. split; [reflexivity|]. cbn. split; [|split].
  - intros rest ->. rewrite append_assoc. apply normalizeModelID_strips.
  - apply normalizeModelID_keeps.
  - apply normalizeModelID_prefixed.
Qed.

(** C9 as stated fails: the emitted id of a target configured as
    "openrouter/openrouter/gpt-4o" still begins with "openrouter/". *)
Lemma repeated_prefix_is_stripped_once :
  exists res,
    resolve_twice = Some res /\
    Resolver.providerID res = "openrouter" /\
    Resolver.modelID res = "openrouter/gpt-4o" /\
    startsWith (Resolver.modelID res) (Resolver.providerID res +:+ "/") = true.
Proof. eexists. vm_compute. repeat split. Qed.

(** The resolver theorem on the target with the repeated prefix. *)
Lemma resolveModel_strips_one_prefix_witness :
  ({[ "virtual/t" := two_targets None ]} : gmap string VirtualModelConfig.t) !! "virtual/t"
  = Some (two_targets None) /\
  Runtime.arrays store_twice !! VirtualModelConfig.targets (two_targets None)
  = Some [target_twice] /\
  exists res, resolve_twice = Some res /\
              Resolver.allTargets res ≡ₚ map emitted [target_twice].
Proof.
  assert (Hc : ({[ "virtual/t" := two_targets None ]} : gmap string VirtualModelConfig.t)
                 !! "virtual/t" = Some (two_targets None)) by (vm_compute; reflexivity).
  assert (Hl : Runtime.arrays store_twice !! VirtualModelConfig.targets (two_targets None)
               = Some [target_twice]) by reflexivity.
  split; [exact Hc|]. split; [exact Hl|].
  unfold resolve_twice.
  destruct (Resolver.resolveModel 1000 "virtual/t" {[ "virtual/t" := two_targets None ]} ∅
              State.createRouterState store_twice) as [[[res|] state'] rt'] eqn:Hres.
  - exists res. split; [reflexivity|].
    exact (proj1 (resolveModel_strips_one_prefix _ _ _ _ _ _ _ _ _ _ _ Hc Hl Hres)).
  - exfalso. vm_compute in Hres. discriminate.
Defined.

Section LoaderFacts.
Import Loader.

Lemma map_get_set_eq {V} k (v : V) m : map_get k (map_set k v m) = Some v.
Proof.
  induction m as [|[k' v'] m IH]; cbn; [now rewrite String.eqb_refl|].
  destruct (String.eqb k' k) eqn:E; cbn; [now rewrite String.eqb_refl|].
  now rewrite E.
Qed.

Lemma map_get_set_ne {V} k k' (v : V) m :
  k <> k' -> map_get k' (map_set k v m) = map_get k' m.
Proof.
  intros Hne. induction m as [|[k0 v0] m IH]; cbn.
  - apply String.eqb_neq in Hne. now rewrite Hne.
  - destruct (String.eqb k0 k) eqn:E; cbn.
    + apply String.eqb_eq in E. subst k0.
      apply String.eqb_neq in Hne. now rewrite Hne.
    + destruct (String.eqb k0 k'); [reflexivity|exact IH].
Qed.

Lemma map_get_elem {V} k (v : V) m : map_get k m = Some v -> (k, v) ∈ m.
Proof.
  induction m as [|[k' v'] m IH]; cbn; [discriminate|].
  destruct (String.eqb k' k) eqn:E.
  - apply String.eqb_eq in E. intros [= ->]. subst. left.
  - intros H. right. now apply IH.
Qed.

(** *** Profiles *)

Lemma map_has_set {V} k (v : V) m name :
  map_has name (map_set k v m) = map_has name m || String.eqb k name.
Proof.
  unfold map_has. destruct (String.eqb k name) eqn:E.
  - apply String.eqb_eq in E. subst. rewrite map_get_set_eq. now rewrite orb_true_r.
  - apply String.eqb_neq in E. rewrite (map_get_set_ne _ _ _ _ E). now rewrite orb_false_r.
Qed.

Lemma load_profiles_has entries name :
  map_has name (load_profiles entries)
  = existsb (fun e => String.eqb (fst e) name) entries.
Proof.
  unfold load_profiles.
  assert (H : forall acc,
             map_has name (fold_left (fun acc e => map_set (fst e) (snd e) acc) entries acc)
             = map_has name acc || existsb (fun e => String.eqb (fst e) name) entries).
  { induction entries as [|[k v] entries IH]; intros acc; cbn [fold_left existsb].
    - now rewrite orb_false_r.
    - rewrite IH, map_has_set. cbn [fst snd]. now rewrite orb_assoc. }
  now rewrite H.
Qed.

Lemma map_has_profiles (raw : VirtualConfig) p :
  map_has p (load_profiles (nullish (strategies raw) [])) = false <->
  forall profile, (p, profile) ∉ nullish (strategies raw) [].
Proof.
  rewrite load_profiles_has.
  set (entries := nullish (strategies raw) []). split.
  - intros H profile Hin. apply list_elem_of_In in Hin.
    assert (E : existsb (fun e => String.eqb (fst e) p) entries = true).
    { apply existsb_exists. exists (p, profile). split; [exact Hin|apply String.eqb_refl]. }
    congruence.
  - intros H. apply not_true_is_false. intros E.
    apply existsb_exists in E as ([k v] & Hin & Hk). cbn in Hk.
    apply String.eqb_eq in Hk. subst k. apply (H v). now apply list_elem_of_In.
Qed.

(** *** Models *)

Lemma virtual_key_inj a b : "virtual/" +:+ a = "virtual/" +:+ b -> a = b.
Proof. apply append_inv_l. Qed.

(** What one entry does to the lookup of its own key and to the warnings. *)
Lemma load_model_own sp acc name m :
  let (vm, warned) := load_model sp acc (name, m) in
  (no_targets m ->
     map_get (loaded_key name) vm = map_get (loaded_key name) (fst acc) /\
     no_targets_warning name ∈ warned) /\
  (~ no_targets m ->
     map_get (loaded_key name) vm = Some (with_default_strategy m) /\
     forall p, strategy_profile m = Some p -> p <> "" -> map_has p sp = false ->
               profile_not_found_warning p name ∈ warned).
Proof.
  destruct acc as [vm0 w0]. unfold load_model, no_targets.
  fold (with_default_strategy m).
  destruct (targets m) as [[|t ts]|] eqn:Ht.
  - split; [|intros H; exfalso; apply H; auto].
    intros _. split; [reflexivity|]. apply elem_of_app. right. left.
  - split; [intros [H|H]; discriminate|]. intros _.
    split; [apply map_get_set_eq|].
    intros p Hp Hne Hhas.
    assert (Hp' : strategy_profile (with_default_strategy m) = Some p).
    { unfold with_default_strategy. destruct (no_strategy (strategy m)); exact Hp. }
    rewrite Hp'. apply String.eqb_neq in Hne. rewrite Hne, Hhas. cbn.
    apply elem_of_app. right. left.
  - split; [|intros H; exfalso; apply H; auto].
    intros _. split; [reflexivity|]. apply elem_of_app. right. left.
Qed.

(** What an entry does to the lookups of the other keys, and that it
    only adds warnings. *)
Lemma load_model_other sp acc name m :
  let (vm, warned) := load_model sp acc (name, m) in
  (forall name', name' <> name ->
     map_get (loaded_key name') vm = map_get (loaded_key name') (fst acc)) /\
  (forall w, w ∈ snd acc -> w ∈ warned).
Proof.
  destruct acc as [vm0 w0]. unfold load_model.
  assert (Hgrow : forall (w : string) extra, w ∈ w0 -> w ∈ w0 ++ extra).
  { intros w extra Hw. apply elem_of_app. now left. }
  destruct (targets m) as [[|t ts]|]; cbn [fst snd]; try (split; [reflexivity|auto]).
  split.
  - intros name' Hne. apply map_get_set_ne. intros E. apply virtual_key_inj in E. congruence.
  - intros w Hw. destruct (strategy_profile _); [|exact Hw].
    destruct (_ && _); [auto|exact Hw].
Qed.

Lemma load_models_rest sp entries :
  forall acc,
    let (vm, warned) := fold_left (load_model sp) entries acc in
    (forall name, name ∉ map fst entries ->
       map_get (loaded_key name) vm = map_get (loaded_key name) (fst acc)) /\
    (forall w, w ∈ snd acc -> w ∈ warned).
Proof.
  induction entries as [|[n m] entries IH]; intros acc; cbn [fold_left].
  - destruct acc. auto.
  - pose proof (load_model_other sp acc n m) as H1.
    destruct (load_model sp acc (n, m)) as [vm1 w1] eqn:E1.
    specialize (IH (vm1, w1)).
    destruct (fold_left (load_model sp) entries (vm1, w1)) as [vm warned].
    destruct H1 as [Hget Hw]. destruct IH as [IHget IHw]. cbn [fst snd] in *. split.
    + intros name Hnot. cbn in Hnot. apply not_elem_of_cons in Hnot as [Hne Hnot].
      rewrite IHget by exact Hnot. now apply Hget.
    + auto.
Qed.

Lemma load_models_entry sp entries :
  NoDup (map fst entries) ->
  forall acc name m,
    (name, m) ∈ entries ->
    let (vm, warned) := fold_left (load_model sp) entries acc in
    (no_targets m ->
       map_get (loaded_key name) vm = map_get (loaded_key name) (fst acc) /\
       no_targets_warning name ∈ warned) /\
    (~ no_targets m ->
       map_get (loaded_key name) vm = Some (with_default_strategy m) /\
       forall p, strategy_profile m = Some p -> p <> "" -> map_has p sp = false ->
                 profile_not_found_warning p name ∈ warned).
Proof.
  induction entries as [|[n0 m0] entries IH]; intros Hnd acc name m Hin; [inversion Hin|].
  cbn in Hnd. apply NoDup_cons in Hnd as [Hfresh Hnd]. cbn [fold_left].
  apply elem_of_cons in Hin as [[= -> ->]|Hin].
  - pose proof (load_model_own sp acc n0 m0) as Hown.
    destruct (load_model sp acc (n0, m0)) as [vm1 w1].
    pose proof (load_models_rest sp entries (vm1, w1)) as Hrest.
    destruct (fold_left (load_model sp) entries (vm1, w1)) as [vm warned].
    destruct Hrest as [Hget Hw]. destruct Hown as [Hno Hyes]. cbn [fst snd] in *.
    rewrite (Hget _ Hfresh). split.
    + intros H. destruct (Hno H). auto.
    + intros H. destruct (Hyes H) as [? Hp]. split; [assumption|]. intros. apply Hw. eauto.
  - assert (Hne : name <> n0).
    { intros ->. apply Hfresh. apply list_elem_of_fmap. exists (n0, m). auto. }
    pose proof (load_model_other sp acc n0 m0) as Hother.
    destruct (load_model sp acc (n0, m0)) as [vm1 w1].
    specialize (IH Hnd (vm1, w1) name m Hin).
    destruct (fold_left (load_model sp) entries (vm1, w1)) as [vm warned].
    destruct Hother as [Hget _]. cbn [fst snd] in *.
    rewrite <- (Hget _ Hne). exact IH.
Qed.

(** *** validateConfig *)

Lemma validate_model_missing_field modelId m :
  target_lacks_field m ->
  exists pushed, validate_model (modelId, m) = Some pushed /\
                 missing_field_error modelId ∈ pushed.
Proof.
  intros (ts & t & Hts & Hin & Hf). unfold validate_model. rewrite Hts.
  eexists. split; [reflexivity|].
  apply elem_of_app. left. apply list_elem_of_In, in_flat_map.
  exists t. split; [now apply list_elem_of_In|].
  assert (E : falsy (model t) || falsy (provider t) = true).
  { destruct Hf as [-> | ->]; [reflexivity|apply orb_true_r]. }
  rewrite E. now left.
Qed.

Lemma validate_model_missing_weight modelId m :
  weight_missing m ->
  exists pushed, validate_model (modelId, m) = Some pushed /\
                 missing_weights_error modelId ∈ pushed.
Proof.
  intros (Hw & ts & t & Hts & Hin & Hnone). unfold validate_model. rewrite Hts, Hw.
  eexists. split; [reflexivity|].
  cbn [is_weighted]. apply elem_of_app. right.
  assert (E : forallb (fun t => match weight t with no_weight => false | _ => true end) ts
              = false).
  { apply not_true_is_false. intros Hall. rewrite forallb_forall in Hall.
    specialize (Hall t ltac:(now apply list_elem_of_In)). now rewrite Hnone in Hall. }
  rewrite E. left.
Qed.

Lemma validate_models_elem entries :
  forall errors out,
    validate_models entries errors = Some out ->
    forall e, e ∈ out <->
              e ∈ errors \/
              exists entry pushed,
                entry ∈ entries /\ validate_model entry = Some pushed /\ e ∈ pushed.
Proof.
  induction entries as [|entry entries IH]; intros errors out H e; cbn [validate_models] in H.
  - injection H as <-. split; [auto|]. intros [He|(entry & _ & Hin & _)]; [exact He|inversion Hin].
  - destruct (validate_model entry) as [pushed|] eqn:Hv; [|discriminate].
    rewrite (IH _ _ H e), elem_of_app. split.
    + intros [[He|He]|(entry' & pushed' & Hin & Hv' & He)]; [now left| |].
      * right. exists entry, pushed. split; [left|auto].
      * right. exists entry', pushed'. split; [now right|auto].
    + intros [He|(entry' & pushed' & Hin & Hv' & He)]; [auto|].
      apply elem_of_cons in Hin as [->|Hin].
      * rewrite Hv in Hv'. injection Hv' as <-. auto.
      * right. eauto.
Qed.

Lemma validate_models_total entries :
  forall errors,
    Forall (fun entry => targets (snd entry) <> None) entries ->
    is_Some (validate_models entries errors).
Proof.
  induction entries as [|[modelId m] entries IH]; intros errors Hall; cbn [validate_models].
  - eauto.
  - apply Forall_cons in Hall as [Hm Hall]. cbn [snd] in Hm. unfold validate_model.
    destruct (targets m); [|contradiction]. now apply IH.
Qed.

Lemma validate_models_nil entries :
  forall errors,
    validate_models entries errors = Some [] <->
    errors = [] /\ Forall (fun entry => validate_model entry = Some []) entries.
Proof.
  induction entries as [|entry entries IH]; intros errors; cbn [validate_models].
  - split; [intros [= ->]; auto|]. now intros [-> _].
  - destruct (validate_model entry) as [pushed|] eqn:Hv.
    + rewrite IH. split.
      * intros [Happ Hall]. apply app_eq_nil in Happ as [-> ->]. auto.
      * intros [-> Hall]. apply Forall_cons in Hall as [Hnil Hall].
        rewrite Hv in Hnil. injection Hnil as ->. auto.
    + split; [discriminate|]. intros [_ Hall]. apply Forall_cons in Hall as [Hnil _].
      rewrite Hv in Hnil. discriminate.
Qed.
End LoaderFacts.

Section CursorFacts.
Import State Plugin.

Lemma verdict_lookup now state k :
  verdict now state k =
    match cooldowns state !! k with
    | Some e => negb (Qeq_bool e 0) && negb (Qle_bool e now)
    | None => false
    end.
Proof.
  unfold verdict, isInCooldown. destruct (cooldowns state !! k) as [e|]; [|reflexivity].
  destruct (Qeq_bool e 0); [reflexivity|]. now destruct (Qle_bool e now).
Qed.

Lemma isInCooldown_verdicts now key state k :
  verdict now (snd (isInCooldown now key state)) k = verdict now state k.
Proof.
  rewrite !verdict_lookup. unfold isInCooldown.
  destruct (cooldowns state !! key) as [e|] eqn:He; [|reflexivity].
  destruct (Qeq_bool e 0) eqn:E0; [reflexivity|].
  destruct (Qle_bool e now) eqn:Ele; [|reflexivity].
  cbn. destruct (decide (k = key)) as [->|Hne].
  - rewrite lookup_delete_eq, He, E0, Ele. reflexivity.
  - rewrite lookup_delete_ne by done. reflexivity.
Qed.

Lemma scan_spec now rest :
  forall i state,
    let (found, state') := scan now i rest state in
    (forall k, verdict now state' k = verdict now state k) /\
    match found with
    | Some (j, r) =>
        exists t, i <= j /\ rest !! (j - i) = Some t /\ r = model_ref t /\
                  verdict now state (modelKey t) = false /\
                  forall j' t', j' < j - i -> rest !! j' = Some t' ->
                                verdict now state (modelKey t') = true
    | None => forall j' t', rest !! j' = Some t' -> verdict now state (modelKey t') = true
    end.
Proof.
  induction rest as [|t rest IH]; intros i state; cbn [scan].
  - split; [reflexivity|]. intros j' t' H. inversion H.
  - fold (modelKey t).
    pose proof (isInCooldown_verdicts now (modelKey t) state) as Hv.
    destruct (isInCooldown now (modelKey t) state) as [c state1] eqn:Hc.
    assert (Hfst : verdict now state (modelKey t) = c) by (unfold verdict; now rewrite Hc).
    cbn [snd] in Hv. destruct c.
    + specialize (IH (S i) state1).
      destruct (scan now (S i) rest state1) as [found state'].
      destruct IH as [IHv IHf]. split; [intros k; now rewrite IHv|].
      destruct found as [[j r]|].
      * destruct IHf as (t0 & Hle & Hl & -> & Hv0 & Hbefore).
        exists t0. split; [lia|].
        replace (j - i) with (S (j - S i)) by lia. split; [exact Hl|].
        split; [reflexivity|]. split; [now rewrite <- Hv|].
        intros [|j'] t' Hlt Hl'; cbn in Hl'.
        -- inversion Hl'; subst. exact Hfst.
        -- rewrite <- Hv. apply (Hbefore j'); [lia|exact Hl'].
      * intros [|j'] t' Hl'; cbn in Hl'.
        -- inversion Hl'; subst. exact Hfst.
        -- rewrite <- Hv. now apply (IHf j').
    + split; [exact Hv|]. exists t. rewrite Nat.sub_diag.
      split; [lia|]. split; [reflexivity|]. split; [reflexivity|]. split; [exact Hfst|].
      intros j' t' Hlt. lia.
Qed.

Lemma setCooldown_total now key cd state :
  match cd with
  | None => True
  | Some d => exists ms, Duration.parseDuration d = Ok ms
  end ->
  exists state', setCooldown now key cd state = Ok state'.
Proof.
  destruct cd as [d|]; [|eauto]. intros [ms Hms].
  rewrite (setCooldown_parsed _ _ _ _ _ Hms). eauto.
Qed.

Lemma eqb_false_of_ne (a b : string) : a <> b -> String.eqb a b = false.
Proof. apply String.eqb_neq. Qed.
End CursorFacts.

(** What the event hook does to the cursor of the session, in terms of
    the list that [selectTargets] returns to it. *)
Lemma event_moves_cursor :
  forall (now : Q) (sessionID : string) (error : Plugin.SessionError) (p : Plugin.Closure)
         (virtualModelID : string) (config : VirtualModelConfig.t) (ts0 : list TargetModel.t),
    sessionID <> "" -> virtualModelID <> "" ->
    Plugin.sessionVirtualModel p !! sessionID = Some virtualModelID ->
    Plugin.virtualModels (Plugin.loadedConfig p) !! virtualModelID = Some config ->
    Plugin.shouldFallbackForError error config (Plugin.strategyProfiles (Plugin.loadedConfig p))
    = true ->
    Runtime.arrays (Plugin.runtime p) !! VirtualModelConfig.targets config = Some ts0 ->
    cooldown_parses config (Plugin.strategyProfiles (Plugin.loadedConfig p)) ->
    (* the cursor the report starts from: 0 when the session has no entry *)
    let c := default 0 (Plugin.sessionFallbackCursor p !! sessionID) in
    let '(targets, _, rt1) :=
      Strategies.selectTargets virtualModelID config (Plugin.state p) (Plugin.runtime p) in
    let ts := Runtime.read targets rt1 in
    let '(result, p') := Plugin.event now (failure_report sessionID error) p in
    let cursor' := Plugin.sessionFallbackCursor p' !! sessionID in
    ts ≡ₚ ts0 /\
    (forall other, other <> sessionID ->
       Plugin.sessionFallbackCursor p' !! other = Plugin.sessionFallbackCursor p !! other) /\
    Plugin.sessionVirtualModel p' = Plugin.sessionVirtualModel p /\
    (* past the end: the entry is deleted and exhaustion is reported *)
    (length ts <= c + 1 -> result = Ok Plugin.Exhausted /\ cursor' = None) /\
    (* otherwise the entry stays: at the first viable index, or at c + 1 *)
    (c + 1 < length ts ->
       (exists i t, first_viable now (Plugin.state p') ts (c + 1) i t /\
                    result = Ok (Plugin.FellBack (model_ref t)) /\ cursor' = Some i) \/
       (none_viable now (Plugin.state p') ts (c + 1) /\
        result = Ok Plugin.AllRemainingInCooldown /\ cursor' = Some (c + 1))) /\
    (* so a report for a session without an entry starts over from index 0 *)
    (Plugin.sessionFallbackCursor p !! sessionID = None -> 1 < length ts ->
       result <> Ok Plugin.Exhausted /\ is_Some cursor').
Proof.
  intros now sessionID error p virtualModelID config ts0 Hsid Hvid Hsess Hconf Hshould Harr Hcd c.
  pose proof (selectTargets_fresh_permutation virtualModelID config (Plugin.state p)
                (Plugin.runtime p) ts0 Harr) as Hsel.
  unfold Plugin.event, failure_report.
  cbn [Plugin.type Plugin.sessionID Plugin.error].
  change (String.eqb "session.error" "session.error") with true. cbn [negb].
  rewrite (eqb_false_of_ne _ _ Hsid), Hsess, (eqb_false_of_ne _ _ Hvid), Hconf, Hshould.
  cbn [negb].
  change (nullish (Plugin.sessionFallbackCursor p !! sessionID) 0) with c.
  destruct (Strategies.selectTargets virtualModelID config (Plugin.state p) (Plugin.runtime p))
    as [[targets state1] rt1].
  destruct Hsel as ((_ & _ & Hperm & _) & _).
  set (ts := Runtime.read targets rt1) in *.
  assert (Hcases :
    forall state3 result p',
      (if (length ts <=? c + 1)%nat
       then (Ok Plugin.Exhausted,
             Plugin.set_cursor
               (delete sessionID (Plugin.sessionFallbackCursor (Plugin.set_state state3 rt1 p)))
               (Plugin.set_state state3 rt1 p))
       else
         let p2 := Plugin.set_cursor
                     (<[sessionID := c + 1]>
                        (Plugin.sessionFallbackCursor (Plugin.set_state state3 rt1 p)))
                     (Plugin.set_state state3 rt1 p) in
         let (nextResolved, state4) :=
           Plugin.scan now (c + 1) (drop (c + 1) ts) (Plugin.state p2) in
         let p3 := Plugin.set_state state4 (Plugin.runtime p2) p2 in
         match nextResolved with
         | Some (i, r) =>
             (Ok (Plugin.FellBack r),
              Plugin.set_cursor (<[sessionID := i]> (Plugin.sessionFallbackCursor p3)) p3)
         | None => (Ok Plugin.AllRemainingInCooldown, p3)
         end) = (result, p') ->
      (forall other, other <> sessionID ->
         Plugin.sessionFallbackCursor p' !! other = Plugin.sessionFallbackCursor p !! other) /\
      Plugin.sessionVirtualModel p' = Plugin.sessionVirtualModel p /\
      (length ts <= c + 1 ->
       result = Ok Plugin.Exhausted /\ Plugin.sessionFallbackCursor p' !! sessionID = None) /\
      (c + 1 < length ts ->
       (exists i t, first_viable now (Plugin.state p') ts (c + 1) i t /\
                    result = Ok (Plugin.FellBack (model_ref t)) /\
                    Plugin.sessionFallbackCursor p' !! sessionID = Some i) \/
       (none_viable now (Plugin.state p') ts (c + 1) /\
        result = Ok Plugin.AllRemainingInCooldown /\
        Plugin.sessionFallbackCursor p' !! sessionID = Some (c + 1)))).
  { intros state3 result p'. destruct (length ts <=? c + 1)%nat eqn:Hlen.
    - apply Nat.leb_le in Hlen. intros [= <- <-]. cbn.
      split; [intros other Ho; now rewrite lookup_delete_ne|].
      split; [reflexivity|]. split; [|lia].
      intros _. split; [reflexivity|apply lookup_delete_eq].
    - apply Nat.leb_gt in Hlen. cbv zeta. cbn [Plugin.state Plugin.set_cursor Plugin.set_state].
      pose proof (scan_spec now (drop (c + 1) ts) (c + 1) state3) as Hscan.
      destruct (Plugin.scan now (c + 1) (drop (c + 1) ts) state3) as [found state4].
      destruct Hscan as [Hv Hfound].
      destruct found as [[i r]|]; intros [= <- <-]; cbn.
      + destruct Hfound as (t & Hle & Hl & -> & Hnot & Hbefore).
        rewrite lookup_drop in Hl. replace (c + 1 + (i - (c + 1))) with i in Hl by lia.
        split; [intros other Ho; now rewrite !lookup_insert_ne|].
        split; [reflexivity|]. split; [lia|]. intros _. left. exists i, t.
        split; [|split; [reflexivity|apply lookup_insert_eq]].
        unfold first_viable, cooled. fold (verdict now state4 (modelKey t)).
        split; [exact Hle|]. split; [exact Hl|]. split.
        * rewrite Hv, Hnot. discriminate.
        * intros j t' Hj Hl'. fold (verdict now state4 (modelKey t')). rewrite Hv.
          apply (Hbefore (j - (c + 1))); [lia|].
          rewrite lookup_drop. replace (c + 1 + (j - (c + 1))) with j by lia. exact Hl'.
      + split; [intros other Ho; now rewrite lookup_insert_ne|].
        split; [reflexivity|]. split; [lia|]. intros _. right.
        split; [|split; [reflexivity|apply lookup_insert_eq]].
        intros j t' Hj Hl'. unfold cooled. fold (verdict now state4 (modelKey t')).
        rewrite Hv. apply (Hfound (j - (c + 1))).
        rewrite lookup_drop. replace (c + 1 + (j - (c + 1))) with j by lia. exact Hl'. }
  assert (Hfinish :
    forall state3 result p',
      (if (length ts <=? c + 1)%nat
       then (Ok Plugin.Exhausted,
             Plugin.set_cursor
               (delete sessionID (Plugin.sessionFallbackCursor (Plugin.set_state state3 rt1 p)))
               (Plugin.set_state state3 rt1 p))
       else
         let p2 := Plugin.set_cursor
                     (<[sessionID := c + 1]>
                        (Plugin.sessionFallbackCursor (Plugin.set_state state3 rt1 p)))
                     (Plugin.set_state state3 rt1 p) in
         let (nextResolved, state4) :=
           Plugin.scan now (c + 1) (drop (c + 1) ts) (Plugin.state p2) in
         let p3 := Plugin.set_state state4 (Plugin.runtime p2) p2 in
         match nextResolved with
         | Some (i, r) =>
             (Ok (Plugin.FellBack r),
              Plugin.set_cursor (<[sessionID := i]> (Plugin.sessionFallbackCursor p3)) p3)
         | None => (Ok Plugin.AllRemainingInCooldown, p3)
         end) = (result, p') ->
      ts ≡ₚ ts0 /\
      (forall other, other <> sessionID ->
         Plugin.sessionFallbackCursor p' !! other = Plugin.sessionFallbackCursor p !! other) /\
      Plugin.sessionVirtualModel p' = Plugin.sessionVirtualModel p /\
      (length ts <= c + 1 ->
       result = Ok Plugin.Exhausted /\ Plugin.sessionFallbackCursor p' !! sessionID = None) /\
      (c + 1 < length ts ->
       (exists i t, first_viable now (Plugin.state p') ts (c + 1) i t /\
                    result = Ok (Plugin.FellBack (model_ref t)) /\
                    Plugin.sessionFallbackCursor p' !! sessionID = Some i) \/
       (none_viable now (Plugin.state p') ts (c + 1) /\
        result = Ok Plugin.AllRemainingInCooldown /\
        Plugin.sessionFallbackCursor p' !! sessionID = Some (c + 1))) /\
      (Plugin.sessionFallbackCursor p !! sessionID = None -> 1 < length ts ->
       result <> Ok Plugin.Exhausted /\ is_Some (Plugin.sessionFallbackCursor p' !! sessionID))).
  { intros state3 result p' He.
    destruct (Hcases _ _ _ He) as (Hother & Hvm & Hend & Hgo).
    split; [exact Hperm|]. split; [exact Hother|]. split; [exact Hvm|].
    split; [exact Hend|]. split; [exact Hgo|].
    intros Hnone Hlen. assert (Hc : c = 0) by (unfold c; now rewrite Hnone).
    destruct (Hgo ltac:(lia)) as [(i & t & _ & -> & ->)|(_ & -> & ->)];
      (split; [discriminate|eauto]). }
  clear Hcases.
  destruct (ts !! c) as [cur|].
  - cbv zeta.
    match goal with |- context [State.setCooldown ?n ?k ?cd ?st] =>
      destruct (setCooldown_total n k cd st Hcd) as [state3 ->] end.
    cbv beta iota.
    match goal with |- context [let '(result, p') := ?e in _] =>
      destruct e as [result p'] eqn:He end.
    exact (Hfinish _ _ _ He).
  - cbv beta iota.
    match goal with |- context [let '(result, p') := ?e in _] =>
      destruct e as [result p'] eqn:He end.
    exact (Hfinish _ _ _ He).
Qed.

(** Under a strategy that keeps the configured order, the list that
    [selectTargets] returns is the list of the configuration, which
    stays in the store, and the router state is as it was. *)
Lemma selectTargets_in_order virtualModelId config state rt ts :
  VirtualModelConfig.strategy config <> round_robin ->
  VirtualModelConfig.strategy config <> random ->
  VirtualModelConfig.strategy config <> weighted ->
  Runtime.arrays rt !! VirtualModelConfig.targets config = Some ts ->
  let '(r, state', rt') := Strategies.selectTargets virtualModelId config state rt in
  Runtime.read r rt' = ts /\ state' = state /\
  Runtime.arrays rt' !! VirtualModelConfig.targets config = Some ts.
Proof.
  intros Hrr Hrand Hw Hl. unfold Strategies.selectTargets, Strategies.copy.
  rewrite (read_lookup _ _ _ Hl).
  assert (Hread : Runtime.read (length (Runtime.arrays rt))
                    (Runtime.set_arrays (Runtime.arrays rt ++ [ts]) rt) = ts).
  { unfold Runtime.read. cbn. rewrite lookup_app_r by lia. now rewrite Nat.sub_diag. }
  assert (Hkeep : Runtime.arrays (Runtime.set_arrays (Runtime.arrays rt ++ [ts]) rt)
                    !! VirtualModelConfig.targets config = Some ts).
  { cbn. now apply lookup_app_l_Some. }
  destruct (VirtualModelConfig.strategy config); try contradiction;
    unfold Runtime.alloc; auto.
Qed.

(** Claim C1, amended.  For a session bound to a loaded virtual model
    whose strategy keeps the configured order of the targets
    (sequential, priority), on a failure report that warrants a fallback
    under the merged policy of the model, the cooldown of that policy
    being absent or a duration: with c the session's cursor (0 when it
    has no entry) and ts the list of the model, if c + 1 is past the end
    of ts the entry is deleted and exhaustion is reported; otherwise the
    entry is set to the first index from c + 1 on whose target is not
    cooled down, and that target is prompted, or, when all of them are
    cooled down, to c + 1.  Other sessions' entries and the binding of
    the session are unchanged.  A report for a session without an entry,
    as after exhaustion, starts over from index 0. *)
Theorem failure_report_moves_cursor :
  forall (now : Q) (sessionID : string) (error : Plugin.SessionError) (p : Plugin.Closure)
         (virtualModelID : string) (config : VirtualModelConfig.t) (ts : list TargetModel.t),
    sessionID <> "" -> virtualModelID <> "" ->
    Plugin.sessionVirtualModel p !! sessionID = Some virtualModelID ->
    Plugin.virtualModels (Plugin.loadedConfig p) !! virtualModelID = Some config ->
    (* the strategy keeps the configured order *)
    VirtualModelConfig.strategy config <> round_robin ->
    VirtualModelConfig.strategy config <> random ->
    VirtualModelConfig.strategy config <> weighted ->
    Runtime.arrays (Plugin.runtime p) !! VirtualModelConfig.targets config = Some ts ->
    (* the report warrants a fallback, and the cooldown is absent or parses *)
    Plugin.shouldFallbackForError error config (Plugin.strategyProfiles (Plugin.loadedConfig p))
    = true ->
    cooldown_parses config (Plugin.strategyProfiles (Plugin.loadedConfig p)) ->
    (* the cursor the report starts from: 0 when the session has no entry *)
    let c := default 0 (Plugin.sessionFallbackCursor p !! sessionID) in
    let '(result, p') := Plugin.event now (failure_report sessionID error) p in
    let cursor' := Plugin.sessionFallbackCursor p' !! sessionID in
    (forall other, other <> sessionID ->
       Plugin.sessionFallbackCursor p' !! other = Plugin.sessionFallbackCursor p !! other) /\
    Plugin.sessionVirtualModel p' = Plugin.sessionVirtualModel p /\
    (* past the end: the entry is deleted and exhaustion is reported *)
    (length ts <= c + 1 -> result = Ok Plugin.Exhausted /\ cursor' = None) /\
    (* otherwise the entry stays: at the first viable index, or at c + 1 *)
    (c + 1 < length ts ->
       (exists i t, first_viable now (Plugin.state p') ts (c + 1) i t /\
                    result = Ok (Plugin.FellBack (model_ref t)) /\ cursor' = Some i) \/
       (none_viable now (Plugin.state p') ts (c + 1) /\
        result = Ok Plugin.AllRemainingInCooldown /\ cursor' = Some (c + 1))) /\
    (* so a report for a session without an entry starts over from index 0 *)
    (Plugin.sessionFallbackCursor p !! sessionID = None -> 1 < length ts ->
       result <> Ok Plugin.Exhausted /\ is_Some cursor').
Proof.
  intros now sessionID error p virtualModelID config ts Hsid Hvid Hsess Hconf
         Hrr Hrand Hw Harr Hshould Hcd c.
  pose proof (event_moves_cursor now sessionID error p virtualModelID config ts
                Hsid Hvid Hsess Hconf Hshould Harr Hcd) as H.
  pose proof (selectTargets_in_order virtualModelID config (Plugin.state p) (Plugin.runtime p)
                ts Hrr Hrand Hw Harr) as Hsel.
  cbv zeta in H. fold c in H.
  destruct (Strategies.selectTargets virtualModelID config (Plugin.state p) (Plugin.runtime p))
    as [[targets state1] rt1].
  destruct Hsel as (Hread & _ & _). rewrite Hread in H.
  destruct (Plugin.event now (failure_report sessionID error) p) as [result p'].
  cbv zeta. destruct H as (_ & Hother & Hvm & Hend & Hgo & Hfresh).
  auto.
Qed.

(** C1 as stated fails, twice.  (1) After the entry of "s1" was deleted
    by exhaustion, a further failure report is not a no-op: it takes the
    cursor to be 0 again, records a failure of A and falls back to B.
    (2) When the end of the list is reached with every remaining target
    cooled down, the entry is kept, not deleted. *)
Lemma exhausted_session_starts_over :
  let report := failure_report "s1" status_503 in
  let first := Plugin.event 1000 report (session_at None ∅ (Some 1)) in
  let second := Plugin.event 1000 report (snd first) in
  let blocked :=
    Plugin.event 1000 report (session_at (Some "1m") {[ "p/b" := 5000%Q ]} (Some 0)) in
  (fst first = Ok Plugin.Exhausted /\
   Plugin.sessionFallbackCursor (snd first) !! "s1" = None /\
   fst second = Ok (Plugin.FellBack (model_ref target_b)) /\
   Plugin.sessionFallbackCursor (snd second) !! "s1" = Some 1 /\
   State.failures (default State.new_metrics (State.metrics (Plugin.state (snd first)) !! "p/a")) = 0 /\
   State.failures (default State.new_metrics (State.metrics (Plugin.state (snd second)) !! "p/a")) = 1) /\
  (fst blocked = Ok Plugin.AllRemainingInCooldown /\
   Plugin.sessionFallbackCursor (snd blocked) !! "s1" = Some 1).
Proof. vm_compute. repeat split. Qed.

(** The cursor theorem after the first dispatch of "s1" (cursor 0, two
    targets in sequence, nothing cooled down): the report keeps an entry
    for the session and does not report exhaustion. *)
Lemma failure_report_moves_cursor_witness :
  Plugin.sessionFallbackCursor after_dispatch !! "s1" = Some 0 /\
  Plugin.sessionVirtualModel after_dispatch !! "s1" = Some "virtual/w" /\
  Plugin.virtualModels (Plugin.loadedConfig after_dispatch) !! "virtual/w"
  = Some (two_targets None) /\
  let '(result, p') := Plugin.event 1000 (failure_report "s1" status_503) after_dispatch in
  result <> Ok Plugin.Exhausted /\
  is_Some (Plugin.sessionFallbackCursor p' !! "s1") /\
  Plugin.sessionVirtualModel p' = Plugin.sessionVirtualModel after_dispatch.
Proof.
  assert (Hc : Plugin.sessionFallbackCursor after_dispatch !! "s1" = Some 0)
    by (vm_compute; reflexivity).
  assert (Hs : Plugin.sessionVirtualModel after_dispatch !! "s1" = Some "virtual/w")
    by (vm_compute; reflexivity).
  assert (Hconf : Plugin.virtualModels (Plugin.loadedConfig after_dispatch) !! "virtual/w"
                  = Some (two_targets None)) by (vm_compute; reflexivity).
  split; [exact Hc|]. split; [exact Hs|]. split; [exact Hconf|].
  assert (Hshould : Plugin.shouldFallbackForError status_503 (two_targets None)
                      (Plugin.strategyProfiles (Plugin.loadedConfig after_dispatch)) = true)
    by (vm_compute; reflexivity).
  assert (Harr : Runtime.arrays (Plugin.runtime after_dispatch)
                   !! VirtualModelConfig.targets (two_targets None)
                 = Some [target_a; target_b]) by (vm_compute; reflexivity).
  assert (Hcd : cooldown_parses (two_targets None)
                  (Plugin.strategyProfiles (Plugin.loadedConfig after_dispatch)))
    by (vm_compute; exact I).
  pose proof (failure_report_moves_cursor 1000 "s1" status_503 after_dispatch "virtual/w"
                (two_targets None) [target_a; target_b]
                ltac:(discriminate) ltac:(discriminate) Hs Hconf
                ltac:(discriminate) ltac:(discriminate) ltac:(discriminate)
                Harr Hshould Hcd) as H.
  cbv zeta in H. rewrite Hc in H. cbn [default] in H.
  destruct (Plugin.event 1000 (failure_report "s1" status_503) after_dispatch) as [result p'].
  destruct H as (_ & Hvm & _ & Hgo & _).
  change (length [target_a; target_b]) with 2 in Hgo. unfold id in Hgo.
  split; [|split; [|exact Hvm]];
    destruct (Hgo ltac:(lia)) as [(i & t & _ & Hr & Hcur)|(_ & Hr & Hcur)];
    rewrite ?Hr, ?Hcur; first [discriminate | eauto].
Defined.

(** * Further properties of the code *)

Section MoreCooldownFacts.
Import State.

Lemma parseDuration_Throw d e :
  Duration.parseDuration d = Throw e <->
  e = InvalidDuration d /\ forall mag u, ~ duration_form d mag u.
Proof.
  rewrite parseDuration_unfold. split.
  - intros H.
    destruct (scan_duration (list_ascii_of_string d)) as [caps|] eqn:Hs.
    + destruct (scan_duration_form _ _ Hs) as (m1 & u & mag & -> & Hform & _).
      destruct (apply_unit_suffix (Duration.parseFloat m1) u) as (v & Hv & _).
      rewrite Hv in H. discriminate.
    + inversion H; subst. split; [reflexivity|]. intros mag u Hform.
      destruct (duration_form_scan _ _ _ Hform) as (m1 & Hm & _). congruence.
  - intros [-> Hnone].
    destruct (scan_duration (list_ascii_of_string d)) as [caps|] eqn:Hs; [|reflexivity].
    destruct (scan_duration_form _ _ Hs) as (m1 & u & mag & -> & Hform & _).
    exfalso. exact (Hnone _ _ Hform).
Qed.

Lemma isInCooldown_frame now key state :
  roundRobinIndex (snd (isInCooldown now key state)) = roundRobinIndex state /\
  metrics (snd (isInCooldown now key state)) = metrics state.
Proof.
  unfold isInCooldown. destruct (cooldowns state !! key) as [e|]; [|done].
  destruct (Qeq_bool e 0); [done|]. destruct (Qle_bool e now); done.
Qed.

Lemma verdict_later now later state key k :
  (now <= later)%Q ->
  verdict later (snd (isInCooldown now key state)) k = verdict later state k.
Proof.
  intros Hle. rewrite !verdict_lookup. unfold isInCooldown.
  destruct (cooldowns state !! key) as [e|] eqn:He; [|reflexivity].
  destruct (Qeq_bool e 0) eqn:E0; [reflexivity|].
  destruct (Qle_bool e now) eqn:Ele; [|reflexivity].
  cbn. destruct (decide (k = key)) as [->|Hne].
  - rewrite lookup_delete_eq, He, E0.
    apply Qle_bool_iff in Ele.
    assert (Hl : Qle_bool e later = true) by (apply Qle_bool_iff; lra).
    now rewrite Hl.
  - rewrite lookup_delete_ne by done. reflexivity.
Qed.

End MoreCooldownFacts.

(** Extra X1.  [setCooldown] throws exactly when it is given a text that
    is not empty and not a duration, and the error names that text; an
    absent duration and the empty string are accepted and set nothing. *)
Theorem setCooldown_throws_on_malformed_duration :
  forall (now : Q) (key : string) (state : State.RouterState),
    (forall duration e,
       State.setCooldown now key duration state = Throw e <->
       exists d, duration = Some d /\ d <> "" /\ e = InvalidDuration d /\
                 forall mag u, ~ duration_form d mag u) /\
    State.setCooldown now key None state = Ok state /\
    State.setCooldown now key (Some "") state = Ok state.
Proof.
  intros now key state. split; [|split; reflexivity].
  intros duration e. unfold State.setCooldown. split.
  - destruct duration as [d|]; [|discriminate].
    destruct (String.eqb d "") eqn:Hd; [discriminate|].
    apply String.eqb_neq in Hd.
    destruct (Duration.parseDuration d) as [ms|e'] eqn:Hp; [discriminate|].
    intros [= ->]. apply parseDuration_Throw in Hp as [-> Hnone]. eauto.
  - intros (d & -> & Hd & -> & Hnone).
    apply String.eqb_neq in Hd. rewrite Hd.
    now rewrite (proj2 (parseDuration_Throw d (InvalidDuration d)) (conj eq_refl Hnone)).
Qed.

(** Extra X2.  The window of a cooldown.  After [setCooldown] at [now]
    with a duration of [ms] milliseconds, which is never negative, the
    key is reported as cooled down at every instant before [now + ms] and
    at no instant from [now + ms] on; a check at or after the expiry
    removes the entry. *)
Theorem cooldown_window :
  forall (now later : Q) (key duration : string) (ms : Q) (state : State.RouterState),
    Duration.parseDuration duration = Ok ms ->
    (0 < now)%Q ->
    exists state',
      State.setCooldown now key (Some duration) state = Ok state' /\
      (0 <= ms)%Q /\
      (fst (State.isInCooldown later key state') = true <-> (later < now + ms)%Q) /\
      ((now + ms <= later)%Q ->
       State.cooldowns (snd (State.isInCooldown later key state')) !! key = None).
Proof.
  intros now later key duration ms state Hp Hnow.
  pose proof (parseDuration_nonneg _ _ Hp) as Hms.
  rewrite (setCooldown_parsed now key duration ms state Hp).
  eexists. split; [reflexivity|]. split; [exact Hms|].
  unfold State.isInCooldown. cbn [State.cooldowns State.set_cooldowns].
  rewrite lookup_insert_eq.
  assert (E0 : Qeq_bool (now + ms) 0 = false) by (apply Qeq_bool_false; lra).
  rewrite E0.
  destruct (Qle_bool (now + ms) later) eqn:Ele.
  - apply Qle_bool_iff in Ele. cbn. split.
    + split; [discriminate|]. intros H. lra.
    + intros _. apply lookup_delete_eq.
  - apply Qle_bool_false in Ele. cbn. split.
    + split; [intros _; exact Ele|reflexivity].
    + intros H. lra.
Qed.

(** The window of a five-minute cooldown set at instant 1000. *)
Lemma cooldown_window_witness :
  Duration.parseDuration "5m" = Ok 300000%Q /\ (0 < 1000)%Q /\
  exists state',
    State.setCooldown 1000 "p/a" (Some "5m") State.createRouterState = Ok state' /\
    (fst (State.isInCooldown 301000 "p/a" state') = true <-> (301000 < 1000 + 300000)%Q).
Proof.
  assert (Hp : Duration.parseDuration "5m" = Ok 300000%Q) by (vm_compute; reflexivity).
  assert (Hnow : (0 < 1000)%Q) by reflexivity.
  split; [exact Hp|]. split; [exact Hnow|].
  destruct (cooldown_window 1000 301000 "p/a" "5m" 300000 State.createRouterState Hp Hnow)
    as (state' & Hset & _ & Hwin & _).
  exists state'. split; [exact Hset|exact Hwin].
Defined.

(** Extra X3.  The lazy deletion of [isInCooldown] cannot be observed: a
    check changes neither the round-robin indices nor the metrics, a
    second check at the same instant gives the same answer and the same
    state, and the answer for any key, at the same or any later instant,
    is what it would have been without the check. *)
Theorem isInCooldown_is_unobservable :
  forall (now : Q) (key : string) (state : State.RouterState),
    let (answer, state') := State.isInCooldown now key state in
    State.isInCooldown now key state' = (answer, state') /\
    State.roundRobinIndex state' = State.roundRobinIndex state /\
    State.metrics state' = State.metrics state /\
    (forall later k, (now <= later)%Q ->
       fst (State.isInCooldown later k state') = fst (State.isInCooldown later k state)).
Proof.
  intros now key state.
  pose proof (isInCooldown_frame now key state) as [Hrr Hm].
  pose proof (fun later k => verdict_later now later state key k) as Hv.
  unfold verdict in Hv.
  destruct (State.isInCooldown now key state) as [answer state'] eqn:Hc.
  cbn [snd] in *. split; [|split; [exact Hrr|split; [exact Hm|]]].
  - revert Hc. unfold State.isInCooldown.
    destruct (State.cooldowns state !! key) as [e|] eqn:He.
    + destruct (Qeq_bool e 0) eqn:E0.
      * intros [= <- <-]. now rewrite He, E0.
      * destruct (Qle_bool e now) eqn:Ele.
        -- intros [= <- <-]. cbn. now rewrite lookup_delete_eq.
        -- intros [= <- <-]. now rewrite He, E0, Ele.
    + intros [= <- <-]. now rewrite He.
  - intros later k Hle. now apply Hv.
Qed.

Section FallbackFacts.

Lemma includes_status_elem status (f : FallbackOn) :
  Plugin.includes_status status f = true <-> status_code status ∈ f.
Proof.
  unfold Plugin.includes_status. rewrite existsb_exists. split.
  - intros (x & Hin & Hx). destruct x as [n|]; [|discriminate].
    apply Z.eqb_eq in Hx. subst. now apply list_elem_of_In.
  - intros Hin. exists (status_code status). split; [now apply list_elem_of_In|].
    apply Z.eqb_refl.
Qed.

Lemma includes_any_error_elem (f : FallbackOn) :
  Plugin.includes_any_error f = true <-> any_error ∈ f.
Proof.
  unfold Plugin.includes_any_error. rewrite existsb_exists. split.
  - intros (x & Hin & Hx). destruct x as [n|]; [discriminate|]. now apply list_elem_of_In.
  - intros Hin. exists any_error. split; [now apply list_elem_of_In|reflexivity].
Qed.

Lemma shouldFallbackStatus_listed status (f : FallbackOn) :
  f <> [any_error] ->
  Strategies.shouldFallbackStatus status f = Plugin.includes_status status f.
Proof.
  intros Hne. unfold Strategies.shouldFallbackStatus, Plugin.includes_status.
  destruct f as [|[n|] [|y f']]; try reflexivity. contradiction.
Qed.

End FallbackFacts.

(** Extra X4.  A model whose profile reference is absent, empty or names
    no loaded profile gets the policy of a model without profile: its own
    fallback trigger set or 429, 500, 503, its own cooldown or none, no
    retry, no backoff, continue with the next target.  Otherwise the
    profile found under that name is the one merged. *)
Theorem dangling_profile_gives_defaults :
  forall (model : VirtualModelConfig.t) (profiles : gmap string StrategyProfile.t),
    let profile := ConfigStrategies.resolveProfile model profiles in
    let merged := ConfigStrategies.mergeWithProfile model profile in
    (profile = None <->
       VirtualModelConfig.strategy_profile model = None \/
       VirtualModelConfig.strategy_profile model = Some "" \/
       exists name, VirtualModelConfig.strategy_profile model = Some name /\
                    profiles !! name = None) /\
    (profile = None ->
       merged =
         {| ResolvedModelConfig.fallback_on :=
              match VirtualModelConfig.fallback_on model with
              | Some f => f
              | None => [status_code 429; status_code 500; status_code 503]
              end;
            ResolvedModelConfig.cooldown := VirtualModelConfig.cooldown model;
            ResolvedModelConfig.max_retries := 0;
            ResolvedModelConfig.backoff := None;
            ResolvedModelConfig.on_fail := continue_with_next |}) /\
    (forall found, profile = Some found ->
       exists name, VirtualModelConfig.strategy_profile model = Some name /\ name <> "" /\
                    profiles !! name = Some found).
Proof.
  intros model profiles profile merged. subst merged profile.
  unfold ConfigStrategies.resolveProfile.
  destruct (VirtualModelConfig.strategy_profile model) as [name|] eqn:Hsp.
  - destruct (String.eqb name "") eqn:Hname.
    + apply String.eqb_eq in Hname. subst name. split; [|split].
      * split; [intros _; right; left; reflexivity|reflexivity].
      * intros _. unfold ConfigStrategies.mergeWithProfile. cbn.
        destruct (VirtualModelConfig.fallback_on model), (VirtualModelConfig.cooldown model);
          reflexivity.
      * discriminate.
    + apply String.eqb_neq in Hname. split; [|split].
      * split.
        -- intros H. right. right. exists name. split; [reflexivity|exact H].
        -- intros [H|[H|(n & H & Hn)]]; [discriminate| congruence |congruence].
      * intros ->. unfold ConfigStrategies.mergeWithProfile. cbn.
        destruct (VirtualModelConfig.fallback_on model), (VirtualModelConfig.cooldown model);
          reflexivity.
      * intros found H. exists name. split; [reflexivity|split; [exact Hname|exact H]].
  - split; [|split].
    + split; [intros _; left; reflexivity|reflexivity].
    + intros _. unfold ConfigStrategies.mergeWithProfile. cbn.
      destruct (VirtualModelConfig.fallback_on model), (VirtualModelConfig.cooldown model);
        reflexivity.
    + discriminate.
Qed.

(** Extra X5.  [shouldFallbackStatus]: the list that holds the sentinel
    and nothing else matches every status from 400 on; any other list
    matches exactly the status codes it holds, so that a sentinel listed
    beside status codes matches nothing, and the empty list matches no
    status at all. *)
Theorem shouldFallbackStatus_reading :
  forall status : Z,
    (Strategies.shouldFallbackStatus status [any_error] = true <-> (400 <= status)%Z) /\
    (forall fallbackOn : FallbackOn,
       fallbackOn <> [any_error] ->
       (Strategies.shouldFallbackStatus status fallbackOn = true <->
        status_code status ∈ fallbackOn)) /\
    Strategies.shouldFallbackStatus 503 [any_error; status_code 500] = false /\
    Strategies.shouldFallbackStatus status [] = false.
Proof.
  intros status. split; [|split; [|split]].
  - cbn. apply Z.leb_le.
  - intros f Hne. rewrite (shouldFallbackStatus_listed status f Hne).
    apply includes_status_elem.
  - reflexivity.
  - reflexivity.
Qed.

(** Extra X6.  [shouldFallbackForError]: a session error warrants a
    fallback exactly when the merged trigger list holds the sentinel
    (anywhere in the list, and whatever the error is), or the error
    carries a status code that the list holds, or the error is a
    ProviderAuthError.  With no trigger list on the model and none from a
    profile, that is: status 429, 500 or 503, or a ProviderAuthError. *)
Theorem shouldFallbackForError_reading :
  forall (error : Plugin.SessionError) (config : VirtualModelConfig.t)
         (profiles : gmap string StrategyProfile.t),
    let fallbackOn :=
      ResolvedModelConfig.fallback_on
        (ConfigStrategies.mergeWithProfile
           config (ConfigStrategies.resolveProfile config profiles)) in
    (Plugin.shouldFallbackForError error config profiles = true <->
       any_error ∈ fallbackOn \/
       (exists status, Plugin.statusCode error = Some status /\
                       status_code status ∈ fallbackOn) \/
       Plugin.name error = Some "ProviderAuthError") /\
    (VirtualModelConfig.fallback_on config = None ->
     ConfigStrategies.resolveProfile config profiles = None ->
     (Plugin.shouldFallbackForError error config profiles = true <->
        Plugin.statusCode error = Some 429%Z \/ Plugin.statusCode error = Some 500%Z \/
        Plugin.statusCode error = Some 503%Z \/
        Plugin.name error = Some "ProviderAuthError")).
Proof.
  intros error config profiles fallbackOn.
  assert (Hmain :
    Plugin.shouldFallbackForError error config profiles = true <->
       any_error ∈ fallbackOn \/
       (exists status, Plugin.statusCode error = Some status /\
                       status_code status ∈ fallbackOn) \/
       Plugin.name error = Some "ProviderAuthError").
  { unfold Plugin.shouldFallbackForError. fold fallbackOn.
    destruct (Plugin.includes_any_error fallbackOn) eqn:Hany.
    { apply includes_any_error_elem in Hany. split; [intros _; now left|reflexivity]. }
    assert (Hno : any_error ∉ fallbackOn).
    { intros H. apply includes_any_error_elem in H. congruence. }
    destruct (Plugin.statusCode error) as [status|] eqn:Hst.
    - destruct (Plugin.includes_status status fallbackOn) eqn:Hin.
      + apply includes_status_elem in Hin. split; [|reflexivity].
        intros _. right. left. eauto.
      + assert (Hnin : status_code status ∉ fallbackOn).
        { intros H. apply includes_status_elem in H. congruence. }
        destruct (Plugin.name error) as [n|] eqn:Hn.
        * destruct (String.eqb n "ProviderAuthError") eqn:He.
          -- apply String.eqb_eq in He. subst. split; [|reflexivity]. intros _. now right; right.
          -- apply String.eqb_neq in He. split; [discriminate|].
             intros [H|[(s & [= <-] & H)|[= H]]]; contradiction.
        * split; [discriminate|].
          intros [H|[(s & [= <-] & H)|H]]; [contradiction|contradiction|discriminate].
    - destruct (Plugin.name error) as [n|] eqn:Hn.
      + destruct (String.eqb n "ProviderAuthError") eqn:He.
        * apply String.eqb_eq in He. subst. split; [|reflexivity]. intros _. now right; right.
        * apply String.eqb_neq in He. split; [discriminate|].
          intros [H|[(s & H & _)|[= H]]]; [contradiction|discriminate|contradiction].
      + split; [discriminate|].
        intros [H|[(s & H & _)|H]]; [contradiction|discriminate|discriminate]. }
  split; [exact Hmain|].
  intros Hf Hp. rewrite Hmain. subst fallbackOn. rewrite Hp.
  unfold ConfigStrategies.mergeWithProfile. cbn. rewrite Hf. cbn.
  unfold ConfigStrategies.default_fallback_on. split.
  - intros [H|[(s & Hs & H)|H]].
    + repeat (apply elem_of_cons in H as [H|H]; [discriminate|]). inversion H.
    + rewrite Hs.
      apply elem_of_cons in H as [[= ->]|H]; [now left|].
      apply elem_of_cons in H as [[= ->]|H]; [now right; left|].
      apply elem_of_cons in H as [[= ->]|H]; [now right; right; left|]. inversion H.
    + now right; right; right.
  - intros [H|[H|[H|H]]].
    + right. left. exists 429%Z. split; [exact H|]. apply elem_of_cons. now left.
    + right. left. exists 500%Z. split; [exact H|]. apply elem_of_cons; right.
      apply elem_of_cons. now left.
    + right. left. exists 503%Z. split; [exact H|]. apply elem_of_cons; right; apply elem_of_cons; right.
      apply elem_of_cons. now left.
    + now right; right.
Qed.

Section MoreSelectFacts.
Import State Strategies.

Lemma copy_read l rt ts :
  Runtime.arrays rt !! l = Some ts ->
  Runtime.read (fst (copy l rt)) (snd (copy l rt)) = ts /\
  Runtime.rand (snd (copy l rt)) = Runtime.rand rt /\
  Runtime.drawn (snd (copy l rt)) = Runtime.drawn rt.
Proof.
  intros H. unfold copy. rewrite (read_lookup _ _ _ H).
  unfold Runtime.alloc, Runtime.read. cbn.
  rewrite lookup_app_r by lia. now rewrite Nat.sub_diag.
Qed.

Lemma score_all_scores totalWeight ts :
  forall rt,
    fst (score_all totalWeight ts rt) = imap (scored_at rt totalWeight) ts /\
    Runtime.rand (snd (score_all totalWeight ts rt)) = Runtime.rand rt /\
    Runtime.drawn (snd (score_all totalWeight ts rt)) = Runtime.drawn rt + length ts.
Proof.
  induction ts as [|t ts IH]; intros rt; cbn [score_all].
  - cbn. auto with arith.
  - destruct (IH (snd (Runtime.Math_random rt))) as (IH1 & IH2 & IH3).
    cbn [Runtime.Math_random snd fst] in *.
    destruct (score_all totalWeight ts _) as [rest rt2]. cbn [fst snd] in *.
    split; [|split].
    + unfold scored_at at 1. cbn [imap]. rewrite Nat.add_0_r. f_equal.
      rewrite IH1. apply imap_ext. intros i x _. unfold scored_at. cbn.
      now rewrite Nat.add_succ_r.
    + exact IH2.
    + rewrite IH3. cbn. lia.
Qed.

Lemma score_all_same_tape totalWeight ts rt rt' :
  Runtime.rand rt' = Runtime.rand rt -> Runtime.drawn rt' = Runtime.drawn rt ->
  fst (score_all totalWeight ts rt') = fst (score_all totalWeight ts rt).
Proof.
  intros Hr Hd.
  rewrite (proj1 (score_all_scores totalWeight ts rt')),
          (proj1 (score_all_scores totalWeight ts rt)).
  apply imap_ext. intros i x _. unfold scored_at. now rewrite Hr, Hd.
Qed.

Lemma insert_by_score x l rt :
  snd (Runtime.insert by_score x l rt) = rt /\
  (descending l -> descending (fst (Runtime.insert by_score x l rt))).
Proof.
  induction l as [|y ys IH].
  - split; [reflexivity|]. intros _. cbn. auto.
  - change (Runtime.insert by_score x (y :: ys) rt)
      with (if Qltb 0 (score y - score x)
            then let (r, rt2) := Runtime.insert by_score x ys rt in (y :: r, rt2)
            else (x :: y :: ys, rt)).
    destruct (Qltb 0 (score y - score x)) eqn:Hlt.
    + destruct IH as [IHrt IHd].
      pose proof (insert_spec by_score (fun a b r => eq_refl) x ys rt) as [Hperm _].
      destruct (Runtime.insert by_score x ys rt) as [r rt2]. cbn [fst snd] in *.
      split; [exact IHrt|]. intros [Hall Hd]. split; [|now apply IHd].
      rewrite Hperm. constructor; [|exact Hall].
      unfold Qltb in Hlt. apply negb_true_iff, Qle_bool_false in Hlt. lra.
    + split; [reflexivity|]. intros [Hall Hd].
      unfold Qltb in Hlt. apply negb_false_iff, Qle_bool_iff in Hlt.
      split; [|split; [exact Hall|exact Hd]].
      constructor; [lra|].
      eapply Forall_impl; [exact Hall|]. cbn. intros z Hz. lra.
Qed.

Lemma sort_by_score l rt :
  snd (Runtime.sort by_score l rt) = rt /\ descending (fst (Runtime.sort by_score l rt)).
Proof.
  induction l as [|x xs IH]; cbn [Runtime.sort]; [cbn; auto|].
  destruct (Runtime.sort by_score xs rt) as [sorted rt1]. cbn [fst snd] in IH.
  destruct IH as [-> Hd].
  destruct (insert_by_score x sorted rt) as [Hrt Hins]. auto.
Qed.

Lemma descending_by_index l : descending l -> descending_scores l.
Proof.
  induction l as [|x l IH]; intros Hd i j a b Hij Hi Hj.
  - inversion Hi.
  - destruct Hd as [Hall Hd]. destruct i as [|i], j as [|j]; cbn in Hi, Hj.
    + inversion Hi; inversion Hj; subst. lra.
    + inversion Hi; subst. rewrite Forall_forall in Hall.
      apply Hall. eapply list_elem_of_lookup_2. exact Hj.
    + lia.
    + apply (IH Hd i j); [lia|exact Hi|exact Hj].
Qed.

End MoreSelectFacts.

(** Extra X7.  Under every strategy but round_robin, random and weighted
    (that is, sequential, priority, and any name the switch does not
    know), [selectTargets] returns the targets in the configured order,
    leaves the router state as it is and draws no random number. *)
Theorem selectTargets_keeps_configured_order :
  forall (virtualModelId : string) (config : VirtualModelConfig.t)
         (state : State.RouterState) (rt : Runtime.t) (ts : list TargetModel.t),
    VirtualModelConfig.strategy config <> round_robin ->
    VirtualModelConfig.strategy config <> random ->
    VirtualModelConfig.strategy config <> weighted ->
    Runtime.arrays rt !! VirtualModelConfig.targets config = Some ts ->
    let '(r, state', rt') := Strategies.selectTargets virtualModelId config state rt in
    Runtime.read r rt' = ts /\ state' = state /\
    Runtime.drawn rt' = Runtime.drawn rt.
Proof.
  intros virtualModelId config state rt ts Hrr Hrand Hw Hl.
  unfold Strategies.selectTargets.
  pose proof (copy_read _ _ _ Hl) as (Hread & _ & Hdrawn).
  destruct (VirtualModelConfig.strategy config); try contradiction;
    destruct (Strategies.copy _ rt) as [r rt1]; cbn [fst snd] in *; auto.
Qed.

(** The order is kept for the two targets of "virtual/w" under the
    sequential strategy. *)
Lemma selectTargets_keeps_configured_order_witness :
  Runtime.arrays store_ab !! VirtualModelConfig.targets (two_targets None)
  = Some [target_a; target_b] /\
  let '(r, state', rt') :=
    Strategies.selectTargets "virtual/w" (two_targets None) State.createRouterState store_ab in
  Runtime.read r rt' = [target_a; target_b] /\ state' = State.createRouterState.
Proof.
  assert (Hl : Runtime.arrays store_ab !! VirtualModelConfig.targets (two_targets None)
               = Some [target_a; target_b]) by reflexivity.
  split; [exact Hl|].
  pose proof (selectTargets_keeps_configured_order "virtual/w" (two_targets None)
                State.createRouterState store_ab [target_a; target_b]
                ltac:(discriminate) ltac:(discriminate) ltac:(discriminate) Hl) as H.
  destruct (Strategies.selectTargets "virtual/w" (two_targets None)
              State.createRouterState store_ab) as [[r state'] rt'].
  destruct H as (H1 & H2 & _). split; [exact H1|exact H2].
Defined.

(** Extra X8.  Round robin with a stored index that lies beyond the
    list (as after the list of a model got shorter): the targets come
    back in the configured order, without rotation, and the index that
    is stored for the next call is within the list again. *)
Theorem round_robin_stale_index :
  forall (virtualModelId : string) (config : VirtualModelConfig.t)
         (state : State.RouterState) (rt : Runtime.t) (ts : list TargetModel.t),
    VirtualModelConfig.strategy config = round_robin ->
    Runtime.arrays rt !! VirtualModelConfig.targets config = Some ts ->
    ts <> [] ->
    length ts <= cursor_of virtualModelId state ->
    let '(r, state', rt') := Strategies.selectTargets virtualModelId config state rt in
    Runtime.read r rt' = ts /\
    cursor_of virtualModelId state' = (cursor_of virtualModelId state + 1) mod length ts /\
    cursor_of virtualModelId state' < length ts.
Proof.
  intros virtualModelId config state rt ts Hs Hl Hne Hlen.
  pose proof (round_robin_call virtualModelId config state rt ts Hs Hl) as H.
  cbv zeta in H.
  destruct (Strategies.selectTargets virtualModelId config state rt) as [[r state'] rt'].
  destruct H as (Hread & Hidx & _).
  assert (Hpos : length ts <> 0) by (destruct ts; [contradiction|discriminate]).
  split; [|split].
  - rewrite Hread, drop_ge, take_ge by lia. reflexivity.
  - unfold cursor_of at 1. rewrite Hidx, lookup_insert_eq. reflexivity.
  - unfold cursor_of at 1. rewrite Hidx, lookup_insert_eq. cbn.
    apply Nat.mod_upper_bound. exact Hpos.
Qed.

(** A stored index of 5 for the two targets of "virtual/w". *)
Lemma round_robin_stale_index_witness :
  let stale := State.set_roundRobinIndex {[ "virtual/w" := 5 ]} State.createRouterState in
  length [target_a; target_b] <= cursor_of "virtual/w" stale /\
  let '(r, state', rt') := Strategies.selectTargets "virtual/w" round_robin_ab stale store_ab in
  Runtime.read r rt' = [target_a; target_b] /\ cursor_of "virtual/w" state' < 2.
Proof.
  intros stale.
  assert (Hlen : length [target_a; target_b] <= cursor_of "virtual/w" stale)
    by (vm_compute; lia).
  split; [exact Hlen|].
  pose proof (round_robin_stale_index "virtual/w" round_robin_ab stale store_ab
                [target_a; target_b] eq_refl eq_refl ltac:(discriminate) Hlen) as H.
  destruct (Strategies.selectTargets "virtual/w" round_robin_ab stale store_ab)
    as [[r state'] rt'].
  destruct H as (H1 & _ & H3). split; [exact H1|exact H3].
Defined.

(** Extra X9.  The weighted strategy, for weights whose sum is not zero,
    draws one random number per target, in the configured order; the
    score of a target is its draw times its share of the total weight (a
    target without weight counts as 1); and the list returned holds the
    targets by descending score. *)
Theorem weighted_orders_by_descending_score :
  forall (virtualModelId : string) (config : VirtualModelConfig.t)
         (state : State.RouterState) (rt : Runtime.t) (ts : list TargetModel.t),
    VirtualModelConfig.strategy config = weighted ->
    Runtime.arrays rt !! VirtualModelConfig.targets config = Some ts ->
    ~ (total_weight ts == 0)%Q ->
    let '(r, state', rt') := Strategies.selectTargets virtualModelId config state rt in
    exists sorted : list Strategies.Scored,
      Runtime.read r rt' = map Strategies.target sorted /\
      sorted ≡ₚ imap (scored_at rt (total_weight ts)) ts /\
      descending_scores sorted /\
      Runtime.drawn rt' = Runtime.drawn rt + length ts /\
      state' = state.
Proof.
  intros virtualModelId config state rt ts Hs Hl _.
  unfold Strategies.selectTargets. rewrite Hs.
  pose proof (copy_read _ _ _ Hl) as (Hread & Hrand & Hdrawn).
  destruct (Strategies.copy _ rt) as [c rt1]. cbn [fst snd] in *.
  unfold Strategies.weightedSort. rewrite Hread. fold (total_weight ts).
  pose proof (score_all_scores (total_weight ts) ts rt1) as (Hsc & Hr2 & Hd2).
  destruct (Strategies.score_all (total_weight ts) ts rt1) as [scored rt2].
  cbn [fst snd] in *.
  change (fun (a b : Strategies.Scored) (rt0 : Runtime.t) =>
            ((Strategies.score b - Strategies.score a)%Q, rt0)) with by_score.
  pose proof (sort_by_score scored rt2) as [Hrt Hdesc].
  pose proof (sort_spec by_score (fun a b r => eq_refl) scored rt2) as [Hperm _].
  destruct (Runtime.sort by_score scored rt2) as [sorted rt3]. cbn [fst snd] in *.
  subst rt3. exists sorted.
  unfold Runtime.alloc, Runtime.read. cbn.
  rewrite lookup_app_r by lia. rewrite Nat.sub_diag. cbn.
  split; [reflexivity|]. split.
  - rewrite Hperm, Hsc. 
    replace (imap (scored_at rt1 (total_weight ts)) ts)
      with (imap (scored_at rt (total_weight ts)) ts); [reflexivity|].
    apply imap_ext. intros i x _. unfold scored_at. now rewrite Hrand, Hdrawn.
  - split; [now apply descending_by_index|]. split; [|reflexivity].
    rewrite Hd2, Hdrawn. reflexivity.
Qed.

(** The scores of A and B on a tape that draws 1/4, then 3/4. *)
Lemma weighted_orders_by_descending_score_witness :
  Runtime.arrays store_ab_drawn !! VirtualModelConfig.targets weighted_ab
  = Some [target_a; target_b] /\
  let '(r, _, rt') :=
    Strategies.selectTargets "virtual/w" weighted_ab State.createRouterState store_ab_drawn in
  Runtime.read r rt' = [target_b; target_a] /\
  exists sorted, Runtime.read r rt' = map Strategies.target sorted /\ descending_scores sorted.
Proof.
  assert (Hl : Runtime.arrays store_ab_drawn !! VirtualModelConfig.targets weighted_ab
               = Some [target_a; target_b]) by reflexivity.
  split; [exact Hl|].
  assert (Htotal : ~ (total_weight [target_a; target_b] == 0)%Q) by (vm_compute; discriminate).
  pose proof (weighted_orders_by_descending_score "virtual/w" weighted_ab
                State.createRouterState store_ab_drawn [target_a; target_b] eq_refl Hl Htotal)
    as H.
  assert (Hrun : Runtime.read
                   (fst (fst (Strategies.selectTargets "virtual/w" weighted_ab
                                State.createRouterState store_ab_drawn)))
                   (snd (Strategies.selectTargets "virtual/w" weighted_ab
                           State.createRouterState store_ab_drawn))
                 = [target_b; target_a]) by (vm_compute; reflexivity).
  destruct (Strategies.selectTargets "virtual/w" weighted_ab
              State.createRouterState store_ab_drawn) as [[r state'] rt'].
  cbn [fst snd] in Hrun. split; [exact Hrun|].
  destruct H as (sorted & H1 & _ & H3 & _). exists sorted. split; [exact H1|exact H3].
Defined.

Section MoreBackoffFacts.

Lemma delay_at_capped initial multiplier maxDelay k :
  (delay_at initial multiplier maxDelay (S k) <= maxDelay)%Q.
Proof. cbn. apply Q.le_min_r. Qed.

Lemma delay_at_grows initial multiplier maxDelay k :
  (0 <= initial)%Q -> (initial <= maxDelay)%Q -> (1 <= multiplier)%Q ->
  (initial <= delay_at initial multiplier maxDelay k)%Q /\
  (delay_at initial multiplier maxDelay k <= maxDelay)%Q /\
  (delay_at initial multiplier maxDelay k <= delay_at initial multiplier maxDelay (S k))%Q.
Proof.
  intros H0 Hmax Hm.
  assert (Hstep : forall d, (initial <= d)%Q -> (d <= maxDelay)%Q ->
                            (d <= Qmin (d * multiplier) maxDelay)%Q).
  { intros d Hd HdM. apply Q.min_glb; [|exact HdM].
    assert (Hp : (0 <= d * (multiplier - 1))%Q) by (apply Qmult_le_0_compat; lra).
    lra. }
  induction k as [|k (IH1 & IH2 & IH3)].
  - cbn. split; [lra|]. split; [exact Hmax|]. apply Hstep; lra.
  - assert (H1 : (initial <= delay_at initial multiplier maxDelay (S k))%Q) by lra.
    assert (H2 : (delay_at initial multiplier maxDelay (S k) <= maxDelay)%Q)
      by apply delay_at_capped.
    split; [exact H1|]. split; [exact H2|].
    change (delay_at initial multiplier maxDelay (S (S k)))
      with (Qmin (delay_at initial multiplier maxDelay (S k) * multiplier) maxDelay).
    now apply Hstep.
Qed.

Lemma lookup_map_seq {A} (f : nat -> A) n k d :
  map f (seq 0 n) !! k = Some d -> d = f k /\ k < n.
Proof.
  intros H. change (map f (seq 0 n)) with (f <$> seq 0 n) in H.
  rewrite list_lookup_fmap in H.
  destruct (seq 0 n !! k) as [j|] eqn:Hj; [|discriminate].
  apply lookup_seq in Hj as [-> Hlt]. cbn in H. inversion H. auto.
Qed.

End MoreBackoffFacts.

(** Extra X10.  The sleeps of [executeWithBackoff]: there are at most
    max_retries of them; every sleep after the first is at most the
    maximum delay; and when the initial delay is at most the maximum and
    the multiplier is at least 1, every sleep lies between the initial
    delay and the maximum, and no sleep is shorter than the one before. *)
Theorem executeWithBackoff_sleeps_are_bounded :
  forall (W : Type) (fn : W -> Strategies.Outcome * W) (profile : StrategyProfile.t)
         (fallbackOn : FallbackOn) (w : W) (initial maxDelay : Q),
    Duration.parseDuration (initial_of profile) = Ok initial ->
    Duration.parseDuration (max_of profile) = Ok maxDelay ->
    exists result w' log,
      Strategies.executeWithBackoff fn profile fallbackOn w = Ok (result, w', log) /\
      length (sleeps_of log) <= maxRetries_of profile /\
      (forall k d, sleeps_of log !! S k = Some d -> (d <= maxDelay)%Q) /\
      ((initial <= maxDelay)%Q -> (1 <= multiplier_of profile)%Q ->
       (forall k d, sleeps_of log !! k = Some d -> (initial <= d)%Q /\ (d <= maxDelay)%Q) /\
       (forall k d d', sleeps_of log !! k = Some d -> sleeps_of log !! S k = Some d' ->
                       (d <= d')%Q)).
Proof.
  intros W fn profile fallbackOn w initial maxDelay Hi Hm.
  pose proof (parseDuration_nonneg _ _ Hi) as H0.
  unfold Strategies.executeWithBackoff.
  fold (initial_of profile) (max_of profile) (multiplier_of profile) (maxRetries_of profile).
  rewrite Hi. cbn [Strategies.bind]. rewrite Hm. cbn [Strategies.bind].
  pose proof (attempts_shape fn (maxRetries_of profile) (multiplier_of profile) maxDelay
                fallbackOn (maxRetries_of profile) 0 initial None None w [] eq_refl) as H.
  destruct (Strategies.attempts fn (maxRetries_of profile) (multiplier_of profile) maxDelay
              fallbackOn (S (maxRetries_of profile)) 0 initial None None w [])
    as [[result w'] log].
  destruct H as (cs & ss & Hcs & Hss & Hlen & Hfuel & Hdelays & _).
  cbn in Hcs, Hss. subst cs. 
  exists result, w', log. split; [reflexivity|].
  rewrite Hss. split; [lia|]. split.
  - intros k d Hk. rewrite Hdelays in Hk. apply lookup_map_seq in Hk as [-> _].
    apply delay_at_capped.
  - intros Hle Hmul. split.
    + intros k d Hk. rewrite Hdelays in Hk. apply lookup_map_seq in Hk as [-> _].
      destruct (delay_at_grows initial (multiplier_of profile) maxDelay k H0 Hle Hmul)
        as (H1 & H2 & _). auto.
    + intros k d d' Hk Hk'. rewrite Hdelays in Hk, Hk'.
      apply lookup_map_seq in Hk as [-> _]. apply lookup_map_seq in Hk' as [-> _].
      apply (delay_at_grows initial (multiplier_of profile) maxDelay k H0 Hle Hmul).
Qed.

(** The sleeps of the run against a backend that always answers 503,
    with one retry, an initial delay of 2s and a maximum of 1s. *)
Lemma executeWithBackoff_sleeps_are_bounded_witness :
  Duration.parseDuration (initial_of slow_start) = Ok 2000%Q /\
  Duration.parseDuration (max_of slow_start) = Ok 1000%Q /\
  exists result w' log,
    Strategies.executeWithBackoff always_503 slow_start [status_code 503] 0
    = Ok (result, w', log) /\
    length (sleeps_of log) <= 1.
Proof.
  assert (Hi : Duration.parseDuration (initial_of slow_start) = Ok 2000%Q)
    by (vm_compute; reflexivity).
  assert (Hm : Duration.parseDuration (max_of slow_start) = Ok 1000%Q)
    by (vm_compute; reflexivity).
  split; [exact Hi|]. split; [exact Hm|].
  destruct (executeWithBackoff_sleeps_are_bounded nat always_503 slow_start
              [status_code 503] 0 2000 1000 Hi Hm) as (result & w' & log & Hrun & Hlen & _).
  exists result, w', log. split; [exact Hrun|exact Hlen].
Defined.

Section MoreMetricsFacts.
Import State.

Lemma count_calls_app p a b : count_calls p (a ++ b) = count_calls p a + count_calls p b.
Proof. induction a as [|c a IH]; cbn; [reflexivity|]. rewrite IH. lia. Qed.

Lemma eqb_decide (k key : string) : String.eqb k key = if decide (k = key) then true else false.
Proof.
  case_decide as H; [now apply String.eqb_eq|now apply String.eqb_neq].
Qed.

Lemma metrics_entry_run_call st c key :
  metrics (run_call st c) !! key = None <-> metrics st !! key = None /\ key_of c <> key.
Proof.
  destruct c as [k l|k|k]; cbn [run_call key_of];
    unfold recordSuccess, recordFailure, recordFallback, getOrCreateMetrics;
    destruct (metrics st !! k) as [m|] eqn:Hk; cbn;
    (destruct (decide (k = key)) as [->|Hne];
     [rewrite lookup_insert_eq; split; [discriminate|intros [_ H]; contradiction]
     |rewrite ?lookup_insert_ne by done; split; [intros H; split; [exact H|exact Hne]|tauto]]).
Qed.

End MoreMetricsFacts.

(** Extra X11.  The metrics count the calls.  After any sequence of
    recordSuccess, recordFailure and recordFallback calls on a new router
    state, the record of a key holds the number of recordSuccess calls
    for that key as successes, the number of recordFailure calls as
    failures, the number of recordFallback calls as fallbacks and the sum
    of the first two as requests; and a key has a record exactly when
    some call named it. *)
Theorem metrics_count_the_calls :
  forall (calls : list MetricsCall) (key : string),
    let state := run_calls calls State.createRouterState in
    let m := metrics_of key state in
    State.successes m = count_calls (is_success key) calls /\
    State.failures m = count_calls (is_failure key) calls /\
    State.fallbacks m = count_calls (is_fallback key) calls /\
    State.requests m
    = count_calls (is_success key) calls + count_calls (is_failure key) calls /\
    (State.metrics state !! key = None <-> forall c, c ∈ calls -> key_of c <> key).
Proof.
  intros calls key. cbv zeta.
  induction calls as [|c calls IH] using rev_ind.
  - cbn. do 4 (split; [reflexivity|]).
    split; [intros _ c Hc; inversion Hc|intros _; apply lookup_empty].
  - rewrite run_calls_snoc, !count_calls_app.
    destruct IH as (IHs & IHf & IHb & IHr & IHn).
    assert (Hnone :
      State.metrics (run_call (run_calls calls State.createRouterState) c) !! key = None <->
      forall c', c' ∈ calls ++ [c] -> key_of c' <> key).
    { rewrite metrics_entry_run_call, IHn. split.
      - intros [Hall Hc] c' Hin. apply elem_of_app in Hin as [Hin|Hin]; [now apply Hall|].
        apply list_elem_of_singleton in Hin. now subst.
      - intros Hall. split.
        + intros c' Hin. apply Hall. apply elem_of_app. now left.
        + apply Hall. apply elem_of_app. right. now apply list_elem_of_singleton. }
    destruct c as [k l|k|k]; cbn [run_call count_calls is_success is_failure is_fallback] in *.
    + rewrite metrics_of_recordSuccess, eqb_decide.
      case_decide; cbn; repeat split; try lia; apply Hnone.
    + rewrite metrics_of_recordFailure, eqb_decide.
      case_decide; cbn; repeat split; try lia; apply Hnone.
    + rewrite metrics_of_recordFallback, eqb_decide.
      case_decide; cbn; repeat split; try lia; apply Hnone.
Qed.

Section MoreResolverFacts.
Import State.

Lemma first_available_scan now ts :
  forall i state,
    Resolver.first_available now ts state =
      let (found, state') := Plugin.scan now i ts state in
      (option_map snd found, state').
Proof.
  induction ts as [|t ts IH]; intros i state; cbn [Resolver.first_available Plugin.scan].
  - reflexivity.
  - change (Resolver.normalizeModelID (TargetModel.provider t) (TargetModel.model t))
      with (Plugin.normalizeModelID (TargetModel.provider t) (TargetModel.model t)).
    destruct (isInCooldown now _ state) as [[|] state1]; [apply IH|reflexivity].
Qed.

Lemma verdict_same_cooldowns now state state' k :
  cooldowns state' = cooldowns state -> verdict now state' k = verdict now state k.
Proof. intros H. now rewrite !verdict_lookup, H. Qed.

Lemma scan_frame now rest :
  forall i state,
    roundRobinIndex (snd (Plugin.scan now i rest state)) = roundRobinIndex state /\
    metrics (snd (Plugin.scan now i rest state)) = metrics state.
Proof.
  induction rest as [|t rest IH]; intros i state; cbn [Plugin.scan]; [done|].
  pose proof (isInCooldown_frame now
                (TargetModel.provider t +:+ "/"
                   +:+ Plugin.normalizeModelID (TargetModel.provider t) (TargetModel.model t))
                state) as [Hrr Hm].
  destruct (isInCooldown now _ state) as [[|] state1]; cbn [snd] in *.
  - destruct (IH (S i) state1) as [-> ->]. auto.
  - auto.
Qed.

End MoreResolverFacts.

(** Extra X12.  [resolveModel] for a model id that is not configured
    answers null and changes nothing: no round-robin index moves and no
    array is made.  For a configured id it answers the first target, in
    the order that the strategy gives, that is not cooled down, with the
    whole ordered list beside it; it answers null exactly when every
    target is cooled down; and apart from what [selectTargets] does, the
    call leaves the round-robin indices, the metrics and the answer of
    every cooldown check at that instant as they were. *)
Theorem resolveModel_selects_first_viable :
  forall (now : Q) (virtualModelID : string)
         (virtualModels : gmap string VirtualModelConfig.t)
         (strategyProfiles : gmap string StrategyProfile.t)
         (state : State.RouterState) (rt : Runtime.t),
    (virtualModels !! virtualModelID = None ->
     Resolver.resolveModel now virtualModelID virtualModels strategyProfiles state rt
     = (None, state, rt)) /\
    (forall (config : VirtualModelConfig.t) (ts0 : list TargetModel.t),
       virtualModels !! virtualModelID = Some config ->
       Runtime.arrays rt !! VirtualModelConfig.targets config = Some ts0 ->
       let '(targets, state1, rt1) :=
         Strategies.selectTargets virtualModelID config state rt in
       let ts := Runtime.read targets rt1 in
       let '(res, state', rt') :=
         Resolver.resolveModel now virtualModelID virtualModels strategyProfiles state rt in
       rt' = rt1 /\
       State.roundRobinIndex state' = State.roundRobinIndex state1 /\
       State.metrics state' = State.metrics state /\
       (forall k, verdict now state' k = verdict now state k) /\
       match res with
       | Some r =>
           exists i t, first_viable now state ts 0 i t /\
                       selected r = emitted t /\
                       Resolver.allTargets r = map emitted ts
       | None => forall t, t ∈ ts0 -> cooled now state t
       end).
Proof.
  intros now virtualModelID virtualModels strategyProfiles state rt. split.
  - intros Hnone. unfold Resolver.resolveModel. now rewrite Hnone.
  - intros config ts0 Hconf Harr.
    pose proof (selectTargets_fresh_permutation virtualModelID config state rt ts0 Harr) as Hsel.
    unfold Resolver.resolveModel. rewrite Hconf. cbv zeta.
    destruct (Strategies.selectTargets virtualModelID config state rt)
      as [[targets state1] rt1].
    destruct Hsel as ((_ & _ & Hperm & _) & Hcd & Hmet & _).
    set (ts := Runtime.read targets rt1) in *.
    rewrite (first_available_scan now ts 0 state1).
    pose proof (scan_spec now ts 0 state1) as Hscan.
    pose proof (scan_frame now ts 0 state1) as [Hrr Hm].
    destruct (Plugin.scan now 0 ts state1) as [found state2]. cbn [snd] in *.
    destruct Hscan as [Hv Hfound].
    assert (Hvs : forall k, verdict now state1 k = verdict now state k).
    { intros k. now apply verdict_same_cooldowns. }
    assert (Hv' : forall k, verdict now state2 k = verdict now state k).
    { intros k. now rewrite Hv. }
    destruct found as [[i r]|]; cbn [option_map snd].
    + split; [reflexivity|]. split; [exact Hrr|]. split; [now rewrite Hm|].
      split; [exact Hv'|].
      destruct Hfound as (t & _ & Hl & -> & Hnot & Hbefore).
      rewrite Nat.sub_0_r in Hl, Hbefore.
      exists i, t. split; [|split; reflexivity].
      unfold first_viable, cooled. split; [lia|]. split; [exact Hl|].
      fold (verdict now state (modelKey t)). split.
      * rewrite <- Hvs, Hnot. discriminate.
      * intros j t' Hj Hl'. fold (verdict now state (modelKey t')).
        rewrite <- Hvs. apply (Hbefore j); [lia|exact Hl'].
    + split; [reflexivity|]. split; [exact Hrr|]. split; [now rewrite Hm|].
      split; [exact Hv'|].
      intros t Ht. unfold cooled. fold (verdict now state (modelKey t)).
      rewrite <- Hvs.
      rewrite <- Hperm in Ht. apply list_elem_of_lookup_1 in Ht as [j Hj].
      exact (Hfound j t Hj).
Qed.

(** The resolver on the target of "virtual/t", which is not cooled down. *)
Lemma resolveModel_selects_first_viable_witness :
  exists res,
    resolve_twice = Some res /\
    exists i t, first_viable 1000 State.createRouterState [target_twice] 0 i t /\
                selected res = emitted t.
Proof.
  pose proof (proj2 (resolveModel_selects_first_viable 1000 "virtual/t"
                       {[ "virtual/t" := two_targets None ]} ∅
                       State.createRouterState store_twice)
                (two_targets None) [target_twice] eq_refl eq_refl) as H.
  unfold resolve_twice.
  assert (Hread :
    Runtime.read
      (fst (fst (Strategies.selectTargets "virtual/t" (two_targets None)
                   State.createRouterState store_twice)))
      (snd (Strategies.selectTargets "virtual/t" (two_targets None)
              State.createRouterState store_twice)) = [target_twice])
    by (vm_compute; reflexivity).
  assert (Hsome :
    fst (fst (Resolver.resolveModel 1000 "virtual/t" {[ "virtual/t" := two_targets None ]} ∅
                State.createRouterState store_twice)) <> None)
    by (vm_compute; discriminate).
  destruct (Strategies.selectTargets "virtual/t" (two_targets None)
              State.createRouterState store_twice) as [[targets state1] rt1].
  cbn [fst snd] in Hread.
  destruct (Resolver.resolveModel 1000 "virtual/t" {[ "virtual/t" := two_targets None ]} ∅
              State.createRouterState store_twice) as [[res state'] rt'].
  cbn [fst] in *. destruct res as [res|]; [|contradiction].
  exists res. split; [reflexivity|].
  destruct H as (_ & _ & _ & _ & i & t & Hfirst & Hsel & _).
  rewrite Hread in Hfirst. exists i, t. split; [exact Hfirst|exact Hsel].
Defined.

Section DispatchFacts.
Import State Plugin.

(** The id that the hook computes for the model that a message asks for. *)
Lemma chat_message_unfold now sessionID_ incoming output p :
  chat_message now sessionID_ incoming output p =
    let virtualModelID :=
      match requested_model incoming output with
      | Some m =>
          if String.eqb (ModelRef.providerID m) "virtual"
          then Some ("virtual/" +:+ ModelRef.modelID m)
          else if startsWith (ModelRef.modelID m) "virtual/" then Some (ModelRef.modelID m)
          else None
      | None => None
      end in
    match virtualModelID with
    | None => (output, p)
    | Some virtualModelID =>
        match virtualModels (loadedConfig p) !! virtualModelID with
        | None => (output, p)
        | Some config =>
            let p1 := set_sessionVirtualModel
                        (<[sessionID_ := virtualModelID]> (sessionVirtualModel p)) p in
            let cursor := nullish (sessionFallbackCursor p1 !! sessionID_) 0 in
            let '(targets, state1, rt1) :=
              Strategies.selectTargets virtualModelID config (state p1) (runtime p1) in
            let ts := Runtime.read targets rt1 in
            let (resolved, state2) := scan now cursor (drop cursor ts) state1 in
            let p2 := set_state state2 rt1 p1 in
            match resolved with
            | Some (i, r) =>
                (Some r, set_cursor (<[sessionID_ := i]> (sessionFallbackCursor p2)) p2)
            | None => (output, p2)
            end
        end
    end.
Proof.
  unfold chat_message, requested_model.
  destruct incoming as [m|]; [reflexivity|]. destruct output as [m|]; reflexivity.
Qed.

Lemma addresses_computed m virtualModelID :
  addresses m virtualModelID <->
  (if String.eqb (ModelRef.providerID m) "virtual"
   then Some ("virtual/" +:+ ModelRef.modelID m)
   else if startsWith (ModelRef.modelID m) "virtual/" then Some (ModelRef.modelID m)
   else None) = Some virtualModelID.
Proof.
  unfold addresses. destruct (String.eqb (ModelRef.providerID m) "virtual") eqn:Hp.
  - apply String.eqb_eq in Hp. split.
    + intros [[_ ->]|[Hne _]]; [reflexivity|contradiction].
    + intros [= <-]. left. auto.
  - apply String.eqb_neq in Hp.
    destruct (startsWith (ModelRef.modelID m) "virtual/") eqn:Hs; split.
    + intros [[He _]|(_ & _ & ->)]; [contradiction|reflexivity].
    + intros [= <-]. right. auto.
    + intros [[He _]|(_ & Hs' & _)]; [contradiction|discriminate].
    + discriminate.
Qed.

End DispatchFacts.

(** Extra X13.  The chat.message hook leaves a message alone, and changes
    nothing in the plugin, when the model that the message asks for
    addresses no loaded virtual model: no model at all, a model of
    another provider whose id does not begin with "virtual/", or an id
    that is not in the loaded configuration. *)
Theorem chat_message_ignores_other_models :
  forall (now : Q) (sessionID : string) (incoming output : option ModelRef.t)
         (p : Plugin.Closure),
    (forall m virtualModelID,
       requested_model incoming output = Some m -> addresses m virtualModelID ->
       Plugin.virtualModels (Plugin.loadedConfig p) !! virtualModelID = None) ->
    Plugin.chat_message now sessionID incoming output p = (output, p).
Proof.
  intros now sessionID incoming output p Hnone.
  rewrite chat_message_unfold. cbv zeta.
  destruct (requested_model incoming output) as [m|]; [|reflexivity].
  match goal with |- match ?v with _ => _ end = _ => destruct v as [vid|] eqn:Hv end;
    [|reflexivity].
  apply addresses_computed in Hv. now rewrite (Hnone m vid eq_refl Hv).
Qed.

(** A message for a model of another provider, in a plugin that has
    loaded "virtual/w". *)
Lemma chat_message_ignores_other_models_witness :
  (forall m virtualModelID,
     requested_model (Some claude) None = Some m -> addresses m virtualModelID ->
     Plugin.virtualModels (Plugin.loadedConfig fresh_plugin) !! virtualModelID = None) /\
  Plugin.chat_message 1000 "s1" (Some claude) None fresh_plugin = (None, fresh_plugin).
Proof.
  assert (H : forall m virtualModelID,
     requested_model (Some claude) None = Some m -> addresses m virtualModelID ->
     Plugin.virtualModels (Plugin.loadedConfig fresh_plugin) !! virtualModelID = None).
  { intros m vid [= <-] [[Hp _]|(_ & Hs & _)]; discriminate. }
  split; [exact H|].
  exact (chat_message_ignores_other_models 1000 "s1" (Some claude) None fresh_plugin H).
Defined.

(** Extra X14.  The chat.message hook for a message that addresses a
    loaded virtual model: the session is bound to that model; with c the
    cursor of the session (0 when it has none) and ts the list that the
    strategy gives, the message is sent to the first target from
    position c on that is not cooled down, and the cursor is set to its
    position, so that the cursor never moves back; when no target from c
    on is viable the message keeps its model and the cursors are as they
    were.  The configuration, the metrics and the cursors of other
    sessions are unchanged. *)
Theorem chat_message_binds_first_viable :
  forall (now : Q) (sessionID : string) (incoming output : option ModelRef.t)
         (p : Plugin.Closure) (m : ModelRef.t) (virtualModelID : string)
         (config : VirtualModelConfig.t) (ts0 : list TargetModel.t),
    requested_model incoming output = Some m ->
    addresses m virtualModelID ->
    Plugin.virtualModels (Plugin.loadedConfig p) !! virtualModelID = Some config ->
    Runtime.arrays (Plugin.runtime p) !! VirtualModelConfig.targets config = Some ts0 ->
    let c := default 0 (Plugin.sessionFallbackCursor p !! sessionID) in
    let '(targets, _, rt1) :=
      Strategies.selectTargets virtualModelID config (Plugin.state p) (Plugin.runtime p) in
    let ts := Runtime.read targets rt1 in
    let '(result, p') := Plugin.chat_message now sessionID incoming output p in
    ts ≡ₚ ts0 /\
    Plugin.sessionVirtualModel p'
    = <[sessionID := virtualModelID]> (Plugin.sessionVirtualModel p) /\
    Plugin.loadedConfig p' = Plugin.loadedConfig p /\
    State.metrics (Plugin.state p') = State.metrics (Plugin.state p) /\
    (forall other, other <> sessionID ->
       Plugin.sessionFallbackCursor p' !! other = Plugin.sessionFallbackCursor p !! other) /\
    ((exists i t, first_viable now (Plugin.state p) ts c i t /\
                  result = Some (model_ref t) /\
                  Plugin.sessionFallbackCursor p' !! sessionID = Some i) \/
     (none_viable now (Plugin.state p) ts c /\ result = output /\
      Plugin.sessionFallbackCursor p' = Plugin.sessionFallbackCursor p)).
Proof.
  intros now sessionID incoming output p m virtualModelID config ts0 Hreq Haddr Hconf Harr c.
  pose proof (selectTargets_fresh_permutation virtualModelID config (Plugin.state p)
                (Plugin.runtime p) ts0 Harr) as Hsel.
  rewrite chat_message_unfold. cbv zeta. rewrite Hreq.
  apply addresses_computed in Haddr. rewrite Haddr, Hconf.
  cbn [Plugin.state Plugin.runtime Plugin.set_sessionVirtualModel
       Plugin.sessionFallbackCursor].
  change (nullish (Plugin.sessionFallbackCursor p !! sessionID) 0) with c.
  destruct (Strategies.selectTargets virtualModelID config (Plugin.state p) (Plugin.runtime p))
    as [[targets state1] rt1].
  destruct Hsel as ((_ & _ & Hperm & _) & Hcd & Hmet & _).
  set (ts := Runtime.read targets rt1) in *.
  pose proof (scan_spec now (drop c ts) c state1) as Hscan.
  pose proof (scan_frame now (drop c ts) c state1) as [_ Hm].
  destruct (Plugin.scan now c (drop c ts) state1) as [found state2]. cbn [snd] in Hm.
  destruct Hscan as [Hv Hfound].
  assert (Hvs : forall k, verdict now state1 k = verdict now (Plugin.state p) k).
  { intros k. now apply verdict_same_cooldowns. }
  destruct found as [[i r]|]; cbn.
  - split; [exact Hperm|]. split; [reflexivity|]. split; [reflexivity|].
    split; [now rewrite Hm|].
    split; [intros other Ho; now rewrite lookup_insert_ne|].
    left. destruct Hfound as (t & Hle & Hl & -> & Hnot & Hbefore).
    rewrite lookup_drop in Hl. replace (c + (i - c)) with i in Hl by lia.
    exists i, t. split; [|split; [reflexivity|apply lookup_insert_eq]].
    unfold first_viable, cooled. split; [exact Hle|]. split; [exact Hl|].
    fold (verdict now (Plugin.state p) (modelKey t)). split.
    + rewrite <- Hvs, Hnot. discriminate.
    + intros j t' Hj Hl'. fold (verdict now (Plugin.state p) (modelKey t')).
      rewrite <- Hvs. apply (Hbefore (j - c)); [lia|].
      rewrite lookup_drop. replace (c + (j - c)) with j by lia. exact Hl'.
  - split; [exact Hperm|]. split; [reflexivity|]. split; [reflexivity|].
    split; [now rewrite Hm|]. split; [reflexivity|].
    right. split; [|split; reflexivity].
    intros j t' Hj Hl'. unfold cooled. fold (verdict now (Plugin.state p) (modelKey t')).
    rewrite <- Hvs. apply (Hfound (j - c)).
    rewrite lookup_drop. replace (c + (j - c)) with j by lia. exact Hl'.
Qed.

(** The first dispatch of session "s1" for the alias "w" of the provider
    "virtual": nothing is cooled down, so the first target is bound. *)
Lemma chat_message_binds_first_viable_witness :
  requested_model (Some alias_w) None = Some alias_w /\
  addresses alias_w "virtual/w" /\
  Plugin.virtualModels (Plugin.loadedConfig fresh_plugin) !! "virtual/w"
  = Some (two_targets None) /\
  let '(result, p') := Plugin.chat_message 1000 "s1" (Some alias_w) None fresh_plugin in
  result = Some (model_ref target_a) /\
  Plugin.sessionVirtualModel p' = {[ "s1" := "virtual/w" ]} /\
  Plugin.loadedConfig p' = Plugin.loadedConfig fresh_plugin.
Proof.
  assert (Haddr : addresses alias_w "virtual/w") by (left; split; reflexivity).
  assert (Hconf : Plugin.virtualModels (Plugin.loadedConfig fresh_plugin) !! "virtual/w"
                  = Some (two_targets None)) by (vm_compute; reflexivity).
  split; [reflexivity|]. split; [exact Haddr|]. split; [exact Hconf|].
  pose proof (chat_message_binds_first_viable 1000 "s1" (Some alias_w) None fresh_plugin
                alias_w "virtual/w" (two_targets None) [target_a; target_b]
                eq_refl Haddr Hconf eq_refl) as H.
  assert (Hrun : fst (Plugin.chat_message 1000 "s1" (Some alias_w) None fresh_plugin)
                 = Some (model_ref target_a)) by (vm_compute; reflexivity).
  cbv zeta in H.
  destruct (Strategies.selectTargets "virtual/w" (two_targets None)
              (Plugin.state fresh_plugin) (Plugin.runtime fresh_plugin))
    as [[targets state1] rt1].
  destruct (Plugin.chat_message 1000 "s1" (Some alias_w) None fresh_plugin) as [result p'].
  destruct H as (_ & Hvm & Hcfg & _).
  split; [exact Hrun|]. split; [exact Hvm|exact Hcfg].
Defined.

Section ReportFacts.
Import State Plugin.

(** The event hook on a failure report that it acts on, in two halves. *)
Lemma event_on_report now sessionID_ error_ p virtualModelID config :
  sessionID_ <> "" -> virtualModelID <> "" ->
  sessionVirtualModel p !! sessionID_ = Some virtualModelID ->
  virtualModels (loadedConfig p) !! virtualModelID = Some config ->
  shouldFallbackForError error_ config (strategyProfiles (loadedConfig p)) = true ->
  event now (failure_report sessionID_ error_) p =
    let currentCursor := default 0 (sessionFallbackCursor p !! sessionID_) in
    let '(targets, state1, rt1) :=
      Strategies.selectTargets virtualModelID config (state p) (runtime p) in
    let ts := Runtime.read targets rt1 in
    match mark_failed now (cooldown_of config (strategyProfiles (loadedConfig p)))
                      (ts !! currentCursor) state1 with
    | (Some e, state2) => (Throw e, set_state state2 rt1 p)
    | (None, state3) => advance now sessionID_ currentCursor ts (set_state state3 rt1 p)
    end.
Proof.
  intros Hsid Hvid Hsess Hconf Hshould.
  unfold event, failure_report. cbn [type sessionID error].
  change (String.eqb "session.error" "session.error") with true. cbn [negb].
  rewrite (eqb_false_of_ne _ _ Hsid), Hsess, (eqb_false_of_ne _ _ Hvid), Hconf, Hshould.
  cbn [negb]. cbv zeta.
  destruct (Strategies.selectTargets virtualModelID config (state p) (runtime p))
    as [[targets state1] rt1].
  unfold mark_failed, cooldown_of.
  change (nullish (sessionFallbackCursor p !! sessionID_) 0)
    with (default 0 (sessionFallbackCursor p !! sessionID_)).
  destruct (Runtime.read targets rt1 !! default 0 (sessionFallbackCursor p !! sessionID_))
    as [t|]; [|reflexivity].
  fold (modelKey t).
  destruct (setCooldown now (modelKey t) _ _); reflexivity.
Qed.

Lemma advance_frame now sessionID_ c ts p1 :
  let '(result, p') := advance now sessionID_ c ts p1 in
  metrics (state p') = metrics (state p1) /\
  (forall k, verdict now (state p') k = verdict now (state p1) k) /\
  loadedConfig p' = loadedConfig p1 /\
  sessionVirtualModel p' = sessionVirtualModel p1 /\
  result <> Ok Ignored /\ (forall e, result <> Throw e).
Proof.
  unfold advance. cbv zeta. destruct (length ts <=? c + 1)%nat.
  - cbn. repeat split; try discriminate.
  - cbn [state set_cursor set_state runtime].
    pose proof (scan_spec now (drop (c + 1) ts) (c + 1) (state p1)) as Hscan.
    pose proof (scan_frame now (drop (c + 1) ts) (c + 1) (state p1)) as [_ Hm].
    destruct (scan now (c + 1) (drop (c + 1) ts) (state p1)) as [found state4].
    destruct Hscan as [Hv _]. cbn [snd] in Hm.
    destruct found as [[i r]|]; cbn; repeat split; auto; discriminate.
Qed.

Lemma mark_failed_metrics now cooldown current state1 key :
  metrics_of key (snd (mark_failed now cooldown current state1)) =
    match current with
    | Some t =>
        if decide (modelKey t = key) then
          let m := metrics_of key state1 in
          {| requests := S (requests m); successes := successes m;
             failures := S (failures m); fallbacks := S (fallbacks m);
             totalLatencyMs := totalLatencyMs m |}
        else metrics_of key state1
    | None => metrics_of key state1
    end.
Proof.
  unfold mark_failed. destruct current as [t|]; [|reflexivity].
  assert (Hrec : metrics_of key (recordFallback (modelKey t) (recordFailure (modelKey t) state1))
                 = if decide (modelKey t = key) then
                     let m := metrics_of key state1 in
                     {| requests := S (requests m); successes := successes m;
                        failures := S (failures m); fallbacks := S (fallbacks m);
                        totalLatencyMs := totalLatencyMs m |}
                   else metrics_of key state1).
  { rewrite metrics_of_recordFallback, metrics_of_recordFailure.
    case_decide; reflexivity. }
  unfold setCooldown. destruct cooldown as [d|]; [|exact Hrec].
  destruct (String.eqb d ""); [exact Hrec|].
  destruct (Duration.parseDuration d); exact Hrec.
Qed.

Lemma record_keeps_cooldowns key state1 :
  cooldowns (recordFallback key (recordFailure key state1)) = cooldowns state1.
Proof.
  unfold recordFallback, recordFailure, getOrCreateMetrics.
  destruct (metrics state1 !! key); cbn; rewrite ?lookup_insert_eq; reflexivity.
Qed.

Lemma selectTargets_frame virtualModelId config state1 rt :
  cooldowns (snd (fst (Strategies.selectTargets virtualModelId config state1 rt)))
  = cooldowns state1 /\
  metrics (snd (fst (Strategies.selectTargets virtualModelId config state1 rt)))
  = metrics state1.
Proof.
  unfold Strategies.selectTargets.
  destruct (VirtualModelConfig.strategy config).
  - destruct (Strategies.copy _ rt). auto.
  - destruct (Runtime.alloc _ rt). auto.
  - destruct (Strategies.copy _ rt) as [c rt1].
    destruct (Runtime.sort_in_place _ c rt1). auto.
  - destruct (Strategies.copy _ rt) as [c rt1].
    destruct (Strategies.weightedSort c rt1). auto.
  - destruct (Strategies.copy _ rt). auto.
  - destruct (Strategies.copy _ rt). auto.
Qed.

End ReportFacts.

(** Extra X15.  The event hook acts on an event only when it is a
    session.error that names a session and an error, the session is bound
    to a loaded virtual model, and the error warrants a fallback for that
    model.  On every other event it returns at once and nothing in the
    plugin changes; on such an event it never returns that way. *)
Theorem event_acts_only_on_failure_reports :
  forall (now : Q) (ev : Plugin.HostEvent) (p : Plugin.Closure),
    (not_acted_on ev p -> Plugin.event now ev p = (Ok Plugin.Ignored, p)) /\
    (fst (Plugin.event now ev p) = Ok Plugin.Ignored -> not_acted_on ev p).
Proof.
  intros now ev p. split.
  - unfold Plugin.event.
    intros [Ht|[Hs|[Hs|[He|(sid & err & Hs & He & Hrest)]]]].
    + apply String.eqb_neq in Ht. now rewrite Ht.
    + rewrite Hs. now destruct (negb _).
    + rewrite Hs. destruct (negb _); [reflexivity|]. now destruct (Plugin.error ev).
    + rewrite He. destruct (negb _); [reflexivity|]. now destruct (Plugin.sessionID ev).
    + rewrite Hs, He. destruct (negb _); [reflexivity|].
      destruct (String.eqb sid ""); [reflexivity|].
      destruct Hrest as [Hn|[Hn|(vid & Hv & Hrest)]]; rewrite ?Hn; try reflexivity.
      rewrite Hv. destruct (String.eqb vid ""); [reflexivity|].
      destruct Hrest as [Hn|(config & Hc & Hshould)].
      * now rewrite Hn.
      * now rewrite Hc, Hshould.
  - destruct ev as [ty sid err]. unfold not_acted_on. cbn [Plugin.type Plugin.sessionID Plugin.error].
    destruct (String.eqb ty "session.error") eqn:Hty;
      [apply String.eqb_eq in Hty; subst ty|apply String.eqb_neq in Hty; auto].
    destruct sid as [sid|]; [|auto]. destruct err as [err|]; [|auto].
    destruct (String.eqb sid "") eqn:Hsid;
      [apply String.eqb_eq in Hsid; subst sid; auto|apply String.eqb_neq in Hsid].
    intros Hres. right. right. right. right. exists sid, err.
    split; [reflexivity|]. split; [reflexivity|].
    destruct (Plugin.sessionVirtualModel p !! sid) as [vid|] eqn:Hvm; [|auto].
    destruct (String.eqb vid "") eqn:Hvid;
      [apply String.eqb_eq in Hvid; subst vid; auto|apply String.eqb_neq in Hvid].
    right. right. exists vid. split; [reflexivity|].
    destruct (Plugin.virtualModels (Plugin.loadedConfig p) !! vid) as [config|] eqn:Hconf;
      [|auto].
    right. exists config. split; [reflexivity|].
    destruct (Plugin.shouldFallbackForError err config
                (Plugin.strategyProfiles (Plugin.loadedConfig p))) eqn:Hshould; [|reflexivity].
    exfalso. revert Hres.
    change {| Plugin.type := "session.error"; Plugin.sessionID := Some sid;
              Plugin.error := Some err |} with (failure_report sid err).
    rewrite (event_on_report now sid err p vid config Hsid Hvid Hvm Hconf Hshould).
    cbv zeta.
    destruct (Strategies.selectTargets vid config (Plugin.state p) (Plugin.runtime p))
      as [[targets state1] rt1].
    destruct (mark_failed now _ _ state1) as [[e|] state2]; [discriminate|].
    pose proof (advance_frame now sid (default 0 (Plugin.sessionFallbackCursor p !! sid))
                  (Runtime.read targets rt1) (Plugin.set_state state2 rt1 p)) as H.
    destruct (advance now sid _ _ _) as [result p'].
    destruct H as (_ & _ & _ & _ & Hne & _). exact Hne.
Qed.

(** Extra X16.  What a failure report records.  When the event hook acts
    on a report and the list of the model has a target at the cursor of
    the session, that target gets one more request, one more failure and
    one more fallback, and no other key's metrics change; this holds also
    when the hook then throws.  If the merged policy has a cooldown of
    more than zero milliseconds, that target is cooled down from then on.
    When the cursor is beyond the list, no metrics change. *)
Theorem failure_report_records_the_failure :
  forall (now : Q) (sessionID : string) (error : Plugin.SessionError) (p : Plugin.Closure)
         (virtualModelID : string) (config : VirtualModelConfig.t),
    sessionID <> "" -> virtualModelID <> "" ->
    Plugin.sessionVirtualModel p !! sessionID = Some virtualModelID ->
    Plugin.virtualModels (Plugin.loadedConfig p) !! virtualModelID = Some config ->
    Plugin.shouldFallbackForError error config (Plugin.strategyProfiles (Plugin.loadedConfig p))
    = true ->
    let c := default 0 (Plugin.sessionFallbackCursor p !! sessionID) in
    let '(targets, _, rt1) :=
      Strategies.selectTargets virtualModelID config (Plugin.state p) (Plugin.runtime p) in
    let ts := Runtime.read targets rt1 in
    let '(result, p') := Plugin.event now (failure_report sessionID error) p in
    (forall t, ts !! c = Some t ->
       let before := metrics_of (modelKey t) (Plugin.state p) in
       let after := metrics_of (modelKey t) (Plugin.state p') in
       State.requests after = S (State.requests before) /\
       State.failures after = S (State.failures before) /\
       State.fallbacks after = S (State.fallbacks before) /\
       State.successes after = State.successes before /\
       State.totalLatencyMs after = State.totalLatencyMs before /\
       (forall k, k <> modelKey t ->
          metrics_of k (Plugin.state p') = metrics_of k (Plugin.state p)) /\
       (forall d ms,
          cooldown_of config (Plugin.strategyProfiles (Plugin.loadedConfig p)) = Some d ->
          Duration.parseDuration d = Ok ms -> (0 < ms)%Q -> (0 < now)%Q ->
          cooled now (Plugin.state p') t)) /\
    (ts !! c = None ->
       forall k, metrics_of k (Plugin.state p') = metrics_of k (Plugin.state p)).
Proof.
  intros now sessionID error p virtualModelID config Hsid Hvid Hsess Hconf Hshould c.
  rewrite (event_on_report now sessionID error p virtualModelID config
             Hsid Hvid Hsess Hconf Hshould).
  cbv zeta. fold c.
  pose proof (selectTargets_frame virtualModelID config (Plugin.state p) (Plugin.runtime p))
    as [_ Hsame].
  destruct (Strategies.selectTargets virtualModelID config (Plugin.state p) (Plugin.runtime p))
    as [[targets state1] rt1].
  cbn [fst snd] in Hsame.
  assert (Hsame' : forall k, metrics_of k state1 = metrics_of k (Plugin.state p)).
  { intros k. unfold metrics_of. now rewrite Hsame. }
  set (ts := Runtime.read targets rt1).
  set (cd := cooldown_of config (Plugin.strategyProfiles (Plugin.loadedConfig p))).
  assert (Hmet : forall key,
    metrics_of key (snd (mark_failed now cd (ts !! c) state1)) =
    match ts !! c with
    | Some t =>
        if decide (modelKey t = key) then
          let m := metrics_of key (Plugin.state p) in
          {| State.requests := S (State.requests m); State.successes := State.successes m;
             State.failures := S (State.failures m); State.fallbacks := S (State.fallbacks m);
             State.totalLatencyMs := State.totalLatencyMs m |}
        else metrics_of key (Plugin.state p)
    | None => metrics_of key (Plugin.state p)
    end).
  { intros key. rewrite mark_failed_metrics, !Hsame'. reflexivity. }
  assert (Hcool : forall t d ms,
            ts !! c = Some t -> cd = Some d -> Duration.parseDuration d = Ok ms ->
            (0 < ms)%Q -> (0 < now)%Q ->
            mark_failed now cd (ts !! c) state1
            = (None, State.set_cooldowns
                       (<[modelKey t := (now + ms)%Q]>
                          (State.cooldowns
                             (State.recordFallback (modelKey t)
                                (State.recordFailure (modelKey t) state1))))
                       (State.recordFallback (modelKey t)
                          (State.recordFailure (modelKey t) state1))) /\
            forall st, State.cooldowns st !! modelKey t = Some (now + ms)%Q ->
                       verdict now st (modelKey t) = true).
  { intros t d ms Ht Hd Hp Hms Hnow. split.
    - unfold mark_failed. rewrite Ht, Hd, (setCooldown_parsed _ _ _ _ _ Hp). reflexivity.
    - intros st Hst. rewrite verdict_lookup, Hst.
      assert (E0 : Qeq_bool (now + ms) 0 = false) by (apply Qeq_bool_false; lra).
      assert (E1 : Qle_bool (now + ms) now = false) by (apply Qle_bool_false; lra).
      now rewrite E0, E1. }
  destruct (mark_failed now cd (ts !! c) state1) as [[e|] state2] eqn:Hmark.
  - (* the hook throws: the failure is recorded all the same *)
    cbn [Plugin.state Plugin.set_state]. cbn [snd] in Hmet. split.
    + intros t Ht. rewrite Ht in Hmet. cbv zeta.
      pose proof (Hmet (modelKey t)) as Hk. rewrite decide_True in Hk by reflexivity.
      rewrite Hk. cbn. repeat split.
      * intros k Hne. rewrite Hmet. now rewrite decide_False by congruence.
      * intros d ms Hd Hp Hms Hnow.
        destruct (Hcool t d ms Ht Hd Hp Hms Hnow) as [Heq _]. discriminate.
    + intros Hnone k. rewrite Hmet, Hnone. reflexivity.
  - pose proof (advance_frame now sessionID c ts (Plugin.set_state state2 rt1 p)) as Hadv.
    destruct (advance now sessionID c ts (Plugin.set_state state2 rt1 p)) as [result p'].
    destruct Hadv as (Hm & Hv & _). cbn [Plugin.state Plugin.set_state] in Hm, Hv.
    cbn [snd] in Hmet.
    assert (Hmo : forall k, metrics_of k (Plugin.state p') = metrics_of k state2).
    { intros k. unfold metrics_of. now rewrite Hm. }
    split.
    + intros t Ht. rewrite Ht in Hmet. cbv zeta. rewrite Hmo.
      pose proof (Hmet (modelKey t)) as Hk. rewrite decide_True in Hk by reflexivity.
      rewrite Hk. cbn. repeat split.
      * intros k Hne. rewrite Hmo, Hmet. now rewrite decide_False by congruence.
      * intros d ms Hd Hp Hms Hnow.
        destruct (Hcool t d ms Ht Hd Hp Hms Hnow) as [Heq Hver].
        injection Heq as Hst. unfold cooled. fold (verdict now (Plugin.state p') (modelKey t)).
        rewrite Hv. apply Hver. rewrite Hst. cbn. apply lookup_insert_eq.
    + intros Hnone k. rewrite Hmo, Hmet, Hnone. reflexivity.
Qed.

(** The report of a 503 after the first dispatch of "s1": the failure
    of the first target is counted once. *)
Lemma failure_report_records_the_failure_witness :
  Plugin.sessionVirtualModel after_dispatch !! "s1" = Some "virtual/w" /\
  Plugin.virtualModels (Plugin.loadedConfig after_dispatch) !! "virtual/w"
  = Some (two_targets None) /\
  let '(result, p') := Plugin.event 1000 (failure_report "s1" status_503) after_dispatch in
  State.failures (metrics_of (modelKey target_a) (Plugin.state p')) = 1 /\
  State.fallbacks (metrics_of (modelKey target_a) (Plugin.state p')) = 1.
Proof.
  assert (Hs : Plugin.sessionVirtualModel after_dispatch !! "s1" = Some "virtual/w")
    by (vm_compute; reflexivity).
  assert (Hconf : Plugin.virtualModels (Plugin.loadedConfig after_dispatch) !! "virtual/w"
                  = Some (two_targets None)) by (vm_compute; reflexivity).
  assert (Hshould : Plugin.shouldFallbackForError status_503 (two_targets None)
                      (Plugin.strategyProfiles (Plugin.loadedConfig after_dispatch)) = true)
    by (vm_compute; reflexivity).
  split; [exact Hs|]. split; [exact Hconf|].
  pose proof (failure_report_records_the_failure 1000 "s1" status_503 after_dispatch
                "virtual/w" (two_targets None)
                ltac:(discriminate) ltac:(discriminate) Hs Hconf Hshould) as H.
  cbv zeta in H.
  assert (Hcur :
    Runtime.read
      (fst (fst (Strategies.selectTargets "virtual/w" (two_targets None)
                   (Plugin.state after_dispatch) (Plugin.runtime after_dispatch))))
      (snd (Strategies.selectTargets "virtual/w" (two_targets None)
              (Plugin.state after_dispatch) (Plugin.runtime after_dispatch)))
      !! default 0 (Plugin.sessionFallbackCursor after_dispatch !! "s1") = Some target_a)
    by (vm_compute; reflexivity).
  assert (Hbefore : metrics_of (modelKey target_a) (Plugin.state after_dispatch)
                    = State.new_metrics) by (vm_compute; reflexivity).
  destruct (Strategies.selectTargets "virtual/w" (two_targets None)
              (Plugin.state after_dispatch) (Plugin.runtime after_dispatch))
    as [[targets state1] rt1].
  destruct (Plugin.event 1000 (failure_report "s1" status_503) after_dispatch) as [result p'].
  cbn [fst snd] in Hcur. destruct H as [H _].
  destruct (H target_a Hcur) as (_ & Hf & Hb & _).
  rewrite Hbefore in Hf, Hb. split; [exact Hf|exact Hb].
Defined.

(** Extra X17.  A cooldown that is not a duration stops the fallback.
    When the merged policy of the model has a cooldown text that is not
    empty and not a duration, a failure report for a session whose cursor
    is on a target of the list makes the event hook throw the parse error
    of that text: the cursors and the bindings of the sessions stay as
    they were, so the session is not moved to the next target. *)
Theorem malformed_cooldown_stops_the_fallback :
  forall (now : Q) (sessionID : string) (error : Plugin.SessionError) (p : Plugin.Closure)
         (virtualModelID : string) (config : VirtualModelConfig.t) (d : string),
    sessionID <> "" -> virtualModelID <> "" ->
    Plugin.sessionVirtualModel p !! sessionID = Some virtualModelID ->
    Plugin.virtualModels (Plugin.loadedConfig p) !! virtualModelID = Some config ->
    Plugin.shouldFallbackForError error config (Plugin.strategyProfiles (Plugin.loadedConfig p))
    = true ->
    cooldown_of config (Plugin.strategyProfiles (Plugin.loadedConfig p)) = Some d ->
    d <> "" -> (forall mag u, ~ duration_form d mag u) ->
    let c := default 0 (Plugin.sessionFallbackCursor p !! sessionID) in
    let '(targets, _, rt1) :=
      Strategies.selectTargets virtualModelID config (Plugin.state p) (Plugin.runtime p) in
    let '(result, p') := Plugin.event now (failure_report sessionID error) p in
    c < length (Runtime.read targets rt1) ->
    result = Throw (InvalidDuration d) /\
    Plugin.sessionFallbackCursor p' = Plugin.sessionFallbackCursor p /\
    Plugin.sessionVirtualModel p' = Plugin.sessionVirtualModel p /\
    Plugin.loadedConfig p' = Plugin.loadedConfig p.
Proof.
  intros now sessionID error p virtualModelID config d Hsid Hvid Hsess Hconf Hshould
         Hcd Hd Hform c.
  rewrite (event_on_report now sessionID error p virtualModelID config
             Hsid Hvid Hsess Hconf Hshould).
  cbv zeta. fold c. rewrite Hcd.
  destruct (Strategies.selectTargets virtualModelID config (Plugin.state p) (Plugin.runtime p))
    as [[targets state1] rt1].
  assert (Hmark : forall t, Runtime.read targets rt1 !! c = Some t ->
            mark_failed now (Some d) (Some t) state1
            = (Some (InvalidDuration d),
               State.recordFallback (modelKey t) (State.recordFailure (modelKey t) state1))).
  { intros t _. unfold mark_failed, State.setCooldown.
    rewrite (eqb_false_of_ne _ _ Hd).
    now rewrite (proj2 (parseDuration_Throw d (InvalidDuration d)) (conj eq_refl Hform)). }
  destruct (Runtime.read targets rt1 !! c) as [t|] eqn:Ht.
  - rewrite (Hmark t eq_refl). intros _. cbn. auto.
  - apply lookup_ge_None in Ht.
    cbn [mark_failed].
    destruct (advance now sessionID c (Runtime.read targets rt1) _) as [result p'].
    intros Hlt. lia.
Qed.

(** A report of a 503 for session "s1", bound to a model whose cooldown
    is the text "5 minutes": the hook throws and the cursor stays at 0. *)
Lemma malformed_cooldown_stops_the_fallback_witness :
  cooldown_of (two_targets (Some "5 minutes"))
              (Plugin.strategyProfiles (Plugin.loadedConfig malformed_cooldown))
  = Some "5 minutes" /\
  (forall mag u, ~ duration_form "5 minutes" mag u) /\
  let '(result, p') := Plugin.event 1000 (failure_report "s1" status_503) malformed_cooldown in
  result = Throw (InvalidDuration "5 minutes") /\
  Plugin.sessionFallbackCursor p' !! "s1" = Some 0.
Proof.
  assert (Hform : forall mag u, ~ duration_form "5 minutes" mag u).
  { apply (parseDuration_Throw "5 minutes" (InvalidDuration "5 minutes")).
    vm_compute. reflexivity. }
  split; [reflexivity|]. split; [exact Hform|].
  pose proof (malformed_cooldown_stops_the_fallback 1000 "s1" status_503 malformed_cooldown
                "virtual/w" (two_targets (Some "5 minutes")) "5 minutes"
                ltac:(discriminate) ltac:(discriminate) eq_refl eq_refl eq_refl eq_refl
                ltac:(discriminate) Hform) as H.
  cbv zeta in H.
  assert (Hlen : default 0 (Plugin.sessionFallbackCursor malformed_cooldown !! "s1")
                 < length (Runtime.read
                     (fst (fst (Strategies.selectTargets "virtual/w"
                                  (two_targets (Some "5 minutes"))
                                  (Plugin.state malformed_cooldown)
                                  (Plugin.runtime malformed_cooldown))))
                     (snd (Strategies.selectTargets "virtual/w"
                             (two_targets (Some "5 minutes"))
                             (Plugin.state malformed_cooldown)
                             (Plugin.runtime malformed_cooldown)))))
    by (vm_compute; lia).
  destruct (Strategies.selectTargets "virtual/w" (two_targets (Some "5 minutes"))
              (Plugin.state malformed_cooldown) (Plugin.runtime malformed_cooldown))
    as [[targets state1] rt1].
  destruct (Plugin.event 1000 (failure_report "s1" status_503) malformed_cooldown)
    as [result p'].
  cbn [fst snd] in Hlen. destruct (H Hlen) as (Hr & Hc & _).
  split; [exact Hr|]. rewrite Hc. reflexivity.
Defined.

Section MoreLoaderFacts.
Import Loader.

Lemma map_set_Forall {V} (P : string * V -> Prop) k v (m : Map V) :
  Forall P m -> P (k, v) -> Forall P (map_set k v m).
Proof.
  intros Hm Hkv. induction m as [|[k' v'] m IH]; cbn.
  - constructor; [exact Hkv|constructor].
  - inversion Hm; subst. destruct (String.eqb k' k).
    + constructor; assumption.
    + constructor; [assumption|now apply IH].
Qed.

Lemma map_set_keys {V} k (v : V) (m : Map V) :
  map fst (map_set k v m) = map fst m \/
  ((k ∉ map fst m) /\ map fst (map_set k v m) = map fst m ++ [k]).
Proof.
  induction m as [|[k' v'] m IH]; cbn.
  - right. split; [apply not_elem_of_nil|reflexivity].
  - destruct (String.eqb k' k) eqn:He.
    + apply String.eqb_eq in He. subst. now left.
    + apply String.eqb_neq in He. cbn. destruct IH as [IH|[Hn IH]].
      * left. now rewrite IH.
      * right. split; [|now rewrite IH].
        intros Hin. apply elem_of_cons in Hin as [Hin|Hin]; [congruence|contradiction].
Qed.

Lemma map_set_NoDup {V} k (v : V) (m : Map V) :
  NoDup (map fst m) -> NoDup (map fst (map_set k v m)).
Proof.
  intros Hnd. destruct (map_set_keys k v m) as [->|[Hn ->]]; [exact Hnd|].
  apply NoDup_app. split; [exact Hnd|]. split.
  - intros x Hx Hx'. apply list_elem_of_singleton in Hx'. now subst.
  - apply NoDup_singleton.
Qed.

Lemma map_get_of_elem {V} k (v : V) (m : Map V) :
  NoDup (map fst m) -> (k, v) ∈ m -> map_get k m = Some v.
Proof.
  induction m as [|[k' v'] m IH]; intros Hnd Hin; [inversion Hin|].
  cbn in Hnd. apply NoDup_cons in Hnd as [Hk' Hnd].
  apply elem_of_cons in Hin as [[= -> ->]|Hin]; cbn.
  - now rewrite String.eqb_refl.
  - destruct (String.eqb k' k) eqn:He; [|now apply IH].
    apply String.eqb_eq in He. subst. exfalso. apply Hk'.
    apply list_elem_of_fmap. exists (k, v). auto.
Qed.

Lemma falsy_false s : falsy s = false <-> present s.
Proof.
  unfold falsy, present. destruct s as [x|].
  - rewrite String.eqb_neq. split; [eauto|]. now intros (y & [= <-] & Hy).
  - split; [discriminate|]. now intros (y & Hy & _).
Qed.

Lemma flat_map_nil {A B} (f : A -> list B) l :
  flat_map f l = [] <-> forall x, x ∈ l -> f x = [].
Proof.
  induction l as [|a l IH]; cbn.
  - split; [intros _ x Hx; inversion Hx|reflexivity].
  - split.
    + intros H. apply app_eq_nil in H as [Ha Hl]. intros x Hx.
      apply elem_of_cons in Hx as [->|Hx]; [exact Ha|now apply IH].
    + intros H. rewrite (H a) by (apply elem_of_cons; now left). cbn.
      apply IH. intros x Hx. apply H. apply elem_of_cons. now right.
Qed.

Lemma load_model_loaded_from raw sp acc entry :
  entry ∈ nullish (models raw) [] ->
  Forall (loaded_from raw) (fst acc) -> NoDup (map fst (fst acc)) ->
  Forall (loaded_from raw) (fst (load_model sp acc entry)) /\
  NoDup (map fst (fst (load_model sp acc entry))).
Proof.
  destruct acc as [vm warned], entry as [name m]. cbn [fst]. intros Hin Hall Hnd.
  unfold load_model.
  destruct (targets m) as [[|t ts]|] eqn:Ht; cbn [fst]; try (split; assumption).
  split; [|now apply map_set_NoDup].
  apply map_set_Forall; [exact Hall|].
  exists name, m. split; [exact Hin|]. split; [reflexivity|].
  unfold with_default_strategy. cbn [snd].
  destruct (no_strategy (strategy m)) eqn:Hs.
  - split; [now rewrite Ht|]. cbn. split; [eauto|reflexivity].
  - split; [reflexivity|]. split; [eauto|exact Hs].
Qed.

Lemma load_models_loaded_from raw sp entries :
  forall acc,
    (forall e, e ∈ entries -> e ∈ nullish (models raw) []) ->
    Forall (loaded_from raw) (fst acc) -> NoDup (map fst (fst acc)) ->
    Forall (loaded_from raw) (fst (fold_left (load_model sp) entries acc)) /\
    NoDup (map fst (fst (fold_left (load_model sp) entries acc))).
Proof.
  induction entries as [|e entries IH]; intros acc Hsub Hall Hnd; cbn [fold_left].
  - auto.
  - destruct (load_model_loaded_from raw sp acc e) as [Hall' Hnd']; auto.
    + apply Hsub. apply elem_of_cons. now left.
    + apply IH; auto. intros e' He'. apply Hsub. apply elem_of_cons. now right.
Qed.

Lemma load_profiles_get entries :
  forall acc : Map StrategyProfile.t,
    NoDup (map fst entries) ->
    (forall k, k ∈ map fst entries -> map_get k acc = None) ->
    forall name profile,
      map_get name (fold_left (fun acc e => map_set (fst e) (snd e) acc) entries acc)
      = Some profile <->
      (name, profile) ∈ entries \/ map_get name acc = Some profile.
Proof.
  induction entries as [|[k v] entries IH]; intros acc Hnd Hfresh name profile; cbn [fold_left].
  - split; [auto|]. intros [H|H]; [inversion H|exact H].
  - cbn in Hnd. apply NoDup_cons in Hnd as [Hk Hnd]. cbn [fst snd].
    rewrite IH; [|exact Hnd|].
    + split.
      * intros [H|H]; [left; apply elem_of_cons; now right|].
        destruct (decide (k = name)) as [->|Hne].
        -- rewrite map_get_set_eq in H. inversion H; subst. left. apply elem_of_cons. now left.
        -- rewrite map_get_set_ne in H by done. now right.
      * intros [H|H].
        -- apply elem_of_cons in H as [[= -> ->]|H]; [|now left].
           right. apply map_get_set_eq.
        -- right. destruct (decide (k = name)) as [->|Hne].
           ++ rewrite Hfresh in H; [discriminate|]. cbn. apply elem_of_cons. now left.
           ++ now rewrite map_get_set_ne.
    + intros k' Hk'. rewrite map_get_set_ne.
      * apply Hfresh. cbn. apply elem_of_cons. now right.
      * intros ->. contradiction.
Qed.

End MoreLoaderFacts.

Section UncheckedFacts.
Import Loader.

(** On entries that are all objects the loop of [Unchecked.loadConfig]
    is the loop of [Loader.loadConfig]. *)
Lemma load_models_objects sp (entries : list (string * RawModel)) :
  forall acc,
    Unchecked.load_models
      sp (map (fun entry => (fst entry, Unchecked.object (snd entry))) entries) acc
    = (Some (fst (fold_left (load_model sp) entries acc)),
       snd (fold_left (load_model sp) entries acc)).
Proof.
  induction entries as [|[name m] entries IH]; intros acc; cbn [map fold_left fst snd].
  - reflexivity.
  - cbn [Unchecked.load_models]. apply IH.
Qed.

Lemma loadConfig_parsed raw :
  Unchecked.loadConfig (parsed raw)
  = Unchecked.Returned (fst (loadConfig raw)) (snd (loadConfig raw)).
Proof.
  unfold Unchecked.loadConfig, parsed, loadConfig.
  cbn [Unchecked.models Unchecked.strategies].
  replace (nullish (option_map (map (fun entry => (fst entry, Unchecked.object (snd entry))))
                               (models raw)) [])
    with (map (fun entry : string * RawModel => (fst entry, Unchecked.object (snd entry)))
              (nullish (models raw) []))
    by (now destruct (models raw)).
  rewrite load_models_objects.
  now destruct (fold_left (load_model _) (nullish (models raw) []) ([], [])).
Qed.

(** One [null] among the entries, wherever it stands, and the loop is
    left by a [TypeError]. *)
Lemma load_models_null sp entries name :
  (name, Unchecked.null) ∈ entries ->
  forall acc, fst (Unchecked.load_models sp entries acc) = None.
Proof.
  induction entries as [|[n [|m]] entries IH]; intros Hin acc.
  - inversion Hin.
  - reflexivity.
  - cbn [Unchecked.load_models]. apply IH.
    apply elem_of_cons in Hin as [Heq|Hin]; [discriminate|exact Hin].
Qed.

Lemma loadConfig_null_entry (config : Unchecked.VirtualConfig) name :
  (name, Unchecked.null) ∈ nullish (Unchecked.models config) [] ->
  exists warned, Unchecked.loadConfig (Unchecked.object config) = Unchecked.TypeError warned.
Proof.
  intros Hin. unfold Unchecked.loadConfig.
  pose proof (load_models_null (load_profiles (nullish (Unchecked.strategies config) []))
                _ name Hin ([], [])) as H.
  destruct (Unchecked.load_models _ _ _) as [[vm|] warned]; [discriminate|eauto].
Qed.

Lemma loaded_models_have_targets raw :
  Forall (fun entry => targets (snd entry) <> None) (virtualModels (fst (loadConfig raw))).
Proof.
  unfold loadConfig.
  pose proof (load_models_loaded_from raw
                (load_profiles (nullish (strategies raw) []))
                (nullish (models raw) []) ([], [])
                (fun e He => He) (Forall_nil_2 _) (NoDup_nil_2)) as [H _].
  destruct (fold_left (load_model _) (nullish (models raw) []) ([], [])) as [vm warned].
  cbn [fst virtualModels] in *.
  eapply Forall_impl; [exact H|].
  intros entry (_ & _ & _ & _ & _ & (t & ts & Ht) & _). now rewrite Ht.
Qed.
End UncheckedFacts.

(** Claim C7, amended.  For every document of the types of the schema,
    fields possibly missing (an object whose model entries are objects,
    with distinct names as in a JSON object): the load returns,
    and the validation of what it loaded returns; an entry with a missing
    or empty target list is left out of the loaded configuration, with a
    warning; every other entry is loaded (with "sequential" for a missing
    strategy), valid or not, and a reference to an unknown profile, a
    target without model or provider, and a weighted model with a target
    without weight are each reported, by a warning of [loadConfig] or an
    error of [validateConfig]. *)
Theorem loadConfig_partial_failures :
  forall raw : Loader.VirtualConfig,
    NoDup (map fst (nullish (Loader.models raw) [])) ->
    exists config warned errors,
      (* the load returns, and so does the validation of what it loaded *)
      Unchecked.loadConfig (parsed raw) = Unchecked.Returned config warned /\
      Loader.validateConfig config = Some errors /\
      forall (name : string) (m : Loader.RawModel),
        (name, m) ∈ nullish (Loader.models raw) [] ->
        let loaded := Loader.map_get (loaded_key name) (Loader.virtualModels config) in
        (* no targets: the entry is left out, with a warning *)
        (no_targets m -> loaded = None /\ Loader.no_targets_warning name ∈ warned) /\
        (* every other entry is loaded, and what is wrong with it is reported *)
        (~ no_targets m ->
           loaded = Some (with_default_strategy m) /\
           (forall p, unknown_profile raw m p ->
                      Loader.profile_not_found_warning p name ∈ warned) /\
           (target_lacks_field m -> Loader.missing_field_error (loaded_key name) ∈ errors) /\
           (weight_missing m -> Loader.missing_weights_error (loaded_key name) ∈ errors)).
Proof.
  intros raw Hnd.
  destruct (validate_models_total _ [] (loaded_models_have_targets raw)) as [errors Herrors].
  exists (fst (Loader.loadConfig raw)), (snd (Loader.loadConfig raw)), errors.
  split; [apply loadConfig_parsed|]. split; [exact Herrors|].
  intros name m Hin.
  pose proof (validate_models_elem _ _ _ Herrors) as Helem.
  revert Helem. unfold Loader.loadConfig.
  set (sp := Loader.load_profiles (nullish (Loader.strategies raw) [])).
  pose proof (load_models_entry sp _ Hnd ([], []) name m Hin) as H.
  destruct (fold_left (Loader.load_model sp) (nullish (Loader.models raw) []) ([], []))
    as [vm warned].
  destruct H as [Hno Hyes]. cbn [fst snd] in *. cbn zeta. cbn [Loader.virtualModels].
  intros Helem. split.
  - intros Hm. destruct (Hno Hm) as [Hget Hw]. auto.
  - intros Hm. destruct (Hyes Hm) as [Hget Hw]. split; [exact Hget|].
    assert (Hel := map_get_elem _ _ _ Hget).
    split; [|split].
    + intros p (Hp & Hne & Hunknown). apply Hw; auto.
      now apply map_has_profiles.
    + intros Hf.
      destruct (validate_model_missing_field (loaded_key name) (with_default_strategy m))
        as (pushed & Hv & He).
      { destruct Hf as (ts & t & Hts & Ht & Hfalsy). exists ts, t.
        split; [|auto]. unfold with_default_strategy.
        now destruct (Loader.no_strategy (Loader.strategy m)). }
      apply Helem. right. eauto.
    + intros Hwm.
      destruct (validate_model_missing_weight (loaded_key name) (with_default_strategy m))
        as (pushed & Hv & He).
      { destruct Hwm as (Hs & Hrest). unfold with_default_strategy. rewrite Hs.
        split; assumption. }
      apply Helem. right. eauto.
Qed.

(** C7 as stated fails, twice.  An entry that is invalid in three of the
    four ways is still part of the loaded configuration; and the load of
    a document that holds [null] for one model fails as a whole: the
    usable model next to it is lost with it. *)
Lemma loadConfig_keeps_invalid_entry :
  (unknown_profile broken_document broken_model "nope" /\
   target_lacks_field broken_model /\
   weight_missing broken_model /\
   Loader.map_get "virtual/m" (Loader.virtualModels (fst (Loader.loadConfig broken_document)))
   = Some broken_model /\
   Unchecked.loadConfig (parsed broken_document)
   = Unchecked.Returned (fst (Loader.loadConfig broken_document))
                        (snd (Loader.loadConfig broken_document))) /\
  (~ no_targets usable_model /\
   Unchecked.loadConfig null_entry_document = Unchecked.TypeError []).
Proof.
  split; [split; [|split; [|split; [|split]]]|split].
  - split; [reflexivity|]. split; [discriminate|]. intros profile H. inversion H.
  - eexists _, _. split; [reflexivity|]. split; [left|]. right. reflexivity.
  - split; [reflexivity|]. eexists _, _. split; [reflexivity|]. split; [left|]. reflexivity.
  - reflexivity.
  - reflexivity.
  - intros [H|H]; discriminate.
  - reflexivity.
Qed.

(** The loader theorem on the document with the one broken model: the
    load returns, the model is loaded, and its target without provider
    is reported. *)
Lemma loadConfig_partial_failures_witness :
  NoDup (map fst (nullish (Loader.models broken_document) [])) /\
  exists config warned errors,
    Unchecked.loadConfig (parsed broken_document) = Unchecked.Returned config warned /\
    Loader.validateConfig config = Some errors /\
    Loader.map_get "virtual/m" (Loader.virtualModels config) = Some broken_model /\
    Loader.missing_field_error "virtual/m" ∈ errors.
Proof.
  assert (Hnd : NoDup (map fst (nullish (Loader.models broken_document) []))).
  { cbn. apply NoDup_cons. split; [intros H; inversion H|apply NoDup_nil_2]. }
  split; [exact Hnd|].
  destruct (loadConfig_partial_failures broken_document Hnd)
    as (config & warned & errors & Hload & Hvalid & H).
  exists config, warned, errors. split; [exact Hload|]. split; [exact Hvalid|].
  assert (Hin : ("m", broken_model) ∈ nullish (Loader.models broken_document) []) by left.
  destruct (H "m" broken_model Hin) as [_ Hyes].
  assert (Hm : ~ no_targets broken_model) by (intros [E|E]; discriminate).
  destruct (Hyes Hm) as (Hget & _ & Hfield & _). split; [exact Hget|].
  apply Hfield. eexists _, _. split; [reflexivity|]. split; [left|]. right. reflexivity.
Defined.

(** Extra X18.  Nothing gets into a loaded configuration but usable
    entries of the document.  Every loaded model comes from an entry of
    the document, is stored under "virtual/" followed by the name of that
    entry, has at least one target and has a strategy (sequential when
    the entry named none); and no key is loaded twice. *)
Theorem loadConfig_loads_only_usable_models :
  forall raw : Loader.VirtualConfig,
    let config := fst (Loader.loadConfig raw) in
    Forall (loaded_from raw) (Loader.virtualModels config) /\
    NoDup (map fst (Loader.virtualModels config)).
Proof.
  intros raw. cbv zeta. unfold Loader.loadConfig.
  pose proof (load_models_loaded_from raw
                (Loader.load_profiles (nullish (Loader.strategies raw) []))
                (nullish (Loader.models raw) []) ([], [])
                (fun e He => He) (Forall_nil_2 _) (NoDup_nil_2)) as H.
  destruct (fold_left (Loader.load_model _) (nullish (Loader.models raw) []) ([], []))
    as [vm warned].
  exact H.
Qed.

Section ValidateFacts.
Import Loader.

Lemma validate_model_nil modelId m :
  validate_model (modelId, m) = Some [] <-> targets m <> None /\ well_formed_model m.
Proof.
  unfold validate_model, well_formed_model.
  destruct (targets m) as [ts|] eqn:Hts; [|split; [discriminate|now intros [? _]]].
  split.
  - intros [= H]. apply app_eq_nil in H as [Hf Hw]. split; [discriminate|].
    intros ts' [= <-]. split.
    + intros t Ht. rewrite flat_map_nil in Hf. specialize (Hf t Ht).
      destruct (falsy (model t)) eqn:Hm; [discriminate|].
      destruct (falsy (provider t)) eqn:Hp; [discriminate|].
      split; now apply falsy_false.
    + intros Hs t Ht. rewrite Hs in Hw. cbn [is_weighted] in Hw.
      destruct (forallb _ ts) eqn:Hall; [|discriminate].
      rewrite forallb_forall in Hall. apply list_elem_of_In in Ht.
      specialize (Hall t Ht). intros Hnone. now rewrite Hnone in Hall.
  - intros [_ H]. destruct (H ts eq_refl) as [Hf Hw]. f_equal.
    match goal with |- ?a ++ ?b = [] => assert (Ha : a = []); [|rewrite Ha; cbn [app]] end.
    + apply flat_map_nil. intros t Ht. destruct (Hf t Ht) as [Hm Hp].
      apply falsy_false in Hm, Hp. now rewrite Hm, Hp.
    + destruct (strategy m) as [[| | | | |]|] eqn:Hs; try reflexivity.
      cbn [is_weighted].
      assert (Hall : forallb (fun t => match weight t with
                                       | no_weight => false | _ => true end) ts = true).
      { apply forallb_forall. intros t Ht. apply list_elem_of_In in Ht.
        specialize (Hw eq_refl t Ht). now destruct (weight t). }
      now rewrite Hall.
Qed.

Lemma validate_models_None entries :
  forall errors,
    validate_models entries errors = None <->
    exists modelId m, (modelId, m) ∈ entries /\ targets m = None.
Proof.
  induction entries as [|[modelId m] entries IH]; intros errors; cbn [validate_models].
  - split; [discriminate|]. intros (? & ? & H & _). inversion H.
  - unfold validate_model at 1. destruct (targets m) as [ts|] eqn:Hts.
    + rewrite IH. split.
      * intros (modelId' & m' & Hin & Hnone). exists modelId', m'. split; [now right|exact Hnone].
      * intros (modelId' & m' & Hin & Hnone).
        apply elem_of_cons in Hin as [[= -> ->]|Hin]; [congruence|eauto].
    + split; [|reflexivity]. intros _. exists modelId, m. split; [left|exact Hts].
Qed.
End ValidateFacts.

(** Extra X19.  [validateConfig] returns an empty list exactly when every
    model of the configuration has a list of targets and is well formed:
    each of its targets has a model id and a provider that are not
    empty, and, under the weighted strategy, each of its targets has a
    field "weight", be it a number or [null].  It throws a [TypeError]
    exactly when some model has no list of targets. *)
Theorem validateConfig_accepts_well_formed_models :
  forall config : Loader.LoadedConfig,
    (Loader.validateConfig config = Some [] <->
     forall modelId m, (modelId, m) ∈ Loader.virtualModels config ->
                       Loader.targets m <> None /\ well_formed_model m) /\
    (Loader.validateConfig config = None <->
     exists modelId m, (modelId, m) ∈ Loader.virtualModels config /\ Loader.targets m = None).
Proof.
  intros config. unfold Loader.validateConfig. split; [|apply validate_models_None].
  rewrite validate_models_nil, Forall_forall. split.
  - intros [_ H] modelId m Hin. apply (validate_model_nil modelId), (H _ Hin).
  - intros H. split; [reflexivity|]. intros [modelId m] Hin.
    apply validate_model_nil. now apply (H modelId).
Qed.

(** A weight of [null] counts as a weight for [validateConfig]. *)
Example validateConfig_null_weight :
  let target weight :=
    {| Loader.model := Some "m"; Loader.provider := Some "p"; Loader.weight := weight |} in
  let config weight :=
    {| Loader.virtualModels :=
         [("virtual/w",
           {| Loader.strategy := Some weighted; Loader.strategy_profile := None;
              Loader.fallback_on := None; Loader.cooldown := None;
              Loader.targets := Some [target weight] |})];
       Loader.strategyProfiles := [] |} in
  Loader.validateConfig (config Loader.null_weight) = Some [] /\
  Loader.validateConfig (config Loader.no_weight)
  = Some [Loader.missing_weights_error "virtual/w"].
Proof. split; reflexivity. Qed.

(** Extra X20.  Every strategy profile of the document is loaded under
    its own name, and nothing else is, whether or not a model refers to
    it and whatever happens to the models of the document. *)
Theorem loadConfig_loads_every_profile :
  forall (raw : Loader.VirtualConfig) (name : string) (profile : StrategyProfile.t),
    NoDup (map fst (nullish (Loader.strategies raw) [])) ->
    (Loader.map_get name (Loader.strategyProfiles (fst (Loader.loadConfig raw))) = Some profile
     <-> (name, profile) ∈ nullish (Loader.strategies raw) []).
Proof.
  intros raw name profile Hnd. unfold Loader.loadConfig.
  destruct (fold_left (Loader.load_model _) (nullish (Loader.models raw) []) ([], []))
    as [vm warned].
  cbn [fst Loader.strategyProfiles]. unfold Loader.load_profiles.
  rewrite (load_profiles_get _ [] Hnd (fun _ _ => eq_refl)).
  split; [intros [H|H]; [exact H|discriminate]|auto].
Qed.

(** The profile "fast" of a document without models. *)
Lemma loadConfig_loads_every_profile_witness :
  NoDup (map fst (nullish (Loader.strategies profiles_only) [])) /\
  Loader.map_get "fast" (Loader.strategyProfiles (fst (Loader.loadConfig profiles_only)))
  = Some profile_fast.
Proof.
  assert (Hnd : NoDup (map fst (nullish (Loader.strategies profiles_only) []))).
  { cbn. apply NoDup_singleton. }
  split; [exact Hnd|].
  apply (loadConfig_loads_every_profile profiles_only "fast" profile_fast Hnd).
  cbn. apply elem_of_cons. now left.
Defined.

Section MergeFacts.
Import Loader ConfigHook.

Lemma deepMerge_nil dst : deepMerge dst [] = Host.Normal dst.
Proof. reflexivity. Qed.

Lemma deepMerge_cons dst key srcVal rest :
  deepMerge dst ((key, srcVal) :: rest) =
    match merge_entry dst key srcVal with
    | Host.Normal dst1 => deepMerge dst1 rest
    | abrupt => abrupt
    end.
Proof.
  unfold deepMerge at 1. cbn [merge_object]. unfold merge_entry.
  destruct srcVal as [| | | | |s]; reflexivity.
Qed.

Lemma proto_free_cons key value rest :
  proto_free (Json.Object ((key, value) :: rest))
  = negb (String.eqb key "__proto__") && proto_free value && proto_free (Json.Object rest).
Proof. reflexivity. Qed.

Lemma map_get_cons_ne {V} k k' (v : V) m :
  k' <> k -> map_get k ((k', v) :: m) = map_get k m.
Proof. intros H. cbn. apply String.eqb_neq in H. now rewrite H. Qed.

Lemma map_get_not_key {V} k (m : Map V) : k ∉ map fst m -> map_get k m = None.
Proof.
  induction m as [|[k' v] m IH]; intros H; [reflexivity|].
  cbn in H. apply not_elem_of_cons in H as [Hne Hm].
  rewrite map_get_cons_ne by congruence. now apply IH.
Qed.

(** An assignment to a key other than [__proto__] stores the value. *)
Lemma set_plain {V} key (value : V) object :
  key <> "__proto__" -> Host.set key value object = Host.Normal (map_set key value object).
Proof.
  intros Hne. unfold Host.set. apply String.eqb_neq in Hne. rewrite Hne.
  now destruct (map_has key object).
Qed.

Lemma get_plain {V} key (object : Map V) :
  key <> "__proto__" ->
  match Host.get key object with
  | Host.Own v => map_get key object = Some v
  | Host.Prototype => False
  | _ => map_get key object = None
  end.
Proof.
  intros Hne. unfold Host.get. apply String.eqb_neq in Hne. rewrite Hne.
  destruct (map_get key object); [reflexivity|].
  now destruct (existsb _ _).
Qed.

(** The merge of a source without [__proto__] keys ends normally. *)
Lemma merge_object_total :
  forall (src : Json.t) (dst : list (string * Json.t)),
    proto_free src = true -> exists merged, merge_object dst src = Host.Normal merged.
Proof.
  fix IH 1. intros src. destruct src as [| | | | |entries]; intros dst Hfree;
    try (eexists; reflexivity).
  revert dst Hfree. induction entries as [|[key srcVal] rest IHrest]; intros dst Hfree.
  - eexists. reflexivity.
  - rewrite proto_free_cons in Hfree.
    apply andb_prop in Hfree as [Hfree Hrest]. apply andb_prop in Hfree as [Hkey Hval].
    apply negb_true_iff, String.eqb_neq in Hkey.
    change (merge_object dst (Json.Object ((key, srcVal) :: rest)))
      with (deepMerge dst ((key, srcVal) :: rest)).
    rewrite deepMerge_cons.
    assert (Hentry : exists dst1, merge_entry dst key srcVal = Host.Normal dst1).
    { unfold merge_entry. pose proof (get_plain key dst Hkey) as Hget.
      pose proof (IH srcVal) as Hinner.
      destruct srcVal as [| | | | |s];
        try (rewrite (set_plain _ _ _ Hkey); eexists; reflexivity).
      destruct (Host.get key dst) as [[| | | | |d]| | |];
        try (rewrite (set_plain _ _ _ Hkey); eexists; reflexivity); [|contradiction].
      destruct (Hinner d Hval) as [merged Hm].
      unfold deepMerge. rewrite Hm. eauto. }
    destruct Hentry as [dst1 ->]. apply (IHrest dst1 Hrest).
Qed.

Lemma deepMerge_lookup src :
  forall dst merged key,
    NoDup (map fst src) ->
    deepMerge dst src = Host.Normal merged ->
    match map_get key src with
    | Some srcVal =>
        exists dst0 dst1, merge_entry dst0 key srcVal = Host.Normal dst1 /\
                          map_get key dst0 = map_get key dst /\
                          map_get key merged = map_get key dst1
    | None => map_get key merged = map_get key dst
    end.
Proof.
  induction src as [|[k sv] src IH]; intros dst merged key Hnd Hrun.
  - rewrite deepMerge_nil in Hrun. now injection Hrun as <-.
  - cbn in Hnd. apply NoDup_cons in Hnd as [Hk Hnd].
    rewrite deepMerge_cons in Hrun.
    destruct (merge_entry dst k sv) as [dst1| | |] eqn:Hentry; try discriminate.
    specialize (IH dst1 merged key Hnd Hrun).
    assert (Hother : k <> key -> map_get key dst1 = map_get key dst).
    { intros Hne. revert Hentry. unfold merge_entry, Host.set.
      destruct sv as [| | | | |s];
        try (destruct (map_has k dst); [|destruct (String.eqb k "__proto__")];
             intros [= <-]; now apply map_get_set_ne).
      destruct (Host.get k dst) as [[| | | | |d]| | |];
        try (destruct (map_has k dst); [|destruct (String.eqb k "__proto__")];
             intros [= <-]; now apply map_get_set_ne); try discriminate.
      destruct (deepMerge d s); try discriminate.
      intros [= <-]. now apply map_get_set_ne. }
    destruct (decide (k = key)) as [->|Hne].
    + rewrite (map_get_not_key key src Hk) in IH. cbn [map_get]. rewrite String.eqb_refl.
      exists dst, dst1. auto.
    + rewrite (map_get_cons_ne _ _ _ _ Hne).
      destruct (map_get key src) as [srcVal|].
      * destruct IH as (dst0 & dst2 & He & Hg0 & Hg). exists dst0, dst2.
        split; [exact He|]. split; [|exact Hg]. rewrite Hg0. now apply Hother.
      * rewrite IH. now apply Hother.
Qed.

End MergeFacts.

(** Extra X21.  [deepMerge], key by key, for a source that has no key
    [__proto__] at any depth and whose keys are distinct.  The merge
    ends normally, and the merged object holds under a key that the
    source does not have what the destination held there; under a key of
    the source it holds the value of the source, except that, when the
    source and the destination both hold a plain object there, it holds
    the merge of these two objects.  An array or a primitive of the
    source replaces whatever the destination held. *)
Theorem deepMerge_key_by_key :
  forall dst src : list (string * Json.t),
    NoDup (map fst src) ->
    proto_free (Json.Object src) = true ->
    exists merged,
      ConfigHook.deepMerge dst src = Host.Normal merged /\
      forall key : string,
        match Loader.map_get key src with
        | None => Loader.map_get key merged = Loader.map_get key dst
        | Some (Json.Object s) =>
            match Loader.map_get key dst with
            | Some (Json.Object d) =>
                exists inner, ConfigHook.deepMerge d s = Host.Normal inner /\
                              Loader.map_get key merged = Some (Json.Object inner)
            | _ => Loader.map_get key merged = Some (Json.Object s)
            end
        | Some srcVal => Loader.map_get key merged = Some srcVal
        end.
Proof.
  intros dst src Hnd Hfree.
  destruct (merge_object_total (Json.Object src) dst Hfree) as [merged Hrun].
  exists merged. split; [exact Hrun|]. intros key.
  pose proof (deepMerge_lookup src dst merged key Hnd Hrun) as H.
  destruct (Loader.map_get key src) as [srcVal|] eqn:Hsrc; [|exact H].
  destruct H as (dst0 & dst1 & Hentry & Hg0 & Hg).
  assert (Hset : forall value, Host.set key value dst0 = Host.Normal dst1 ->
                               Loader.map_get key merged = Some value).
  { intros value. unfold Host.set.
    destruct (Loader.map_has key dst0); [|destruct (String.eqb key "__proto__")];
      intros [= <-]; rewrite Hg; apply map_get_set_eq. }
  unfold merge_entry, Host.get in Hentry. rewrite Hg0 in Hentry.
  destruct srcVal as [| | | | |s]; try (now apply Hset).
  destruct (Loader.map_get key dst) as [[| | | | |d]|]; try (now apply Hset).
  - destruct (ConfigHook.deepMerge d s) as [inner| | |]; try discriminate.
    injection Hentry as <-. exists inner. split; [reflexivity|].
    rewrite Hg. apply map_get_set_eq.
  - destruct (String.eqb key "__proto__"); [discriminate|].
    destruct (existsb _ _); now apply Hset.
Qed.

(** A replacement block merged into a live configuration: the model is
    replaced, the agent "build" keeps its mode and gets a model, and the
    plugin list, which the block does not name, stays. *)
Lemma deepMerge_key_by_key_witness :
  NoDup (map fst replacement) /\
  proto_free (Json.Object replacement) = true /\
  exists merged,
    ConfigHook.deepMerge live_config replacement = Host.Normal merged /\
    Loader.map_get "model" merged = Some (Json.Text "virtual/work-build") /\
    Loader.map_get "agent" merged
    = Some (Json.Object
              [("build", Json.Object [("mode", Json.Text "primary");
                                      ("model", Json.Text "virtual/work-build")])]) /\
    Loader.map_get "plugin" merged = Some (Json.Array [Json.Text "a"]).
Proof.
  assert (Hnd : NoDup (map fst replacement)).
  { cbn. apply NoDup_cons. split; [|apply NoDup_singleton].
    intros H. apply list_elem_of_singleton in H. discriminate. }
  assert (Hfree : proto_free (Json.Object replacement) = true) by reflexivity.
  split; [exact Hnd|]. split; [exact Hfree|].
  destruct (deepMerge_key_by_key live_config replacement Hnd Hfree) as (merged & Hrun & H).
  exists merged. split; [exact Hrun|].
  split; [exact (H "model")|]. split; [|exact (H "plugin")].
  destruct (H "agent") as (inner & Hinner & Hget). rewrite Hget.
  vm_compute in Hinner. now injection Hinner as <-.
Defined.

(** A block with the key [__proto__], merged into a configuration that
    has no property of that name, reaches the prototype. *)
Example deepMerge_reaches_prototype :
  ConfigHook.deepMerge live_config polluting = Host.ReachesPrototype.
Proof. reflexivity. Qed.

Section CatalogFacts.
Import Loader.

Lemma virtual_name_of_key name :
  (if startsWith ("virtual/" +:+ name) "virtual/"
   then str_slice (String.length "virtual/") ("virtual/" +:+ name)
   else "virtual/" +:+ name) = name.
Proof.
  unfold startsWith. rewrite (prefix_app "virtual/" name).
  apply (str_slice_app "virtual/" name).
Qed.

Lemma loadConfig_shape (raw : VirtualConfig) :
  loaded_shape (virtualModels (fst (loadConfig raw))).
Proof.
  unfold loadConfig.
  pose proof (load_models_loaded_from raw
                (load_profiles (nullish (strategies raw) []))
                (nullish (models raw) []) ([], [])
                (fun e He => He) (Forall_nil_2 _) (NoDup_nil_2)) as [Hall Hnd].
  destruct (fold_left (load_model _) (nullish (models raw) []) ([], [])) as [vm warned].
  cbn [fst virtualModels] in *. split; [exact Hnd|].
  eapply Forall_impl; [exact Hall|].
  intros e (name & m0 & _ & Hk & _ & Ht & _). split; [eauto|exact Ht].
Qed.

Lemma loaded_shape_tail e vm : loaded_shape (e :: vm) -> loaded_shape vm.
Proof.
  intros [Hnd Hall]. cbn in Hnd. apply NoDup_cons in Hnd as [_ Hnd].
  inversion Hall; subst. split; assumption.
Qed.

(** A loop that stores, under the name of each model that [pick]
    selects, the value [make] of that name. *)
Lemma for_each_named {V} (body : Map V -> string * RawModel -> Host.Completion (Map V))
      (pick : string -> RawModel -> option V) (vm : Map RawModel) :
  (forall acc name m,
     (exists t ts, targets m = Some (t :: ts)) ->
     (("virtual/" +:+ name, m) ∈ vm) ->
     body acc ("virtual/" +:+ name, m) =
       Host.Normal match pick name m with
                   | Some v => map_set name v acc
                   | None => acc
                   end) ->
  loaded_shape vm ->
  forall acc,
    exists result,
      for_each body vm acc = Host.Normal result /\
      forall name,
        map_get name result =
          match map_get ("virtual/" +:+ name) vm with
          | Some m =>
              match pick name m with
              | Some v => Some v
              | None => map_get name acc
              end
          | None => map_get name acc
          end.
Proof.
  induction vm as [|[key m] vm IH]; intros Hbody Hshape acc.
  - exists acc. split; reflexivity.
  - pose proof (loaded_shape_tail _ _ Hshape) as Htail.
    destruct Hshape as [Hnd Hall]. cbn in Hnd. apply NoDup_cons in Hnd as [Hkey _].
    inversion Hall as [|? ? [[n0 Hk] Hts] _]; subst. cbn [fst snd] in Hk, Hts. subst key.
    cbn [for_each].
    rewrite (Hbody acc n0 m Hts) by (apply elem_of_cons; now left).
    destruct (IH (fun acc' name m' Ht Hin =>
                    Hbody acc' name m' Ht (proj2 (elem_of_cons _ _ _) (or_intror Hin)))
                 Htail
                 match pick n0 m with Some v => map_set n0 v acc | None => acc end)
      as (result & Hrun & Hget).
    exists result. split; [exact Hrun|].
    intros name. rewrite Hget.
    destruct (decide (n0 = name)) as [->|Hne].
    + rewrite (map_get_not_key _ vm Hkey). cbn [map_get]. rewrite String.eqb_refl.
      destruct (pick name m) as [v|]; [apply map_get_set_eq|reflexivity].
    + assert (Hkne : "virtual/" +:+ n0 <> "virtual/" +:+ name).
      { intros H. apply virtual_key_inj in H. contradiction. }
      rewrite (map_get_cons_ne _ _ m vm Hkne).
      destruct (pick n0 m) as [v|]; [|reflexivity].
      rewrite (map_get_set_ne n0 name v acc Hne). reflexivity.
Qed.

(** Reading a plain name finds an own property or nothing. *)
Lemma get_plain_name {V} name (object : Map V) :
  plain_name name ->
  Host.get name object =
    match map_get name object with
    | Some v => Host.Own v
    | None => Host.Undefined
    end.
Proof.
  intros [Hproto Hfun]. unfold Host.get.
  destruct (map_get name object); [reflexivity|].
  apply String.eqb_neq in Hproto. rewrite Hproto.
  destruct (existsb (String.eqb name) Host.inherited_functions) eqn:E; [|reflexivity].
  exfalso. apply Hfun. apply existsb_exists in E as (x & Hin & Hx).
  apply String.eqb_eq in Hx. subst x. now apply list_elem_of_In.
Qed.

Lemma no_proto_model_name vm name m :
  no_proto_model vm -> ("virtual/" +:+ name, m) ∈ vm -> name <> "__proto__".
Proof. intros Hno Hin ->. exact (Hno m Hin). Qed.

Lemma build_model_named catalog vm :
  primaries_named vm -> no_proto_model vm -> plain_sources vm ->
  forall acc name m,
    (exists t ts, targets m = Some (t :: ts)) ->
    (("virtual/" +:+ name, m) ∈ vm) ->
    Catalog.build_model catalog acc ("virtual/" +:+ name, m) =
      Host.Normal match option_map (fun source => Catalog.cloneVirtualModelConfig source name)
                                   (inherited catalog m) with
                  | Some v => map_set name v acc
                  | None => acc
                  end.
Proof.
  intros Hnamed Hno Hplain acc name m (t & ts & Ht) Hin.
  pose proof (fun id => Hplain _ m id Hin) as Hid. unfold source_id in Hid.
  unfold Catalog.build_model, inherited. rewrite virtual_name_of_key. rewrite Ht in *.
  pose proof (Hnamed _ _ _ _ Hin Ht) as Hmodel.
  destruct (provider t) as [p|]; [|reflexivity].
  destruct (model t) as [mo|]; [|contradiction].
  destruct (find _ catalog) as [entry|]; [|reflexivity].
  rewrite (get_plain_name _ _ (Hid _ eq_refl)).
  destruct (map_get _ (Catalog.models entry)); [|reflexivity].
  apply set_plain. exact (no_proto_model_name _ _ _ Hno Hin).
Qed.


Lemma build_keeps_ids catalog vm :
  forall acc result,
    Forall (fun e => map_get "id" (snd e) = Some (Json.Text (fst e))) acc ->
    for_each (Catalog.build_model catalog) vm acc = Host.Normal result ->
    Forall (fun e => map_get "id" (snd e) = Some (Json.Text (fst e))) result.
Proof.
  induction vm as [|[key m] vm IH]; intros acc result Hacc; cbn [for_each].
  - now intros [= <-].
  - destruct (Catalog.build_model catalog acc (key, m)) as [acc1| | |] eqn:Hb;
      try discriminate.
    apply IH. revert Hb. unfold Catalog.build_model.
    destruct (targets m) as [[|t ts]|]; try discriminate; try (now intros [= <-]).
    destruct (provider t) as [p|]; [|now intros [= <-]].
    destruct (find _ catalog) as [entry|]; [|now intros [= <-]].
    destruct (model t) as [mo|]; [|discriminate].
    destruct (Host.get _ (Catalog.models entry)) as [source| | |];
      try discriminate; try (now intros [= <-]).
    unfold Host.set.
    match goal with |- context [if ?c then Host.Normal _ else _] => destruct c end;
      [|match goal with |- context [if ?c then _ else Host.Normal _] => destruct c end];
      intros Hb; try discriminate Hb;
      (injection Hb as <-; apply map_set_Forall; [exact Hacc|];
       cbn [fst snd]; unfold Catalog.cloneVirtualModelConfig; apply map_get_set_eq).
Qed.

(** A model named [__proto__] assigns the prototype of the models of
    the provider; a primary target named like an inherited function
    makes the catalog hand out that function, which cannot be cloned. *)
Example inherited_names_end_the_run :
  let model_of id :=
    {| strategy := Some sequential; strategy_profile := None;
       fallback_on := None; cooldown := None;
       targets := Some [ {| model := Some id; provider := Some "anthropic";
                            weight := no_weight |} ] |} in
  ConfigHook.register_aliases [("virtual/__proto__", model_of "claude-sonnet-4")] []
  = Host.ReachesPrototype /\
  Catalog.buildVirtualProviderModels
    {| virtualModels := [("virtual/work", model_of "toString")]; strategyProfiles := [] |}
    anthropic_catalog
  = Host.DataCloneError /\
  Catalog.buildVirtualProviderModels
    {| virtualModels := [("virtual/work", model_of "__proto__")]; strategyProfiles := [] |}
    anthropic_catalog
  = Host.ReachesPrototype.
Proof. repeat split. Qed.

End CatalogFacts.

(** Extra X22.  The catalog of the virtual provider for a loaded
    document in which no model is called [__proto__] and every primary
    target has a model id that, with one provider prefix stripped, is
    not the name of a property that objects inherit.  The function
    returns, and it holds a model under a name exactly when the document
    loaded a model under "virtual/" + name whose primary target, with
    one provider prefix stripped from its model id, names a model of the
    catalog: that model's metadata, with the id replaced by the name.
    So every model it holds carries the name it is stored under as its
    id. *)
Theorem buildVirtualProviderModels_inherits_from_primary :
  forall (raw : Loader.VirtualConfig) (catalog : list Catalog.ProviderCatalogEntry),
    let config := fst (Loader.loadConfig raw) in
    primaries_named (Loader.virtualModels config) ->
    no_proto_model (Loader.virtualModels config) ->
    plain_sources (Loader.virtualModels config) ->
    exists desiredModels,
      Catalog.buildVirtualProviderModels config catalog = Host.Normal desiredModels /\
      (forall name,
         Loader.map_get name desiredModels =
           match Loader.map_get ("virtual/" +:+ name) (Loader.virtualModels config) with
           | Some m =>
               match inherited catalog m with
               | Some source => Some (Loader.map_set "id" (Json.Text name) source)
               | None => None
               end
           | None => None
           end) /\
      (forall name m,
         Loader.map_get name desiredModels = Some m ->
         Loader.map_get "id" m = Some (Json.Text name)).
Proof.
  intros raw catalog config Hnamed Hno Hplain.
  assert (Hids : forall desiredModels name m,
            Catalog.buildVirtualProviderModels config catalog = Host.Normal desiredModels ->
            Loader.map_get name desiredModels = Some m ->
            Loader.map_get "id" m = Some (Json.Text name)).
  { intros desiredModels name m Hbuild Hget.
    pose proof (build_keeps_ids catalog (Loader.virtualModels config) [] desiredModels
                  (Forall_nil_2 _) Hbuild) as Hall.
    rewrite Forall_forall in Hall. exact (Hall (name, m) (map_get_elem _ _ _ Hget)). }
  destruct (for_each_named (Catalog.build_model catalog)
              (fun name m =>
                 option_map (fun source => Catalog.cloneVirtualModelConfig source name)
                            (inherited catalog m))
              (Loader.virtualModels config)
              (build_model_named catalog _ Hnamed Hno Hplain)
              (loadConfig_shape raw) []) as (result & Hrun & Hget).
  exists result. split; [exact Hrun|]. split; [|intros name m; now apply Hids].
  intros name. rewrite Hget.
  destruct (Loader.map_get ("virtual/" +:+ name) (Loader.virtualModels config)) as [m|];
    [|reflexivity].
  destruct (inherited catalog m); reflexivity.
Qed.

(** The model "work" of a document, in a catalog that knows its primary
    target: the virtual provider gets the metadata of that target under
    the name "work", with "work" as id. *)
Lemma buildVirtualProviderModels_inherits_from_primary_witness :
  primaries_named (Loader.virtualModels (fst (Loader.loadConfig work_document))) /\
  no_proto_model (Loader.virtualModels (fst (Loader.loadConfig work_document))) /\
  plain_sources (Loader.virtualModels (fst (Loader.loadConfig work_document))) /\
  exists desiredModels,
    Catalog.buildVirtualProviderModels (fst (Loader.loadConfig work_document))
                                       anthropic_catalog = Host.Normal desiredModels /\
    Loader.map_get "work" desiredModels
    = Some [("id", Json.Text "work"); ("name", Json.Text "Claude Sonnet 4")].
Proof.
  assert (Hnamed :
    primaries_named (Loader.virtualModels (fst (Loader.loadConfig work_document)))).
  { intros key m t ts Hin Ht. cbn in Hin.
    apply list_elem_of_singleton in Hin. injection Hin as -> ->.
    cbn in Ht. injection Ht as <- _. discriminate. }
  assert (Hno :
    no_proto_model (Loader.virtualModels (fst (Loader.loadConfig work_document)))).
  { intros m Hin. cbn in Hin. apply list_elem_of_singleton in Hin. discriminate. }
  assert (Hplain :
    plain_sources (Loader.virtualModels (fst (Loader.loadConfig work_document)))).
  { intros key m id Hin Hid. cbn in Hin.
    apply list_elem_of_singleton in Hin. injection Hin as -> ->.
    vm_compute in Hid. injection Hid as <-.
    split; [discriminate|]. intros H. apply list_elem_of_In in H. cbn in H.
    repeat (destruct H as [H|H]; [discriminate|]). exact H. }
  split; [exact Hnamed|]. split; [exact Hno|]. split; [exact Hplain|].
  destruct (buildVirtualProviderModels_inherits_from_primary work_document
              anthropic_catalog Hnamed Hno Hplain) as (desiredModels & Hbuild & Hget & _).
  exists desiredModels. split; [exact Hbuild|]. rewrite Hget. reflexivity.
Defined.



Section FetchFacts.
Import State AuthLoader.
Context {W : Type} (fetch : Forwarded -> W -> Strategies.Outcome * W) (Date_now : W -> Q).

Lemma five_minutes : Duration.parseDuration "5m" = Ok 300000%Q.
Proof. vm_compute. reflexivity. Qed.

Lemma setCooldown_5m_spec now key state :
  setCooldown_5m now key state
  = set_cooldowns (<[key := (now + 300000)%Q]> (cooldowns state)) state.
Proof. unfold setCooldown_5m. now rewrite (setCooldown_parsed _ _ _ _ _ five_minutes). Qed.

Lemma try_targets_cons virtualModelID t rest state w :
  try_targets fetch Date_now virtualModelID (t :: rest) state w =
    let (cooled, state1) := isInCooldown (Date_now w) (modelKey t) state in
    if cooled then try_targets fetch Date_now virtualModelID rest state1 w
    else
      let (o, w1) := fetch (forwarded_for t) w in
      match o with
      | Strategies.Resolved response =>
          if retryable (Strategies.status response) then
            try_targets fetch Date_now virtualModelID rest
              (recordFallback (modelKey t)
                 (recordFailure (modelKey t)
                    (setCooldown_5m (Date_now w1) (modelKey t) state1))) w1
          else (Returned response, state1, w1)
      | Strategies.Rejected err =>
          try_targets fetch Date_now virtualModelID rest
            (setCooldown_5m (Date_now w1) (modelKey t) (recordFailure (modelKey t) state1)) w1
      end.
Proof. reflexivity. Qed.

Lemma only_failures_refl state : only_failures state state.
Proof. intros key. cbv zeta. repeat split; lia. Qed.

Lemma only_failures_trans a b c :
  only_failures a b -> only_failures b c -> only_failures a c.
Proof.
  intros Hab Hbc key. specialize (Hab key). specialize (Hbc key). cbv zeta in *.
  destruct Hab as (H1 & H2 & H3 & H4 & H5 & H6), Hbc as (G1 & G2 & G3 & G4 & G5 & G6).
  repeat split; try lia; congruence.
Qed.

Lemma only_failures_same_metrics a b : metrics b = metrics a -> only_failures a b.
Proof.
  intros H key. unfold metrics_of. rewrite H. cbv zeta. repeat split; lia.
Qed.

Lemma only_failures_status key state :
  only_failures state (recordFallback key (recordFailure key state)).
Proof.
  intros k. cbv zeta. rewrite metrics_of_recordFallback, metrics_of_recordFailure.
  case_decide; cbn; repeat split; lia.
Qed.

Lemma only_failures_thrown key state : only_failures state (recordFailure key state).
Proof.
  intros k. cbv zeta. rewrite metrics_of_recordFailure.
  case_decide; cbn; repeat split; lia.
Qed.

Lemma isInCooldown_cooldowns now key state k :
  k <> key ->
  cooldowns (snd (isInCooldown now key state)) !! k = cooldowns state !! k.
Proof.
  intros Hne. unfold isInCooldown. destruct (cooldowns state !! key) as [e|]; [|reflexivity].
  destruct (Qeq_bool e 0); [reflexivity|]. destruct (Qle_bool e now); [|reflexivity].
  cbn. now rewrite lookup_delete_ne.
Qed.

Lemma isInCooldown_true now key state :
  fst (isInCooldown now key state) = true ->
  snd (isInCooldown now key state) = state /\ is_Some (cooldowns state !! key).
Proof.
  unfold isInCooldown. destruct (cooldowns state !! key) as [e|]; [|discriminate].
  destruct (Qeq_bool e 0); [discriminate|]. destruct (Qle_bool e now); [discriminate|].
  intros _. split; [reflexivity|eauto].
Qed.

Lemma recordFailure_cooldowns key state :
  cooldowns (recordFailure key state) = cooldowns state /\
  roundRobinIndex (recordFailure key state) = roundRobinIndex state.
Proof.
  unfold recordFailure, getOrCreateMetrics. destruct (metrics state !! key); cbn; auto.
Qed.

Lemma recordFallback_cooldowns key state :
  cooldowns (recordFallback key state) = cooldowns state /\
  roundRobinIndex (recordFallback key state) = roundRobinIndex state.
Proof.
  unfold recordFallback, getOrCreateMetrics. destruct (metrics state !! key); cbn; auto.
Qed.

(** What one failed attempt leaves in the store of cooldowns. *)
Lemma failed_attempt_cooldowns now key state1 state2 k :
  cooldowns state2 = <[key := (now + 300000)%Q]> (cooldowns state1) ->
  (k = key \/ is_Some (cooldowns state1 !! k)) -> is_Some (cooldowns state2 !! k).
Proof.
  intros -> [->|H].
  - rewrite lookup_insert_eq. eauto.
  - destruct (decide (k = key)) as [->|Hne];
      [rewrite lookup_insert_eq; eauto|now rewrite lookup_insert_ne].
Qed.

Lemma try_targets_spec virtualModelID ts :
  forall state w,
    let '(settled, state', w') := try_targets fetch Date_now virtualModelID ts state w in
    (forall r, settled = Returned r -> retryable (Strategies.status r) = false) /\
    (forall e, settled <> FetchRejected e) /\
    (forall v, settled = AllTargetsExhausted v ->
       v = virtualModelID /\
       forall k, (is_Some (cooldowns state !! k) \/ exists t, t ∈ ts /\ modelKey t = k) ->
                 is_Some (cooldowns state' !! k)) /\
    roundRobinIndex state' = roundRobinIndex state /\
    only_failures state state'.
Proof.
  induction ts as [|t ts IH]; intros state w.
  - cbn. split; [discriminate|]. split; [discriminate|]. split.
    + intros v [= <-]. split; [reflexivity|].
      intros k [H|(t & Ht & _)]; [exact H|inversion Ht].
    + split; [reflexivity|apply only_failures_refl].
  - rewrite try_targets_cons.
    pose proof (isInCooldown_frame (Date_now w) (modelKey t) state) as [Hrr Hmet].
    pose proof (isInCooldown_true (Date_now w) (modelKey t) state) as Htrue.
    pose proof (fun k => isInCooldown_cooldowns (Date_now w) (modelKey t) state k) as Hother.
    destruct (isInCooldown (Date_now w) (modelKey t) state) as [cooled state1].
    cbn [fst snd] in *.
    assert (Hkeep : forall (state2 : RouterState) now k,
              cooldowns state2 = <[modelKey t := (now + 300000)%Q]> (cooldowns state1) ->
              (is_Some (cooldowns state !! k) \/ exists t', t' ∈ t :: ts /\ modelKey t' = k) ->
              is_Some (cooldowns state2 !! k) \/ exists t', t' ∈ ts /\ modelKey t' = k).
    { intros state2 now k Hc [H|(t' & Ht' & Hk)].
      - left. apply (failed_attempt_cooldowns now (modelKey t) state1 state2 k Hc).
        destruct (decide (k = modelKey t)) as [->|Hne]; [now left|].
        right. now rewrite Hother.
      - apply elem_of_cons in Ht' as [->|Ht'].
        + left. apply (failed_attempt_cooldowns now (modelKey t) state1 state2 k Hc).
          now left.
        + right. eauto. }
    destruct cooled.
    + destruct (Htrue eq_refl) as [-> Hsome].
      specialize (IH state w).
      destruct (try_targets fetch Date_now virtualModelID ts state w) as [[settled state'] w'].
      destruct IH as (H1 & H2 & H3 & H4 & H5).
      split; [exact H1|]. split; [exact H2|]. split; [|split; [exact H4|exact H5]].
      intros v Hv. destruct (H3 v Hv) as [-> Hall]. split; [reflexivity|].
      intros k [H|(t' & Ht' & Hk)]; [apply Hall; now left|].
      apply elem_of_cons in Ht' as [->|Ht'].
      * apply Hall. left. now rewrite <- Hk.
      * apply Hall. right. eauto.
    + destruct (fetch (forwarded_for t) w) as [[response|err] w1].
      * destruct (retryable (Strategies.status response)) eqn:Hretry.
        -- set (state4 := recordFallback (modelKey t)
                            (recordFailure (modelKey t)
                               (setCooldown_5m (Date_now w1) (modelKey t) state1))).
           assert (Hc4 : cooldowns state4
                         = <[modelKey t := (Date_now w1 + 300000)%Q]> (cooldowns state1)).
           { unfold state4.
             rewrite (proj1 (recordFallback_cooldowns _ _)),
                     (proj1 (recordFailure_cooldowns _ _)), setCooldown_5m_spec.
             reflexivity. }
           assert (Hr4 : roundRobinIndex state4 = roundRobinIndex state).
           { unfold state4.
             rewrite (proj2 (recordFallback_cooldowns _ _)),
                     (proj2 (recordFailure_cooldowns _ _)), setCooldown_5m_spec.
             exact Hrr. }
           assert (Hm4 : only_failures state state4).
           { apply (only_failures_trans _ (setCooldown_5m (Date_now w1) (modelKey t) state1)).
             - apply only_failures_same_metrics. rewrite setCooldown_5m_spec. exact Hmet.
             - apply only_failures_status. }
           specialize (IH state4 w1).
           destruct (try_targets fetch Date_now virtualModelID ts state4 w1)
             as [[settled state'] w'].
           destruct IH as (H1 & H2 & H3 & H4 & H5).
           split; [exact H1|]. split; [exact H2|].
           split; [|split; [now rewrite H4|exact (only_failures_trans _ _ _ Hm4 H5)]].
           intros v Hv. destruct (H3 v Hv) as [-> Hall]. split; [reflexivity|].
           intros k Hk. apply Hall. exact (Hkeep state4 _ k Hc4 Hk).
        -- split; [intros r [= <-]; exact Hretry|]. split; [discriminate|].
           split; [discriminate|]. split; [exact Hrr|].
           now apply only_failures_same_metrics.
      * set (state3 := setCooldown_5m (Date_now w1) (modelKey t)
                         (recordFailure (modelKey t) state1)).
        assert (Hc3 : cooldowns state3
                      = <[modelKey t := (Date_now w1 + 300000)%Q]> (cooldowns state1)).
        { unfold state3. rewrite setCooldown_5m_spec. cbn.
          now rewrite (proj1 (recordFailure_cooldowns _ _)). }
        assert (Hr3 : roundRobinIndex state3 = roundRobinIndex state).
        { unfold state3. rewrite setCooldown_5m_spec. cbn.
          now rewrite (proj2 (recordFailure_cooldowns _ _)). }
        assert (Hm3 : only_failures state state3).
        { apply (only_failures_trans _ (recordFailure (modelKey t) state1)).
          - apply (only_failures_trans _ state1);
              [now apply only_failures_same_metrics|apply only_failures_thrown].
          - apply only_failures_same_metrics. unfold state3.
            now rewrite setCooldown_5m_spec. }
        specialize (IH state3 w1).
        destruct (try_targets fetch Date_now virtualModelID ts state3 w1)
          as [[settled state'] w'].
        destruct IH as (H1 & H2 & H3 & H4 & H5).
        split; [exact H1|]. split; [exact H2|].
        split; [|split; [now rewrite H4|exact (only_failures_trans _ _ _ Hm3 H5)]].
        intros v Hv. destruct (H3 v Hv) as [-> Hall]. split; [reflexivity|].
        intros k Hk. apply Hall. exact (Hkeep state3 _ k Hc3 Hk).
Qed.

Lemma fetch_hook_routed requestedModel virtualModelID config p w :
  asks_for requestedModel virtualModelID ->
  Plugin.virtualModels (Plugin.loadedConfig p) !! virtualModelID = Some config ->
  fetch_hook fetch Date_now requestedModel p w =
    let '(targets, state1, rt1) :=
      Strategies.selectTargets virtualModelID config (Plugin.state p) (Plugin.runtime p) in
    let '(settled, state2, w1) :=
      try_targets fetch Date_now virtualModelID (Runtime.read targets rt1) state1 w in
    (settled, Plugin.set_state state2 rt1 p, w1).
Proof.
  intros (m & -> & Hm & Hid) Hconf. unfold fetch_hook.
  rewrite (eqb_false_of_ne _ _ Hm).
  destruct Hid as [[Hs ->]|[Hs ->]]; rewrite Hs, Hconf; reflexivity.
Qed.

Lemma fetch_hook_passes_through requestedModel p w :
  (forall virtualModelID,
     asks_for requestedModel virtualModelID ->
     Plugin.virtualModels (Plugin.loadedConfig p) !! virtualModelID = None) ->
  fetch_hook fetch Date_now requestedModel p w = pass_through fetch p w.
Proof.
  intros Hnone. unfold fetch_hook. destruct requestedModel as [m|]; [|reflexivity].
  destruct (String.eqb m "") eqn:Hm; [reflexivity|]. apply String.eqb_neq in Hm.
  destruct (startsWith m "virtual/") eqn:Hs.
  - rewrite (Hnone m); [reflexivity|]. exists m. auto.
  - rewrite (Hnone ("virtual/" +:+ m)); [reflexivity|]. exists m. auto.
Qed.

End FetchFacts.

Lemma asks_for_unique requestedModel a b :
  asks_for requestedModel a -> asks_for requestedModel b -> a = b.
Proof.
  intros (m & -> & _ & Ha) (m' & [= <-] & _ & Hb).
  destruct Ha as [[Hs ->]|[Hs ->]], Hb as [[Hs' ->]|[Hs' ->]]; congruence.
Qed.

(** A request asks for a loaded virtual model, or for none. *)
Lemma classic_routed requestedModel (p : Plugin.Closure) :
  (forall virtualModelID,
     asks_for requestedModel virtualModelID ->
     Plugin.virtualModels (Plugin.loadedConfig p) !! virtualModelID = None) \/
  exists virtualModelID config,
    asks_for requestedModel virtualModelID /\
    Plugin.virtualModels (Plugin.loadedConfig p) !! virtualModelID = Some config.
Proof.
  destruct requestedModel as [m|]; [|left; intros v (m & H & _); discriminate].
  destruct (String.eqb m "") eqn:Hm.
  { apply String.eqb_eq in Hm. left. intros v (m' & [= <-] & Hne & _). contradiction. }
  apply String.eqb_neq in Hm.
  set (v := if startsWith m "virtual/" then m else "virtual/" +:+ m).
  assert (Hv : asks_for (Some m) v).
  { exists m. split; [reflexivity|]. split; [exact Hm|]. unfold v.
    destruct (startsWith m "virtual/"); auto. }
  destruct (Plugin.virtualModels (Plugin.loadedConfig p) !! v) as [config|] eqn:Hc.
  - right. eauto.
  - left. intros v' Hv'. now rewrite (asks_for_unique _ _ _ Hv' Hv).
Qed.

(** Extra X24.  The fetch pipeline for a request that asks for a loaded
    virtual model.  A response that it returns never has status 429, 502
    or 503; a rejection of the host's fetch is never passed on; and when
    it gives up, the error names the virtual model asked for.  The
    loaded configuration and the session maps are as they were. *)
Theorem fetch_hook_returns_no_retryable_status :
  forall (W : Type) (fetch : AuthLoader.Forwarded -> W -> Strategies.Outcome * W)
         (Date_now : W -> Q) (requestedModel : option string) (p : Plugin.Closure) (w : W)
         (virtualModelID : string) (config : VirtualModelConfig.t),
    asks_for requestedModel virtualModelID ->
    Plugin.virtualModels (Plugin.loadedConfig p) !! virtualModelID = Some config ->
    let '(settled, p', _) := AuthLoader.fetch_hook fetch Date_now requestedModel p w in
    match settled with
    | AuthLoader.Returned response =>
        Strategies.status response <> 429%Z /\ Strategies.status response <> 502%Z /\
        Strategies.status response <> 503%Z
    | AuthLoader.FetchRejected _ => False
    | AuthLoader.AllTargetsExhausted v => v = virtualModelID
    end /\
    Plugin.loadedConfig p' = Plugin.loadedConfig p /\
    Plugin.sessionFallbackCursor p' = Plugin.sessionFallbackCursor p /\
    Plugin.sessionVirtualModel p' = Plugin.sessionVirtualModel p.
Proof.
  intros W fetch Date_now requestedModel p w virtualModelID config Hasks Hconf.
  rewrite (fetch_hook_routed fetch Date_now _ _ _ _ _ Hasks Hconf).
  destruct (Strategies.selectTargets virtualModelID config (Plugin.state p) (Plugin.runtime p))
    as [[targets state1] rt1].
  pose proof (try_targets_spec fetch Date_now virtualModelID (Runtime.read targets rt1)
                state1 w) as H.
  destruct (AuthLoader.try_targets fetch Date_now virtualModelID (Runtime.read targets rt1)
              state1 w) as [[settled state2] w1].
  destruct H as (H1 & H2 & H3 & _).
  split; [|cbn; auto].
  destruct settled as [response|e|v].
  - specialize (H1 response eq_refl). unfold AuthLoader.retryable in H1.
    apply orb_false_iff in H1 as [H1 H502]. apply orb_false_iff in H1 as [H429 H503].
    apply Z.eqb_neq in H429, H502, H503. auto.
  - exact (H2 e eq_refl).
  - exact (proj1 (H3 v eq_refl)).
Qed.

(** The pipeline against a host that answers 503 for A and 200 for B:
    the response of B is returned. *)
Lemma fetch_hook_returns_no_retryable_status_witness :
  asks_for (Some "w") "virtual/w" /\
  Plugin.virtualModels (Plugin.loadedConfig fresh_plugin) !! "virtual/w"
  = Some (two_targets None) /\
  let '(settled, p', _) := AuthLoader.fetch_hook flaky_a id (Some "w") fresh_plugin 1000%Q in
  settled = AuthLoader.Returned {| Strategies.status := 200; Strategies.body := "ok" |} /\
  Plugin.loadedConfig p' = Plugin.loadedConfig fresh_plugin.
Proof.
  assert (Hasks : asks_for (Some "w") "virtual/w").
  { exists "w". split; [reflexivity|]. split; [discriminate|]. right. split; reflexivity. }
  assert (Hconf : Plugin.virtualModels (Plugin.loadedConfig fresh_plugin) !! "virtual/w"
                  = Some (two_targets None)) by (vm_compute; reflexivity).
  split; [exact Hasks|]. split; [exact Hconf|].
  pose proof (fetch_hook_returns_no_retryable_status Q flaky_a id (Some "w") fresh_plugin
                1000%Q "virtual/w" (two_targets None) Hasks Hconf) as H.
  assert (Hrun : fst (fst (AuthLoader.fetch_hook flaky_a id (Some "w") fresh_plugin 1000%Q))
                 = AuthLoader.Returned {| Strategies.status := 200; Strategies.body := "ok" |})
    by (vm_compute; reflexivity).
  destruct (AuthLoader.fetch_hook flaky_a id (Some "w") fresh_plugin 1000%Q)
    as [[settled p'] w'].
  cbn [fst] in Hrun. destruct H as (_ & Hcfg & _). split; [exact Hrun|exact Hcfg].
Defined.

Section FetchTraceFacts.
Import State AuthLoader.
Context {W : Type} (fetch : Forwarded -> W -> Strategies.Outcome * W) (Date_now : W -> Q).


(** With every target cooled down, the loop calls nothing. *)
Lemma try_targets_all_cooled virtualModelID ts :
  forall state w,
    (forall t, t ∈ ts -> verdict (Date_now w) state (modelKey t) = true) ->
    try_targets fetch Date_now virtualModelID ts state w
    = (AllTargetsExhausted virtualModelID, state, w).
Proof.
  induction ts as [|t ts IH]; intros state w Hall; [reflexivity|].
  rewrite try_targets_cons.
  pose proof (Hall t ltac:(apply elem_of_cons; now left)) as Ht. unfold verdict in Ht.
  destruct (isInCooldown_true _ _ _ Ht) as [Hs _].
  destruct (isInCooldown (Date_now w) (modelKey t) state) as [cooled state1].
  cbn [fst snd] in *. subst cooled state1.
  apply IH. intros t' Ht'. apply Hall. apply elem_of_cons. now right.
Qed.

(** On a clock that stands still during the call, a target that was
    tried and failed is cooled down from then on. *)
Lemma try_targets_cools virtualModelID now ts :
  (0 < now)%Q ->
  (forall w, Date_now w = now) ->
  forall state w v state' w',
    try_targets fetch Date_now virtualModelID ts state w = (AllTargetsExhausted v, state', w') ->
    forall k, (verdict now state k = true \/ exists t, t ∈ ts /\ modelKey t = k) ->
              verdict now state' k = true.
Proof.
  intros Hnow Hclock.
  assert (Hset : forall (st st1 : RouterState) key k,
            cooldowns st = <[key := (now + 300000)%Q]> (cooldowns st1) ->
            (k = key \/ verdict now st1 k = true) -> verdict now st k = true).
  { intros st st1 key k Hc Hk. rewrite verdict_lookup, Hc.
    destruct (decide (k = key)) as [->|Hne].
    - rewrite lookup_insert_eq.
      assert (E0 : Qeq_bool (now + 300000) 0 = false) by (apply Qeq_bool_false; lra).
      assert (E1 : Qle_bool (now + 300000) now = false) by (apply Qle_bool_false; lra).
      now rewrite E0, E1.
    - destruct Hk as [Hk|Hk]; [contradiction|].
      rewrite lookup_insert_ne by done. now rewrite <- verdict_lookup. }
  induction ts as [|t ts IH]; intros state w v state' w'.
  - cbn. intros [= <- <- <-] k [H|(t & Ht & _)]; [exact H|inversion Ht].
  - rewrite try_targets_cons, Hclock.
    pose proof (fun k => isInCooldown_verdicts now (modelKey t) state k) as Hv.
    assert (Hfst : verdict now state (modelKey t) = fst (isInCooldown now (modelKey t) state))
      by reflexivity.
    destruct (isInCooldown now (modelKey t) state) as [cooled state1].
    cbn [fst snd] in *.
    assert (Hstep : forall st,
              cooldowns st = <[modelKey t := (now + 300000)%Q]> (cooldowns state1) ->
              forall k, (verdict now state k = true \/ exists t', t' ∈ t :: ts /\ modelKey t' = k) ->
                        verdict now st k = true \/ exists t', t' ∈ ts /\ modelKey t' = k).
    { intros st Hc k [H|(t' & Ht' & Hk)].
      - left. apply (Hset st state1 (modelKey t) k Hc). right. now rewrite Hv.
      - apply elem_of_cons in Ht' as [->|Ht'].
        + left. apply (Hset st state1 (modelKey t) k Hc). now left.
        + right. eauto. }
    destruct cooled.
    + intros Hrun k Hk. apply (IH state1 w v state' w' Hrun).
      destruct Hk as [H|(t' & Ht' & Hk)]; [left; now rewrite Hv|].
      apply elem_of_cons in Ht' as [->|Ht']; [|right; eauto].
      left. now rewrite Hv, <- Hk.
    + destruct (fetch (forwarded_for t) w) as [[response|err] w1].
      * destruct (retryable (Strategies.status response)); [|discriminate].
        rewrite Hclock. intros Hrun k Hk. apply (IH _ w1 v state' w' Hrun).
        apply Hstep; [|exact Hk].
        rewrite (proj1 (recordFallback_cooldowns _ _)),
                (proj1 (recordFailure_cooldowns _ _)), setCooldown_5m_spec.
        reflexivity.
      * rewrite Hclock. intros Hrun k Hk. apply (IH _ w1 v state' w' Hrun).
        apply Hstep; [|exact Hk].
        rewrite setCooldown_5m_spec. cbn.
        now rewrite (proj1 (recordFailure_cooldowns _ _)).
Qed.

End FetchTraceFacts.



(** Extra X26.  The fetch pipeline records failures and nothing else.
    Whatever the request and whatever the host answers, the metrics of
    every key have after the call the successes and the total latency
    they had before, one more request for every failure added, and at
    most one more fallback for every failure added: the pipeline never
    records a success. *)
Theorem fetch_hook_records_only_failures :
  forall (W : Type) (fetch : AuthLoader.Forwarded -> W -> Strategies.Outcome * W)
         (Date_now : W -> Q) (requestedModel : option string) (p : Plugin.Closure) (w : W),
    only_failures (Plugin.state p)
                  (Plugin.state (snd (fst (AuthLoader.fetch_hook fetch Date_now
                                                                requestedModel p w)))).
Proof.
  intros W fetch Date_now requestedModel p w.
  destruct (classic_routed requestedModel p) as [Hnone|(virtualModelID & config & Hasks & Hconf)].
  - rewrite (fetch_hook_passes_through fetch Date_now _ _ _ Hnone).
    unfold AuthLoader.pass_through.
    destruct (fetch AuthLoader.Original w) as [[response|err] w1];
      apply only_failures_refl.
  - rewrite (fetch_hook_routed fetch Date_now _ _ _ _ _ Hasks Hconf).
    pose proof (selectTargets_frame virtualModelID config (Plugin.state p) (Plugin.runtime p))
      as [_ Hmet].
    destruct (Strategies.selectTargets virtualModelID config (Plugin.state p) (Plugin.runtime p))
      as [[targets state1] rt1].
    cbn [fst snd] in Hmet.
    pose proof (try_targets_spec fetch Date_now virtualModelID (Runtime.read targets rt1)
                  state1 w) as H.
    destruct (AuthLoader.try_targets fetch Date_now virtualModelID (Runtime.read targets rt1)
                state1 w) as [[settled state2] w1].
    destruct H as (_ & _ & _ & _ & Honly). cbn.
    apply (only_failures_trans _ state1); [now apply only_failures_same_metrics|exact Honly].
Qed.

(** Extra X27.  Exhaustion cools every target down.  On a clock that
    stands still during the call, when the pipeline gives up on a loaded
    virtual model every configured target of that model is cooled down
    afterwards, and the same request made again at that instant is given
    up at once, without a single request to the host. *)
Theorem exhausted_pipeline_cools_every_target :
  forall (W : Type) (fetch : AuthLoader.Forwarded -> W -> Strategies.Outcome * W)
         (Date_now : W -> Q) (now : Q) (requestedModel : option string)
         (p : Plugin.Closure) (w : W)
         (virtualModelID : string) (config : VirtualModelConfig.t) (ts0 : list TargetModel.t),
    (0 < now)%Q -> (forall w0, Date_now w0 = now) ->
    asks_for requestedModel virtualModelID ->
    Plugin.virtualModels (Plugin.loadedConfig p) !! virtualModelID = Some config ->
    Runtime.arrays (Plugin.runtime p) !! VirtualModelConfig.targets config = Some ts0 ->
    let '(settled, p', w') := AuthLoader.fetch_hook fetch Date_now requestedModel p w in
    forall v, settled = AuthLoader.AllTargetsExhausted v ->
      (forall t, t ∈ ts0 -> cooled now (Plugin.state p') t) /\
      let '(again, _, (_, log)) :=
        AuthLoader.fetch_hook (recording fetch) (fun wl => Date_now (fst wl))
                              requestedModel p' (w', []) in
      again = AuthLoader.AllTargetsExhausted virtualModelID /\ log = [].
Proof.
  intros W fetch Date_now now requestedModel p w virtualModelID config ts0
         Hnow Hclock Hasks Hconf Harr.
  rewrite (fetch_hook_routed fetch Date_now _ _ _ _ _ Hasks Hconf).
  pose proof (selectTargets_fresh_permutation virtualModelID config (Plugin.state p)
                (Plugin.runtime p) ts0 Harr) as Hsel.
  destruct (Strategies.selectTargets virtualModelID config (Plugin.state p) (Plugin.runtime p))
    as [[targets state1] rt1].
  destruct Hsel as ((_ & _ & Hperm & Hpres & _) & _).
  pose proof (try_targets_cools fetch Date_now virtualModelID now (Runtime.read targets rt1)
                Hnow Hclock state1 w) as Hcools.
  destruct (AuthLoader.try_targets fetch Date_now virtualModelID (Runtime.read targets rt1)
              state1 w) as [[settled state2] w1].
  intros v ->.
  assert (Hall : forall t, t ∈ ts0 -> verdict now state2 (modelKey t) = true).
  { intros t Ht. apply (Hcools v state2 w1 eq_refl). right. exists t.
    split; [now rewrite Hperm|reflexivity]. }
  split; [exact Hall|].
  assert (Hconf' : Plugin.virtualModels (Plugin.loadedConfig (Plugin.set_state state2 rt1 p))
                   !! virtualModelID = Some config) by exact Hconf.
  rewrite (fetch_hook_routed (recording fetch) (fun wl => Date_now (fst wl))
             _ _ _ _ _ Hasks Hconf').
  cbn [Plugin.state Plugin.runtime Plugin.set_state].
  assert (Harr' : Runtime.arrays rt1 !! VirtualModelConfig.targets config = Some ts0).
  { rewrite Hpres; [exact Harr|]. unfold allocated. eapply lookup_lt_Some. exact Harr. }
  pose proof (selectTargets_fresh_permutation virtualModelID config state2 rt1 ts0 Harr')
    as Hsel'.
  destruct (Strategies.selectTargets virtualModelID config state2 rt1)
    as [[targets' state1'] rt1'].
  destruct Hsel' as ((_ & _ & Hperm' & _) & Hcd' & _).
  rewrite (try_targets_all_cooled (recording fetch) (fun wl => Date_now (fst wl))
             virtualModelID (Runtime.read targets' rt1') state1' (w1, [])).
  - split; reflexivity.
  - intros t Ht. cbn [fst]. rewrite Hclock.
    rewrite (verdict_same_cooldowns now state2 state1' _ Hcd').
    apply Hall. now rewrite <- Hperm'.
Qed.

(** A host that is offline: the pipeline gives up on "virtual/w", A and
    B are cooled down, and the request made again reaches no host. *)
Lemma exhausted_pipeline_cools_every_target_witness :
  asks_for (Some "virtual/w") "virtual/w" /\
  let '(settled, p', w') :=
    AuthLoader.fetch_hook offline (fun _ => 1000%Q) (Some "virtual/w") fresh_plugin 0%Q in
  settled = AuthLoader.AllTargetsExhausted "virtual/w" /\
  cooled 1000 (Plugin.state p') target_a /\ cooled 1000 (Plugin.state p') target_b /\
  let '(again, _, (_, log)) :=
    AuthLoader.fetch_hook (recording offline) (fun wl => 1000%Q)
                          (Some "virtual/w") p' (w', []) in
  again = AuthLoader.AllTargetsExhausted "virtual/w" /\ log = [].
Proof.
  assert (Hasks : asks_for (Some "virtual/w") "virtual/w").
  { exists "virtual/w". split; [reflexivity|]. split; [discriminate|]. left. split; reflexivity. }
  split; [exact Hasks|].
  pose proof (exhausted_pipeline_cools_every_target Q offline (fun _ => 1000%Q) 1000
                (Some "virtual/w") fresh_plugin 0%Q "virtual/w" (two_targets None)
                [target_a; target_b] eq_refl (fun _ => eq_refl) Hasks eq_refl eq_refl) as H.
  assert (Hrun : fst (fst (AuthLoader.fetch_hook offline (fun _ => 1000%Q) (Some "virtual/w")
                             fresh_plugin 0%Q))
                 = AuthLoader.AllTargetsExhausted "virtual/w") by (vm_compute; reflexivity).
  destruct (AuthLoader.fetch_hook offline (fun _ => 1000%Q) (Some "virtual/w")
              fresh_plugin 0%Q) as [[settled p'] w'].
  cbn [fst] in Hrun. destruct (H "virtual/w" Hrun) as [Hcooled Hagain].
  split; [exact Hrun|].
  split; [apply Hcooled; apply elem_of_cons; now left|].
  split; [apply Hcooled; apply elem_of_cons; right; apply elem_of_cons; now left|].
  exact Hagain.
Defined.

Section LogFacts.
Import Strategies.
Context {W : Type} (fn : W -> Outcome * W).
Variables (maxRetries : nat) (multiplier maxDelay : Q) (fallbackOn : FallbackOn).

Lemma alternating_snoc log o ms :
  alternating (log ++ [Called o]) -> forall rest, alternating rest ->
  alternating ((log ++ [Called o]) ++ Slept ms :: rest).
Proof.
  intros Hlog rest Hrest.
  remember (log ++ [Called o]) as l eqn:Hl. revert log Hl.
  induction Hlog as [o'|o' ms' rest' Hrest' IH]; intros log Hl.
  - cbn. now constructor.
  - cbn. constructor. destruct log as [|e1 [|e2 log]]; try discriminate.
    cbn in Hl. injection Hl as _ _ Hl. exact (IH log Hl).
Qed.

Lemma attempts_log fuel :
  forall attempt delay ls le w log,
    attempt + S fuel = S maxRetries ->
    (log = [] \/ exists log0 o ms, log = (log0 ++ [Called o]) ++ [Slept ms] /\
                                  alternating (log0 ++ [Called o])) ->
    alternating (snd (attempts fn maxRetries multiplier maxDelay fallbackOn
                               (S fuel) attempt delay ls le w log)).
Proof.
  assert (Hend : forall log o,
            (log = [] \/ exists log0 o' ms, log = (log0 ++ [Called o']) ++ [Slept ms] /\
                                           alternating (log0 ++ [Called o'])) ->
            alternating (log ++ [Called o])).
  { intros log o [->|(log0 & o' & ms & -> & Halt)]; [constructor|].
    rewrite <- app_assoc. cbn. apply alternating_snoc; [exact Halt|constructor]. }
  induction fuel as [|fuel IH]; intros attempt delay ls le w log Hfuel Hlog;
    rewrite attempts_step; destruct (fn w) as [o w1]; cbv zeta.
  - assert (Hlt : (attempt <? maxRetries)%nat = false) by (apply Nat.ltb_ge; lia).
    rewrite Hlt. destruct o as [resp|err]; [destruct (shouldFallbackStatus _ _)|];
      cbn [snd]; now apply Hend.
  - assert (Hlt : (attempt <? maxRetries)%nat = true) by (apply Nat.ltb_lt; lia).
    rewrite Hlt.
    assert (Hnext : forall ls' le',
              alternating (snd (attempts fn maxRetries multiplier maxDelay fallbackOn
                                         (S fuel) (S attempt)
                                         (Qmin (delay * multiplier) maxDelay) ls' le' w1
                                         ((log ++ [Called o]) ++ [Slept delay])))).
    { intros ls' le'. apply IH; [lia|]. right. exists log, o, delay.
      split; [reflexivity|now apply Hend]. }
    destruct o as [resp|err]; [destruct (shouldFallbackStatus _ _)|].
    + apply Hnext.
    + cbn [snd]. now apply Hend.
    + apply Hnext.
Qed.

End LogFacts.

(** Extra X28.  The log of [executeWithBackoff] alternates: it begins
    with a call of the attempt function, every sleep stands between two
    calls, and it ends with a call, so the executor never sleeps after
    the last attempt and never retries without waiting. *)
Theorem executeWithBackoff_log_alternates :
  forall (W : Type) (fn : W -> Strategies.Outcome * W) (profile : StrategyProfile.t)
         (fallbackOn : FallbackOn) (w : W)
         (result : Strategies.BackoffResult) (w' : W) (log : list Strategies.Event),
    Strategies.executeWithBackoff fn profile fallbackOn w = Ok (result, w', log) ->
    alternating log.
Proof.
  intros W fn profile fallbackOn w result w' log.
  unfold Strategies.executeWithBackoff.
  destruct (Duration.parseDuration _) as [delay|e]; [|discriminate]. cbn [Strategies.bind].
  destruct (Duration.parseDuration _) as [maxDelay|e]; [|discriminate]. cbn [Strategies.bind].
  cbv zeta.
  pose proof (attempts_log fn (nullish (StrategyProfile.max_retries profile) 0)
                (nullish (opt_chain (StrategyProfile.backoff profile) Backoff.multiplier) 2%Q)
                maxDelay fallbackOn (nullish (StrategyProfile.max_retries profile) 0)
                0 delay None None w [] eq_refl (or_introl eq_refl)) as H.
  destruct (Strategies.attempts fn _ _ maxDelay fallbackOn _ 0 delay None None w [])
    as [[result0 w0] log0].
  intros [= <- <- <-]. exact H.
Qed.

(** The log of the run against a backend that always answers 503, with
    one retry: a call, a sleep of 2s, a call. *)
Lemma executeWithBackoff_log_alternates_witness :
  exists result w' log,
    Strategies.executeWithBackoff always_503 slow_start [status_code 503] 0
    = Ok (result, w', log) /\
    length log = 3 /\ alternating log.
Proof.
  assert (Hrun : exists result w' log,
            Strategies.executeWithBackoff always_503 slow_start [status_code 503] 0
            = Ok (result, w', log) /\ length log = 3).
  { vm_compute. eexists _, _, _. split; reflexivity. }
  destruct Hrun as (result & w' & log & Hrun & Hlen).
  exists result, w', log. split; [exact Hrun|]. split; [exact Hlen|].
  exact (executeWithBackoff_log_alternates nat always_503 slow_start [status_code 503] 0
           result w' log Hrun).
Defined.

Section WarningFacts.
Import Loader.

Lemma load_model_warns raw acc name m :
  (name, m) ∈ nullish (models raw) [] ->
  Forall (warned_for raw) (snd acc) ->
  Forall (warned_for raw)
         (snd (load_model (load_profiles (nullish (strategies raw) [])) acc (name, m))) /\
  length (snd (load_model (load_profiles (nullish (strategies raw) [])) acc (name, m)))
  <= S (length (snd acc)).
Proof.
  destruct acc as [vm warned]. cbn [snd]. intros Hin Hall. unfold load_model.
  assert (Hno : no_targets m ->
            Forall (warned_for raw) (warned ++ [no_targets_warning name])).
  { intros H. apply Forall_app. split; [exact Hall|].
    constructor; [|constructor]. exists name, m. split; [exact Hin|]. left. auto. }
  destruct (targets m) as [[|t ts]|] eqn:Ht; cbn [snd].
  - split; [apply Hno; now right|]. rewrite length_app. cbn. lia.
  - assert (Hyes : ~ no_targets m) by (intros [H|H]; congruence).
    assert (Hsp : strategy_profile
                    (if no_strategy (strategy m)
                     then {| strategy := Some sequential;
                             strategy_profile := strategy_profile m;
                             fallback_on := fallback_on m;
                             cooldown := cooldown m;
                             targets := Some (t :: ts) |}
                     else m) = strategy_profile m)
      by (destruct (no_strategy (strategy m)); reflexivity).
    rewrite Hsp. destruct (strategy_profile m) as [p|] eqn:Hp; [|split; [exact Hall|lia]].
    destruct (String.eqb p "") eqn:Hpe; cbn [negb andb]; [split; [exact Hall|lia]|].
    destruct (map_has p (load_profiles (nullish (strategies raw) []))) eqn:Hhas; cbn [negb];
      [split; [exact Hall|lia]|].
    split; [|rewrite length_app; cbn; lia].
    apply Forall_app. split; [exact Hall|]. constructor; [|constructor].
    exists name, m. split; [exact Hin|]. right. split; [exact Hyes|].
    exists p. split; [|reflexivity].
    split; [exact Hp|]. split; [now apply String.eqb_neq|].
    now apply map_has_profiles.
  - split; [apply Hno; now left|]. rewrite length_app. cbn. lia.
Qed.

Lemma load_models_warn raw entries :
  forall acc,
    (forall e, e ∈ entries -> e ∈ nullish (models raw) []) ->
    Forall (warned_for raw) (snd acc) ->
    Forall (warned_for raw)
           (snd (fold_left (load_model (load_profiles (nullish (strategies raw) [])))
                           entries acc)) /\
    length (snd (fold_left (load_model (load_profiles (nullish (strategies raw) [])))
                           entries acc))
    <= length entries + length (snd acc).
Proof.
  induction entries as [|[name m] entries IH]; intros acc Hsub Hall; cbn [fold_left].
  - split; [exact Hall|cbn; lia].
  - destruct (load_model_warns raw acc name m) as [Hall' Hlen'];
      [apply Hsub; apply elem_of_cons; now left|exact Hall|].
    destruct (IH (load_model (load_profiles (nullish (strategies raw) [])) acc (name, m)))
      as [Hall'' Hlen'']; [|exact Hall'|].
    + intros e He. apply Hsub. apply elem_of_cons. now right.
    + split; [exact Hall''|]. cbn [length]. lia.
Qed.

End WarningFacts.

(** Extra X29.  The loader warns only for cause.  Every warning of
    [loadConfig] is about an entry of the document: either the entry has
    no targets, or it has targets and names a profile that the document
    does not hold.  There is at most one warning for each entry, so a
    document whose entries all have targets and known profiles loads
    without any warning. *)
Theorem loadConfig_warns_only_for_cause :
  forall raw : Loader.VirtualConfig,
    let warned := snd (Loader.loadConfig raw) in
    Forall (warned_for raw) warned /\
    length warned <= length (nullish (Loader.models raw) []).
Proof.
  intros raw. cbv zeta. unfold Loader.loadConfig.
  pose proof (load_models_warn raw (nullish (Loader.models raw) []) ([], [])
                (fun e He => He) (Forall_nil_2 _)) as H.
  destruct (fold_left (Loader.load_model _) (nullish (Loader.models raw) []) ([], []))
    as [vm warned].
  cbn [snd length] in *. destruct H as [Hall Hlen]. split; [exact Hall|lia].
Qed.

Section ReportThenDispatch.
Import State Plugin.

(** After a report with a cooldown of more than zero milliseconds, the
    target at the cursor is cooled down. *)
Lemma mark_failed_cools now d ms t state1 :
  Duration.parseDuration d = Ok ms -> (0 < ms)%Q -> (0 < now)%Q ->
  exists state3,
    mark_failed now (Some d) (Some t) state1 = (None, state3) /\
    verdict now state3 (modelKey t) = true.
Proof.
  intros Hp Hms Hnow. unfold mark_failed. rewrite (setCooldown_parsed _ _ _ _ _ Hp).
  eexists. split; [reflexivity|].
  rewrite verdict_lookup. cbn. rewrite lookup_insert_eq.
  assert (E0 : Qeq_bool (now + ms) 0 = false) by (apply Qeq_bool_false; lra).
  assert (E1 : Qle_bool (now + ms) now = false) by (apply Qle_bool_false; lra).
  now rewrite E0, E1.
Qed.

End ReportThenDispatch.

Section WindowFacts.
Import State Plugin.

(** A scan at an instant does not change the answers of the cooldown
    checks at that instant or later. *)
Lemma scan_later now later rest :
  (now <= later)%Q ->
  forall i state k,
    verdict later (snd (scan now i rest state)) k = verdict later state k.
Proof.
  intros Hle. induction rest as [|t rest IH]; intros i state k; cbn [scan]; [reflexivity|].
  fold (modelKey t).
  pose proof (verdict_later now later state (modelKey t) k Hle) as Hv.
  destruct (isInCooldown now (modelKey t) state) as [[|] state1]; cbn [snd] in *.
  - now rewrite IH.
  - exact Hv.
Qed.

Lemma advance_later now later sessionID_ c ts p1 :
  (now <= later)%Q ->
  (forall k, verdict later (state (snd (advance now sessionID_ c ts p1))) k
             = verdict later (state p1) k) /\
  loadedConfig (snd (advance now sessionID_ c ts p1)) = loadedConfig p1.
Proof.
  intros Hle. unfold advance. cbv zeta. destruct (length ts <=? c + 1)%nat; [now cbn|].
  cbn [state set_cursor set_state runtime].
  pose proof (scan_later now later (drop (c + 1) ts) Hle (c + 1) (state p1)) as Hv.
  destruct (scan now (c + 1) (drop (c + 1) ts) (state p1)) as [[[i r]|] state4];
    cbn [snd] in *; now cbn.
Qed.

(** The target that the event hook charges is cooled down until the
    cooldown has passed. *)
Lemma mark_failed_cools_until now later d ms t state1 :
  Duration.parseDuration d = Ok ms -> (0 < now)%Q -> (now <= later)%Q -> (later < now + ms)%Q ->
  exists state3,
    mark_failed now (Some d) (Some t) state1 = (None, state3) /\
    verdict later state3 (modelKey t) = true.
Proof.
  intros Hp Hnow Hle Hlt. unfold mark_failed. rewrite (setCooldown_parsed _ _ _ _ _ Hp).
  eexists. split; [reflexivity|].
  rewrite verdict_lookup. cbn. rewrite lookup_insert_eq.
  assert (E0 : Qeq_bool (now + ms) 0 = false) by (apply Qeq_bool_false; lra).
  assert (E1 : Qle_bool (now + ms) later = false) by (apply Qle_bool_false; lra).
  now rewrite E0, E1.
Qed.

Lemma virtual_prefix_nonempty name : "virtual/" +:+ name <> "".
Proof. discriminate. Qed.

Lemma addresses_nonempty m virtualModelID : addresses m virtualModelID -> virtualModelID <> "".
Proof.
  intros [[_ ->]|(_ & Hs & ->)]; [apply virtual_prefix_nonempty|].
  intros E. rewrite E in Hs. discriminate.
Qed.

(** The dispatch of a session under a strategy that keeps the configured
    order: the message goes to the first viable target from the cursor
    of the session on, and the cursor is set to its position. *)
Lemma chat_message_dispatches now sessionID_ incoming output p m virtualModelID config ts i t :
  requested_model incoming output = Some m ->
  addresses m virtualModelID ->
  virtualModels (loadedConfig p) !! virtualModelID = Some config ->
  VirtualModelConfig.strategy config <> round_robin ->
  VirtualModelConfig.strategy config <> random ->
  VirtualModelConfig.strategy config <> weighted ->
  Runtime.arrays (runtime p) !! VirtualModelConfig.targets config = Some ts ->
  first_viable now (state p) ts (default 0 (sessionFallbackCursor p !! sessionID_)) i t ->
  let '(result, p1) := chat_message now sessionID_ incoming output p in
  result = Some (model_ref t) /\
  sessionVirtualModel p1 !! sessionID_ = Some virtualModelID /\
  sessionFallbackCursor p1 !! sessionID_ = Some i /\
  loadedConfig p1 = loadedConfig p /\
  Runtime.arrays (runtime p1) !! VirtualModelConfig.targets config = Some ts.
Proof.
  intros Hreq Haddr Hconf Hrr Hrand Hw Harr (Hle & Hl & Hnot & Hbefore).
  pose proof (selectTargets_in_order virtualModelID config (state p) (runtime p) ts
                Hrr Hrand Hw Harr) as Hsel.
  rewrite chat_message_unfold. cbv zeta. rewrite Hreq.
  apply addresses_computed in Haddr. rewrite Haddr, Hconf.
  cbn [state runtime set_sessionVirtualModel sessionFallbackCursor].
  change (nullish (sessionFallbackCursor p !! sessionID_) 0)
    with (default 0 (sessionFallbackCursor p !! sessionID_)).
  set (c := default 0 (sessionFallbackCursor p !! sessionID_)) in *.
  destruct (Strategies.selectTargets virtualModelID config (state p) (runtime p))
    as [[targets state1] rt1].
  destruct Hsel as (-> & -> & Hkeep).
  pose proof (scan_spec now (drop c ts) c (state p)) as Hscan.
  destruct (scan now c (drop c ts) (state p)) as [found state2].
  destruct Hscan as [_ Hfound].
  unfold cooled in Hnot, Hbefore.
  destruct found as [[j r]|]; cbn.
  - destruct Hfound as (t' & Hle' & Hl' & -> & Hnot' & Hbefore').
    rewrite lookup_drop in Hl'. replace (c + (j - c)) with j in Hl' by lia.
    assert (Hij : i = j).
    { destruct (Nat.lt_trichotomy i j) as [Hlt|[Heq|Hgt]]; [|exact Heq|].
      - exfalso. apply Hnot. fold (verdict now (state p) (modelKey t)).
        apply (Hbefore' (i - c)); [lia|].
        rewrite lookup_drop. replace (c + (i - c)) with i by lia. exact Hl.
      - exfalso. pose proof (Hbefore j t' ltac:(lia) Hl') as Hc.
        fold (verdict now (state p) (modelKey t')) in Hc. congruence. }
    subst j. rewrite Hl in Hl'. injection Hl' as <-.
    split; [reflexivity|]. split; [apply lookup_insert_eq|].
    split; [apply lookup_insert_eq|]. split; [reflexivity|exact Hkeep].
  - exfalso. apply Hnot. fold (verdict now (state p) (modelKey t)).
    apply (Hfound (i - c)). rewrite lookup_drop. replace (c + (i - c)) with i by lia. exact Hl.
Qed.

End WindowFacts.

(** Extra X30.  A target that has failed is not dispatched again while
    its cooldown lasts.  Under a strategy that keeps the configured
    order (sequential, priority), let a chat.message dispatch a session
    to a target, and let the event hook then receive, at the instant
    [reported], a failure report for the session that warrants a
    fallback, the merged policy of the model having a cooldown of ms
    milliseconds.  Then a chat.message for that model at any instant
    from [reported] until ms later, from the same or any other session,
    either leaves the message as it is (no target is viable) or sends it
    to a target other than the one that failed, and one that is not
    cooled down; and the target that failed is cooled down at that
    instant. *)
Theorem failed_target_is_not_dispatched_next :
  forall (dispatched reported later : Q) (sessionID other : string)
         (error : Plugin.SessionError) (p : Plugin.Closure)
         (virtualModelID : string) (config : VirtualModelConfig.t) (ts : list TargetModel.t)
         (d : string) (ms : Q) (incoming output : option ModelRef.t) (m : ModelRef.t),
    sessionID <> "" ->
    requested_model incoming output = Some m -> addresses m virtualModelID ->
    Plugin.virtualModels (Plugin.loadedConfig p) !! virtualModelID = Some config ->
    VirtualModelConfig.strategy config <> round_robin ->
    VirtualModelConfig.strategy config <> random ->
    VirtualModelConfig.strategy config <> weighted ->
    Runtime.arrays (Plugin.runtime p) !! VirtualModelConfig.targets config = Some ts ->
    Plugin.shouldFallbackForError error config (Plugin.strategyProfiles (Plugin.loadedConfig p))
    = true ->
    cooldown_of config (Plugin.strategyProfiles (Plugin.loadedConfig p)) = Some d ->
    Duration.parseDuration d = Ok ms ->
    (0 < reported)%Q -> (reported <= later)%Q -> (later < reported + ms)%Q ->
    let c := default 0 (Plugin.sessionFallbackCursor p !! sessionID) in
    (* the dispatch of the session, the failure report, and the next dispatch *)
    let '(first, p1) := Plugin.chat_message dispatched sessionID incoming output p in
    let '(_, p2) := Plugin.event reported (failure_report sessionID error) p1 in
    let '(next, p3) := Plugin.chat_message later other incoming output p2 in
    forall i failed,
      first_viable dispatched (Plugin.state p) ts c i failed ->
      (* the session was dispatched to [failed] *)
      first = Some (model_ref failed) /\
      Plugin.sessionFallbackCursor p1 !! sessionID = Some i /\
      cooled later (Plugin.state p3) failed /\
      ((next = output /\
        Plugin.sessionFallbackCursor p3 = Plugin.sessionFallbackCursor p2) \/
       exists t, next = Some (model_ref t) /\ modelKey t <> modelKey failed /\
                 ~ cooled later (Plugin.state p2) t).
Proof.
  intros dispatched reported later sessionID other error p virtualModelID config ts d ms
         incoming output m Hsid Hreq Haddr Hconf Hrr Hrand Hw Harr Hshould Hcd Hp
         Hnow Hle Hlt c.
  pose proof (fun i failed =>
                chat_message_dispatches dispatched sessionID incoming output p m virtualModelID
                  config ts i failed Hreq Haddr Hconf Hrr Hrand Hw Harr) as Hfirst.
  fold c in Hfirst.
  destruct (Plugin.chat_message dispatched sessionID incoming output p) as [first p1].
  (* the three calls, named before the target is *)
  destruct (Plugin.event reported (failure_report sessionID error) p1) as [r2 p2] eqn:Hevent.
  destruct (Plugin.chat_message later other incoming output p2) as [next p3] eqn:Hnext.
  intros i failed Hviable.
  destruct (Hfirst i failed Hviable) as (-> & Hsess & Hcur & Hcfg & Harr1).
  split; [reflexivity|]. split; [exact Hcur|].
  (* the report *)
  rewrite <- Hcfg in Hconf, Hshould, Hcd.
  rewrite (event_on_report reported sessionID error p1 virtualModelID config
             Hsid (addresses_nonempty _ _ Haddr) Hsess Hconf Hshould) in Hevent.
  cbv zeta in Hevent. rewrite Hcur, Hcd in Hevent. cbn [default] in Hevent.
  pose proof (selectTargets_in_order virtualModelID config (Plugin.state p1)
                (Plugin.runtime p1) ts Hrr Hrand Hw Harr1) as Hsel.
  destruct (Strategies.selectTargets virtualModelID config (Plugin.state p1)
              (Plugin.runtime p1)) as [[targets state1] rt1].
  destruct Hsel as (Hread & _ & _). rewrite Hread in Hevent.
  destruct Hviable as (_ & Hl & _). unfold id in Hevent. rewrite Hl in Hevent.
  destruct (mark_failed_cools_until reported later d ms failed state1 Hp Hnow Hle Hlt)
    as (state3 & Hmark & Hcool).
  rewrite Hmark in Hevent.
  pose proof (advance_later reported later sessionID i ts (Plugin.set_state state3 rt1 p1) Hle)
    as [Hv Hcfg2].
  rewrite Hevent in Hv, Hcfg2. cbn [snd Plugin.state Plugin.set_state] in Hv.
  cbn [snd Plugin.loadedConfig Plugin.set_state] in Hcfg2.
  assert (Hcool2 : verdict later (Plugin.state p2) (modelKey failed) = true)
    by now rewrite Hv.
  (* the next dispatch *)
  rewrite chat_message_unfold in Hnext. cbv zeta in Hnext. rewrite Hreq in Hnext.
  apply addresses_computed in Haddr. rewrite Haddr, Hcfg2, Hconf in Hnext.
  cbn [Plugin.state Plugin.runtime Plugin.set_sessionVirtualModel
       Plugin.sessionFallbackCursor] in Hnext.
  pose proof (selectTargets_frame virtualModelID config (Plugin.state p2) (Plugin.runtime p2))
    as [Hsame _].
  destruct (Strategies.selectTargets virtualModelID config (Plugin.state p2) (Plugin.runtime p2))
    as [[targets' state1'] rt1'].
  cbn [fst snd] in Hsame.
  assert (Hvs : forall k, verdict later state1' k = verdict later (Plugin.state p2) k).
  { intros k. now apply verdict_same_cooldowns. }
  set (c' := nullish (Plugin.sessionFallbackCursor p2 !! other) 0) in Hnext.
  pose proof (scan_spec later (drop c' (Runtime.read targets' rt1')) c' state1') as Hscan.
  destruct (Plugin.scan later c' (drop c' (Runtime.read targets' rt1')) state1')
    as [found state2'].
  destruct Hscan as [Hv' Hfound].
  assert (Hstill : verdict later state2' (modelKey failed) = true) by now rewrite Hv', Hvs.
  destruct found as [[j r]|]; injection Hnext as <- <-; cbn.
  - split; [exact Hstill|]. right.
    destruct Hfound as (t' & _ & _ & -> & Hnot & _).
    exists t'. split; [reflexivity|]. split.
    + intros Heq. rewrite Heq, Hvs, Hcool2 in Hnot. discriminate.
    + unfold cooled. fold (verdict later (Plugin.state p2) (modelKey t')).
      rewrite <- Hvs, Hnot. discriminate.
  - split; [exact Hstill|]. left. split; reflexivity.
Qed.

(** Session "s1" is dispatched to target A of "virtual/w"; A fails, under
    a cooldown of one minute; half a minute later the first message of
    session "s2" goes to B, and A is still cooled down. *)
Lemma failed_target_is_not_dispatched_next_witness :
  let p := session_at (Some "1m") ∅ None in
  first_viable 1000 (Plugin.state p) [target_a; target_b] 0 0 target_a /\
  let '(first, p1) := Plugin.chat_message 1000 "s1" (Some alias_w) None p in
  let '(_, p2) := Plugin.event 2000 (failure_report "s1" status_503) p1 in
  let '(next, p3) := Plugin.chat_message 32000 "s2" (Some alias_w) None p2 in
  first = Some (model_ref target_a) /\
  next = Some (model_ref target_b) /\
  cooled 32000 (Plugin.state p3) target_a.
Proof.
  cbv zeta.
  assert (Hviable : first_viable 1000 (Plugin.state (session_at (Some "1m") ∅ None))
                      [target_a; target_b] 0 0 target_a).
  { split; [lia|]. split; [reflexivity|]. split; [vm_compute; discriminate|].
    intros j t' Hj. lia. }
  split; [exact Hviable|].
  pose proof (failed_target_is_not_dispatched_next 1000 2000 32000 "s1" "s2" status_503
                (session_at (Some "1m") ∅ None) "virtual/w" (two_targets (Some "1m"))
                [target_a; target_b] "1m" 60000 (Some alias_w) None alias_w
                ltac:(discriminate) eq_refl ltac:(left; split; reflexivity) eq_refl
                ltac:(discriminate) ltac:(discriminate) ltac:(discriminate) eq_refl
                eq_refl eq_refl ltac:(vm_compute; reflexivity)
                eq_refl ltac:(discriminate) eq_refl) as H.
  cbv zeta in H.
  assert (Hrun :
    fst (Plugin.chat_message 32000 "s2" (Some alias_w) None
           (snd (Plugin.event 2000 (failure_report "s1" status_503)
                   (snd (Plugin.chat_message 1000 "s1" (Some alias_w) None
                           (session_at (Some "1m") ∅ None))))))
    = Some (model_ref target_b)) by (vm_compute; reflexivity).
  destruct (Plugin.chat_message 1000 "s1" (Some alias_w) None (session_at (Some "1m") ∅ None))
    as [first p1].
  cbn [fst snd] in Hrun.
  destruct (Plugin.event 2000 (failure_report "s1" status_503) p1) as [r2 p2].
  cbn [fst snd] in Hrun.
  destruct (Plugin.chat_message 32000 "s2" (Some alias_w) None p2) as [next p3].
  cbn [fst snd] in Hrun.
  destruct (H 0 target_a Hviable) as (Hfirst & _ & Hcooled & _).
  split; [exact Hfirst|]. split; [exact Hrun|exact Hcooled].
Defined.
